(* ===== verification/_CoqProject ===== *)
-Q . S2P
Prelude.v
GoBase.v
Heap.v
Json.v
JsonText.v
Api.v
DeepCopy.v
DeepCopyProofs.v
Client.v
WatcherConfig.v
Debounce.v
Detectors.v
Exclusion.v
ProblemCases.v
Watchers.v
Resolver.v
RuleReconciler.v
Correlation.v
Patches.v
ProblemPath.v
WatcherProcess.v
WatcherProofs.v
Hub.v
Connection.v
Mood.v
Collector.v
GraphEngine.v
Handlers.v
EvidenceKinds.v
Tables.v
Analysis.v
RunHandlers.v
MemBackend.v
RequestLifecycle.v
Dispatch.v
Discovery.v
EvidenceCollection.v
DiagnosticRuns.v
Secrecy.v
Pipeline.v
Settings.v
SettingsProofs.v
Migrations.v
Resources.v
Users.v
UserProofs.v
Routes.v
Schema.v
Startup.v
Wiring.v
