(* ===== verification/Prelude.v ===== *)
(** * KubeChan: a verification library

    KubeChan watches a Kubernetes cluster for problems, groups them into
    incidents, collects evidence and shows the result.  Its Go code is three
    services that share nothing but custom resources (src/api/v1alpha1) and
    HTTP: cluster-watcher turns observations into ProblemCases and Incidents,
    diagnostics-worker turns an Incident into evidence and a graph, backend-api
    serves both to the user interface.  This library models their core logic and
    proves what makes it correct.

    ** The parts, file by file

    - [Prelude] (this file): errors ([goerr], [res]), effects over a world
      ([eff], with the error and bind laws), [sort.Slice], list lemmas, tactics
      and the hint database [kube].  [GoBase]: 64-bit wrap-around, durations and
      calendars, and the functions of strings, strconv and fmt in use.  [Json]:
      decoding into struct fields and encoding; [JsonText]: the text of JSON, its
      parser and printer, with the round trip between them.
    - [Api]: the custom resources and the fields of built-in kinds in use, as
      records over a common [Object] (api/v1alpha1/*_types.go).
    - [Heap], [DeepCopy], [DeepCopyProofs]: the same structs as they lie in memory,
      with pointers, slices and maps that can be shared, and every generated copy
      (api/v1alpha1/zz_generated.deepcopy.go); [view] reads the value of [Api] behind
      a struct.  The services are modelled over the values; [Patches] relates the two
      where the code depends on the difference.
    - [Client]: the controller-runtime client as a class [ObjectClient] over an
      abstract world, its documented behaviour as [ObjectClientLaws] and
      [ClientFrame], and an in-memory cluster [MemCluster] that satisfies them.
    - cluster-watcher: [WatcherConfig] (watcherconfig/config.go: polled
      thresholds), [Debounce] (debounce/debouncer.go: timers and their
      goroutines as a step relation), [Detectors] (detector/*.go), [Exclusion]
      (exclusion/matcher.go), [ProblemCases] (problemcase/*.go), [Watchers]
      (controllers/helpers.go and the pod, service, deployment, node and event
      reconcilers), [Resolver] (problemcase_reconciler.go), [RuleReconciler]
      (exclusionrule_reconciler.go), [Correlation] (correlation_reconciler.go);
      [ProblemPath] composes the report, the correlation and the resolution.
      [WatcherProcess] (main.go and every SetupWithManager) is the whole process as a
      step relation: notices, queues, reconciles, timers, polls and other writers;
      [WatcherProofs] its invariants.
    - backend-api, towards the cluster and the user interface: [Hub] (ws/hub.go,
      events.go), [Connection] (the goroutines of ws/client.go), [Mood]
      (k8s/moodsyncer.go, k8s/handlers.go, handler/kubechan.go), [Handlers]
      (handler/incidents.go, manual_incident.go, problemcases.go,
      exclusion_rules.go) and [Resources] (handler/resources.go).
    - backend-api, over its database: [Tables] (db/migrations/*.sql: the rows, and
      how a statement runs), [Analysis] (handler/internal.go, analysis.go,
      augment.go), [RunHandlers] (handler/diagnosticruns.go, startup/recovery.go,
      db/pruner.go), [Users] with [UserProofs] (handler/auth.go,
      startup/admin_bootstrap.go), [Settings] with [SettingsProofs]
      (handler/settings.go, llm_settings.go, llm_models.go, the accessors of
      db/db.go) and [Migrations] (the migration runner of db/db.go).
      [RequestLifecycle] and [Dispatch] hold what is proved of analysis requests,
      [Schema] what the constraints of the tables guarantee, [MemBackend] a
      concrete world for the witnesses.  [Startup] (main.go) is the order of a start,
      [Routes] (main.go, ws/client.go) the routing table with its middleware, and
      [Wiring] (k8s/informer.go, and main.go of diagnostics-worker) the rest of what
      the main functions put together.
    - diagnostics-worker: [Collector] (collector/types.go, catalog.go),
      [GraphEngine] (graphengine/engine.go) and
      controllers/diagnosticrun_reconciler.go in four files: [EvidenceKinds] (the
      kinds it reads and the class [EvidenceReader] it reads them through),
      [Discovery] (the resources around a root), [EvidenceCollection] (what is
      taken of each resource), [DiagnosticRuns] (the evidence of an incident and
      the reconcile of a run); [Secrecy] relates two clusters that differ in the
      values of their Secrets.
    - [Pipeline] joins the worker with the backend that receives its evidence.

    A definition has the name of the Go function it translates, a record field
    the name of the Go field behind a prefix.  Loop bodies and closures get
    definitions of their own.

    ** How they interact

    A watching reconciler ([Watchers.reconcileWatched]) evaluates detectors, whose
    thresholds [WatcherConfig] keeps, and arms or cancels calls in the debouncer.
    A call that fires runs [Watchers.run_job]: unless [Exclusion.IsExcluded], it
    reports through [ProblemCases.CreateOrUpdate].  [Correlation.Reconcile] gives
    an open case an incident; [Resolver.Reconcile] resolves a case whose detector
    no longer fires; [RuleReconciler.Reconcile] resolves the incidents a new rule
    suppresses.  The informers of backend-api pass each change to the handlers of
    [Mood], which broadcast it on the [Hub] and recompute the mood;
    [Handlers.ManualIncident_Create] stores an incident a user reports, with a
    pending run.  [DiagnosticRuns.Reconcile] takes a pending run: it chooses the
    cases of the incident, asks [Discovery] for the resources around its root,
    reads each through [EvidenceCollection], gets the catalogue from
    [Collector.BuildSourceCatalog] and the graph from [GraphEngine.Build], marks
    the run completed and posts the evidence to the backend.  There
    [Analysis.ReceiveEvidence] stores it, starts the requests of the run and hands
    over to [Analysis.dispatchAnalysis], which asks the llm-gateway and settles the
    requests and the run with [Analysis.patchAnalysisState].  The settings that
    [Settings.Settings_Update] stores reach [WatcherConfig.Refresh] through
    [Settings.GetDetectorConfig].  Every request of the user interface passes
    [Routes.serve], and with it [Users.RequireAuth] and [Users.RequireAdmin].

    ** What the theorems show

    - Problem cases: whatever is reported and resolved and whichever writes fail,
      a resource keeps at most one open case per detector; a report, a
      resolution and a suppressed report do exactly what they should.
    - The whole of cluster-watcher: in every state its process reaches there is at
      most one open case per resource and detector, and every case and waiting
      report is of a detector that is wired for its kind; and nothing happens until
      an informer brings a notice.  The cluster is written by others too, who may
      delete cases but not create or edit them; a reconcile is one step.
    - Shared memory: copies and their originals never show each other's writes, and
      the patches computed from them are those of the model.
    - Debouncing: each call runs at most once, after its window; without a
      goroutine being overtaken calls coalesce and cancelling works, and what
      happens when one is overtaken is stated too.
    - Detectors, exclusion, thresholds: when exactly each fires, suppresses or
      changes; thresholds stay usable under every polling history.
    - Incidents: the root walk terminates on acyclic ownership (and does not on
      cycles), which incident is reused, that a correlated case ends up in one
      unresolved incident once, when an incident resolves.  From end to end: a new
      problem joins an incident, and leaves it - resolving it if it was the last -
      when its symptoms clear.
    - Rules: only matching automatic incidents are resolved, and all of them.
    - Hub and mood: no panics, bounded buffers, delivery in order to the peer of
      each connection, whose goroutines end with it; once the informers are
      registered every client hears of every change; the mood is a
      function of the open incidents and the current poke streak.
    - Catalogue and graph: one source per field at its JSON pointer, unique
      identifiers, bounded sorted graphs that are truthful about truncation,
      exact selector scores.
    - Evidence: what a reconcile of a run does in every branch; which cases and
      resources the evidence covers, each once; what discovery finds; that the
      values of Secrets have no influence on the evidence.
    - Manual incidents: who may see and change one, what reporting one leaves.
    - Requests for analysis: their status only moves forward, whatever handlers
      run in whatever order; a dispatch settles the run and all its requests; a
      pending run, reconciled once, ends analysed ([Pipeline]); deleting runs is
      atomic.
    - Users: a token given at login authenticates its user until it expires; the
      last administrator stays, unless two deletions interleave; after a first start
      the password in the Secret opens the administrative routes.
    - Settings: which updates are accepted and what they store; a threshold that
      is stored is the one the watcher uses; secrets are neither shown nor lost by
      an update that leaves them out.
    - The database: migrations run once and in order, an upgrade ends where a
      fresh start does, and what an interrupted one leaves; the domains of the
      columns hold in every history, the references while they are enforced.
    - Routes and resources: which endpoint runs for whom; the kinds on offer do
      not depend on the order of discovery, nor the resources on the way they are
      asked for.
    - Behaviours that differ from what the code says of itself have theorems as
      well: two readings of time windows, rule selectors that are not looked at,
      ownership cycles, cases without a state, identifiers computed from
      addresses, a graph that depends on map order and exceeds its depth limit,
      runs that stay running, an Ingress that stops every collection, a discovery
      that depends on the order of a list, manual incidents without an owner,
      requests that are never settled, two deletions that remove every
      administrator, secrets erased by a failed read, a migration that blocks every
      start, thresholds that pass unnoticed, windows that wrap around.

    ** Parameters, bounds and fuel

    Code outside src/ is a parameter: the Kubernetes client (a class with laws,
    used only by the theorems that name them), the reads of the worker (a class),
    the SQL driver (a class with laws: which statements fail, in which order rows
    are found, which connection enforces foreign keys), tokens and password hashes
    (classes with laws), the reading and writing of floating-point numbers, chi's
    matching of paths, discovery, the llm-gateway, apimachinery's deep copies (a class with laws), the
    informer cache (a class with laws), the time-zone database, SHA-256 (as the
    text of a digest prefix), the outcome of an HTTP exchange, the encoding of the
    evidence, the text of an error, clock readings, and the order in which Go
    ranges over a map.  A nil dereference is the outcome [None].  Every law and
    hypothesis has a concrete instance on which the witnesses run.  Machine
    integers wrap where the code computes with them; times are instants in
    nanoseconds, with the whole seconds that the API server stores assumed of
    clock readings written to it.  Byte-wise string functions are modelled on
    ASCII case and blanks.  Fuel: the walk to the root resource needs one more
    than the length of the ownership chain ([Correlation.root_walk_terminates]);
    the graph traversal needs one more than its node limit, and
    [GraphEngine.build_is_bounded] proves it never runs out; the JSON parser needs
    the length of its text ([JsonText.parse_fuel]).  Everything else is structural
    recursion.

    ** Not modelled

    The construction of clients, managers, caches and servers (the rest of the
    main.go files, k8s/client.go, clientset.go), the registration of types with a
    scheme, opening the database and its pragmas, logging and metrics, the network,
    the columns that no code reads, and the services in other languages
    (llm-gateway, frontend-ui).  Reads of the cluster see every earlier write: the
    delay of the cache the real client reads through is left out, as is what
    concurrent reconciles could see of each other halfway. *)

From stdpp Require Import sorting.
From stdpp Require Import prelude gmap strings list.

(** ** Error values and effects

    A Go function that returns [(T, error)] is a [res T].  The constructors of
    [goerr] are the errors the program tells apart: the two status reasons of
    the Kubernetes API it tests for, every other error, and [fmt.Errorf] with a
    [%w] verb, which keeps the wrapped error visible to [errors.As]. *)
Inductive goerr :=
  | ErrNotFound
  | ErrAlreadyExists
  | ErrOther (msg : string)
  | ErrWrap (prefix : string) (e : goerr).

Inductive res (A : Type) :=
  | Ok (a : A)
  | Err (e : goerr).
Arguments Ok {_} _.
Arguments Err {_} _.

#[export] Instance goerr_eq_dec : EqDecision goerr.
Proof. solve_decision. Defined.

(** [apierrors.IsNotFound]: looks through [%w] wrappers. *)
Fixpoint IsNotFound (e : goerr) : bool :=
  match e with
  | ErrNotFound => true
  | ErrWrap _ e' => IsNotFound e'
  | _ => false
  end.

(** [apierrors.IsAlreadyExists]. *)
Fixpoint IsAlreadyExists (e : goerr) : bool :=
  match e with
  | ErrAlreadyExists => true
  | ErrWrap _ e' => IsAlreadyExists e'
  | _ => false
  end.

(** A function with side effects on a world [W] (the cluster, the database, the
    debouncer): the effects made before an error stay made. *)
Definition eff (W A : Type) : Type := W -> res A * W.

#[export] Instance eff_ret W : MRet (eff W) := fun A a w => (Ok a, w).
#[export] Instance eff_bind W : MBind (eff W) := fun A B f m w =>
  match m w with
  | (Ok a, w') => f a w'
  | (Err e, w') => (Err e, w')
  end.

Definition throw {W A} (e : goerr) : eff W A := fun w => (Err e, w).
(** A read: the world is left alone. *)
Definition reads {W A} (f : W -> res A) : eff W A := fun w => (f w, w).
(** [res, err := m]: run [m] and hand its outcome to the caller's branches. *)
Definition attempt {W A} (m : eff W A) : eff W (res A) := fun w => let '(r, w') := m w in (Ok r, w').
(** [fmt.Errorf("prefix: %w", err)] around the error of [m]. *)
Definition wrap {W A} (prefix : string) (m : eff W A) : eff W A := fun w =>
  match m w with
  | (Ok a, w') => (Ok a, w')
  | (Err e, w') => (Err (ErrWrap prefix e), w')
  end.
(** Run [f] on every element in order, stopping at the first error. *)
Fixpoint for_each {W A} (f : A -> eff W ()) (l : list A) : eff W () :=
  match l with
  | [] => mret tt
  | x :: l' => f x ≫= fun _ => for_each f l'
  end.

Section eff_laws.
Context {W A B C : Type}.
Implicit Types (m : eff W A) (w : W).

Lemma eff_ret_bind (a : A) (f : A -> eff W B) w : (mret a ≫= f) w = f a w.
Proof. done. Qed.

Lemma eff_bind_assoc m (f : A -> eff W B) (g : B -> eff W C) w :
  ((m ≫= f) ≫= g) w = (m ≫= fun a => f a ≫= g) w.
Proof. unfold mbind, eff_bind. destruct (m w) as [[] ?]; done. Qed.

Lemma eff_bind_ok m (f : A -> eff W B) w b w' :
  (m ≫= f) w = (Ok b, w') <-> exists a w1, m w = (Ok a, w1) /\ f a w1 = (Ok b, w').
Proof.
  unfold mbind, eff_bind. destruct (m w) as [[a|e] w1]; split.
  - intros E. by exists a, w1.
  - by intros (a' & w1' & [= -> ->] & E).
  - done.
  - by intros (? & ? & ? & _).
Qed.

Lemma wrap_ok p m w a w' : wrap p m w = (Ok a, w') <-> m w = (Ok a, w').
Proof. unfold wrap. by destruct (m w) as [[] ?]. Qed.

Lemma reads_ok (f : W -> res A) w a w' : reads f w = (Ok a, w') <-> f w = Ok a /\ w' = w.
Proof. unfold reads. split; [by intros [= -> ->] | by intros [-> ->]]. Qed.
End eff_laws.

(** Two effects are equal when they give the same outcome in every world. *)
Definition eff_equiv {W A} (m1 m2 : eff W A) : Prop := forall w, m1 w = m2 w.
#[export] Instance eff_equiv_equivalence W A : Equivalence (@eff_equiv W A).
Proof.
  split; intros x; unfold eff_equiv.
  - done.
  - intros y E w. by rewrite (E w).
  - intros y z E1 E2 w. by rewrite (E1 w).
Qed.
#[export] Instance eff_bind_proper W A B :
  Proper (pointwise_relation A eff_equiv ==> eff_equiv ==> eff_equiv) (@mbind (eff W) _ A B).
Proof.
  intros f g Efg m1 m2 Em w. unfold mbind, eff_bind. rewrite (Em w).
  destruct (m2 w) as [[] ?]; [apply Efg | done].
Qed.

(** ** Sorting: [sort.Slice]

    Go sorts short slices by insertion, moving each element left past the
    elements it is less than; [rev_insert] works on the reversed sorted prefix. *)
Fixpoint rev_insert {A} (less : A -> A -> bool) (x : A) (r : list A) : list A :=
  match r with
  | [] => [x]
  | y :: r' => if less x y then y :: rev_insert less x r' else x :: y :: r'
  end.
Definition sort_slice {A} (less : A -> A -> bool) (l : list A) : list A :=
  reverse (foldl (fun r x => rev_insert less x r) [] l).

Section sort_slice.
Context {A : Type} (less : A -> A -> bool).

Lemma rev_insert_perm x r : rev_insert less x r ≡ₚ x :: r.
Proof.
  induction r as [|y r IH]; simpl; [done|].
  destruct (less x y); [|done]. rewrite IH. apply Permutation_swap.
Qed.

Lemma foldl_rev_insert_perm l r :
  foldl (fun r x => rev_insert less x r) r l ≡ₚ l ++ r.
Proof.
  revert r; induction l as [|x l IH]; intros r; simpl; [done|].
  rewrite IH, rev_insert_perm. by rewrite Permutation_middle.
Qed.

Lemma sort_slice_perm l : sort_slice less l ≡ₚ l.
Proof.
  unfold sort_slice.
  by rewrite reverse_Permutation, foldl_rev_insert_perm, (right_id_L [] (++)).
Qed.

Lemma elem_of_sort_slice x l : x ∈ sort_slice less l <-> x ∈ l.
Proof. by rewrite sort_slice_perm. Qed.

Lemma length_sort_slice l : length (sort_slice less l) = length l.
Proof. by rewrite sort_slice_perm. Qed.

Context (R : relation A) `{!Transitive R}
  (less_true : forall x y, less x y = true -> R x y)
  (less_false : forall x y, less x y = false -> R y x).

Lemma rev_insert_sorted x r :
  StronglySorted (flip R) r -> StronglySorted (flip R) (rev_insert less x r).
Proof using less_true less_false Transitive0.
  induction 1 as [|y r Hr IH Hy]; simpl; [by repeat constructor|].
  destruct (less x y) eqn:E.
  - constructor; [done|]. rewrite rev_insert_perm. constructor; [by apply less_true|done].
  - apply less_false in E. constructor; [by constructor|]. constructor; [done|].
    eapply Forall_impl; [exact Hy|]. simpl. intros z Hz. by etrans.
Qed.

Lemma StronglySorted_reverse (P : relation A) l :
  StronglySorted (flip P) l -> StronglySorted P (reverse l).
Proof.
  induction 1 as [|x l Hl IH Hx]; [rewrite reverse_nil; constructor|].
  rewrite reverse_cons. apply StronglySorted_app_2; [|done|repeat constructor].
  intros y z Hy ->%list_elem_of_singleton. rewrite elem_of_reverse in Hy.
  rewrite Forall_forall in Hx. exact (Hx y Hy).
Qed.

Lemma sort_slice_sorted l : StronglySorted R (sort_slice less l).
Proof using less_true less_false Transitive0.
  apply StronglySorted_reverse.
  assert (H : forall r, StronglySorted (flip R) r ->
    StronglySorted (flip R) (foldl (fun r x => rev_insert less x r) r l)).
  { induction l as [|x l IH]; intros r Hr; simpl; [done|].
    apply IH. by apply rev_insert_sorted. }
  apply H. constructor.
Qed.
End sort_slice.

Lemma sort_slice_ext {A} (less1 less2 : A -> A -> bool) l :
  (forall x y, less1 x y = less2 x y) -> sort_slice less1 l = sort_slice less2 l.
Proof.
  intros H. unfold sort_slice. f_equal. generalize (@nil A). induction l as [|x l IH]; intros r; [done|]. cbn [foldl]. rewrite IH. f_equal.
  clear IH. induction r as [|y r IHr]; [done|]. cbn [rev_insert]. by rewrite H, IHr.
Qed.

(** The first element with a property. *)
Lemma split_first {A} (P : A -> Prop) `{forall x, Decision (P x)} (l : list A) x :
  x ∈ l -> P x -> exists l1 y l2, l = l1 ++ y :: l2 /\ P y /\ Forall (fun z => ~ P z) l1.
Proof.
  intros Hx HP. destruct (list_find P l) as [[i y]|] eqn:E.
  - apply list_find_Some in E as (Hy & HPy & Hbefore). exists (take i l), y, (drop (S i) l).
    split_and!; [by rewrite take_drop_middle|done|]. apply Forall_forall. intros z Hz.
    apply list_elem_of_lookup in Hz as [j Hj]. apply lookup_take_Some in Hj as [Hj Hji]. by eapply Hbefore.
  - apply list_find_None in E. rewrite Forall_forall in E. by destruct (E x Hx).
Qed.

Lemma StronglySorted_sublist {A} (R : relation A) l1 l2 : l1 `sublist_of` l2 -> StronglySorted R l2 -> StronglySorted R l1.
Proof.
  induction 1 as [|x l1 l2 Hs IH|x l1 l2 Hs IH]; intros H; [constructor|inversion H; subst..]; [|by apply IH].
  constructor; [by apply IH|]. eapply Forall_forall. intros y Hy.
  match goal with H : Forall (R x) l2 |- _ => rewrite Forall_forall in H; apply H end. by eapply sublist_subseteq.
Qed.

(** ** Loops over a list, as left folds *)
Section loops.
Context {A B : Type} (f : B -> A -> B).

(** An invariant that every round keeps. *)
Lemma foldl_keeps (I : B -> Prop) l b :
  (forall b x, x ∈ l -> I b -> I (f b x)) -> I b -> I (foldl f b l).
Proof.
  revert b. induction l as [|x l IH]; simpl; intros b Hf Hb; [done|].
  apply IH; [|apply Hf; [by left|done]]. intros b' y Hy. apply Hf. by right.
Qed.
(** Loops with the same rounds end the same. *)
Lemma foldl_same (g : B -> A -> B) l b : (forall b x, f b x = g b x) -> foldl f b l = foldl g b l.
Proof. intros H. revert b. induction l as [|x l IH]; intros b; simpl; [done|]. by rewrite H, IH. Qed.
(** What one round establishes and the others keep. *)
Lemma foldl_establishes (P Q : B -> Prop) l b x :
  x ∈ l -> (forall b y, y ∈ l -> P b -> P (f b y)) -> (forall b, P b -> Q (f b x)) -> (forall b y, y ∈ l -> Q b -> Q (f b y)) ->
  P b -> Q (foldl f b l).
Proof.
  intros (l1 & l2 & ->)%list_elem_of_split HP Hx HQ Hb. rewrite foldl_app. simpl.
  apply foldl_keeps; [intros b' y Hy; apply HQ; set_solver|]. apply Hx.
  apply foldl_keeps; [intros b' y Hy; apply HP; set_solver|done].
Qed.
End loops.

(** ** Automation *)

(** Invert equations between outcomes and split the matches they sit on. *)
Ltac inv_res :=
  repeat match goal with
  | H : (_, _) = (_, _) |- _ => injection H; clear H; intros; subst
  | H : Ok _ = Ok _ |- _ => injection H; clear H; intros; subst
  | H : Err _ = Err _ |- _ => injection H; clear H; intros; subst
  | H : Ok _ = Err _ |- _ => discriminate H
  | H : Err _ = Ok _ |- _ => discriminate H
  end.

(** One step through a hypothesis that runs an effect: split the first match
    that blocks evaluation. *)
Ltac step_in H :=
  match type of H with
  | context [match ?x with _ => _ end] =>
      lazymatch x with
      | context [match _ with _ => _ end] => fail
      | _ => destruct x eqn:?
      end
  end; simplify_eq/=.
Ltac steps_in H := repeat (step_in H; try done).

(** Close an equation between closed terms by evaluating both in the kernel. *)
Ltac vm_refl := lazymatch goal with |- _ = ?b => vm_cast_no_check (eq_refl b) end.
(** A decidable proposition, by evaluating its decision. *)
Ltac by_decide := lazymatch goal with |- ?P => refine (bool_decide_unpack P _); vm_compute; exact I end.

Create HintDb kube discriminated.
#[export] Hint Resolve sort_slice_perm sort_slice_sorted : kube.
