(* ===== verification/GoBase.v ===== *)
(** * Go integers, times and strings

    The parts of Go's built-in types and standard library the program uses:
    64- and 32-bit wrap-around, [time.Duration] and [time.Time.Sub], and the
    [strings], [strconv] and [fmt] functions.  A string is its sequence of
    bytes; functions of [strings] and [unicode] that classify runes are modelled
    on ASCII, which is what Kubernetes names, kinds and labels are made of. *)

From Stdlib Require Import Ascii.
From stdpp Require Import sorting pretty.
From stdpp Require Import prelude gmap strings list.
From S2P Require Import Prelude.

(** ** Machine integers *)
Definition wrap64 (z : Z) : Z := ((z + 2 ^ 63) `mod` 2 ^ 64 - 2 ^ 63)%Z.
Definition int64_range (z : Z) : Prop := (- 2 ^ 63 ≤ z < 2 ^ 63)%Z.

Lemma wrap64_range z : int64_range (wrap64 z).
Proof.
  unfold int64_range, wrap64.
  pose proof (Z.mod_pos_bound (z + 2 ^ 63) (2 ^ 64) ltac:(lia)). lia.
Qed.
Lemma wrap64_id z : int64_range z -> wrap64 z = z.
Proof. unfold int64_range, wrap64. intros. rewrite Z.mod_small; lia. Qed.

(** ** Time

    A [time.Time] is its distance in nanoseconds from the Unix epoch, a
    [time.Duration] a 64-bit count of nanoseconds. *)
Abbreviation Time := Z (only parsing).
Abbreviation Duration := Z (only parsing).
Definition Second : Duration := 1000000000%Z.
Definition Minute : Duration := (60 * Second)%Z.
Definition Hour : Duration := (60 * Minute)%Z.

(** [d1 * d2] on durations wraps around. *)
Definition dur_mul (a b : Z) : Duration := wrap64 (a * b)%Z.

(** [t.Sub(u)] saturates instead of wrapping around. *)
Definition time_sub (t u : Time) : Duration :=
  Z.max (- 2 ^ 63) (Z.min (2 ^ 63 - 1) (t - u))%Z.

Lemma time_sub_exact t u : int64_range (t - u)%Z -> time_sub t u = (t - u)%Z.
Proof. unfold int64_range, time_sub. lia. Qed.
Lemma time_sub_mono t t' u : (t ≤ t')%Z -> (time_sub t u ≤ time_sub t' u)%Z.
Proof. unfold time_sub. lia. Qed.

(** [d.Round(m)] for a positive [m]: to the nearest multiple, halves away from
    zero, saturating. *)
Definition dur_round (d m : Duration) : Duration :=
  if decide (m ≤ 0)%Z then d else
  let r := Z.rem d m in
  if decide (d < 0)%Z then
    if decide (- r + - r < m)%Z then (d - r)%Z
    else Z.max (- 2 ^ 63) (d - r - m)%Z
  else
    if decide (r + r < m)%Z then (d - r)%Z
    else Z.min (2 ^ 63 - 1) (d - r + m)%Z.

Lemma dur_round_near d :
  (0 ≤ d)%Z -> (d + Second < 2 ^ 63)%Z ->
  (Second | dur_round d Second)%Z /\ (- Second ≤ 2 * (dur_round d Second - d) ≤ Second)%Z.
Proof.
  intros Hd Hmax. unfold dur_round, Second in *.
  rewrite decide_False by lia. rewrite decide_False by lia.
  pose proof (Z.quot_rem' d 1000000000). pose proof (Z.rem_bound_pos d 1000000000 Hd ltac:(lia)).
  case_decide; split; try lia.
  - exists (Z.quot d 1000000000). lia.
  - exists (Z.quot d 1000000000 + 1)%Z. lia.
Qed.

(** ** Bytes and strings *)
Definition byte_val (c : ascii) : Z := Z.of_N (N_of_ascii c).
Definition byte_of (z : Z) : ascii := ascii_of_N (Z.to_N z).

Definition slen (s : string) : nat := String.length s.

(** [s[:n]] for an [n] within the string. *)
Fixpoint stake (n : nat) (s : string) : string :=
  match n, s with
  | S n', String c s' => String c (stake n' s')
  | _, _ => EmptyString
  end.
(** [s[n:]]. *)
Fixpoint sdrop (n : nat) (s : string) : string :=
  match n, s with
  | S n', String _ s' => sdrop n' s'
  | _, _ => s
  end.

Lemma slen_stake n s : slen (stake n s) = n `min` slen s.
Proof. revert s; induction n as [|n IH]; intros [|c s]; simpl; [done..|]. unfold slen in *. simpl. by rewrite IH. Qed.
Lemma stake_sdrop n s : stake n s +:+ sdrop n s = s.
Proof. revert s; induction n as [|n IH]; intros [|c s]; simpl; [done..|]. by rewrite <- (IH s) at 3. Qed.
Lemma slen_app s1 s2 : slen (s1 +:+ s2) = slen s1 + slen s2.
Proof. induction s1 as [|c s1 IH]; [done|]. unfold slen in *. simpl. by rewrite IH. Qed.

Lemma string_app_assoc (a b c : string) : a +:+ b +:+ c = (a +:+ b) +:+ c.
Proof. induction a as [|x a IH]; [done|]. change (String x (a +:+ b +:+ c) = String x ((a +:+ b) +:+ c)). by rewrite IH. Qed.
Lemma string_app_nil_r (s : string) : s +:+ EmptyString = s.
Proof. induction s as [|c s IH]; [done|]. change (String c (s +:+ EmptyString) = String c s). by rewrite IH. Qed.

Definition lower_byte (c : ascii) : ascii :=
  if decide (65 ≤ byte_val c ≤ 90)%Z then byte_of (byte_val c + 32) else c.
(** [strings.ToLower]. *)
Fixpoint to_lower (s : string) : string :=
  match s with
  | EmptyString => EmptyString
  | String c s' => String (lower_byte c) (to_lower s')
  end.

Lemma slen_to_lower s : slen (to_lower s) = slen s.
Proof. induction s as [|c s IH]; [done|]. unfold slen in *. simpl. by rewrite IH. Qed.
Lemma byte_val_range c : (0 ≤ byte_val c < 256)%Z.
Proof. unfold byte_val. destruct c as [[] [] [] [] [] [] [] []]; vm_compute; split; done. Qed.
Lemma lower_byte_idem c : lower_byte (lower_byte c) = lower_byte c.
Proof. destruct c as [[] [] [] [] [] [] [] []]; vm_compute; done. Qed.
Lemma to_lower_idem s : to_lower (to_lower s) = to_lower s.
Proof. induction s as [|c s IH]; [done|]. simpl. by rewrite lower_byte_idem, IH. Qed.

(** [strings.HasPrefix(s, p)]. *)
Definition has_prefix (s p : string) : bool := String.prefix p s.
(** [strings.Contains(s, sub)]. *)
Fixpoint contains (s sub : string) : bool :=
  String.prefix sub s || match s with EmptyString => false | String _ s' => contains s' sub end.

(** [strings.TrimSpace]. *)
Fixpoint trim_left (s : string) : string :=
  match s with
  | String c s' => if Ascii.is_space c then trim_left s' else s
  | EmptyString => EmptyString
  end.
Definition trim_space (s : string) : string := String.rev (trim_left (String.rev (trim_left s))).
(** [strings.TrimRight(s, "\n")]. *)
Fixpoint trim_newlines_left (s : string) : string :=
  match s with
  | String c s' => if decide (c = "010"%char) then trim_newlines_left s' else s
  | EmptyString => EmptyString
  end.
Definition trim_right_newlines (s : string) : string := String.rev (trim_newlines_left (String.rev s)).

(** [strings.Split(s, sep)] for a one-byte separator. *)
Fixpoint split_on (sep : ascii) (s : string) : list string :=
  match s with
  | EmptyString => [EmptyString]
  | String c s' =>
      if decide (c = sep) then EmptyString :: split_on sep s'
      else match split_on sep s' with
           | [] => [String c EmptyString]
           | x :: xs => String c x :: xs
           end
  end.
(** The parts of [s] before and after the first [sep]: [strings.SplitN(s, sep, 2)]. *)
Fixpoint cut_on (sep : ascii) (s : string) : option (string * string) :=
  match s with
  | EmptyString => None
  | String c s' =>
      if decide (c = sep) then Some (EmptyString, s')
      else match cut_on sep s' with
           | Some (a, b) => Some (String c a, b)
           | None => None
           end
  end.
(** [strings.Join(l, sep)]. *)
Fixpoint join (sep : string) (l : list string) : string :=
  match l with
  | [] => EmptyString
  | [x] => x
  | x :: l' => x +:+ sep +:+ join sep l'
  end.
(** [strings.ReplaceAll(s, c, by)] for a one-byte [c]. *)
Fixpoint replace_byte (c : ascii) (by_ : string) (s : string) : string :=
  match s with
  | EmptyString => EmptyString
  | String d s' => (if decide (d = c) then by_ else String d EmptyString) +:+ replace_byte c by_ s'
  end.
(** [strings.EqualFold]. *)
Definition equal_fold (a b : string) : bool := bool_decide (to_lower a = to_lower b).

Lemma split_on_nonempty sep s : split_on sep s <> [].
Proof. destruct s as [|c s]; simpl; [done|]. case_decide; [done|]. by destruct (split_on sep s). Qed.
Lemma join_split sep s : join (String sep EmptyString) (split_on sep s) = s.
Proof.
  induction s as [|c s IH]; simpl; [done|].
  destruct (split_on sep s) as [|x xs] eqn:E; [by destruct (split_on_nonempty sep s)|].
  case_decide as Hc.
  - subst c. change (String sep (join (String sep "") (x :: xs)) = String sep s). by rewrite IH.
  - rewrite <- IH. by destruct xs.
Qed.

(** [c] does not occur in [s]. *)
Fixpoint no_byte (c : ascii) (s : string) : Prop :=
  match s with EmptyString => True | String d s' => d <> c /\ no_byte c s' end.
Lemma cut_on_app c s1 s2 : no_byte c s1 -> cut_on c (s1 +:+ String c s2) = Some (s1, s2).
Proof.
  induction s1 as [|d s1 IH]; simpl; [by rewrite decide_True|].
  intros [Hd Hs]. rewrite decide_False by done. by rewrite (IH Hs).
Qed.
Lemma no_byte_app c s1 s2 : no_byte c (s1 +:+ s2) <-> no_byte c s1 /\ no_byte c s2.
Proof. induction s1 as [|d s1 IH]; simpl; [tauto|]. rewrite IH. tauto. Qed.
Lemma no_byte_replace c d by_ s :
  no_byte c by_ -> (c <> d -> no_byte c s) -> no_byte c (replace_byte d by_ s).
Proof.
  intros Hb. induction s as [|e s IH]; intros Hs; simpl; [done|]. apply no_byte_app.
  split; [|apply IH; intros H; by apply Hs].
  case_decide as He; [done|]. simpl. split; [|done]. destruct (decide (c = d)) as [->|Hne]; [done|]. by apply Hs.
Qed.

(** ** Numbers and text *)

(** [strconv.Itoa] and the [%d] verb. *)
Definition itoa (z : Z) : string := pretty z.

#[export] Instance itoa_inj : Inj (=) (=) itoa.
Proof. unfold itoa. apply _. Qed.

(** A decimal number holds no byte below [0] or above [9], the minus sign apart. *)
Lemma itoa_no_byte c n : (byte_val c < 48 \/ 57 < byte_val c)%Z -> no_byte c (itoa (Z.of_nat n)).
Proof.
  intros Hc.
  assert (Hd : forall x, pretty_N_char x <> c).
  { intros x <-. assert (48 <= byte_val (pretty_N_char x) <= 57)%Z; [|lia].
    unfold pretty_N_char. repeat case_match; vm_compute; split; discriminate. }
  assert (Hgo : forall x s, no_byte c s -> no_byte c (pretty_N_go x s)).
  { intros x. induction (N.lt_wf_0 x) as [x _ IH]. intros s Hs.
    destruct (decide (x = 0)%N) as [->|Hx]; [by rewrite pretty_N_go_0|].
    rewrite pretty_N_go_step by lia. apply IH; [apply N.div_lt; lia|]. simpl. split; [apply Hd|done]. }
  unfold itoa, pretty, pretty_Z. destruct (Z.of_nat n) as [|p|p] eqn:E.
  - simpl. split; [|done]. exact (Hd 0%N).
  - unfold pretty, pretty_N. apply Hgo. done.
  - pose proof (Nat2Z.is_nonneg n). lia.
Qed.

Definition digit_val (c : ascii) : option Z :=
  if decide (48 ≤ byte_val c ≤ 57)%Z then Some (byte_val c - 48)%Z else None.
(** The value of a string of decimal digits, continuing from [acc]. *)
Fixpoint digits_val (acc : Z) (s : string) : option Z :=
  match s with
  | EmptyString => Some acc
  | String c s' => d ← digit_val c; digits_val (acc * 10 + d)%Z s'
  end.
(** [strconv.ParseInt(s, 10, 64)]: an optional sign, at least one digit, nothing
    else, and a value in the [int64] range. *)
Definition parse_int (s : string) : option Z :=
  let '(neg, ds) :=
    match s with
    | String c s' => if decide (c = "+"%char) then (false, s')
                     else if decide (c = "-"%char) then (true, s') else (false, s)
    | EmptyString => (false, s)
    end in
  match ds with
  | EmptyString => None
  | _ => n ← digits_val 0 ds;
         let v := if neg then (- n)%Z else n in
         if decide (- 2 ^ 63 ≤ v < 2 ^ 63)%Z then Some v else None
  end.

(** The value [strconv.Atoi] returns next to its error, which callers that drop
    the error use: 0 for a malformed number, the nearest bound out of range. *)
Definition atoi_value (s : string) : Z :=
  let '(neg, ds) :=
    match s with
    | String c s' => if decide (c = "+"%char) then (false, s')
                     else if decide (c = "-"%char) then (true, s') else (false, s)
    | EmptyString => (false, s)
    end in
  match ds with
  | EmptyString => 0%Z
  | _ => match digits_val 0 ds with
         | Some n => Z.max (- 2 ^ 63) (Z.min (2 ^ 63 - 1) (if neg then (- n)%Z else n))
         | None => 0%Z
         end
  end.

(** The longest prefix of decimal digits of [s]. *)
Fixpoint digit_prefix (s : string) : string :=
  match s with
  | String c s' => match digit_val c with Some _ => String c (digit_prefix s') | None => EmptyString end
  | EmptyString => EmptyString
  end.
(** [fmt.Sscanf(s, "%d", &n)]: skip blanks, accept a sign, read digits, ignore what follows. *)
Fixpoint scan_d (s : string) : option Z :=
  match s with
  | EmptyString => None
  | String c s' =>
      if decide (c = "010"%char) then None
      else if Ascii.is_space c then scan_d s'
      else if decide (c = "+"%char \/ c = "-"%char) then parse_int (String c (digit_prefix s'))
      else parse_int (digit_prefix s)
  end.

Lemma parse_int_range s n : parse_int s = Some n -> int64_range n.
Proof.
  unfold parse_int, int64_range. intros E.
  destruct (match s with EmptyString => _ | _ => _ end) as [neg ds].
  destruct ds as [|c ds]; [done|].
  destruct (digits_val 0 (String c ds)) as [v|]; simplify_eq/=. by case_decide; simplify_eq.
Qed.
Lemma scan_d_range s n : scan_d s = Some n -> int64_range n.
Proof.
  induction s as [|c s IH]; simpl; [done|].
  repeat case_decide; try done; destruct (Ascii.is_space c); eauto using parse_int_range.
Qed.

(** The double-quote and backslash bytes. *)
Definition dquote : string := String "034"%char EmptyString.
Definition backslash : string := String "092"%char EmptyString.
Definition hex_digit (z : Z) : ascii := byte_of (if decide (z < 10)%Z then 48 + z else 87 + z)%Z.
Definition quote_byte (c : ascii) : string :=
  if decide (c = "034"%char) then backslash +:+ dquote
  else if decide (c = "092"%char) then backslash +:+ backslash
  else if decide (c = "007"%char) then backslash +:+ "a"
  else if decide (c = "008"%char) then backslash +:+ "b"
  else if decide (c = "012"%char) then backslash +:+ "f"
  else if decide (c = "010"%char) then backslash +:+ "n"
  else if decide (c = "013"%char) then backslash +:+ "r"
  else if decide (c = "009"%char) then backslash +:+ "t"
  else if decide (c = "011"%char) then backslash +:+ "v"
  else if decide (byte_val c < 32 \/ byte_val c = 127)%Z then
    backslash +:+ "x" +:+ String (hex_digit (byte_val c / 16)%Z) (String (hex_digit (byte_val c mod 16)%Z) EmptyString)
  else String c EmptyString.
Fixpoint quote_bytes (s : string) : string :=
  match s with
  | EmptyString => EmptyString
  | String c s' => quote_byte c +:+ quote_bytes s'
  end.
(** The [%q] verb on a string whose multi-byte runes are printable. *)
Definition go_quote (s : string) : string := dquote +:+ quote_bytes s +:+ dquote.

(** [Duration.String]: hours, minutes and seconds from one second up, the
    largest fitting unit below it, with the fraction's trailing zeros dropped. *)
Fixpoint frac_digits (prec : nat) (v : Z) (printing : bool) : string :=
  match prec with
  | O => EmptyString
  | S p =>
      let d := (v mod 10)%Z in
      let pr := printing || negb (bool_decide (d = 0%Z)) in
      frac_digits p (v / 10)%Z pr +:+ (if pr then String (byte_of (48 + d)%Z) EmptyString else EmptyString)
  end.
Definition fmt_frac (v : Z) (prec : nat) : string :=
  let f := frac_digits prec v false in
  if decide (f = EmptyString) then EmptyString else "." +:+ f.
Definition duration_string (d : Duration) : string :=
  if decide (d = 0)%Z then "0s" else
  let u := Z.abs d in
  let sign := if decide (d < 0)%Z then "-" else EmptyString in
  sign +:+
  if decide (u < 1000)%Z then itoa u +:+ "ns"
  else if decide (u < 1000000)%Z then
    itoa (u / 1000)%Z +:+ fmt_frac (u mod 1000)%Z 3 +:+ String "194"%char (String "181"%char "s")
  else if decide (u < 1000000000)%Z then itoa (u / 1000000)%Z +:+ fmt_frac (u mod 1000000)%Z 6 +:+ "ms"
  else
    let s := (u / 1000000000)%Z in
    let sec := itoa (s mod 60)%Z +:+ fmt_frac (u mod 1000000000)%Z 9 +:+ "s" in
    let m := (s / 60)%Z in
    if decide (m = 0)%Z then sec
    else let mn := itoa (m mod 60)%Z +:+ "m" +:+ sec in
         let h := (m / 60)%Z in
         if decide (h = 0)%Z then mn else itoa h +:+ "h" +:+ mn.

Example duration_string_ex1 : duration_string (300 * Second)%Z = "5m0s".
Proof. by vm_compute. Qed.
Example duration_string_ex2 : duration_string 4530918273645%Z = "1h15m30.918273645s".
Proof. by vm_compute. Qed.
Example duration_string_ex3 : duration_string (-1500000)%Z = "-1.5ms".
Proof. by vm_compute. Qed.

(** [strconv.FormatInt(z, 36)]. *)
Fixpoint base36_go (fuel : nat) (z : Z) (acc : string) : string :=
  match fuel with
  | O => acc
  | S f =>
      let acc' := String (hex_digit (z mod 36)%Z) acc in
      if decide (z < 36)%Z then acc' else base36_go f (z / 36)%Z acc'
  end.
Definition format_int36 (z : Z) : string :=
  if decide (z < 0)%Z then "-" +:+ base36_go 64 (- z)%Z EmptyString else base36_go 64 z EmptyString.

Example format_int36_ex : format_int36 20089%Z = "fi1".
Proof. by vm_compute. Qed.

(** ** Maps of strings: [m[k]] with the zero value for a missing key *)
Definition mget (m : gmap string string) (k : string) : string := default EmptyString (m !! k).

(** [containsString] and membership of a string in a slice. *)
Definition str_in (s : string) (l : list string) : bool := bool_decide (s ∈ l).

(** [a < b] on strings: byte-wise lexicographic. *)
Definition str_lt (a b : string) : bool := String.ltb a b.

Lemma str_lt_true a b : str_lt a b = true -> String.le a b.
Proof.
  unfold str_lt, String.ltb, String.le, String.leb. by destruct (String.compare a b).
Qed.
Lemma str_lt_false a b : str_lt a b = false -> String.le b a.
Proof.
  unfold str_lt, String.ltb, String.le, String.leb. rewrite (String.compare_antisym b a).
  by destruct (String.compare a b).
Qed.
#[export] Hint Resolve str_lt_true str_lt_false : kube.

(** Sorting by a string key gives one list, whatever the order of the input,
    when no two elements share a key. *)
Section sort_by_key.
Context {A : Type} (key : A -> string).
Definition key_less (x y : A) : bool := str_lt (key x) (key y).
Definition key_le (x y : A) : Prop := String.le (key x) (key y).

#[export] Instance key_le_trans : Transitive key_le.
Proof. intros x y z. unfold key_le. apply transitivity. Qed.

Lemma sort_key_sorted l : StronglySorted key_le (sort_slice key_less l).
Proof. apply sort_slice_sorted; [apply _|..]; intros x y; unfold key_less, key_le; auto with kube. Qed.

Lemma sort_key_unique l1 l2 :
  l1 ≡ₚ l2 -> NoDup (key <$> l1) -> sort_slice key_less l1 = sort_slice key_less l2.
Proof.
  intros Hp Hnd. apply (StronglySorted_unique_strong key_le).
  - intros x1 x2 H1 H2 Hle1 Hle2.
    rewrite elem_of_sort_slice in H1, H2. rewrite <- Hp in H2.
    assert (key x1 = key x2) as Hk by by apply (anti_symm String.le).
    apply list_elem_of_lookup in H1 as [i Hi], H2 as [j Hj].
    assert (i = j) as ->; [|congruence].
    eapply NoDup_lookup; [done| |]; rewrite list_lookup_fmap; [by rewrite Hi|].
    by rewrite Hj, Hk.
  - apply sort_key_sorted.
  - apply sort_key_sorted.
  - by rewrite !sort_slice_perm.
Qed.
End sort_by_key.

(** The same for two keys, the second one deciding between equal first ones. *)
Section sort_by_keys.
Context {A : Type} (key : A -> string * string).
Definition keys_less (x y : A) : bool :=
  if decide ((key x).1 = (key y).1) then str_lt (key x).2 (key y).2 else str_lt (key x).1 (key y).1.
Definition keys_le (x y : A) : Prop :=
  if decide ((key x).1 = (key y).1) then String.le (key x).2 (key y).2 else String.le (key x).1 (key y).1.

#[export] Instance keys_le_trans : Transitive keys_le.
Proof.
  intros x y z. unfold keys_le. destruct (key x) as [a1 a2], (key y) as [b1 b2], (key z) as [c1 c2]. simpl.
  destruct (decide (a1 = b1)) as [->|E1], (decide (b1 = c1)) as [->|E2]; intros Hab Hbc.
  - by etrans.
  - done.
  - by rewrite decide_False.
  - rewrite decide_False; [by etrans|]. intros ->. destruct E2. by apply (anti_symm String.le).
Qed.
Lemma keys_le_antisym x y : keys_le x y -> keys_le y x -> key x = key y.
Proof.
  unfold keys_le. repeat case_decide; try congruence; intros H1 H2.
  - apply injective_projections; [done|]. by apply (anti_symm String.le).
  - match goal with H : _ <> _ |- _ => destruct H end. by apply (anti_symm String.le).
Qed.
Lemma sort_keys_sorted l : StronglySorted keys_le (sort_slice keys_less l).
Proof.
  apply sort_slice_sorted; [apply _|..]; intros x y; unfold keys_less, keys_le; repeat case_decide;
    try congruence; auto with kube.
Qed.
Lemma sort_keys_unique l1 l2 :
  l1 ≡ₚ l2 -> NoDup (key <$> l1) -> sort_slice keys_less l1 = sort_slice keys_less l2.
Proof.
  intros Hp Hnd. apply (StronglySorted_unique_strong keys_le).
  - intros x1 x2 H1 H2 Hle1 Hle2. rewrite elem_of_sort_slice in H1, H2. rewrite <- Hp in H2.
    pose proof (keys_le_antisym _ _ Hle1 Hle2) as Hk.
    apply list_elem_of_lookup in H1 as [i Hi], H2 as [j Hj].
    assert (i = j) as ->; [|congruence].
    eapply NoDup_lookup; [done| |]; rewrite list_lookup_fmap; [by rewrite Hi|]. by rewrite Hj, Hk.
  - apply sort_keys_sorted.
  - apply sort_keys_sorted.
  - by rewrite !sort_slice_perm.
Qed.
End sort_by_keys.

(** ** Calendar time in a zone

    A location is the offset from UTC, in seconds, it has at an instant: what
    the time-zone database says.  Everything else is computed. *)
Definition Location := Time -> Z.
Definition UTC : Location := fun _ => 0%Z.
(** Seconds of the local clock since the epoch, of [t.In(loc)]. *)
Definition local_secs (loc : Location) (t : Time) : Z := (t / Second + loc t)%Z.
Definition local_days (loc : Location) (t : Time) : Z := (local_secs loc t / 86400)%Z.
(** The epoch was a Thursday; 0 is Sunday. *)
Definition weekday (loc : Location) (t : Time) : Z := ((local_days loc t + 4) mod 7)%Z.
Definition weekday_name (d : Z) : string :=
  match d with
  | 0%Z => "Sunday" | 1%Z => "Monday" | 2%Z => "Tuesday" | 3%Z => "Wednesday"
  | 4%Z => "Thursday" | 5%Z => "Friday" | _ => "Saturday"
  end.
Definition clock_hour (loc : Location) (t : Time) : Z := (local_secs loc t mod 86400 / 3600)%Z.
Definition clock_minute (loc : Location) (t : Time) : Z := (local_secs loc t mod 3600 / 60)%Z.
(** Minutes since the local midnight. *)
Definition day_minutes (loc : Location) (t : Time) : Z := (local_secs loc t mod 86400 / 60)%Z.

Lemma clock_minutes loc t : (clock_hour loc t * 60 + clock_minute loc t)%Z = day_minutes loc t.
Proof.
  unfold clock_hour, clock_minute, day_minutes. set (s := local_secs loc t).
  assert (H : (s mod 3600 = (s mod 86400) mod 3600)%Z).
  { replace 86400%Z with (3600 * 24)%Z by done. rewrite Z.rem_mul_r by lia.
    rewrite Z.mul_comm, Z.mod_add by lia. by rewrite Z.mod_mod by lia. }
  rewrite H. set (x := (s mod 86400)%Z).
  pose proof (Z.div_mod x 3600 ltac:(lia)). pose proof (Z.mod_pos_bound x 3600 ltac:(lia)).
  symmetry. replace x with ((x / 3600 * 60) * 60 + x mod 3600)%Z at 1 by lia.
  rewrite Z.div_add_l by lia. done.
Qed.
Lemma day_minutes_range loc t : (0 <= day_minutes loc t < 1440)%Z.
Proof.
  unfold day_minutes. pose proof (Z.mod_pos_bound (local_secs loc t) 86400 ltac:(lia)).
  split; [apply Z.div_pos; lia|apply Z.div_lt_upper_bound; lia].
Qed.
Lemma weekday_range loc t : (0 <= weekday loc t < 7)%Z.
Proof. apply Z.mod_pos_bound. lia. Qed.
(** [Weekday().String()[:3]]. *)
Definition day_name (loc : Location) (t : Time) : string := stake 3 (weekday_name (weekday loc t)).

(** Friday the 2nd of January 2026, 13:45:30 UTC. *)
Example calendar_ex :
  let t := (1767361530 * Second)%Z in
  day_name UTC t = "Fri" /\ clock_hour UTC t = 13%Z /\ clock_minute UTC t = 45%Z /\
  day_name (fun _ => 50400%Z) t = "Sat" /\ clock_hour (fun _ => 50400%Z) t = 3%Z.
Proof. by vm_compute. Qed.

(** ** [time.RFC3339] in UTC

    The civil date of a day number, by 400-year eras starting on 1 March. *)
Definition civil_of_days (d : Z) : Z * Z * Z :=
  let z := (d + 719468)%Z in
  let era := (z / 146097)%Z in
  let doe := (z mod 146097)%Z in
  let yoe := ((doe - doe / 1460 + doe / 36524 - doe / 146096) / 365)%Z in
  let doy := (doe - (365 * yoe + yoe / 4 - yoe / 100))%Z in
  let mp := ((5 * doy + 2) / 153)%Z in
  let day := (doy - (153 * mp + 2) / 5 + 1)%Z in
  let month := (if decide (mp < 10) then mp + 3 else mp - 9)%Z in
  let year := (yoe + era * 400 + (if decide (month <= 2) then 1 else 0))%Z in
  (year, month, day).
Definition pad2 (z : Z) : string := (if decide (z < 10)%Z then "0" else EmptyString) +:+ itoa z.
Definition pad4 (z : Z) : string :=
  (if decide (z < 1000)%Z then "0" else EmptyString) +:+ (if decide (z < 100)%Z then "0" else EmptyString) +:+ pad2 z.
Definition format_date (t : Time) : string :=
  let '(y, m, d) := civil_of_days (t / Second / 86400)%Z in pad4 y +:+ "-" +:+ pad2 m +:+ "-" +:+ pad2 d.
Definition format_clock (t : Time) : string :=
  let r := (t / Second mod 86400)%Z in pad2 (r / 3600) +:+ ":" +:+ pad2 (r mod 3600 / 60) +:+ ":" +:+ pad2 (r mod 60).
Definition format_rfc3339 (t : Time) : string := format_date t +:+ "T" +:+ format_clock t +:+ "Z".
Example format_rfc3339_ex :
  format_rfc3339 (1709210096 * Second)%Z = "2024-02-29T12:34:56Z" /\ format_rfc3339 (-62135596800 * Second)%Z = "0001-01-01T00:00:00Z".
Proof. by vm_compute. Qed.
