(* ===== verification/Heap.v ===== *)
(** * Go's memory: pointers, slices and maps that can be shared

    The object model of [Api] has values.  Where the code depends on what is
    shared and what is copied, this file gives the memory behind the values:
    arrays at locations, pointers to their elements, slices with their capacity,
    maps by reference, and functions that read and write them.  [view] reads the
    value behind a Go value; [Deep] is what a deep copy promises. *)

From stdpp Require Import prelude gmap strings list fin_maps.
From S2P Require Import Prelude.

(** A pointer to an element of an array, or nil. *)
Definition Ptr (T : Type) : Type := option (positive * nat).
Record SliceHeader := mkSlice { sl_array : positive; sl_off : nat; sl_len : nat; sl_cap : nat }.
Definition Slice (T : Type) : Type := option SliceHeader.
(** A [map[string]string]. *)
Definition MapRef : Type := option positive.

Section memory.
Context {Cell : Type}.

Notation mem := (gmap positive Cell).
(** A computation on the memory; [None] is a panic. *)
Definition go (A : Type) : Type := mem -> option (A * mem).
#[export] Instance go_ret : MRet go := fun A a h => Some (a, h).
#[export] Instance go_bind : MBind go := fun A B f m h =>
  match m h with Some (a, h') => f a h' | None => None end.
Definition panic {A} : go A := fun _ => None.
Definition of_option {A} (o : option A) : go A := match o with Some a => mret a | None => panic end.

(** The arrays of elements of a type: how a cell holds them, and the zero value. *)
Class GoType (T : Type) := {
  zero : T;
  box : list T -> Cell;
  unbox : Cell -> option (list T);
  unbox_box l : unbox (box l) = Some l;
}.

Section typed.
Context {T : Type} `{GT : !GoType T}.

Definition array (h : mem) (a : positive) : option (list T) := h !! a ≫= unbox.
Definition alloc (l : list T) : go positive := fun h => let a := fresh (dom h) in Some (a, <[a := box l]> h).
Definition read_array (a : positive) : go (list T) := fun h => l ← array h a; Some (l, h).
Definition write_array (a : positive) (l : list T) : go () := fun h => Some (tt, <[a := box l]> h).

(** [new(T)], [*p] and [*p = v]. *)
Definition new : go (Ptr T) := a ← alloc [zero]; mret (Some (a, 0)).
Definition load (p : Ptr T) : go T :=
  match p with None => panic | Some (a, i) => l ← read_array a; of_option (l !! i) end.
Definition store (p : Ptr T) (v : T) : go () :=
  match p with
  | None => panic
  | Some (a, i) => l ← read_array a; if decide (i < length l) then write_array a (<[i := v]> l) else panic
  end.

(** [make([]T, n)], [len(s)], [s[i]] and [s[i] = v]. *)
Definition make (n : nat) : go (Slice T) := a ← alloc (replicate n zero); mret (Some (mkSlice a 0 n n)).
Definition len (s : Slice T) : nat := match s with None => 0 | Some s => sl_len s end.
Definition slot (s : Slice T) (i : nat) : Ptr T :=
  match s with
  | None => None
  | Some s => if decide (i < sl_len s) then Some (sl_array s, sl_off s + i) else None
  end.
Definition index (s : Slice T) (i : nat) : go T := load (slot s i).
Definition set_index (s : Slice T) (i : nat) (v : T) : go () := store (slot s i) v.
(** [append(s, v)]: in place while the capacity lasts, else in an array that
    [grow] makes larger. *)
Definition append (grow : nat -> nat) (s : Slice T) (v : T) : go (Slice T) :=
  match s with
  | Some s =>
      l ← read_array (sl_array s);
      let shown := take (sl_len s) (drop (sl_off s) l) in
      if decide (sl_len s < sl_cap s) then
        _ ← store (Some (sl_array s, sl_off s + sl_len s)) v;
        mret (Some (mkSlice (sl_array s) (sl_off s) (S (sl_len s)) (sl_cap s)))
      else
        a ← alloc (shown ++ v :: replicate (grow (sl_len s)) zero);
        mret (Some (mkSlice a 0 (S (sl_len s)) (S (sl_len s) + grow (sl_len s))))
  | None => a ← alloc (v :: replicate (grow 0) zero); mret (Some (mkSlice a 0 1 (1 + grow 0)))
  end.
End typed.

(** [make(map[string]string)], a read of all entries and [m[k] = v]. *)
Section maps.
Context `{GT : !GoType (gmap string string)}.
Definition make_map : go MapRef := a ← alloc [∅]; mret (Some a).
Definition entries (m : MapRef) : go (gmap string string) :=
  match m with None => mret ∅ | Some a => load (Some (a, 0)) end.
Definition set_key (m : MapRef) (k v : string) : go () :=
  match m with None => panic | Some a => x ← load (Some (a, 0)); store (Some (a, 0)) (<[k := v]> x) end.
End maps.

(** ** The value behind a Go value *)
Class View (T A : Type) := {
  view : mem -> T -> option A;
  view_mono h h' x a : h ⊆ h' -> view h x = Some a -> view h' x = Some a;
}.

#[export] Program Instance view_string : View string string := {| view _ s := Some s |}.
Solve Obligations with done.
#[export] Program Instance view_Z : View Z Z := {| view _ n := Some n |}.
Solve Obligations with done.
#[export] Program Instance view_bool : View bool bool := {| view _ b := Some b |}.
Solve Obligations with done.

Lemma array_mono {T} `{GT : !GoType T} (h h' : mem) a (l : list T) :
  h ⊆ h' -> array h a = Some l -> array h' a = Some l.
Proof.
  unfold array. intros Hs H. apply bind_Some in H as (c & Hc & Hl).
  by rewrite (lookup_weaken _ _ _ _ Hc Hs).
Qed.

Section views.
Context {T A : Type} `{GT : !GoType T} `{VT : !View T A}.

Definition view_ptr (h : mem) (p : Ptr T) : option (option A) :=
  match p with
  | None => Some None
  | Some (a, i) => l ← array h a; x ← l !! i; Some <$> view h x
  end.
(** A slice as Go makes it: its capacity is inside its array. *)
Definition view_slice (h : mem) (s : Slice T) : option (list A) :=
  match s with
  | None => Some []
  | Some s =>
      l ← array h (sl_array s);
      if decide (sl_len s <= sl_cap s /\ sl_off s + sl_cap s <= length l) then mapM (view h) (take (sl_len s) (drop (sl_off s) l)) else None
  end.
Lemma view_ptr_mono h h' p a : h ⊆ h' -> view_ptr h p = Some a -> view_ptr h' p = Some a.
Proof.
  intros Hs. destruct p as [[b i]|]; [|done]. cbn. intros (l & Hl & H)%bind_Some. rewrite (array_mono _ _ _ _ Hs Hl). cbn.
  apply bind_Some in H as (x & Hx & (v & Hv & ->)%fmap_Some). rewrite Hx. cbn. by rewrite (view_mono _ _ _ _ Hs Hv).
Qed.
Lemma view_list_mono h h' (l : list T) k : h ⊆ h' -> mapM (view h) l = Some k -> mapM (view h') l = Some k.
Proof. intros Hs. rewrite !mapM_Some. intros H. eapply Forall2_impl; [exact H|]. intros x y. by apply view_mono. Qed.
Lemma view_slice_mono h h' s k : h ⊆ h' -> view_slice h s = Some k -> view_slice h' s = Some k.
Proof.
  intros Hs. destruct s as [s|]; [|done]. cbn. intros (l & Hl & H)%bind_Some. rewrite (array_mono _ _ _ _ Hs Hl). cbn.
  case_decide; [|done]. by eapply view_list_mono.
Qed.
#[export] Instance View_ptr : View (Ptr T) (option A) := {| view := view_ptr; view_mono := view_ptr_mono |}.
#[export] Instance View_slice : View (Slice T) (list A) := {| view := view_slice; view_mono := view_slice_mono |}.
End views.

Section view_map.
Context `{GT : !GoType (gmap string string)}.
Definition view_map (h : mem) (m : MapRef) : option (gmap string string) :=
  match m with None => Some ∅ | Some a => l ← array h a; l !! 0 end.
Lemma view_map_mono h h' m x : h ⊆ h' -> view_map h m = Some x -> view_map h' m = Some x.
Proof.
  intros Hs. destruct m as [a|]; [|done]. cbn. intros (l & Hl & H)%bind_Some. by rewrite (array_mono _ _ _ _ Hs Hl).
Qed.
#[export] Instance View_map : View MapRef (gmap string string) := {| view := view_map; view_mono := view_map_mono |}.
End view_map.

(** ** Computations that only add to the memory *)
Definition runs {A} (h : mem) (m : go A) (Q : A -> mem -> Prop) : Prop :=
  exists y h', m h = Some (y, h') /\ h ⊆ h' /\ Q y h'.

Lemma runs_ret {A} h (a : A) (Q : A -> mem -> Prop) : Q a h -> runs h (mret a) Q.
Proof. intros HQ. by exists a, h. Qed.
Lemma runs_bind {A B} h (m : go A) (f : A -> go B) Q : runs h m (fun y h' => runs h' (f y) Q) -> runs h (m ≫= f) Q.
Proof.
  intros (y & h' & Hm & Hs & z & h'' & Hf & Hs' & HQ). exists z, h''. split_and!; [|by etrans|done].
  unfold mbind, go_bind. by rewrite Hm.
Qed.
Lemma runs_impl {A} h (m : go A) (P Q : A -> mem -> Prop) : (forall y h', h ⊆ h' -> P y h' -> Q y h') -> runs h m P -> runs h m Q.
Proof. intros Himp (y & h' & Hm & Hs & HP). exists y, h'. auto. Qed.

(** A deep copy: it succeeds on what can be read, writes nothing that was there,
    and its result can be read from the new cells alone. *)
Class Deep {T A : Type} {VT : View T A} (f : T -> go T) : Prop :=
  deep h x a : view h x = Some a -> runs h (f x) (fun y h' => view (h' ∖ h) y = Some a).

Lemma new_cells_mono (h0 h1 h2 h3 : mem) : h0 ⊆ h1 -> h2 ⊆ h3 -> h2 ∖ h1 ⊆ h3 ∖ h0.
Proof.
  intros H1 H2. apply map_subseteq_spec. intros i x [Hx Hn]%lookup_difference_Some. apply lookup_difference_Some.
  split; [by eapply lookup_weaken|]. by eapply lookup_weaken_None.
Qed.
(** The step of a proof about a struct: the field is copied, what was copied
    before stays readable. *)
Lemma runs_copy {T A B} {VT : View T A} (f : T -> go T) {DF : Deep f} (h0 h : mem) x a (k : T -> go B) Q :
  view h0 x = Some a -> h0 ⊆ h -> (forall y h', h ⊆ h' -> view (h' ∖ h0) y = Some a -> runs h' (k y) Q) -> runs h (f x ≫= k) Q.
Proof.
  intros Hv Hs Hk. apply runs_bind. eapply runs_impl; [|by apply deep; eapply view_mono]. cbn. intros y h' Hs' Hy.
  apply Hk; [done|]. eapply view_mono; [|exact Hy]. by apply new_cells_mono.
Qed.

(** ** The steps that deep-copy code is made of

    Each begins with the test for nil: a nil field stays nil. *)
Section steps.
Context {T A : Type} `{GT : !GoType T} `{VT : !View T A} (f : T -> go T).

(** A new [T] and [DeepCopyInto] on it; [DeepCopy] is the same code. *)
Definition copy_pointer (p : Ptr T) : go (Ptr T) :=
  match p with
  | None => mret None
  | Some _ => out ← new; x ← load p; v ← f x; _ ← store out v; mret out
  end.
(** [DeepCopyInto] on element after element, from index [i]. *)
Fixpoint copy_elements (inn out : Slice T) (i n : nat) : go () :=
  match n with
  | 0 => mret tt
  | S n' => x ← index inn i; v ← f x; _ ← set_index out i v; copy_elements inn out (S i) n'
  end.
Definition copy_structs (s : Slice T) : go (Slice T) :=
  match s with
  | None => mret None
  | Some _ => out ← make (len s); _ ← copy_elements s out 0 (len s); mret out
  end.
End steps.

(** [copy(dst, src)]. *)
Definition copy {T} `{GT : !GoType T} (dst src : Slice T) : go () :=
  match dst, src with
  | Some d, Some s =>
      l ← read_array (sl_array s); m ← read_array (sl_array d);
      let n := sl_len d `min` sl_len s in
      write_array (sl_array d) (take (sl_off d) m ++ take n (drop (sl_off s) l) ++ drop (sl_off d + n) m)
  | _, _ => mret tt
  end.
Definition copy_strings `{GT : !GoType string} (s : Slice string) : go (Slice string) :=
  match s with
  | None => mret None
  | Some _ => out ← make (len s); _ ← copy out s; mret out
  end.
(** [out[key] = val] for the entries of the map, in the order [range] gives. *)
Fixpoint set_keys `{GT : !GoType (gmap string string)} (m : MapRef) (kvs : list (string * string)) : go () :=
  match kvs with
  | [] => mret tt
  | (k, v) :: kvs' => _ ← set_key m k v; set_keys m kvs'
  end.
Definition copy_map `{GT : !GoType (gmap string string)} (range : gmap string string -> list (string * string))
    (m : MapRef) : go MapRef :=
  match m with
  | None => mret None
  | Some _ => out ← make_map; x ← entries m; _ ← set_keys out (range x); mret out
  end.

(** ** Each step is a deep copy *)
Lemma array_insert {T} `{GT : !GoType T} (h : mem) a (l : list T) : array (<[a := box l]> h) a = Some l.
Proof. unfold array. rewrite lookup_insert_eq. apply unbox_box. Qed.
Lemma array_difference {T} `{GT : !GoType T} (h h0 : mem) a : h0 !! a = None -> array (h ∖ h0) a = array h a.
Proof.
  intros Hn. unfold array. destruct (h !! a) as [c|] eqn:Ec.
  - by rewrite (proj2 (lookup_difference_Some h h0 a c) (conj Ec Hn)).
  - by rewrite (proj2 (lookup_difference_None h h0 a) (or_introl Ec)).
Qed.
Lemma alloc_fresh (h : mem) : h !! fresh (dom h) = None.
Proof. apply not_elem_of_dom, is_fresh. Qed.
Lemma store_new {T} `{GT : !GoType T} (h : mem) a (l : list T) i v :
  array h a = Some l -> i < length l -> store (Some (a, i)) v h = Some (tt, <[a := box (<[i := v]> l)]> h).
Proof.
  intros Hl Hi. unfold store, mbind at 1, go_bind, read_array. rewrite Hl. cbn. by rewrite decide_True.
Qed.
Lemma load_array {T} `{GT : !GoType T} (h : mem) a (l : list T) i v :
  array h a = Some l -> l !! i = Some v -> load (Some (a, i)) h = Some (v, h).
Proof. intros Hl Hi. unfold load, mbind, go_bind, read_array. rewrite Hl. cbn. by rewrite Hi. Qed.

(** What is new after a step does not involve a cell that was there before it. *)
Lemma new_but (h0 h h1 : mem) b : h0 ⊆ h -> is_Some (h !! b) -> h1 ∖ h ⊆ delete b h1 ∖ h0.
Proof.
  intros H0 [c Hb]. apply map_subseteq_spec. intros i x [Hx Hn]%lookup_difference_Some. apply lookup_difference_Some.
  split; [|by eapply lookup_weaken_None]. rewrite lookup_delete_ne; congruence.
Qed.
Lemma but_insert (h0 h : mem) b c : delete b h ∖ h0 ⊆ <[b := c]> h ∖ h0.
Proof.
  apply new_cells_mono; [done|]. apply map_subseteq_spec. intros i x [Hne Hx]%lookup_delete_Some. by rewrite lookup_insert_ne.
Qed.
Lemma array_is_Some {T} `{GT : !GoType T} (h : mem) a (l : list T) : array h a = Some l -> is_Some (h !! a).
Proof. unfold array. destruct (h !! a); [by eexists|done]. Qed.

Section steps_ok.
Context {T A : Type} `{GT : !GoType T} `{VT : !View T A} (f : T -> go T) `{DF : !Deep f}.

#[export] Instance copy_pointer_deep : Deep (copy_pointer f).
Proof using DF.
  intros h [[a i]|] x Hv; [|injection Hv as <-; by apply runs_ret]. cbn in Hv.
  apply bind_Some in Hv as (l & Hl & (v & Hi & (w & Hw & ->)%fmap_Some)%bind_Some).
  set (b := fresh (dom h)). set (h1 := <[b := box [zero]]> h). pose proof (alloc_fresh h : h !! b = None) as Hb.
  assert (h ⊆ h1) as H1 by by apply insert_subseteq.
  destruct (deep h1 v w (view_mono _ _ _ _ H1 Hw)) as (y & h2 & Hf & H2 & Hy).
  assert (array h2 b = Some [zero]) as Hz by (eapply array_mono; [done|apply array_insert]).
  exists (Some (b, 0)), (<[b := box [y]]> h2). split_and!.
  - unfold copy_pointer, new, mbind, go_bind, alloc. fold b. fold h1. cbn [mret go_ret].
    rewrite (load_array _ _ _ _ _ (array_mono _ _ _ _ H1 Hl) Hi), Hf, (store_new _ _ _ 0 y Hz) by (simpl; lia). done.
  - apply insert_subseteq_r; [done|]. by etrans.
  - cbn. rewrite array_difference, array_insert by done. cbn.
    rewrite (view_mono (h2 ∖ h1) _ y w); [done| |done]. etrans; [|apply but_insert].
    apply new_but; [done|]. unfold h1. rewrite lookup_insert_eq. by eexists.
Qed.

(** The loop: [done] holds the copies of [as1], what is left to copy reads as [as2]. *)
Lemma copy_elements_ok (h0 : mem) s b l N ys zs as1 as2 n h :
  h0 !! b = None -> array h0 (sl_array s) = Some l ->
  Forall2 (fun x a => view h0 x = Some a) (take n (drop (sl_off s + length ys) l)) as2 ->
  sl_len s = N -> length ys + n = N -> length zs = n -> n <= length (drop (sl_off s + length ys) l) ->
  h0 ⊆ h -> array h b = Some (ys ++ zs) -> Forall2 (fun y a => view (delete b h ∖ h0) y = Some a) ys as1 ->
  exists h', copy_elements f (Some s) (Some (mkSlice b 0 N N)) (length ys) n h = Some (tt, h') /\ h0 ⊆ h' /\
    exists ys', array h' b = Some ys' /\ length ys' = N /\
      Forall2 (fun y a => view (delete b h' ∖ h0) y = Some a) ys' (as1 ++ as2).
Proof using DF.
  intros Hb Hl. revert ys zs as1 as2 h. induction n as [|n IH]; intros ys zs as1 as2 h Has2 HN Hn Hzs Hroom H0 Hout Has1.
  { destruct zs; [|done]. apply Forall2_nil_inv_l in Has2 as ->. rewrite !app_nil_r in *. exists h. split_and!; [done..|].
    exists ys. split_and!; [done|lia|done]. }
  rewrite length_drop in Hroom. set (k := length ys) in *.
  destruct (lookup_lt_is_Some_2 l (sl_off s + k) ltac:(lia)) as [x Hx].
  rewrite (drop_S _ _ _ Hx) in Has2. cbn in Has2. apply Forall2_cons_inv_l in Has2 as (a & as2' & Hxa & Has2 & ->).
  destruct zs as [|z zs]; [done|]. injection Hzs as Hzs.
  destruct (deep h x a (view_mono _ _ _ _ H0 Hxa)) as (y & h1 & Hf & H1 & Hy).
  assert (array h1 b = Some (ys ++ z :: zs)) as Hout1 by by eapply array_mono.
  set (h2 := <[b := box ((ys ++ [y]) ++ zs)]> h1).
  assert (length (ys ++ [y]) = S k) as Hk by (rewrite length_app; simpl; unfold k; lia).
  destruct (IH (ys ++ [y]) zs (as1 ++ [a]) as2' h2) as (h' & Hrun & H' & Hrest).
  - rewrite Hk. by replace (sl_off s + S k) with (S (sl_off s + k)) by lia.
  - done.
  - lia.
  - done.
  - rewrite Hk, length_drop. lia.
  - apply insert_subseteq_r; [done|]. by etrans.
  - apply array_insert.
  - unfold h2. rewrite delete_insert_eq. apply Forall2_app; [|repeat constructor].
    + eapply Forall2_impl; [exact Has1|]. intros y' a' Hy'. eapply view_mono; [|exact Hy'].
      apply new_cells_mono; [done|]. by apply delete_mono.
    + eapply view_mono; [|exact Hy]. apply new_but; [done|]. by eapply array_is_Some.
  - exists h'. rewrite <- (assoc_L (++)) in Hrest. split; [|by split]. rewrite <- Hrun, Hk. clear Hrun.
    cbn [copy_elements]. unfold index, slot, set_index. rewrite decide_True by lia. cbn [sl_array sl_off].
    unfold mbind at 1, go_bind at 1. rewrite (load_array _ _ _ _ _ (array_mono _ _ _ _ H0 Hl) Hx).
    unfold mbind at 1, go_bind at 1. rewrite Hf. unfold mbind at 1, go_bind at 1. unfold slot. cbn [sl_len sl_off sl_array].
    rewrite decide_True by lia. rewrite (store_new _ _ _ _ _ Hout1) by (rewrite length_app; simpl; fold k; lia).
    cbn [Nat.add]. unfold h2, k. rewrite insert_app_r_alt, Nat.sub_diag by done. cbn. by rewrite <- (assoc_L (++)).
Qed.

#[export] Instance copy_structs_deep : Deep (copy_structs f).
Proof using DF.
  intros h [s|] k Hv; [|injection Hv as <-; by apply runs_ret]. cbn in Hv. apply bind_Some in Hv as (l & Hl & Hv).
  case_decide as Hfit; [|done]. apply mapM_Some in Hv. set (b := fresh (dom h)). set (n := sl_len s) in *.
  pose proof (alloc_fresh h : h !! b = None) as Hb.
  destruct (copy_elements_ok h s b l n [] (replicate n zero) [] k n (<[b := box (replicate n zero)]> h)) as (h' & Hrun & Hs & ys & Hys & Hlen & Hall).
  - done.
  - done.
  - by rewrite Nat.add_0_r.
  - done.
  - done.
  - apply length_replicate.
  - rewrite Nat.add_0_r, length_drop. lia.
  - by apply insert_subseteq.
  - apply array_insert.
  - constructor.
  - exists (Some (mkSlice b 0 n n)), h'. split_and!; [|done|].
    + unfold copy_structs, make, mbind, go_bind, alloc. cbn [len]. fold n b. cbn [mret go_ret].
      cbn [length] in Hrun. by rewrite Hrun.
    + cbn. rewrite array_difference, Hys by done. cbn. rewrite decide_True by lia. rewrite drop_0, take_ge by lia.
      apply mapM_Some. eapply Forall2_impl; [exact Hall|]. intros y a Hy. eapply view_mono; [|exact Hy].
      apply new_cells_mono; [done|apply delete_subseteq].
Qed.
End steps_ok.

Lemma mapM_view_string h (l k : list string) : mapM (view h) l = Some k <-> k = l.
Proof.
  rewrite mapM_Some. split; [|intros ->; by apply Reflexive_instance_0].
  induction 1 as [|x y l k Hx _ IH]; [done|]. by injection Hx as ->; subst.
Qed.
#[export] Instance copy_strings_deep `{GT : !GoType string} : Deep copy_strings.
Proof.
  intros h [s|] k Hv; [|injection Hv as <-; by apply runs_ret]. cbn in Hv. apply bind_Some in Hv as (l & Hl & Hv).
  case_decide as Hfit; [|done]. apply (mapM_view_string h) in Hv as ->. set (b := fresh (dom h)). set (n := sl_len s) in *.
  pose proof (alloc_fresh h : h !! b = None) as Hb. set (h1 := <[b := box (replicate n zero)]> h).
  assert (h ⊆ h1) as H1 by by apply insert_subseteq. set (ys := take n (drop (sl_off s) l)).
  exists (Some (mkSlice b 0 n n)), (<[b := box ys]> h1). split_and!.
  - unfold copy_strings, make, mbind, go_bind, alloc. cbn [len]. fold n b h1. cbn [mret go_ret].
    unfold copy, mbind, go_bind, read_array, write_array. cbn [sl_array sl_off sl_len].
    rewrite (array_mono _ _ _ _ H1 Hl). cbn. fold n. change (array h1 b) with (array (<[b := box (replicate n zero)]> h) b).
    rewrite array_insert. cbn. rewrite Nat.min_id, (drop_ge (replicate n zero)) by (rewrite length_replicate; lia). by rewrite app_nil_r.
  - by apply insert_subseteq_r.
  - cbn. rewrite array_difference, array_insert by done. cbn.
    assert (length ys = n) as Hn by (unfold ys; rewrite length_take, length_drop; lia).
    rewrite decide_True by lia. rewrite drop_0, take_ge by lia. by apply (mapM_view_string ∅).
Qed.

Section map_ok.
Context `{GT : !GoType (gmap string string)}.
Lemma set_keys_ok a (m : gmap string string) kvs h : array h a = Some [m] ->
  exists h', set_keys (Some a) kvs h = Some (tt, h') /\ array h' a = Some [list_to_map (reverse kvs) ∪ m] /\
    forall j, j <> a -> h' !! j = h !! j.
Proof.
  revert m h. induction kvs as [|[k v] kvs IH]; intros m h Ha.
  { exists h. split_and!; [done| |done]. cbn. by rewrite (left_id_L ∅ (∪)). }
  destruct (IH (<[k := v]> m) (<[a := box [<[k := v]> m]]> h)) as (h' & Hrun & Ha' & Hother); [apply array_insert|].
  exists h'. split_and!.
  - cbn [set_keys]. unfold mbind, go_bind, set_key. unfold mbind, go_bind. rewrite (load_array h a [m] 0 m Ha eq_refl).
    rewrite (store_new h a [m] 0 _ Ha) by (simpl; lia). exact Hrun.
  - rewrite Ha'. do 2 f_equal. rewrite reverse_cons, list_to_map_app, <- (assoc_L (∪)). f_equal. cbn. rewrite insert_empty. apply insert_union_singleton_l.
  - intros j Hj. rewrite Hother by done. by rewrite lookup_insert_ne.
Qed.
Context (range : gmap string string -> list (string * string)) (Hrange : forall m, range m ≡ₚ map_to_list m).
#[export] Instance copy_map_deep : Deep (copy_map range).
Proof using Hrange.
  intros h [a|] x Hv; [|injection Hv as <-; by apply runs_ret]. cbn in Hv. apply bind_Some in Hv as (l & Hl & Hx).
  set (b := fresh (dom h)). pose proof (alloc_fresh h : h !! b = None) as Hb. set (h1 := <[b := box [∅]]> h).
  assert (h ⊆ h1) as H1 by by apply insert_subseteq.
  destruct (set_keys_ok b ∅ (range x) h1) as (h' & Hrun & Hb' & Hother); [apply array_insert|].
  exists (Some b), h'. split_and!.
  - unfold copy_map, make_map, mbind, go_bind, alloc. fold b h1. cbn [mret go_ret]. unfold entries.
    rewrite (load_array _ _ _ _ _ (array_mono _ _ _ _ H1 Hl) Hx), Hrun. done.
  - apply map_subseteq_spec. intros j c Hj. rewrite Hother by congruence. by eapply lookup_weaken.
  - cbn. rewrite array_difference, Hb' by done. cbn. f_equal. rewrite (right_id_L ∅ (∪)).
    rewrite (list_to_map_proper _ (map_to_list x)); [apply list_to_map_to_list| |].
    + rewrite reverse_Permutation, Hrange. apply NoDup_fst_map_to_list.
    + by rewrite reverse_Permutation, Hrange.
Qed.
End map_ok.
End memory.
