(* ===== verification/Json.v ===== *)
(** * JSON values and encoding/json

    The values [encoding/json] decodes, with a number kept as its literal, and
    how a struct field takes its value from an object: keys match a field's name
    exactly or up to case, a later key overwrites an earlier one, [null] leaves
    the field alone, and a value of another type is an error. *)

From Stdlib Require Import Ascii.
From stdpp Require Import sorting.
From stdpp Require Import prelude gmap strings list.
From S2P Require Import Prelude GoBase.

Inductive json :=
  | JNull
  | JBool (b : bool)
  | JNum (literal : string)
  | JStr (s : string)
  | JArr (l : list json)
  | JObj (fields : list (string * json)).

Definition err_json : goerr := ErrOther "json: cannot unmarshal value into Go struct field".

(** Decoding one value into a field that holds [old]. *)
Definition decode_int64 (old : Z) (v : json) : res Z :=
  match v with
  | JNull => Ok old
  | JNum lit => match parse_int lit with Some n => Ok n | None => Err err_json end
  | _ => Err err_json
  end.
Definition decode_string (old : string) (v : json) : res string :=
  match v with
  | JNull => Ok old
  | JStr s => Ok s
  | _ => Err err_json
  end.

(** The field [name] of a struct after decoding the keys of an object in order. *)
Fixpoint decode_field {A} (dec : A -> json -> res A) (name : string) (old : A)
    (fields : list (string * json)) : res A :=
  match fields with
  | [] => Ok old
  | (k, v) :: fields' =>
      if equal_fold k name then
        match dec old v with
        | Ok x => decode_field dec name x fields'
        | Err e => Err e
        end
      else decode_field dec name old fields'
  end.

Lemma decode_field_absent {A} (dec : A -> json -> res A) name old fields :
  Forall (fun kv => equal_fold kv.1 name = false) fields -> decode_field dec name old fields = Ok old.
Proof. induction 1 as [|[k v] l E _ IH]; simpl in *; [done|]. by rewrite E. Qed.

Lemma decode_field_int64_range name old fields n :
  int64_range old -> decode_field decode_int64 name old fields = Ok n -> int64_range n.
Proof.
  revert old; induction fields as [|[k v] l IH]; simpl; intros old Hold E; [by simplify_eq|].
  destruct (equal_fold k name); [|by eauto].
  destruct v; simpl in E; try done; [by eauto|].
  destruct (parse_int literal) eqn:Ep; [|done]. eauto using parse_int_range.
Qed.

(** ** Encoding

    [json.Marshal] of a value built from structs: strings escaped with [\u] for
    control bytes and for the characters unsafe in HTML, no white space.  Bytes
    above 127 are copied, as [encoding/json] does for valid UTF-8 other than the
    line separators U+2028 and U+2029. *)
Definition json_escape_byte (c : ascii) : string :=
  let v := byte_val c in
  if decide (v = 34 \/ v = 92)%Z then backslash +:+ String c EmptyString
  else if decide (v = 8)%Z then backslash +:+ "b"
  else if decide (v = 12)%Z then backslash +:+ "f"
  else if decide (v = 10)%Z then backslash +:+ "n"
  else if decide (v = 13)%Z then backslash +:+ "r"
  else if decide (v = 9)%Z then backslash +:+ "t"
  else if decide (v < 32 \/ v = 60 \/ v = 62 \/ v = 38)%Z then
    backslash +:+ "u00" +:+ String (hex_digit (v / 16)) (String (hex_digit (v mod 16)) EmptyString)
  else String c EmptyString.
Fixpoint json_escape (s : string) : string :=
  match s with
  | EmptyString => EmptyString
  | String c s' => json_escape_byte c +:+ json_escape s'
  end.
Definition json_string (s : string) : string := dquote +:+ json_escape s +:+ dquote.
Fixpoint json_text (v : json) : string :=
  match v with
  | JNull => "null"
  | JBool b => if b then "true" else "false"
  | JNum lit => lit
  | JStr s => json_string s
  | JArr l => "[" +:+ join "," (json_text <$> l) +:+ "]"
  | JObj l => "{" +:+ join "," ((fun kv => json_string kv.1 +:+ ":" +:+ json_text kv.2) <$> l) +:+ "}"
  end.
