(* ===== verification/JsonText.v ===== *)
(** * Reading JSON text (encoding/json)

    [json.Unmarshal] and [Decoder.Decode] on bytes: blanks, literals, numbers by
    the states of the scanner of encoding/json, strings with their escapes and
    surrogate pairs.  Bytes above 127 are copied, as for valid UTF-8, and the
    limit of 10000 levels of nesting is left out.  [parse_print] is the round
    trip with the printer of [Json]; [parse_value_fuel] shows that twice the length
    of the text is enough fuel. *)

From Stdlib Require Import Ascii.
From stdpp Require Import sorting pretty.
From stdpp Require Import prelude gmap strings list.
From S2P Require Import Prelude GoBase Json.

(** ** Strings *)
Definition hex_val (c : ascii) : option Z :=
  let v := byte_val c in
  (if decide (48 <= v <= 57) then Some (v - 48) else if decide (97 <= v <= 102) then Some (v - 87)
   else if decide (65 <= v <= 70) then Some (v - 55) else None)%Z.
Definition hex4 (a b c d : ascii) : option Z :=
  x ← hex_val a; y ← hex_val b; z ← hex_val c; t ← hex_val d; Some (x * 4096 + y * 256 + z * 16 + t)%Z.
(** [utf8.EncodeRune] *)
Definition utf8 (r : Z) : string :=
  let tail n := String (byte_of (128 + Z.land n 63)) in
  (if decide (r < 128) then String (byte_of r) EmptyString
   else if decide (r < 2048) then String (byte_of (192 + Z.shiftr r 6)) (tail r EmptyString)
   else if decide (r < 65536) then String (byte_of (224 + Z.shiftr r 12)) (tail (Z.shiftr r 6) (tail r EmptyString))
   else String (byte_of (240 + Z.shiftr r 18)) (tail (Z.shiftr r 12) (tail (Z.shiftr r 6) (tail r EmptyString))))%Z.
Definition surrogate (r : Z) : bool := bool_decide (55296 <= r < 57344)%Z.
(** [utf16.DecodeRune] of a high and a low surrogate. *)
Definition surrogate_pair (r1 r2 : Z) : option Z :=
  if decide (55296 <= r1 < 56320 /\ 56320 <= r2 < 57344)%Z then Some ((r1 - 55296) * 1024 + (r2 - 56320) + 65536)%Z else None.
Definition replacement : Z := 65533.
Definition simple_escape (e : ascii) : option ascii :=
  let v := byte_val e in
  (if decide (v = 34 \/ v = 92 \/ v = 47) then Some e else if decide (v = 98) then Some (byte_of 8)
   else if decide (v = 102) then Some (byte_of 12) else if decide (v = 110) then Some (byte_of 10)
   else if decide (v = 114) then Some (byte_of 13) else if decide (v = 116) then Some (byte_of 9) else None)%Z.
Definition prepend (p : string) (r : option (string * string)) : option (string * string) :=
  '(t, rest) ← r; Some (p +:+ t, rest).
(** The text of a string literal after its opening quote, and what follows it. *)
Fixpoint parse_chars (s : string) : option (string * string) :=
  match s with
  | EmptyString => None
  | String c s1 =>
      if decide (byte_val c = 34)%Z then Some (EmptyString, s1)
      else if decide (byte_val c < 32)%Z then None
      else if decide (byte_val c = 92)%Z then
        match s1 with
        | EmptyString => None
        | String e s2 =>
            if decide (byte_val e = 117)%Z then
              match s2 with
              | String h1 (String h2 (String h3 (String h4 s3))) =>
                  r ← hex4 h1 h2 h3 h4;
                  if surrogate r then
                    match s3 with
                    | String b (String u (String g1 (String g2 (String g3 (String g4 s4))))) =>
                        match q ← hex4 g1 g2 g3 g4; surrogate_pair r q with
                        | Some x => if decide (byte_val b = 92 /\ byte_val u = 117)%Z then prepend (utf8 x) (parse_chars s4)
                                    else prepend (utf8 replacement) (parse_chars s3)
                        | None => prepend (utf8 replacement) (parse_chars s3)
                        end
                    | _ => prepend (utf8 replacement) (parse_chars s3)
                    end
                  else prepend (utf8 r) (parse_chars s3)
              | _ => None
              end
            else x ← simple_escape e; prepend (String x EmptyString) (parse_chars s2)
        end
      else prepend (String c EmptyString) (parse_chars s1)
  end.

(** ** Numbers: the states of the scanner *)
Inductive num_state := NStart | NNeg | NZero | NInt | NDot | NFrac | NExp | NExpSign | NExpInt.
Definition num_step (q : num_state) (c : ascii) : option num_state :=
  let v := byte_val c in
  let digit := bool_decide (48 <= v <= 57)%Z in
  let e := bool_decide (v = 101 \/ v = 69)%Z in
  let after_int := if decide (v = 46)%Z then Some NDot else if e then Some NExp else None in
  match q with
  | NStart => if decide (v = 45)%Z then Some NNeg else if decide (v = 48)%Z then Some NZero else if digit then Some NInt else None
  | NNeg => if decide (v = 48)%Z then Some NZero else if digit then Some NInt else None
  | NZero => after_int
  | NInt => if digit then Some NInt else after_int
  | NDot => if digit then Some NFrac else None
  | NFrac => if digit then Some NFrac else if e then Some NExp else None
  | NExp => if decide (v = 43 \/ v = 45)%Z then Some NExpSign else if digit then Some NExpInt else None
  | NExpSign | NExpInt => if digit then Some NExpInt else None
  end.
Definition num_end (q : num_state) : bool := match q with NZero | NInt | NFrac | NExpInt => true | _ => false end.
Fixpoint num_run (q : num_state) (s : string) : bool :=
  match s with
  | EmptyString => num_end q
  | String c s' => match num_step q c with Some q' => num_run q' s' | None => false end
  end.
Definition valid_number (s : string) : bool := num_run NStart s.
Definition num_byte (c : ascii) : bool :=
  let v := byte_val c in bool_decide (48 <= v <= 57 \/ v = 43 \/ v = 45 \/ v = 46 \/ v = 69 \/ v = 101)%Z.
(** The bytes a number can consist of, up to the first other one. *)
Fixpoint span_number (s : string) : string * string :=
  match s with
  | String c s' => if num_byte c then let '(a, b) := span_number s' in (String c a, b) else (EmptyString, s)
  | EmptyString => (EmptyString, EmptyString)
  end.

(** ** Values *)
Definition json_blank (c : ascii) : bool := let v := byte_val c in bool_decide (v = 32 \/ v = 9 \/ v = 10 \/ v = 13)%Z.
Fixpoint skip_blank (s : string) : string :=
  match s with String c s' => if json_blank c then skip_blank s' else s | EmptyString => EmptyString end.
Definition expect (word : string) (v : json) (s : string) : option (json * string) :=
  if has_prefix s word then Some (v, sdrop (slen word) s) else None.
(** The next byte that is no blank, and what follows it. *)
Definition next (s : string) : option (Z * string) :=
  match skip_blank s with String c r => Some (byte_val c, r) | EmptyString => None end.
Definition next_is (v : Z) (s : string) : option string := '(c, r) ← next s; if decide (c = v) then Some r else None.
Definition parse_scalar (s : string) : option (json * string) :=
  match s with
  | EmptyString => None
  | String c _ =>
      let v := byte_val c in
      if decide (v = 116)%Z then expect "true" (JBool true) s
      else if decide (v = 102)%Z then expect "false" (JBool false) s
      else if decide (v = 110)%Z then expect "null" JNull s
      else let '(lit, r) := span_number s in if valid_number lit then Some (JNum lit, r) else None
  end.
Fixpoint parse_value (fuel : nat) (s : string) : option (json * string) :=
  match fuel with
  | O => None
  | S n =>
      '(v, s1) ← next s;
      if decide (v = 34)%Z then '(t, r) ← parse_chars s1; Some (JStr t, r)
      else if decide (v = 91)%Z then
        match next_is 93 s1 with
        | Some r => Some (JArr [], r)
        | None => '(l, r) ← parse_items n s1; Some (JArr l, r)
        end
      else if decide (v = 123)%Z then
        match next_is 125 s1 with
        | Some r => Some (JObj [], r)
        | None => '(l, r) ← parse_fields n s1; Some (JObj l, r)
        end
      else parse_scalar (skip_blank s)
  end
with parse_items (fuel : nat) (s : string) : option (list json * string) :=
  match fuel with
  | O => None
  | S n =>
      '(v, r) ← parse_value n s; '(c, r1) ← next r;
      if decide (c = 44)%Z then '(l, r2) ← parse_items n r1; Some (v :: l, r2)
      else if decide (c = 93)%Z then Some ([v], r1) else None
  end
with parse_fields (fuel : nat) (s : string) : option (list (string * json) * string) :=
  match fuel with
  | O => None
  | S n =>
      s1 ← next_is 34 s; '(k, r) ← parse_chars s1; r1 ← next_is 58 r;
      '(v, r2) ← parse_value n r1; '(c, r3) ← next r2;
      if decide (c = 44)%Z then '(l, r4) ← parse_fields n r3; Some ((k, v) :: l, r4)
      else if decide (c = 125)%Z then Some ([(k, v)], r3) else None
  end.
(** [Decoder.Decode] reads the first value of the text, [Unmarshal] all of it. *)
Definition parse_first (s : string) : option (json * string) := parse_value (S (2 * slen s)) s.
Definition parse_json (s : string) : option json :=
  '(v, r) ← parse_first s; if decide (skip_blank r = EmptyString) then Some v else None.

(** ** Twice the length of the text is enough fuel *)
Lemma prepend_some p r t rest : prepend p r = Some (t, rest) <-> exists t', r = Some (t', rest) /\ t = p +:+ t'.
Proof. unfold prepend. destruct r as [[t' r']|]; cbn; naive_solver. Qed.
Lemma parse_chars_shorter s t r : parse_chars s = Some (t, r) -> slen r < slen s.
Proof.
  assert (H : forall n s t r, slen s <= n -> parse_chars s = Some (t, r) -> slen r < slen s).
  { induction n as [|n IH]; intros [|c s1] t0 r0 Hn; cbn in Hn; try done; try lia. cbn [parse_chars].
    unfold slen in *. cbn [String.length] in *.
    repeat case_decide; try done; [by intros [= _ <-]; lia| |intros (? & E & _)%prepend_some; apply IH in E; lia].
    destruct s1 as [|e s2]; [done|]. cbn [String.length] in *. case_decide.
    - destruct s2 as [|h1 [|h2 [|h3 [|h4 s3]]]]; try done. cbn [String.length] in *.
      destruct (hex4 _ _ _ _) as [x|]; cbn; [|done].
      assert (Hs3 : forall p, prepend p (parse_chars s3) = Some (t0, r0) -> String.length r0 < S (S (S (S (S (S (String.length s3))))))).
      { intros p (? & E & _)%prepend_some. apply IH in E; lia. }
      destruct (surrogate x); [|apply Hs3]. destruct s3 as [|b [|u [|g1 [|g2 [|g3 [|g4 s4]]]]]]; try apply Hs3.
      destruct (hex4 g1 g2 g3 g4 ≫= _); [|apply Hs3]. case_decide; [|apply Hs3].
      intros (? & E & _)%prepend_some. cbn [String.length] in *. apply IH in E; lia.
    - destruct (simple_escape e); cbn; [|done]. intros (? & E & _)%prepend_some. apply IH in E; lia. }
  by apply (H (slen s)).
Qed.
Lemma skip_blank_shorter s : slen (skip_blank s) <= slen s.
Proof. induction s as [|c s IH]; [done|]. cbn. destruct (json_blank c); unfold slen in *; cbn; lia. Qed.
Lemma next_shorter s v r : next s = Some (v, r) -> slen r < slen s.
Proof.
  unfold next. pose proof (skip_blank_shorter s) as H. destruct (skip_blank s) as [|c s']; [done|].
  intros [= _ <-]. unfold slen in *. cbn in H. lia.
Qed.
Lemma next_is_shorter v s r : next_is v s = Some r -> slen r < slen s.
Proof.
  unfold next_is. destruct (next s) as [[c r']|] eqn:E; cbn; [|done]. case_decide; [|done]. intros [= <-]. by eapply next_shorter.
Qed.
Lemma slen_sdrop n s : slen (sdrop n s) = slen s - n.
Proof. revert s. induction n as [|n IH]; intros [|c s]; unfold slen in *; cbn; [done..|apply IH]. Qed.
Lemma has_prefix_slen s p : has_prefix s p = true -> slen p <= slen s.
Proof.
  unfold has_prefix, slen. revert s. induction p as [|a p IH]; intros [|c s]; cbn; try done; try lia.
  destruct (ascii_dec a c); [|done]. intros H. apply IH in H. lia.
Qed.
Lemma span_number_slen s : slen (span_number s).1 + slen (span_number s).2 = slen s.
Proof.
  induction s as [|c s IH]; [done|]. cbn. destruct (num_byte c); [|done].
  destruct (span_number s) as [a b]. unfold slen in *. cbn in *. lia.
Qed.
Lemma expect_shorter word v s v' r : word <> EmptyString -> expect word v s = Some (v', r) -> slen r < slen s.
Proof.
  intros Hw. unfold expect. destruct (has_prefix s word) eqn:E; [|done]. intros [= _ <-]. apply has_prefix_slen in E.
  rewrite slen_sdrop. destruct word as [|c word]; [done|]. unfold slen in *. cbn in *. lia.
Qed.
Lemma parse_scalar_shorter s v r : parse_scalar s = Some (v, r) -> slen r < slen s.
Proof.
  unfold parse_scalar. destruct s as [|c s]; [done|]. cbv zeta.
  repeat (case_decide; [by apply expect_shorter|]). pose proof (span_number_slen (String c s)) as Hspan.
  destruct (span_number (String c s)) as [lit rest]. destruct (valid_number lit) eqn:E; [|done]. intros [= _ <-].
  destruct lit; [done|]. unfold slen in *. cbn in *. lia.
Qed.
Lemma parse_shorter n :
  (forall s v r, parse_value n s = Some (v, r) -> slen r < slen s) /\
  (forall s v r, parse_items n s = Some (v, r) -> slen r < slen s) /\
  (forall s v r, parse_fields n s = Some (v, r) -> slen r < slen s).
Proof.
  induction n as [|n (IHv & IHi & IHf)]; [done|]. split_and!; intros s v r; cbn.
  - destruct (next s) as [[c s1]|] eqn:En; cbn; [|done]. pose proof (next_shorter _ _ _ En).
    case_decide; [destruct (parse_chars s1) as [[t r']|] eqn:E; cbn; [|done]; intros [= _ <-]; apply parse_chars_shorter in E; lia|].
    case_decide.
    { destruct (next_is 93 s1) as [r'|] eqn:E; [intros [= _ <-]; apply next_is_shorter in E; lia|].
      destruct (parse_items n s1) as [[l r']|] eqn:Ei; cbn; [|done]. intros [= _ <-]. apply IHi in Ei. lia. }
    case_decide.
    { destruct (next_is 125 s1) as [r'|] eqn:E; [intros [= _ <-]; apply next_is_shorter in E; lia|].
      destruct (parse_fields n s1) as [[l r']|] eqn:Ei; cbn; [|done]. intros [= _ <-]. apply IHf in Ei. lia. }
    intros E%parse_scalar_shorter. pose proof (skip_blank_shorter s). lia.
  - destruct (parse_value n s) as [[x r0]|] eqn:Ev; cbn; [|done]. apply IHv in Ev.
    destruct (next r0) as [[c r1]|] eqn:En; cbn; [|done]. apply next_shorter in En.
    case_decide; [|case_decide; [intros [= _ <-]; lia|done]].
    destruct (parse_items n r1) as [[l r2]|] eqn:Ei; cbn; [|done]. intros [= _ <-]. apply IHi in Ei. lia.
  - destruct (next_is 34 s) as [s1|] eqn:E1; cbn; [|done]. apply next_is_shorter in E1.
    destruct (parse_chars s1) as [[k r0]|] eqn:Ek; cbn; [|done]. apply parse_chars_shorter in Ek.
    destruct (next_is 58 r0) as [r1|] eqn:E2; cbn; [|done]. apply next_is_shorter in E2.
    destruct (parse_value n r1) as [[x r2]|] eqn:Ev; cbn; [|done]. apply IHv in Ev.
    destruct (next r2) as [[c r3]|] eqn:En; cbn; [|done]. apply next_shorter in En.
    case_decide; [|case_decide; [intros [= _ <-]; lia|done]].
    destruct (parse_fields n r3) as [[l r4]|] eqn:Ei; cbn; [|done]. intros [= _ <-]. apply IHf in Ei. lia.
Qed.
(** More fuel than twice the length of the text makes no difference. *)
Lemma parse_fuel n :
  (forall m s, 2 * slen s < n -> 2 * slen s < m -> parse_value n s = parse_value m s) /\
  (forall m s, S (2 * slen s) < n -> S (2 * slen s) < m -> parse_items n s = parse_items m s) /\
  (forall m s, 2 * slen s < n -> 2 * slen s < m -> parse_fields n s = parse_fields m s).
Proof.
  induction n as [|n (IHv & IHi & IHf)]; [split_and!; lia|].
  split_and!; intros [|m] s Hn Hm; try lia; cbn.
  - destruct (next s) as [[c s1]|] eqn:En; cbn; [|done]. apply next_shorter in En. by rewrite (IHi m s1), (IHf m s1) by lia.
  - rewrite (IHv m s) by lia. destruct (parse_value m s) as [[x r]|] eqn:Ev; cbn; [|done]. apply (parse_shorter m) in Ev.
    destruct (next r) as [[c r1]|] eqn:En; cbn; [|done]. apply next_shorter in En. by rewrite (IHi m r1) by lia.
  - destruct (next_is 34 s) as [s1|] eqn:E1; cbn; [|done]. apply next_is_shorter in E1.
    destruct (parse_chars s1) as [[k r]|] eqn:Ek; cbn; [|done]. apply parse_chars_shorter in Ek.
    destruct (next_is 58 r) as [r1|] eqn:E2; cbn; [|done]. apply next_is_shorter in E2. rewrite (IHv m r1) by lia.
    destruct (parse_value m r1) as [[x r2]|] eqn:Ev; cbn; [|done]. apply (parse_shorter m) in Ev.
    destruct (next r2) as [[c r3]|] eqn:En; cbn; [|done]. apply next_shorter in En. by rewrite (IHf m r3) by lia.
Qed.
Lemma parse_value_fuel n s : 2 * slen s < n -> parse_value n s = parse_first s.
Proof. intros H. apply parse_fuel; lia. Qed.

(** ** Reading back what was printed *)
Fixpoint json_ind' (P : json -> Prop) (Hnull : P JNull) (Hbool : forall b, P (JBool b)) (Hnum : forall lit, P (JNum lit))
    (Hstr : forall s, P (JStr s)) (Harr : forall l, Forall P l -> P (JArr l))
    (Hobj : forall l, Forall (fun kv => P kv.2) l -> P (JObj l)) (v : json) : P v :=
  let rec := json_ind' P Hnull Hbool Hnum Hstr Harr Hobj in
  match v with
  | JNull => Hnull
  | JBool b => Hbool b
  | JNum lit => Hnum lit
  | JStr s => Hstr s
  | JArr l => Harr l ((fix all l : Forall P l := match l with [] => Forall_nil_2 _ | x :: l' => Forall_cons_2 _ _ _ (rec x) (all l') end) l)
  | JObj l => Hobj l ((fix all l : Forall (fun kv => P kv.2) l :=
      match l with [] => Forall_nil_2 _ | x :: l' => Forall_cons_2 (fun kv => P kv.2) _ _ (rec x.2) (all l') end) l)
  end.
(** Every number is a JSON number. *)
Fixpoint json_valid (v : json) : bool :=
  match v with
  | JNum lit => valid_number lit
  | JArr l => forallb json_valid l
  | JObj l => forallb (fun kv => json_valid kv.2) l
  | _ => true
  end.
Fixpoint json_size (v : json) : nat :=
  match v with
  | JArr l => S (foldr (fun v n => S (json_size v + n)) 0 l)
  | JObj l => S (foldr (fun kv n => S (json_size kv.2 + n)) 0 l)
  | _ => 1
  end.

Lemma parse_escaped_byte c s : parse_chars (json_escape_byte c +:+ s) = prepend (String c EmptyString) (parse_chars s).
Proof. destruct c as [[] [] [] [] [] [] [] []]; reflexivity. Qed.
Lemma prepend_prepend a b r : prepend a (prepend b r) = prepend (a +:+ b) r.
Proof. destruct r as [[t rest]|]; cbn; [|done]. by rewrite string_app_assoc. Qed.
Lemma parse_escaped t rest : parse_chars (json_escape t +:+ String "034"%char rest) = Some (t, rest).
Proof.
  induction t as [|c t IH]; [done|]. cbn [json_escape]. rewrite <- string_app_assoc, parse_escaped_byte, IH. done.
Qed.
Lemma next_string t rest : exists s, next (json_string t +:+ rest) = Some (34%Z, s) /\ parse_chars s = Some (t, rest).
Proof.
  exists (json_escape t +:+ String "034"%char rest). split; [|apply parse_escaped].
  unfold json_string. by rewrite <- !string_app_assoc.
Qed.

(** What can follow a value. *)
Definition ends_number (rest : string) : Prop := match rest with EmptyString => True | String c _ => num_byte c = false end.
Lemma num_step_byte q c q' : num_step q c = Some q' -> num_byte c = true.
Proof.
  unfold num_step, num_byte. intros H. apply bool_decide_eq_true.
  destruct q; repeat case_decide; try done; repeat (case_bool_decide; try done); lia.
Qed.
Lemma num_run_span q lit rest : num_run q lit = true -> ends_number rest -> span_number (lit +:+ rest) = (lit, rest).
Proof.
  revert q. induction lit as [|c lit IH]; intros q Hq Hr.
  - destruct rest as [|c rest]; [done|]. change (num_byte c = false) in Hr. change (span_number (String c rest) = ("", String c rest)).
    cbn [span_number]. by rewrite Hr.
  - change (span_number (String c (lit +:+ rest)) = (String c lit, rest)). cbn [num_run span_number] in *. destruct (num_step q c) as [q'|] eqn:E; [|done]. rewrite (num_step_byte _ _ _ E), (IH q') by done. done.
Qed.
Lemma valid_number_first lit : valid_number lit = true -> exists c lit', lit = String c lit' /\ (byte_val c = 45 \/ 48 <= byte_val c <= 57)%Z.
Proof.
  destruct lit as [|c lit]; [done|]. unfold valid_number. cbn [num_run].
  destruct (num_step NStart c) as [q|] eqn:E; [|done]. intros _. exists c, lit. split; [done|].
  unfold num_step in E. cbv zeta in E. repeat (case_decide; [lia|]). case_bool_decide; [lia|done].
Qed.
Lemma skip_first c s : json_blank c = false -> skip_blank (String c s) = String c s.
Proof. intros H. cbn [skip_blank]. by rewrite H. Qed.
Lemma next_first c s : json_blank c = false -> next (String c s) = Some (byte_val c, s).
Proof. intros H. unfold next. by rewrite skip_first. Qed.
Lemma parse_print_number n lit rest : valid_number lit = true -> ends_number rest -> parse_value (S n) (lit +:+ rest) = Some (JNum lit, rest).
Proof.
  intros Hv Hr. destruct (valid_number_first lit Hv) as (c & lit' & -> & Hc). change (String c lit' +:+ rest) with (String c (lit' +:+ rest)).
  assert (json_blank c = false) as Hb by (unfold json_blank; apply bool_decide_eq_false; lia).
  cbn [parse_value]. rewrite next_first, skip_first by done. cbn [mbind option_bind]. rewrite !decide_False by lia.
  unfold parse_scalar. cbv zeta. rewrite !decide_False by lia. change (String c (lit' +:+ rest)) with (String c lit' +:+ rest).
  by rewrite (num_run_span NStart), Hv.
Qed.
(** Fuel for the items and fields of a list. *)
Definition items_size (l : list json) : nat := foldr (fun v n => S (json_size v + n)) 0 l.
Definition fields_size (l : list (string * json)) : nat := foldr (fun kv n => S (json_size kv.2 + n)) 0 l.
Definition field_text (kv : string * json) : string := json_string kv.1 +:+ ":" +:+ json_text kv.2.
Definition prints (v : json) : Prop :=
  forall n rest, json_size v <= n -> ends_number rest -> parse_value n (json_text v +:+ rest) = Some (v, rest).
Lemma parse_print_items l n rest :
  l <> [] -> Forall prints l -> items_size l <= n -> parse_items n (join "," (json_text <$> l) +:+ String "]"%char rest) = Some (l, rest).
Proof.
  intros Hne H. revert n. induction H as [|v l Hv _ IH]; intros n Hn; [done|]. cbn [items_size foldr] in Hn.
  change (foldr _ 0 l) with (items_size l) in Hn. destruct n as [|n]; [lia|].
  destruct l as [|v' l].
  - cbn [fmap list_fmap join parse_items]. rewrite Hv by (done || lia). done.
  - change (join "," (json_text <$> v :: v' :: l)) with (json_text v +:+ String ","%char (join "," (json_text <$> v' :: l))).
    rewrite <- string_app_assoc. cbn [parse_items]. rewrite Hv by (done || lia). cbn [mbind option_bind]. 
    change (String "," (join "," (json_text <$> v' :: l)) +:+ String "]" rest) with (String "," (join "," (json_text <$> v' :: l) +:+ String "]" rest)).
    rewrite next_first by done. cbn [mbind option_bind]. rewrite decide_True by done. rewrite IH by (done || lia). done.
Qed.
Lemma parse_print_fields l n rest :
  l <> [] -> Forall (fun kv => prints kv.2) l -> fields_size l <= n ->
  parse_fields n (join "," (field_text <$> l) +:+ String "}"%char rest) = Some (l, rest).
Proof.
  intros Hne H. revert n. induction H as [|[k v] l Hv _ IH]; intros n Hn; [done|]. cbn [fields_size foldr snd] in Hn, Hv.
  change (foldr _ 0 l) with (fields_size l) in Hn. destruct n as [|n]; [lia|]. cbn [parse_fields].
  assert (exists tail, join "," (field_text <$> (k, v) :: l) +:+ String "}" rest = json_string k +:+ String ":" (json_text v +:+ tail) /\
    ends_number tail /\
    ('(c, r3) ← next tail; if decide (c = 44)%Z then '(l, r4) ← parse_fields n r3; Some ((k, v) :: l, r4)
      else if decide (c = 125)%Z then Some ([(k, v)], r3) else None) = Some ((k, v) :: l, rest)) as (tail & -> & Htail & Hrest).
  { destruct l as [|kv l].
    - exists (String "}" rest). split_and!; [|done|done].
      change (join "," (field_text <$> [(k, v)])) with (json_string k +:+ String ":" (json_text v)). by rewrite <- string_app_assoc.
    - exists (String "," (join "," (field_text <$> kv :: l) +:+ String "}" rest)). split_and!; [|done|].
      + change (join "," (field_text <$> (k, v) :: kv :: l)) with ((json_string k +:+ String ":" (json_text v)) +:+ String "," (join "," (field_text <$> kv :: l))).
        by rewrite <- !string_app_assoc.
      + rewrite next_first by done. cbn [mbind option_bind]. rewrite decide_True by done. rewrite IH by (done || lia). done. }
  destruct (next_string k (String ":" (json_text v +:+ tail))) as (s & Hs & Hk).
  assert (next_is 34 (json_string k +:+ String ":" (json_text v +:+ tail)) = Some s) as -> by (unfold next_is; by rewrite Hs).
  cbn [mbind option_bind]. rewrite Hk. cbn [mbind option_bind].
  assert (next_is 58 (String ":" (json_text v +:+ tail)) = Some (json_text v +:+ tail)) as -> by done. cbn [mbind option_bind].
  rewrite Hv by (done || lia). exact Hrest.
Qed.
Lemma next_text v rest : json_valid v = true -> next_is 93 (json_text v +:+ rest) = None.
Proof.
  destruct v as [|[]|lit|s|l|l]; try done. cbn [json_valid json_text]. intros (c & lit' & -> & Hc)%valid_number_first.
  unfold next_is. change (String c lit' +:+ rest) with (String c (lit' +:+ rest)).
  rewrite next_first by (unfold json_blank; apply bool_decide_eq_false; lia). cbn. rewrite decide_False by lia. done.
Qed.
Lemma forallb_Forall {A} (f : A -> bool) l : forallb f l = true <-> Forall (fun x => f x = true) l.
Proof. induction l as [|x l IH]; [done|]. cbn. rewrite andb_true_iff, Forall_cons. naive_solver. Qed.
Lemma expect_print word v rest : expect word v (word +:+ rest) = Some (v, rest).
Proof.
  unfold expect, has_prefix. assert (String.prefix word (word +:+ rest) = true) as ->.
  { induction word as [|c word IH]; [by destruct rest|]. change (String.prefix (String c word) (String c (word +:+ rest)) = true).
    cbn [String.prefix]. destruct (ascii_dec c c) as [_|]; [exact IH|done]. }
  f_equal. f_equal. induction word as [|c word IH]; [by destruct rest|]. exact IH.
Qed.
Lemma valid_prints v : json_valid v = true -> prints v.
Proof.
  induction v as [| |lit|s|l IH|l IH] using json_ind'; intros Hv [|n] rest Hn Hr; cbn [json_size] in Hn; try lia.
  - exact (expect_print "null" JNull rest).
  - destruct b; [exact (expect_print "true" (JBool true) rest)|exact (expect_print "false" (JBool false) rest)].
  - by apply parse_print_number.
  - destruct (next_string s rest) as (s1 & Hs & Hp). cbn [parse_value json_text]. rewrite Hs. cbn [mbind option_bind].
    rewrite decide_True by done. by rewrite Hp.
  - cbn [json_valid] in Hv. apply forallb_Forall in Hv. change (foldr _ 0 l) with (items_size l) in Hn.
    destruct l as [|v l]; [done|]. set (l' := v :: l) in *. cbn [parse_value json_text].
    assert (("[" +:+ join "," (json_text <$> l') +:+ "]") +:+ rest = String "[" (join "," (json_text <$> l') +:+ String "]" rest)) as ->
      by by rewrite <- !string_app_assoc.
    rewrite next_first by done. cbn [mbind option_bind]. rewrite decide_False, decide_True by done.
    assert (next_is 93 (join "," (json_text <$> l') +:+ String "]" rest) = None) as ->.
    { unfold l' in *. apply Forall_cons in Hv as [Hv _]. destruct l as [|v' l]; [by apply next_text|].
      change (join "," (json_text <$> v :: v' :: l)) with (json_text v +:+ String ","%char (join "," (json_text <$> v' :: l))).
      rewrite <- string_app_assoc. by apply next_text. }
    rewrite parse_print_items; [done|done| |lia]. rewrite Forall_forall in *. auto.
  - cbn [json_valid] in Hv. apply forallb_Forall in Hv. change (foldr _ 0 l) with (fields_size l) in Hn.
    destruct l as [|kv l]; [done|]. set (l' := kv :: l) in *. cbn [parse_value].
    change (json_text (JObj l')) with ("{" +:+ join "," (field_text <$> l') +:+ "}").
    assert (("{" +:+ join "," (field_text <$> l') +:+ "}") +:+ rest = String "{" (join "," (field_text <$> l') +:+ String "}" rest)) as ->
      by by rewrite <- !string_app_assoc.
    rewrite next_first by done. cbn [mbind option_bind]. rewrite !decide_False, decide_True by done.
    assert (next_is 125 (join "," (field_text <$> l') +:+ String "}" rest) = None) as ->.
    { unfold l'. destruct l as [|kv' l]; [done|].
      change (join "," (field_text <$> kv :: kv' :: l)) with (field_text kv +:+ String ","%char (join "," (field_text <$> kv' :: l))). done. }
    rewrite parse_print_fields; [done|done| |lia]. rewrite Forall_forall in *. auto.
Qed.
Lemma parse_print v : json_valid v = true -> parse_json (json_text v) = Some v.
Proof.
  intros Hv. set (n := S (2 * slen (json_text v)) + json_size v).
  assert (parse_first (json_text v) = Some (v, EmptyString)) as E.
  { rewrite <- (parse_value_fuel n) by (unfold n; lia). rewrite <- (string_app_nil_r (json_text v)).
    apply valid_prints; [done|unfold n; lia|done]. }
  unfold parse_json. by rewrite E.
Qed.
Lemma itoa_valid z : valid_number (itoa z) = true.
Proof.
  assert (Hchar : forall x, exists c, pretty_N_char x = c /\ forall q, q = NInt -> num_step q c = Some NInt).
  { intros x. eexists; split; [done|]. intros q ->. unfold pretty_N_char. by repeat case_match. }
  assert (Hint : forall x s, num_run NInt s = true -> num_run NInt (pretty_N_go x s) = true).
  { intros x. induction (N.lt_wf_0 x) as [x _ IH]. intros s Hs. destruct (decide (x = 0)%N) as [->|Hx]; [by rewrite pretty_N_go_0|].
    rewrite pretty_N_go_step by lia. apply IH; [apply N.div_lt; lia|]. cbn [num_run].
    destruct (Hchar (x mod 10)%N) as (c & -> & Hc). by rewrite (Hc NInt). }
  assert (Hfirst : forall q, q = NStart \/ q = NNeg -> forall x s, (0 < x)%N -> num_run NInt s = true -> num_run q (pretty_N_go x s) = true).
  { intros q Hq x. induction (N.lt_wf_0 x) as [x _ IH]. intros s Hx Hs. rewrite pretty_N_go_step by lia.
    destruct (decide (x < 10)%N) as [Hlt|Hge].
    - rewrite (N.div_small x 10), (N.mod_small x 10), pretty_N_go_0 by lia. cbn [num_run].
      assert (num_step q (pretty_N_char x) = Some NInt) as ->; [|done].
      assert (x = 1 \/ x = 2 \/ x = 3 \/ x = 4 \/ x = 5 \/ x = 6 \/ x = 7 \/ x = 8 \/ x = 9)%N as Hcases by lia.
      destruct Hq as [-> | ->]; by repeat (destruct Hcases as [-> |Hcases]; [done|]); subst.
    - apply IH; [apply N.div_lt; lia|apply N.div_str_pos; lia|]. cbn [num_run].
      destruct (Hchar (x mod 10)%N) as (c & -> & Hc). by rewrite (Hc NInt). }
  unfold itoa, valid_number, pretty, pretty_Z. destruct z as [|p|p]; [done| |].
  - apply Hfirst; [by left|lia|done].
  - change (num_run NNeg (pretty_N_go (N.pos p) EmptyString) = true). apply Hfirst; [by right|lia|done].
Qed.
Lemma digits_val_pretty x s : (0 < x)%N -> digits_val 0 (pretty_N_go x s) = digits_val (Z.of_N x) s.
Proof.
  assert (Hd : forall d, (d < 10)%N -> digit_val (pretty_N_char d) = Some (Z.of_N d)).
  { intros d Hd. assert (d = 0 \/ d = 1 \/ d = 2 \/ d = 3 \/ d = 4 \/ d = 5 \/ d = 6 \/ d = 7 \/ d = 8 \/ d = 9)%N as Hc by lia.
    by repeat (destruct Hc as [-> |Hc]; [done|]); subst. }
  revert s. induction (N.lt_wf_0 x) as [x _ IH]. intros s Hx. rewrite pretty_N_go_step by lia.
  destruct (decide (x < 10)%N) as [Hlt|Hge].
  - rewrite (N.div_small x 10), (N.mod_small x 10), pretty_N_go_0 by lia. cbn [digits_val]. rewrite Hd by lia. done.
  - rewrite IH; [|apply N.div_lt; lia|apply N.div_str_pos; lia]. cbn [digits_val]. rewrite Hd by (apply N.mod_lt; lia). cbn [mbind option_bind].
    f_equal. rewrite N2Z.inj_div, N2Z.inj_mod. pose proof (Z.div_mod (Z.of_N x) (Z.of_N 10) ltac:(lia)). lia.
Qed.
Lemma parse_int_digits s n : digits_val 0 s = Some n -> s <> EmptyString -> int64_range n -> parse_int s = Some n.
Proof.
  intros H Hne Hn. unfold parse_int. destruct s as [|c s]; [done|].
  assert (c <> "+"%char /\ c <> "-"%char) as [Hp Hm] by (split; intros ->; done).
  rewrite !decide_False by done. rewrite H. cbn. by rewrite decide_True.
Qed.
Lemma parse_int_itoa z : int64_range z -> parse_int (itoa z) = Some z.
Proof.
  assert (Hp : forall p, digits_val 0 (pretty_N_go (N.pos p) "") = Some (Z.pos p)) by (intros p; by rewrite digits_val_pretty).
  assert (Hne : forall p, pretty_N_go (N.pos p) "" <> EmptyString) by (intros p E; pose proof (Hp p) as H; by rewrite E in H).
  intros Hz. unfold itoa, pretty, pretty_Z. destruct z as [|p|p]; [done| |].
  { change (parse_int (pretty_N_go (N.pos p) "") = Some (Z.pos p)). by apply parse_int_digits. }
  change (parse_int (String "-" (pretty_N_go (N.pos p) "")) = Some (Z.neg p)).
  unfold parse_int. rewrite decide_False, decide_True by done. destruct (pretty_N_go (N.pos p) "") as [|c s] eqn:E; [by destruct (Hne p)|].
  pose proof (Hp p) as H. rewrite E in H. rewrite H. cbn. by rewrite decide_True.
Qed.

(** ** Values of type [any]

    A number becomes a [float64]: [format_float] is the text of the nearest float
    as [Marshal] prints it, [None] out of range; an object becomes a
    [map[string]any], of two equal keys the later counts.  Such a value is given
    as the JSON it is printed as, with the keys of maps in order. *)
Definition fields_map {A} (l : list (string * A)) : gmap string A := foldl (fun m kv => <[kv.1 := kv.2]> m) ∅ l.
Definition map_fields {A} (m : gmap string A) : list (string * A) := sort_slice (key_less fst) (map_to_list m).
Definition map_json (m : gmap string json) : json := JObj (map_fields m).
Class FloatLib := { format_float : string -> option string }.
(** The text printed is a number and reads as the same float; whole numbers up
    to 2^53 are floats. *)
Class FloatLaws `{!FloatLib} := {
  law_float_text lit t : format_float lit = Some t -> valid_number t = true /\ format_float t = Some t;
  law_float_whole n : (Z.abs n <= 2 ^ 53)%Z -> format_float (itoa n) = Some (itoa n);
}.
Section any.
Context `{FL : !FloatLib}.

Fixpoint any_value (v : json) : json :=
  match v with
  | JNum lit => match format_float lit with Some t => JNum t | None => JNull end
  | JArr l => JArr (any_value <$> l)
  | JObj l => map_json (fields_map ((fun kv => (kv.1, any_value kv.2)) <$> l))
  | _ => v
  end.
(** No number of the value is out of range, which is an error of the decoder. *)
Fixpoint in_range (v : json) : bool :=
  match v with
  | JNum lit => bool_decide (is_Some (format_float lit))
  | JArr l => forallb in_range l
  | JObj l => forallb (fun kv => in_range kv.2) l
  | _ => true
  end.
(** [Unmarshal] into an [any], and into a [map[string]any] with the error it
    returns: what could be read is in the map then. *)
Definition unmarshal_any (text : string) : option json :=
  v ← parse_json text; if in_range v then Some (any_value v) else None.
Definition any_map (fields : list (string * json)) : gmap string json := fields_map ((fun kv => (kv.1, any_value kv.2)) <$> fields).
Definition unmarshal_map (text : string) : gmap string json * bool :=
  match parse_json text with
  | Some (JObj fields) => (any_map fields, in_range (JObj fields))
  | Some JNull => (∅, true)
  | _ => (∅, false)
  end.

(** The values that decoding gives. *)
Record canonical (v : json) : Prop := {
  ca_valid : json_valid v = true;
  ca_range : in_range v = true;
  ca_value : any_value v = v;
}.
Definition canonical_map (m : gmap string json) : Prop := map_Forall (fun _ v => canonical v) m.
End any.

Lemma fields_map_list {A} (l : list (string * A)) : fields_map l = list_to_map (reverse l).
Proof.
  unfold fields_map. induction l as [|[k v] l IH] using rev_ind; [done|]. rewrite foldl_app, reverse_app, IH. done.
Qed.
Lemma map_fields_perm {A} (m : gmap string A) : map_fields m ≡ₚ map_to_list m.
Proof. apply sort_slice_perm. Qed.
Lemma fields_map_fields {A} (m : gmap string A) : fields_map (map_fields m) = m.
Proof.
  rewrite fields_map_list. rewrite <- (list_to_map_to_list m) at 2. symmetry. apply list_to_map_proper.
  - apply NoDup_fst_map_to_list.
  - symmetry. rewrite reverse_Permutation. apply map_fields_perm.
Qed.
Lemma fields_map_fmap {A B} (f : A -> B) (m : gmap string A) : fields_map ((fun kv => (kv.1, f kv.2)) <$> map_fields m) = f <$> m.
Proof.
  rewrite <- (fields_map_fields m) at 2. rewrite !fields_map_list, <- fmap_reverse. exact (list_to_map_fmap f _).
Qed.
Lemma fields_map_elem {A} (l : list (string * A)) k v : fields_map l !! k = Some v -> (k, v) ∈ l.
Proof. rewrite fields_map_list. intros H%elem_of_list_to_map_2. rewrite elem_of_reverse in H. exact H. Qed.

Section canonical.
Context `{FL : !FloatLib} `{LL : !FloatLaws}.

Lemma any_map_fields (m : gmap string json) : canonical_map m -> any_map (map_fields m) = m.
Proof using Type.
  intros H. unfold any_map. rewrite fields_map_fmap. apply map_eq. intros k. rewrite lookup_fmap.
  destruct (m !! k) as [v|] eqn:E; [|done]. cbn. by rewrite (ca_value v) by (by eapply H).
Qed.
Lemma canonical_object (m : gmap string json) : canonical_map m -> canonical (map_json m).
Proof using Type.
  intros H. assert (Hf : forall kv, kv ∈ map_fields m -> canonical kv.2).
  { intros [k v] Hkv. rewrite map_fields_perm in Hkv. apply elem_of_map_to_list in Hkv. by eapply H. }
  split; cbn.
  - apply forallb_Forall, Forall_forall. intros kv Hkv. by apply Hf.
  - apply forallb_Forall, Forall_forall. intros kv Hkv. by apply Hf.
  - change (map_json (any_map (map_fields m)) = map_json m). by rewrite any_map_fields.
Qed.
Lemma canonical_array l : Forall canonical l -> canonical (JArr l).
Proof using Type.
  intros H. split; cbn; [apply forallb_Forall|apply forallb_Forall|f_equal; rewrite <- (list_fmap_id l) at 2; apply list_fmap_ext];
    [eapply Forall_impl; [exact H|]; intros v Hv; apply Hv..|].
  intros i v Hv. cbn. rewrite Forall_forall in H. by apply ca_value, H, (list_elem_of_lookup_2 _ i).
Qed.
(** Whatever is decoded is canonical. *)
Lemma any_value_canonical v : canonical (any_value v).
Proof using LL.
  induction v as [|b|lit|s|l IH|l IH] using json_ind'; cbn [any_value]; [by split..| |by split| |].
  - destruct (format_float lit) as [t|] eqn:E; [|by split]. apply law_float_text in E as [Hv Ht].
    split; cbn; [done| |by rewrite Ht]. apply bool_decide_eq_true. eauto.
  - apply canonical_array, Forall_fmap. exact IH.
  - apply canonical_object. intros k v Hv%fields_map_elem. apply list_elem_of_fmap in Hv as ([k' v'] & [= -> ->] & Hin).
    rewrite Forall_forall in IH. exact (IH _ Hin).
Qed.
Lemma any_map_canonical fields : canonical_map (any_map fields).
Proof using LL.
  intros k v Hv%fields_map_elem. apply list_elem_of_fmap in Hv as ([k' v'] & [= -> ->] & _). apply any_value_canonical.
Qed.
Lemma unmarshal_map_canonical text m ok : unmarshal_map text = (m, ok) -> canonical_map m.
Proof using LL.
  unfold unmarshal_map. destruct (parse_json text) as [[]|]; intros [= <- _]; try apply map_Forall_empty. apply any_map_canonical.
Qed.
(** What was printed is read back. *)
Lemma unmarshal_any_print v : canonical v -> unmarshal_any (json_text v) = Some v.
Proof using Type. intros [Hv Hr Ha]. unfold unmarshal_any. rewrite parse_print by done. cbn. by rewrite Hr, Ha. Qed.
Lemma unmarshal_map_print m : canonical_map m -> unmarshal_map (json_text (map_json m)) = (m, true).
Proof using Type.
  intros Hm. destruct (canonical_object m Hm) as [Hv Hr _]. unfold unmarshal_map. rewrite parse_print by done.
  unfold map_json in *. rewrite any_map_fields by done. by rewrite Hr.
Qed.
Lemma whole_number_canonical n : (Z.abs n <= 2 ^ 53)%Z -> canonical (JNum (itoa n)).
Proof using LL.
  intros Hn. apply law_float_whole in Hn. split; cbn; [apply itoa_valid|by rewrite Hn|by rewrite Hn].
Qed.
Lemma string_canonical s : canonical (JStr s).
Proof using Type. done. Qed.
End canonical.
#[export] Hint Resolve any_value_canonical any_map_canonical canonical_object canonical_array string_canonical : kube.

(** A library of floats for the witnesses: every number prints as it is read. *)
#[export] Instance exact_floats : FloatLib := { format_float lit := if valid_number lit then Some lit else None }.
#[export] Instance exact_floats_laws : FloatLaws.
Proof.
  split; unfold format_float, exact_floats.
  - intros lit t. destruct (valid_number lit) eqn:E; [|done]. intros [= <-]. by rewrite E.
  - intros n _. by rewrite itoa_valid.
Qed.
