(* ===== verification/Api.v ===== *)
(** * The object model: src/api/v1alpha1 and the Kubernetes types it is used with

    The five custom resources of KubeChan with the fields of their Go structs,
    and, for the built-in Kubernetes kinds the services read, records of the
    fields they read.  A Go pointer to a value is an [option]; a string type
    with a set of constants is [string], since an object may also carry the
    empty string before its status is written. *)

From stdpp Require Import sorting.
From stdpp Require Import prelude gmap strings list.
From S2P Require Import Prelude GoBase.

(** ** Objects: metadata, spec and status *)
Record OwnerReference := mkOwnerReference {
  or_APIVersion : string;
  or_Kind : string;
  or_Name : string;
  or_Controller : option bool;
}.
(** [TypeMeta.Kind] as the client filled it in, and the [ObjectMeta] fields in use. *)
Record ObjectMeta := mkObjectMeta {
  om_Kind : string;
  om_Name : string;
  om_GenerateName : string;
  om_Namespace : string;
  om_Labels : gmap string string;
  om_Annotations : gmap string string;
  om_CreationTimestamp : Time;
  om_OwnerReferences : list OwnerReference;
}.
Record Object (S T : Type) := mkObject {
  meta : ObjectMeta;
  spec : S;
  status : T;
}.
Arguments mkObject {_ _} _ _ _.
Arguments meta {_ _} _.
Arguments spec {_ _} _.
Arguments status {_ _} _.

#[export] Instance OwnerReference_eq_dec : EqDecision OwnerReference.
Proof. solve_decision. Defined.
#[export] Instance ObjectMeta_eq_dec : EqDecision ObjectMeta.
Proof. solve_decision. Defined.
#[export] Instance Object_eq_dec S T `{EqDecision S, EqDecision T} : EqDecision (Object S T).
Proof. solve_decision. Defined.

Section objects.
Context {S T : Type}.
Implicit Types o : Object S T.
Definition obj_name o : string := om_Name (meta o).
Definition obj_namespace o : string := om_Namespace (meta o).
Definition obj_labels o : gmap string string := om_Labels (meta o).
(** [obj.Spec = s] and [obj.Status = t] on the caller's copy. *)
Definition with_spec o (s : S) : Object S T := mkObject (meta o) s (status o).
Definition with_status o (t : T) : Object S T := mkObject (meta o) (spec o) t.
(** [obj.Labels[k] = v]. *)
Definition with_label o (k v : string) : Object S T :=
  mkObject (mkObjectMeta (om_Kind (meta o)) (om_Name (meta o)) (om_GenerateName (meta o)) (om_Namespace (meta o))
    (<[k := v]> (om_Labels (meta o))) (om_Annotations (meta o)) (om_CreationTimestamp (meta o))
    (om_OwnerReferences (meta o))) (spec o) (status o).
End objects.

(** Metadata of an object a service builds itself. *)
Definition new_meta (name generateName namespace : string) (labels : gmap string string) : ObjectMeta :=
  mkObjectMeta EmptyString name generateName namespace labels ∅ 0%Z [].

(** ** ResourceRef and ProblemCase (problemcase_types.go) *)
Definition SeverityCritical : string := "critical".
Definition SeverityHigh : string := "high".
Definition SeverityMedium : string := "medium".
Definition SeverityLow : string := "low".

Definition ProblemCaseStateOpen : string := "open".
Definition ProblemCaseStateInvestigating : string := "investigating".
Definition ProblemCaseStateResolved : string := "resolved".

Record ResourceRef := mkResourceRef {
  rr_Namespace : string;
  rr_Kind : string;
  rr_Name : string;
  rr_APIGroup : string;
  rr_EvidenceSlices : list string;
}.
(** A reference with the fields every literal of the services sets. *)
Definition ref_to (namespace kind name : string) : ResourceRef :=
  mkResourceRef namespace kind name EmptyString [].

#[export] Instance ResourceRef_eq_dec : EqDecision ResourceRef.
Proof. solve_decision. Defined.

Record ProblemCaseSpec := mkProblemCaseSpec {
  pcs_AffectedResource : ResourceRef;
  pcs_Detector : string;
  pcs_Severity : string;
  pcs_Symptoms : list string;
  pcs_RelatedResources : list ResourceRef;
}.
Record ProblemCaseStatus := mkProblemCaseStatus {
  pct_State : string;
  pct_FirstSeen : option Time;
  pct_LastSeen : option Time;
  pct_ResolvedAt : option Time;
  pct_LatestDiagnosticRunRef : string;
  pct_LatestAnalysisResultRef : string;
}.
Definition ProblemCase := Object ProblemCaseSpec ProblemCaseStatus.
Definition zeroProblemCaseStatus : ProblemCaseStatus :=
  mkProblemCaseStatus EmptyString None None None EmptyString EmptyString.

#[export] Instance ProblemCaseSpec_eq_dec : EqDecision ProblemCaseSpec.
Proof. solve_decision. Defined.
#[export] Instance ProblemCaseStatus_eq_dec : EqDecision ProblemCaseStatus.
Proof. solve_decision. Defined.

(** ** Incident (incident_types.go) *)
Definition IncidentStateOpen : string := "open".
Definition IncidentStateResolved : string := "resolved".

Record IncidentSpec := mkIncidentSpec {
  ins_RootResource : ResourceRef;
  ins_ProblemCases : list string;
  ins_Source : string;
  ins_UserMessage : string;
  ins_RelatedResources : list ResourceRef;
  ins_FalsePositive : bool;
}.
Record IncidentStatus := mkIncidentStatus {
  int_State : string;
  int_OpenedAt : option Time;
  int_ResolvedAt : option Time;
  int_ActiveProblemCases : Z;
  int_OccurrenceCount : Z;
  int_LastOccurrenceAt : option Time;
}.
Definition Incident := Object IncidentSpec IncidentStatus.
Definition zeroIncidentStatus : IncidentStatus := mkIncidentStatus EmptyString None None 0%Z 0%Z None.

#[export] Instance IncidentSpec_eq_dec : EqDecision IncidentSpec.
Proof. solve_decision. Defined.
#[export] Instance IncidentStatus_eq_dec : EqDecision IncidentStatus.
Proof. solve_decision. Defined.

(** ** KubechanExclusionRule (exclusionrule_types.go) *)
Record ExclusionSelector := mkExclusionSelector {
  sel_Namespace : string;
  sel_Kinds : list string;
  sel_MatchLabels : gmap string string;
}.
Record ExclusionPeriod := mkExclusionPeriod {
  per_Start : string;
  per_End : string;
  per_Days : list string;
}.
Record ExclusionTimeWindow := mkExclusionTimeWindow {
  tw_Timezone : string;
  tw_Periods : list ExclusionPeriod;
}.
Record ExclusionRuleSpec := mkExclusionRuleSpec {
  ers_Description : string;
  ers_Enabled : bool;
  ers_Namespace : string;
  ers_Detectors : list string;
  ers_TargetResources : list ResourceRef;
  ers_Selector : option ExclusionSelector;
  ers_TimeWindow : option ExclusionTimeWindow;
}.
Record ExclusionRuleStatus := mkExclusionRuleStatus {
  ert_LastMatchedAt : option Time;
  ert_SuppressedCount : Z;
}.
Definition KubechanExclusionRule := Object ExclusionRuleSpec ExclusionRuleStatus.

(** ** DiagnosticRun (diagnosticrun_types.go) *)
Definition DiagnosticRunStatePending : string := "pending".
Definition DiagnosticRunStateRunning : string := "running".
Definition DiagnosticRunStateCompleted : string := "completed".
Definition DiagnosticRunStateFailed : string := "failed".
Definition DiagnosticRunAnalysisStateNotQueued : string := "not_queued".
Definition DiagnosticRunAnalysisStateInProgress : string := "in_progress".
Definition DiagnosticRunAnalysisStateCompleted : string := "completed".
Definition DiagnosticRunAnalysisStateFailed : string := "failed".

Record RedactionSummary := mkRedactionSummary {
  rs_PatternsApplied : Z;
  rs_RedactedFields : list string;
}.
Record LogTruncationInfo := mkLogTruncationInfo {
  lti_Truncated : bool;
  lti_OriginalBytes : Z;
  lti_TruncatedBytes : Z;
}.
Record DiagnosticRunSpec := mkDiagnosticRunSpec {
  drs_IncidentRef : string;
  drs_ProblemCaseRef : string;
  drs_RequestedAt : option Time;
}.
Record DiagnosticRunStatus := mkDiagnosticRunStatus {
  drt_State : string;
  drt_CollectedAt : option Time;
  drt_CollectorVersion : string;
  drt_EvidenceRef : string;
  drt_CollectionErrors : list string;
  drt_RedactionSummary : option RedactionSummary;
  drt_LogTruncationInfo : option LogTruncationInfo;
  drt_AnalysisState : string;
  drt_AnalysisResultRef : string;
}.
Definition DiagnosticRun := Object DiagnosticRunSpec DiagnosticRunStatus.
Definition zeroDiagnosticRunStatus : DiagnosticRunStatus :=
  mkDiagnosticRunStatus EmptyString None EmptyString EmptyString [] None None EmptyString EmptyString.

(** ** KubeChanState (kubechanstate_types.go) *)
Definition MoodCalm : Z := 0.
Definition MoodIrritated : Z := 1.
Definition MoodRage : Z := 2.

Record KubeChanStateSpec := mkKubeChanStateSpec {}.
Record KubeChanStateStatus := mkKubeChanStateStatus {
  kct_MoodLevel : Z;
  kct_OpenIncidentCount : Z;
  kct_PokeCount : Z;
  kct_PokeExpiresAt : option Time;
  kct_UpdatedAt : option Time;
}.
Definition KubeChanState := Object KubeChanStateSpec KubeChanStateStatus.
Definition zeroKubeChanStateStatus : KubeChanStateStatus := mkKubeChanStateStatus 0%Z 0%Z 0%Z None None.

(** ** Built-in kinds: the fields the services read *)
Record ContainerStatus := mkContainerStatus {
  cst_Name : string;
  cst_Image : string;
  cst_RestartCount : Z;
  cst_Waiting : option string;   (** [State.Waiting.Reason] when waiting *)
}.
Record PodStatus := mkPodStatus {
  pot_Phase : string;
  pot_ContainerStatuses : list ContainerStatus;
  pot_InitContainerStatuses : list ContainerStatus;
}.
Definition PodPending : string := "Pending".
Definition Pod := Object () PodStatus.

Record DeploymentCondition := mkDeploymentCondition {
  dc_Type : string;
  dc_Status : string;
  dc_LastTransitionTime : Time;
}.
Record DeploymentSpec := mkDeploymentSpec {
  des_Replicas : option Z;
  des_TemplateLabels : gmap string string;
}.
Record DeploymentStatus := mkDeploymentStatus {
  det_AvailableReplicas : Z;
  det_UnavailableReplicas : Z;
  det_ReadyReplicas : Z;
  det_Conditions : list DeploymentCondition;
}.
Definition DeploymentAvailable : string := "Available".
Definition ConditionFalse : string := "False".
Definition Deployment := Object DeploymentSpec DeploymentStatus.

Record ServiceSpec := mkServiceSpec {
  svs_Type : string;
  svs_ClusterIP : string;
  svs_Selector : gmap string string;
}.
Definition ServiceTypeClusterIP : string := "ClusterIP".
Definition ServiceTypeExternalName : string := "ExternalName".
Record ServiceStatus := mkServiceStatus {}.
Definition Service := Object ServiceSpec ServiceStatus.

Record NodeSpec := mkNodeSpec {}.
Record NodeStatus := mkNodeStatus {}.
Definition Node := Object NodeSpec NodeStatus.

(** A StatefulSet and a DaemonSet: the labels of their pod template. *)
Record StatefulSetSpec := mkStatefulSetSpec { sts_TemplateLabels : gmap string string }.
Definition StatefulSet := Object StatefulSetSpec ().
Record DaemonSetSpec := mkDaemonSetSpec { dss_TemplateLabels : gmap string string }.
Definition DaemonSet := Object DaemonSetSpec ().

(** One [Endpoint]: its [Conditions.Ready] and its number of addresses. *)
Record Endpoint := mkEndpoint { ep_Ready : option bool; ep_Addresses : list string }.
Record EndpointSliceSpec := mkEndpointSliceSpec { es_Endpoints : list Endpoint }.
Definition EndpointSlice := Object EndpointSliceSpec ().

(** A [client.Object] whose dynamic type a caller asks for. *)
Inductive ClientObject :=
  | PodObject (p : Pod)
  | DeploymentObject (d : Deployment)
  | ServiceObject (s : Service)
  | NodeObject (n : Node).

Definition co_meta (o : ClientObject) : ObjectMeta :=
  match o with
  | PodObject p => meta p
  | DeploymentObject d => meta d
  | ServiceObject s => meta s
  | NodeObject n => meta n
  end.
