(* ===== verification/DeepCopy.v ===== *)
(** * Deep copies of the custom resources (api/v1alpha1/zz_generated.deepcopy.go)

    The structs of the custom resources with their pointers, slices and maps as
    references into a memory ([Heap]), the generated functions that copy them, and
    what [view] reads behind a struct: the value of [Api].  [DeepCopyInto] is a
    function of the struct [in] to the struct it leaves in [out].  What the
    functions call of apimachinery is the class [ApiMachinery]. *)

From stdpp Require Import sorting.
From stdpp Require Import prelude gmap strings list fin_maps.
From S2P Require Import Prelude GoBase Heap Api.

(** ** The structs *)
Record goOwnerReference := mkGoOwnerReference {
  gor_APIVersion : string;
  gor_Kind : string;
  gor_Name : string;
  gor_Controller : Ptr bool;
}.
(** The fields of [ObjectMeta] that [Api] has, and the pointer of [ListMeta]. *)
Record goObjectMeta := mkGoObjectMeta {
  gom_Name : string;
  gom_GenerateName : string;
  gom_Namespace : string;
  gom_Labels : MapRef;
  gom_Annotations : MapRef;
  gom_CreationTimestamp : Time;
  gom_OwnerReferences : Slice goOwnerReference;
}.
Record goListMeta := mkGoListMeta { glm_RemainingItemCount : Ptr Z }.
Record goObject (S T : Type) := mkGoObject {
  gob_TypeMeta : string;
  gob_ObjectMeta : goObjectMeta;
  gob_Spec : S;
  gob_Status : T;
}.
Arguments mkGoObject {_ _} _ _ _ _.
Arguments gob_TypeMeta {_ _} _.
Arguments gob_ObjectMeta {_ _} _.
Arguments gob_Spec {_ _} _.
Arguments gob_Status {_ _} _.
Record goList (I : Type) := mkGoList {
  gli_TypeMeta : string;
  gli_ListMeta : goListMeta;
  gli_Items : Slice I;
}.
Arguments mkGoList {_} _ _ _.
Arguments gli_TypeMeta {_} _.
Arguments gli_ListMeta {_} _.
Arguments gli_Items {_} _.
Record goResourceRef := mkGoResourceRef {
  grr_Namespace : string;
  grr_Kind : string;
  grr_Name : string;
  grr_APIGroup : string;
  grr_EvidenceSlices : Slice string;
}.
Record goProblemCaseSpec := mkGoProblemCaseSpec {
  gpcs_AffectedResource : goResourceRef;
  gpcs_Detector : string;
  gpcs_Severity : string;
  gpcs_Symptoms : Slice string;
  gpcs_RelatedResources : Slice goResourceRef;
}.
Record goProblemCaseStatus := mkGoProblemCaseStatus {
  gpct_State : string;
  gpct_FirstSeen : Ptr Time;
  gpct_LastSeen : Ptr Time;
  gpct_ResolvedAt : Ptr Time;
  gpct_LatestDiagnosticRunRef : string;
  gpct_LatestAnalysisResultRef : string;
}.
Record goIncidentSpec := mkGoIncidentSpec {
  gins_RootResource : goResourceRef;
  gins_ProblemCases : Slice string;
  gins_Source : string;
  gins_UserMessage : string;
  gins_RelatedResources : Slice goResourceRef;
  gins_FalsePositive : bool;
}.
Record goIncidentStatus := mkGoIncidentStatus {
  gint_State : string;
  gint_OpenedAt : Ptr Time;
  gint_ResolvedAt : Ptr Time;
  gint_ActiveProblemCases : Z;
  gint_OccurrenceCount : Z;
  gint_LastOccurrenceAt : Ptr Time;
}.
Record goExclusionSelector := mkGoExclusionSelector {
  gsel_Namespace : string;
  gsel_Kinds : Slice string;
  gsel_MatchLabels : MapRef;
}.
Record goExclusionPeriod := mkGoExclusionPeriod {
  gper_Start : string;
  gper_End : string;
  gper_Days : Slice string;
}.
Record goExclusionTimeWindow := mkGoExclusionTimeWindow {
  gtw_Timezone : string;
  gtw_Periods : Slice goExclusionPeriod;
}.
Record goExclusionRuleSpec := mkGoExclusionRuleSpec {
  gers_Description : string;
  gers_Enabled : bool;
  gers_Namespace : string;
  gers_Detectors : Slice string;
  gers_TargetResources : Slice goResourceRef;
  gers_Selector : Ptr goExclusionSelector;
  gers_TimeWindow : Ptr goExclusionTimeWindow;
}.
Record goExclusionRuleStatus := mkGoExclusionRuleStatus {
  gert_LastMatchedAt : Ptr Time;
  gert_SuppressedCount : Z;
}.
Record goRedactionSummary := mkGoRedactionSummary {
  grs_PatternsApplied : Z;
  grs_RedactedFields : Slice string;
}.
Record goDiagnosticRunSpec := mkGoDiagnosticRunSpec {
  gdrs_IncidentRef : string;
  gdrs_ProblemCaseRef : string;
  gdrs_RequestedAt : Ptr Time;
}.
Record goDiagnosticRunStatus := mkGoDiagnosticRunStatus {
  gdrt_State : string;
  gdrt_CollectedAt : Ptr Time;
  gdrt_CollectorVersion : string;
  gdrt_EvidenceRef : string;
  gdrt_CollectionErrors : Slice string;
  gdrt_RedactionSummary : Ptr goRedactionSummary;
  gdrt_LogTruncationInfo : Ptr LogTruncationInfo;
  gdrt_AnalysisState : string;
  gdrt_AnalysisResultRef : string;
}.
Record goKubeChanStateStatus := mkGoKubeChanStateStatus {
  gkct_MoodLevel : Z;
  gkct_OpenIncidentCount : Z;
  gkct_PokeCount : Z;
  gkct_PokeExpiresAt : Ptr Time;
  gkct_UpdatedAt : Ptr Time;
}.
Definition goProblemCase := goObject goProblemCaseSpec goProblemCaseStatus.
Definition goProblemCaseList := goList goProblemCase.
Definition goIncident := goObject goIncidentSpec goIncidentStatus.
Definition goIncidentList := goList goIncident.
Definition goKubechanExclusionRule := goObject goExclusionRuleSpec goExclusionRuleStatus.
Definition goKubechanExclusionRuleList := goList goKubechanExclusionRule.
Definition goDiagnosticRun := goObject goDiagnosticRunSpec goDiagnosticRunStatus.
Definition goDiagnosticRunList := goList goDiagnosticRun.
Definition goKubeChanState := goObject KubeChanStateSpec goKubeChanStateStatus.
Definition goKubeChanStateList := goList goKubeChanState.

Definition zero_goObjectMeta : goObjectMeta := mkGoObjectMeta EmptyString EmptyString EmptyString None None 0%Z None.
Definition zero_goResourceRef : goResourceRef := mkGoResourceRef EmptyString EmptyString EmptyString EmptyString None.
Definition zero_goProblemCaseSpec : goProblemCaseSpec := mkGoProblemCaseSpec zero_goResourceRef EmptyString EmptyString None None.
Definition zero_goProblemCaseStatus : goProblemCaseStatus := mkGoProblemCaseStatus EmptyString None None None EmptyString EmptyString.
Definition zero_goIncidentSpec : goIncidentSpec := mkGoIncidentSpec zero_goResourceRef None EmptyString EmptyString None false.
Definition zero_goIncidentStatus : goIncidentStatus := mkGoIncidentStatus EmptyString None None 0%Z 0%Z None.
Definition zero_goExclusionSelector : goExclusionSelector := mkGoExclusionSelector EmptyString None None.
Definition zero_goExclusionPeriod : goExclusionPeriod := mkGoExclusionPeriod EmptyString EmptyString None.
Definition zero_goExclusionTimeWindow : goExclusionTimeWindow := mkGoExclusionTimeWindow EmptyString None.
Definition zero_goExclusionRuleSpec : goExclusionRuleSpec := mkGoExclusionRuleSpec EmptyString false EmptyString None None None None.
Definition zero_goExclusionRuleStatus : goExclusionRuleStatus := mkGoExclusionRuleStatus None 0%Z.
Definition zero_goRedactionSummary : goRedactionSummary := mkGoRedactionSummary 0%Z None.
Definition zero_goDiagnosticRunSpec : goDiagnosticRunSpec := mkGoDiagnosticRunSpec EmptyString EmptyString None.
Definition zero_goDiagnosticRunStatus : goDiagnosticRunStatus := mkGoDiagnosticRunStatus EmptyString None EmptyString EmptyString None None None EmptyString EmptyString.
Definition zero_goKubeChanStateStatus : goKubeChanStateStatus := mkGoKubeChanStateStatus 0%Z 0%Z 0%Z None None.

(** ** The memory they live in: arrays of each type

    A [metav1.Time] is its instant, an integer. *)
Inductive Cell :=
  | OfString (l : list string)
  | OfBool (l : list bool)
  | OfInt (l : list Z)
  | OfMap (l : list (gmap string string))
  | OfOwnerReference (l : list goOwnerReference)
  | OfResourceRef (l : list goResourceRef)
  | OfProblemCaseSpec (l : list goProblemCaseSpec)
  | OfProblemCaseStatus (l : list goProblemCaseStatus)
  | OfIncidentSpec (l : list goIncidentSpec)
  | OfIncidentStatus (l : list goIncidentStatus)
  | OfExclusionSelector (l : list goExclusionSelector)
  | OfExclusionPeriod (l : list goExclusionPeriod)
  | OfExclusionTimeWindow (l : list goExclusionTimeWindow)
  | OfExclusionRuleSpec (l : list goExclusionRuleSpec)
  | OfExclusionRuleStatus (l : list goExclusionRuleStatus)
  | OfRedactionSummary (l : list goRedactionSummary)
  | OfDiagnosticRunSpec (l : list goDiagnosticRunSpec)
  | OfDiagnosticRunStatus (l : list goDiagnosticRunStatus)
  | OfKubeChanStateStatus (l : list goKubeChanStateStatus)
  | OfLogTruncationInfo (l : list LogTruncationInfo)
  | OfKubeChanStateSpec (l : list KubeChanStateSpec)
  | OfProblemCase (l : list goProblemCase)
  | OfProblemCaseList (l : list goProblemCaseList)
  | OfIncident (l : list goIncident)
  | OfIncidentList (l : list goIncidentList)
  | OfKubechanExclusionRule (l : list goKubechanExclusionRule)
  | OfKubechanExclusionRuleList (l : list goKubechanExclusionRuleList)
  | OfDiagnosticRun (l : list goDiagnosticRun)
  | OfDiagnosticRunList (l : list goDiagnosticRunList)
  | OfKubeChanState (l : list goKubeChanState)
  | OfKubeChanStateList (l : list goKubeChanStateList).
Abbreviation heap := (gmap positive Cell).
Abbreviation goM := (@go Cell).
Abbreviation Stored := (@GoType Cell).
Abbreviation ViewOf := (@View Cell).
#[export] Instance GoType_String : Stored string := 
  {| zero := EmptyString; box := OfString;
     unbox c := match c with OfString l => Some l | _ => None end; unbox_box _ := eq_refl |}.
#[export] Instance GoType_Bool : Stored bool := 
  {| zero := false; box := OfBool;
     unbox c := match c with OfBool l => Some l | _ => None end; unbox_box _ := eq_refl |}.
#[export] Instance GoType_Int : Stored Z := 
  {| zero := 0%Z; box := OfInt;
     unbox c := match c with OfInt l => Some l | _ => None end; unbox_box _ := eq_refl |}.
#[export] Instance GoType_Map : Stored (gmap string string) := 
  {| zero := ∅; box := OfMap;
     unbox c := match c with OfMap l => Some l | _ => None end; unbox_box _ := eq_refl |}.
#[export] Instance GoType_OwnerReference : Stored goOwnerReference := 
  {| zero := (mkGoOwnerReference EmptyString EmptyString EmptyString None); box := OfOwnerReference;
     unbox c := match c with OfOwnerReference l => Some l | _ => None end; unbox_box _ := eq_refl |}.
#[export] Instance GoType_ResourceRef : Stored goResourceRef := 
  {| zero := zero_goResourceRef; box := OfResourceRef;
     unbox c := match c with OfResourceRef l => Some l | _ => None end; unbox_box _ := eq_refl |}.
#[export] Instance GoType_ProblemCaseSpec : Stored goProblemCaseSpec := 
  {| zero := zero_goProblemCaseSpec; box := OfProblemCaseSpec;
     unbox c := match c with OfProblemCaseSpec l => Some l | _ => None end; unbox_box _ := eq_refl |}.
#[export] Instance GoType_ProblemCaseStatus : Stored goProblemCaseStatus := 
  {| zero := zero_goProblemCaseStatus; box := OfProblemCaseStatus;
     unbox c := match c with OfProblemCaseStatus l => Some l | _ => None end; unbox_box _ := eq_refl |}.
#[export] Instance GoType_IncidentSpec : Stored goIncidentSpec := 
  {| zero := zero_goIncidentSpec; box := OfIncidentSpec;
     unbox c := match c with OfIncidentSpec l => Some l | _ => None end; unbox_box _ := eq_refl |}.
#[export] Instance GoType_IncidentStatus : Stored goIncidentStatus := 
  {| zero := zero_goIncidentStatus; box := OfIncidentStatus;
     unbox c := match c with OfIncidentStatus l => Some l | _ => None end; unbox_box _ := eq_refl |}.
#[export] Instance GoType_ExclusionSelector : Stored goExclusionSelector := 
  {| zero := zero_goExclusionSelector; box := OfExclusionSelector;
     unbox c := match c with OfExclusionSelector l => Some l | _ => None end; unbox_box _ := eq_refl |}.
#[export] Instance GoType_ExclusionPeriod : Stored goExclusionPeriod := 
  {| zero := zero_goExclusionPeriod; box := OfExclusionPeriod;
     unbox c := match c with OfExclusionPeriod l => Some l | _ => None end; unbox_box _ := eq_refl |}.
#[export] Instance GoType_ExclusionTimeWindow : Stored goExclusionTimeWindow := 
  {| zero := zero_goExclusionTimeWindow; box := OfExclusionTimeWindow;
     unbox c := match c with OfExclusionTimeWindow l => Some l | _ => None end; unbox_box _ := eq_refl |}.
#[export] Instance GoType_ExclusionRuleSpec : Stored goExclusionRuleSpec := 
  {| zero := zero_goExclusionRuleSpec; box := OfExclusionRuleSpec;
     unbox c := match c with OfExclusionRuleSpec l => Some l | _ => None end; unbox_box _ := eq_refl |}.
#[export] Instance GoType_ExclusionRuleStatus : Stored goExclusionRuleStatus := 
  {| zero := zero_goExclusionRuleStatus; box := OfExclusionRuleStatus;
     unbox c := match c with OfExclusionRuleStatus l => Some l | _ => None end; unbox_box _ := eq_refl |}.
#[export] Instance GoType_RedactionSummary : Stored goRedactionSummary := 
  {| zero := zero_goRedactionSummary; box := OfRedactionSummary;
     unbox c := match c with OfRedactionSummary l => Some l | _ => None end; unbox_box _ := eq_refl |}.
#[export] Instance GoType_DiagnosticRunSpec : Stored goDiagnosticRunSpec := 
  {| zero := zero_goDiagnosticRunSpec; box := OfDiagnosticRunSpec;
     unbox c := match c with OfDiagnosticRunSpec l => Some l | _ => None end; unbox_box _ := eq_refl |}.
#[export] Instance GoType_DiagnosticRunStatus : Stored goDiagnosticRunStatus := 
  {| zero := zero_goDiagnosticRunStatus; box := OfDiagnosticRunStatus;
     unbox c := match c with OfDiagnosticRunStatus l => Some l | _ => None end; unbox_box _ := eq_refl |}.
#[export] Instance GoType_KubeChanStateStatus : Stored goKubeChanStateStatus := 
  {| zero := zero_goKubeChanStateStatus; box := OfKubeChanStateStatus;
     unbox c := match c with OfKubeChanStateStatus l => Some l | _ => None end; unbox_box _ := eq_refl |}.
#[export] Instance GoType_LogTruncationInfo : Stored LogTruncationInfo := 
  {| zero := (mkLogTruncationInfo false 0 0); box := OfLogTruncationInfo;
     unbox c := match c with OfLogTruncationInfo l => Some l | _ => None end; unbox_box _ := eq_refl |}.
#[export] Instance GoType_KubeChanStateSpec : Stored KubeChanStateSpec := 
  {| zero := mkKubeChanStateSpec; box := OfKubeChanStateSpec;
     unbox c := match c with OfKubeChanStateSpec l => Some l | _ => None end; unbox_box _ := eq_refl |}.
#[export] Instance GoType_ProblemCase : Stored goProblemCase := 
  {| zero := (mkGoObject EmptyString zero_goObjectMeta zero_goProblemCaseSpec zero_goProblemCaseStatus); box := OfProblemCase;
     unbox c := match c with OfProblemCase l => Some l | _ => None end; unbox_box _ := eq_refl |}.
#[export] Instance GoType_ProblemCaseList : Stored goProblemCaseList := 
  {| zero := (mkGoList EmptyString (mkGoListMeta None) None); box := OfProblemCaseList;
     unbox c := match c with OfProblemCaseList l => Some l | _ => None end; unbox_box _ := eq_refl |}.
#[export] Instance GoType_Incident : Stored goIncident := 
  {| zero := (mkGoObject EmptyString zero_goObjectMeta zero_goIncidentSpec zero_goIncidentStatus); box := OfIncident;
     unbox c := match c with OfIncident l => Some l | _ => None end; unbox_box _ := eq_refl |}.
#[export] Instance GoType_IncidentList : Stored goIncidentList := 
  {| zero := (mkGoList EmptyString (mkGoListMeta None) None); box := OfIncidentList;
     unbox c := match c with OfIncidentList l => Some l | _ => None end; unbox_box _ := eq_refl |}.
#[export] Instance GoType_KubechanExclusionRule : Stored goKubechanExclusionRule := 
  {| zero := (mkGoObject EmptyString zero_goObjectMeta zero_goExclusionRuleSpec zero_goExclusionRuleStatus); box := OfKubechanExclusionRule;
     unbox c := match c with OfKubechanExclusionRule l => Some l | _ => None end; unbox_box _ := eq_refl |}.
#[export] Instance GoType_KubechanExclusionRuleList : Stored goKubechanExclusionRuleList := 
  {| zero := (mkGoList EmptyString (mkGoListMeta None) None); box := OfKubechanExclusionRuleList;
     unbox c := match c with OfKubechanExclusionRuleList l => Some l | _ => None end; unbox_box _ := eq_refl |}.
#[export] Instance GoType_DiagnosticRun : Stored goDiagnosticRun := 
  {| zero := (mkGoObject EmptyString zero_goObjectMeta zero_goDiagnosticRunSpec zero_goDiagnosticRunStatus); box := OfDiagnosticRun;
     unbox c := match c with OfDiagnosticRun l => Some l | _ => None end; unbox_box _ := eq_refl |}.
#[export] Instance GoType_DiagnosticRunList : Stored goDiagnosticRunList := 
  {| zero := (mkGoList EmptyString (mkGoListMeta None) None); box := OfDiagnosticRunList;
     unbox c := match c with OfDiagnosticRunList l => Some l | _ => None end; unbox_box _ := eq_refl |}.
#[export] Instance GoType_KubeChanState : Stored goKubeChanState := 
  {| zero := (mkGoObject EmptyString zero_goObjectMeta mkKubeChanStateSpec zero_goKubeChanStateStatus); box := OfKubeChanState;
     unbox c := match c with OfKubeChanState l => Some l | _ => None end; unbox_box _ := eq_refl |}.
#[export] Instance GoType_KubeChanStateList : Stored goKubeChanStateList := 
  {| zero := (mkGoList EmptyString (mkGoListMeta None) None); box := OfKubeChanStateList;
     unbox c := match c with OfKubeChanStateList l => Some l | _ => None end; unbox_box _ := eq_refl |}.

(** ** The values behind them *)
Ltac view_struct V :=
  intros Hs; unfold V;
  repeat match goal with
  | |- context [view ?h ?f ≫= _] =>
      lazymatch type of Hs with h ⊆ _ => idtac end; let E := fresh "E" in destruct (view h f) eqn:E; [|by intros];
      rewrite (view_mono _ _ _ _ Hs E); cbn [mbind option_bind]
  end; done.

#[export] Program Instance View_LogTruncationInfo : ViewOf LogTruncationInfo LogTruncationInfo := {| view _ x := Some x |}.
Solve Obligations with done.
#[export] Program Instance View_KubeChanStateSpec : ViewOf KubeChanStateSpec KubeChanStateSpec := {| view _ x := Some x |}.
Solve Obligations with done.
Definition view_OwnerReference (h : heap) (x : goOwnerReference) : option OwnerReference :=
  controller ← view h (gor_Controller x);
  Some (mkOwnerReference (gor_APIVersion x) (gor_Kind x) (gor_Name x) controller).
Lemma view_OwnerReference_mono h h' x a : h ⊆ h' -> view_OwnerReference h x = Some a -> view_OwnerReference h' x = Some a.
Proof. view_struct view_OwnerReference. Qed.
#[export] Instance View_OwnerReference : ViewOf goOwnerReference OwnerReference :=
  {| view := view_OwnerReference; view_mono := view_OwnerReference_mono |}.
(** The kind is the [TypeMeta] of the object. *)
Definition view_ObjectMeta (h : heap) (x : goObjectMeta) : option ObjectMeta :=
  labels ← view h (gom_Labels x);
  annotations ← view h (gom_Annotations x);
  owners ← view h (gom_OwnerReferences x);
  Some (mkObjectMeta EmptyString (gom_Name x) (gom_GenerateName x) (gom_Namespace x) labels annotations
    (gom_CreationTimestamp x) owners).
Lemma view_ObjectMeta_mono h h' x a : h ⊆ h' -> view_ObjectMeta h x = Some a -> view_ObjectMeta h' x = Some a.
Proof. view_struct view_ObjectMeta. Qed.
#[export] Instance View_ObjectMeta : ViewOf goObjectMeta ObjectMeta :=
  {| view := view_ObjectMeta; view_mono := view_ObjectMeta_mono |}.
Definition of_kind (kind : string) (m : ObjectMeta) : ObjectMeta :=
  mkObjectMeta kind (om_Name m) (om_GenerateName m) (om_Namespace m) (om_Labels m) (om_Annotations m)
    (om_CreationTimestamp m) (om_OwnerReferences m).
#[export] Program Instance View_ListMeta : ViewOf goListMeta (option Z) := {| view h x := view h (glm_RemainingItemCount x) |}.
Next Obligation. intros h h' x a. apply view_mono. Qed.
Definition view_ResourceRef (h : heap) (x : goResourceRef) : option ResourceRef :=
  evidenceSlices ← view h (grr_EvidenceSlices x);
  Some (mkResourceRef (grr_Namespace x) (grr_Kind x) (grr_Name x) (grr_APIGroup x) evidenceSlices).
Lemma view_ResourceRef_mono h h' x a : h ⊆ h' -> view_ResourceRef h x = Some a -> view_ResourceRef h' x = Some a.
Proof. view_struct view_ResourceRef. Qed.
#[export] Instance View_ResourceRef : ViewOf goResourceRef ResourceRef :=
  {| view := view_ResourceRef; view_mono := view_ResourceRef_mono |}.
Definition view_ProblemCaseSpec (h : heap) (x : goProblemCaseSpec) : option ProblemCaseSpec :=
  affectedResource ← view h (gpcs_AffectedResource x);
  symptoms ← view h (gpcs_Symptoms x);
  relatedResources ← view h (gpcs_RelatedResources x);
  Some (mkProblemCaseSpec affectedResource (gpcs_Detector x) (gpcs_Severity x) symptoms relatedResources).
Lemma view_ProblemCaseSpec_mono h h' x a : h ⊆ h' -> view_ProblemCaseSpec h x = Some a -> view_ProblemCaseSpec h' x = Some a.
Proof. view_struct view_ProblemCaseSpec. Qed.
#[export] Instance View_ProblemCaseSpec : ViewOf goProblemCaseSpec ProblemCaseSpec :=
  {| view := view_ProblemCaseSpec; view_mono := view_ProblemCaseSpec_mono |}.
Definition view_ProblemCaseStatus (h : heap) (x : goProblemCaseStatus) : option ProblemCaseStatus :=
  firstSeen ← view h (gpct_FirstSeen x);
  lastSeen ← view h (gpct_LastSeen x);
  resolvedAt ← view h (gpct_ResolvedAt x);
  Some (mkProblemCaseStatus (gpct_State x) firstSeen lastSeen resolvedAt (gpct_LatestDiagnosticRunRef x)
    (gpct_LatestAnalysisResultRef x)).
Lemma view_ProblemCaseStatus_mono h h' x a : h ⊆ h' -> view_ProblemCaseStatus h x = Some a -> view_ProblemCaseStatus h' x = Some a.
Proof. view_struct view_ProblemCaseStatus. Qed.
#[export] Instance View_ProblemCaseStatus : ViewOf goProblemCaseStatus ProblemCaseStatus :=
  {| view := view_ProblemCaseStatus; view_mono := view_ProblemCaseStatus_mono |}.
Definition view_IncidentSpec (h : heap) (x : goIncidentSpec) : option IncidentSpec :=
  rootResource ← view h (gins_RootResource x);
  problemCases ← view h (gins_ProblemCases x);
  relatedResources ← view h (gins_RelatedResources x);
  Some (mkIncidentSpec rootResource problemCases (gins_Source x) (gins_UserMessage x) relatedResources
    (gins_FalsePositive x)).
Lemma view_IncidentSpec_mono h h' x a : h ⊆ h' -> view_IncidentSpec h x = Some a -> view_IncidentSpec h' x = Some a.
Proof. view_struct view_IncidentSpec. Qed.
#[export] Instance View_IncidentSpec : ViewOf goIncidentSpec IncidentSpec :=
  {| view := view_IncidentSpec; view_mono := view_IncidentSpec_mono |}.
Definition view_IncidentStatus (h : heap) (x : goIncidentStatus) : option IncidentStatus :=
  openedAt ← view h (gint_OpenedAt x);
  resolvedAt ← view h (gint_ResolvedAt x);
  lastOccurrenceAt ← view h (gint_LastOccurrenceAt x);
  Some (mkIncidentStatus (gint_State x) openedAt resolvedAt (gint_ActiveProblemCases x) (gint_OccurrenceCount x)
    lastOccurrenceAt).
Lemma view_IncidentStatus_mono h h' x a : h ⊆ h' -> view_IncidentStatus h x = Some a -> view_IncidentStatus h' x = Some a.
Proof. view_struct view_IncidentStatus. Qed.
#[export] Instance View_IncidentStatus : ViewOf goIncidentStatus IncidentStatus :=
  {| view := view_IncidentStatus; view_mono := view_IncidentStatus_mono |}.
Definition view_ExclusionSelector (h : heap) (x : goExclusionSelector) : option ExclusionSelector :=
  kinds ← view h (gsel_Kinds x);
  matchLabels ← view h (gsel_MatchLabels x);
  Some (mkExclusionSelector (gsel_Namespace x) kinds matchLabels).
Lemma view_ExclusionSelector_mono h h' x a : h ⊆ h' -> view_ExclusionSelector h x = Some a -> view_ExclusionSelector h' x = Some a.
Proof. view_struct view_ExclusionSelector. Qed.
#[export] Instance View_ExclusionSelector : ViewOf goExclusionSelector ExclusionSelector :=
  {| view := view_ExclusionSelector; view_mono := view_ExclusionSelector_mono |}.
Definition view_ExclusionPeriod (h : heap) (x : goExclusionPeriod) : option ExclusionPeriod :=
  days ← view h (gper_Days x);
  Some (mkExclusionPeriod (gper_Start x) (gper_End x) days).
Lemma view_ExclusionPeriod_mono h h' x a : h ⊆ h' -> view_ExclusionPeriod h x = Some a -> view_ExclusionPeriod h' x = Some a.
Proof. view_struct view_ExclusionPeriod. Qed.
#[export] Instance View_ExclusionPeriod : ViewOf goExclusionPeriod ExclusionPeriod :=
  {| view := view_ExclusionPeriod; view_mono := view_ExclusionPeriod_mono |}.
Definition view_ExclusionTimeWindow (h : heap) (x : goExclusionTimeWindow) : option ExclusionTimeWindow :=
  periods ← view h (gtw_Periods x);
  Some (mkExclusionTimeWindow (gtw_Timezone x) periods).
Lemma view_ExclusionTimeWindow_mono h h' x a : h ⊆ h' -> view_ExclusionTimeWindow h x = Some a -> view_ExclusionTimeWindow h' x = Some a.
Proof. view_struct view_ExclusionTimeWindow. Qed.
#[export] Instance View_ExclusionTimeWindow : ViewOf goExclusionTimeWindow ExclusionTimeWindow :=
  {| view := view_ExclusionTimeWindow; view_mono := view_ExclusionTimeWindow_mono |}.
Definition view_ExclusionRuleSpec (h : heap) (x : goExclusionRuleSpec) : option ExclusionRuleSpec :=
  detectors ← view h (gers_Detectors x);
  targetResources ← view h (gers_TargetResources x);
  selector ← view h (gers_Selector x);
  timeWindow ← view h (gers_TimeWindow x);
  Some (mkExclusionRuleSpec (gers_Description x) (gers_Enabled x) (gers_Namespace x) detectors targetResources selector
    timeWindow).
Lemma view_ExclusionRuleSpec_mono h h' x a : h ⊆ h' -> view_ExclusionRuleSpec h x = Some a -> view_ExclusionRuleSpec h' x = Some a.
Proof. view_struct view_ExclusionRuleSpec. Qed.
#[export] Instance View_ExclusionRuleSpec : ViewOf goExclusionRuleSpec ExclusionRuleSpec :=
  {| view := view_ExclusionRuleSpec; view_mono := view_ExclusionRuleSpec_mono |}.
Definition view_ExclusionRuleStatus (h : heap) (x : goExclusionRuleStatus) : option ExclusionRuleStatus :=
  lastMatchedAt ← view h (gert_LastMatchedAt x);
  Some (mkExclusionRuleStatus lastMatchedAt (gert_SuppressedCount x)).
Lemma view_ExclusionRuleStatus_mono h h' x a : h ⊆ h' -> view_ExclusionRuleStatus h x = Some a -> view_ExclusionRuleStatus h' x = Some a.
Proof. view_struct view_ExclusionRuleStatus. Qed.
#[export] Instance View_ExclusionRuleStatus : ViewOf goExclusionRuleStatus ExclusionRuleStatus :=
  {| view := view_ExclusionRuleStatus; view_mono := view_ExclusionRuleStatus_mono |}.
Definition view_RedactionSummary (h : heap) (x : goRedactionSummary) : option RedactionSummary :=
  redactedFields ← view h (grs_RedactedFields x);
  Some (mkRedactionSummary (grs_PatternsApplied x) redactedFields).
Lemma view_RedactionSummary_mono h h' x a : h ⊆ h' -> view_RedactionSummary h x = Some a -> view_RedactionSummary h' x = Some a.
Proof. view_struct view_RedactionSummary. Qed.
#[export] Instance View_RedactionSummary : ViewOf goRedactionSummary RedactionSummary :=
  {| view := view_RedactionSummary; view_mono := view_RedactionSummary_mono |}.
Definition view_DiagnosticRunSpec (h : heap) (x : goDiagnosticRunSpec) : option DiagnosticRunSpec :=
  requestedAt ← view h (gdrs_RequestedAt x);
  Some (mkDiagnosticRunSpec (gdrs_IncidentRef x) (gdrs_ProblemCaseRef x) requestedAt).
Lemma view_DiagnosticRunSpec_mono h h' x a : h ⊆ h' -> view_DiagnosticRunSpec h x = Some a -> view_DiagnosticRunSpec h' x = Some a.
Proof. view_struct view_DiagnosticRunSpec. Qed.
#[export] Instance View_DiagnosticRunSpec : ViewOf goDiagnosticRunSpec DiagnosticRunSpec :=
  {| view := view_DiagnosticRunSpec; view_mono := view_DiagnosticRunSpec_mono |}.
Definition view_DiagnosticRunStatus (h : heap) (x : goDiagnosticRunStatus) : option DiagnosticRunStatus :=
  collectedAt ← view h (gdrt_CollectedAt x);
  collectionErrors ← view h (gdrt_CollectionErrors x);
  redactionSummary ← view h (gdrt_RedactionSummary x);
  logTruncationInfo ← view h (gdrt_LogTruncationInfo x);
  Some (mkDiagnosticRunStatus (gdrt_State x) collectedAt (gdrt_CollectorVersion x) (gdrt_EvidenceRef x) collectionErrors
    redactionSummary logTruncationInfo (gdrt_AnalysisState x) (gdrt_AnalysisResultRef x)).
Lemma view_DiagnosticRunStatus_mono h h' x a : h ⊆ h' -> view_DiagnosticRunStatus h x = Some a -> view_DiagnosticRunStatus h' x = Some a.
Proof. view_struct view_DiagnosticRunStatus. Qed.
#[export] Instance View_DiagnosticRunStatus : ViewOf goDiagnosticRunStatus DiagnosticRunStatus :=
  {| view := view_DiagnosticRunStatus; view_mono := view_DiagnosticRunStatus_mono |}.
Definition view_KubeChanStateStatus (h : heap) (x : goKubeChanStateStatus) : option KubeChanStateStatus :=
  pokeExpiresAt ← view h (gkct_PokeExpiresAt x);
  updatedAt ← view h (gkct_UpdatedAt x);
  Some (mkKubeChanStateStatus (gkct_MoodLevel x) (gkct_OpenIncidentCount x) (gkct_PokeCount x) pokeExpiresAt updatedAt).
Lemma view_KubeChanStateStatus_mono h h' x a : h ⊆ h' -> view_KubeChanStateStatus h x = Some a -> view_KubeChanStateStatus h' x = Some a.
Proof. view_struct view_KubeChanStateStatus. Qed.
#[export] Instance View_KubeChanStateStatus : ViewOf goKubeChanStateStatus KubeChanStateStatus :=
  {| view := view_KubeChanStateStatus; view_mono := view_KubeChanStateStatus_mono |}.

Section views.
Context {S T S' T' : Type} {VS : ViewOf S S'} {VT : ViewOf T T'}.
Definition view_object (h : heap) (x : goObject S T) : option (Object S' T') :=
  m ← view h (gob_ObjectMeta x);
  s ← view h (gob_Spec x);
  t ← view h (gob_Status x);
  Some (mkObject (of_kind (gob_TypeMeta x) m) s t).
Lemma view_object_mono h h' x a : h ⊆ h' -> view_object h x = Some a -> view_object h' x = Some a.
Proof. view_struct view_object. Qed.
#[export] Instance View_object : ViewOf (goObject S T) (Object S' T') := {| view := view_object; view_mono := view_object_mono |}.
(** A list: its kind, the count of what is left, its items. *)
Context {GS : Stored S}.
Definition view_list (h : heap) (x : goList S) : option (string * option Z * list S') :=
  m ← view h (gli_ListMeta x);
  items ← view h (gli_Items x);
  Some (gli_TypeMeta x, m, items).
Lemma view_goList_mono h h' x a : h ⊆ h' -> view_list h x = Some a -> view_list h' x = Some a.
Proof. view_struct view_list. Qed.
#[export] Instance View_list : ViewOf (goList S) (string * option Z * list S') := {| view := view_list; view_mono := view_goList_mono |}.
End views.

(** ** The generated functions *)
Class ApiMachinery := {
  Time_DeepCopy : Ptr Time -> goM (Ptr Time);
  ObjectMeta_DeepCopyInto : goObjectMeta -> goM goObjectMeta;
  ListMeta_DeepCopyInto : goListMeta -> goM goListMeta;
  map_range : gmap string string -> list (string * string);
}.
Class ApiMachineryLaws `{AM : !ApiMachinery} := {
  law_time :: Deep Time_DeepCopy;
  law_meta :: Deep ObjectMeta_DeepCopyInto;
  law_list_meta :: Deep ListMeta_DeepCopyInto;
  law_range m : map_range m ≡ₚ map_to_list m;
}.
(** A [runtime.Object]: the nil interface, or a pointer of one of the types. *)
Inductive RuntimeObject :=
  | NilObject
  | ProblemCaseObject (p : Ptr goProblemCase)
  | ProblemCaseListObject (p : Ptr goProblemCaseList)
  | IncidentObject (p : Ptr goIncident)
  | IncidentListObject (p : Ptr goIncidentList)
  | KubechanExclusionRuleObject (p : Ptr goKubechanExclusionRule)
  | KubechanExclusionRuleListObject (p : Ptr goKubechanExclusionRuleList)
  | DiagnosticRunObject (p : Ptr goDiagnosticRun)
  | DiagnosticRunListObject (p : Ptr goDiagnosticRunList)
  | KubeChanStateObject (p : Ptr goKubeChanState)
  | KubeChanStateListObject (p : Ptr goKubeChanStateList).

Section generated.
Context {AM : ApiMachinery}.
Definition copy_time (p : Ptr Time) : goM (Ptr Time) :=
  match p with None => mret None | Some _ => Time_DeepCopy p end.
Definition object_DeepCopyInto {S T} (spec_into : S -> goM S) (status_into : T -> goM T) (inn : goObject S T) : goM (goObject S T) :=
  meta ← ObjectMeta_DeepCopyInto (gob_ObjectMeta inn);
  spec ← spec_into (gob_Spec inn);
  status ← status_into (gob_Status inn);
  mret (mkGoObject (gob_TypeMeta inn) meta spec status).
Definition list_DeepCopyInto {I} `{GI : !Stored I} (item_into : I -> goM I) (inn : goList I) : goM (goList I) :=
  meta ← ListMeta_DeepCopyInto (gli_ListMeta inn);
  items ← copy_structs item_into (gli_Items inn);
  mret (mkGoList (gli_TypeMeta inn) meta items).
(** [DeepCopyObject]: a nil pointer becomes the nil interface. *)
Definition copy_object {T} (copy : Ptr T -> goM (Ptr T)) (wrap : Ptr T -> RuntimeObject) (p : Ptr T) : goM RuntimeObject :=
  c ← copy p; mret (match c with Some _ => wrap c | None => NilObject end).
Definition ResourceRef_DeepCopyInto (inn : goResourceRef) : goM goResourceRef :=
  evidenceSlices ← copy_strings (grr_EvidenceSlices inn);
  mret (mkGoResourceRef (grr_Namespace inn) (grr_Kind inn) (grr_Name inn) (grr_APIGroup inn) evidenceSlices).
Definition ResourceRef_DeepCopy : Ptr goResourceRef -> goM (Ptr goResourceRef) :=
  copy_pointer ResourceRef_DeepCopyInto.
Definition ProblemCaseSpec_DeepCopyInto (inn : goProblemCaseSpec) : goM goProblemCaseSpec :=
  affectedResource ← ResourceRef_DeepCopyInto (gpcs_AffectedResource inn);
  symptoms ← copy_strings (gpcs_Symptoms inn);
  relatedResources ← copy_structs ResourceRef_DeepCopyInto (gpcs_RelatedResources inn);
  mret (mkGoProblemCaseSpec affectedResource (gpcs_Detector inn) (gpcs_Severity inn) symptoms relatedResources).
Definition ProblemCaseSpec_DeepCopy : Ptr goProblemCaseSpec -> goM (Ptr goProblemCaseSpec) :=
  copy_pointer ProblemCaseSpec_DeepCopyInto.
Definition ProblemCaseStatus_DeepCopyInto (inn : goProblemCaseStatus) : goM goProblemCaseStatus :=
  firstSeen ← copy_time (gpct_FirstSeen inn);
  lastSeen ← copy_time (gpct_LastSeen inn);
  resolvedAt ← copy_time (gpct_ResolvedAt inn);
  mret (mkGoProblemCaseStatus (gpct_State inn) firstSeen lastSeen resolvedAt (gpct_LatestDiagnosticRunRef inn)
    (gpct_LatestAnalysisResultRef inn)).
Definition ProblemCaseStatus_DeepCopy : Ptr goProblemCaseStatus -> goM (Ptr goProblemCaseStatus) :=
  copy_pointer ProblemCaseStatus_DeepCopyInto.
Definition IncidentSpec_DeepCopyInto (inn : goIncidentSpec) : goM goIncidentSpec :=
  rootResource ← ResourceRef_DeepCopyInto (gins_RootResource inn);
  problemCases ← copy_strings (gins_ProblemCases inn);
  relatedResources ← copy_structs ResourceRef_DeepCopyInto (gins_RelatedResources inn);
  mret (mkGoIncidentSpec rootResource problemCases (gins_Source inn) (gins_UserMessage inn) relatedResources
    (gins_FalsePositive inn)).
Definition IncidentSpec_DeepCopy : Ptr goIncidentSpec -> goM (Ptr goIncidentSpec) :=
  copy_pointer IncidentSpec_DeepCopyInto.
Definition IncidentStatus_DeepCopyInto (inn : goIncidentStatus) : goM goIncidentStatus :=
  openedAt ← copy_time (gint_OpenedAt inn);
  resolvedAt ← copy_time (gint_ResolvedAt inn);
  lastOccurrenceAt ← copy_time (gint_LastOccurrenceAt inn);
  mret (mkGoIncidentStatus (gint_State inn) openedAt resolvedAt (gint_ActiveProblemCases inn) (gint_OccurrenceCount inn)
    lastOccurrenceAt).
Definition IncidentStatus_DeepCopy : Ptr goIncidentStatus -> goM (Ptr goIncidentStatus) :=
  copy_pointer IncidentStatus_DeepCopyInto.
Definition ExclusionSelector_DeepCopyInto (inn : goExclusionSelector) : goM goExclusionSelector :=
  kinds ← copy_strings (gsel_Kinds inn);
  matchLabels ← copy_map map_range (gsel_MatchLabels inn);
  mret (mkGoExclusionSelector (gsel_Namespace inn) kinds matchLabels).
Definition ExclusionSelector_DeepCopy : Ptr goExclusionSelector -> goM (Ptr goExclusionSelector) :=
  copy_pointer ExclusionSelector_DeepCopyInto.
Definition ExclusionPeriod_DeepCopyInto (inn : goExclusionPeriod) : goM goExclusionPeriod :=
  days ← copy_strings (gper_Days inn);
  mret (mkGoExclusionPeriod (gper_Start inn) (gper_End inn) days).
Definition ExclusionPeriod_DeepCopy : Ptr goExclusionPeriod -> goM (Ptr goExclusionPeriod) :=
  copy_pointer ExclusionPeriod_DeepCopyInto.
Definition ExclusionTimeWindow_DeepCopyInto (inn : goExclusionTimeWindow) : goM goExclusionTimeWindow :=
  periods ← copy_structs ExclusionPeriod_DeepCopyInto (gtw_Periods inn);
  mret (mkGoExclusionTimeWindow (gtw_Timezone inn) periods).
Definition ExclusionTimeWindow_DeepCopy : Ptr goExclusionTimeWindow -> goM (Ptr goExclusionTimeWindow) :=
  copy_pointer ExclusionTimeWindow_DeepCopyInto.
Definition ExclusionRuleSpec_DeepCopyInto (inn : goExclusionRuleSpec) : goM goExclusionRuleSpec :=
  detectors ← copy_strings (gers_Detectors inn);
  targetResources ← copy_structs ResourceRef_DeepCopyInto (gers_TargetResources inn);
  selector ← copy_pointer ExclusionSelector_DeepCopyInto (gers_Selector inn);
  timeWindow ← copy_pointer ExclusionTimeWindow_DeepCopyInto (gers_TimeWindow inn);
  mret (mkGoExclusionRuleSpec (gers_Description inn) (gers_Enabled inn) (gers_Namespace inn) detectors targetResources
    selector timeWindow).
Definition ExclusionRuleSpec_DeepCopy : Ptr goExclusionRuleSpec -> goM (Ptr goExclusionRuleSpec) :=
  copy_pointer ExclusionRuleSpec_DeepCopyInto.
Definition ExclusionRuleStatus_DeepCopyInto (inn : goExclusionRuleStatus) : goM goExclusionRuleStatus :=
  lastMatchedAt ← copy_time (gert_LastMatchedAt inn);
  mret (mkGoExclusionRuleStatus lastMatchedAt (gert_SuppressedCount inn)).
Definition ExclusionRuleStatus_DeepCopy : Ptr goExclusionRuleStatus -> goM (Ptr goExclusionRuleStatus) :=
  copy_pointer ExclusionRuleStatus_DeepCopyInto.
Definition RedactionSummary_DeepCopyInto (inn : goRedactionSummary) : goM goRedactionSummary :=
  redactedFields ← copy_strings (grs_RedactedFields inn);
  mret (mkGoRedactionSummary (grs_PatternsApplied inn) redactedFields).
Definition RedactionSummary_DeepCopy : Ptr goRedactionSummary -> goM (Ptr goRedactionSummary) :=
  copy_pointer RedactionSummary_DeepCopyInto.
Definition DiagnosticRunSpec_DeepCopyInto (inn : goDiagnosticRunSpec) : goM goDiagnosticRunSpec :=
  requestedAt ← copy_time (gdrs_RequestedAt inn);
  mret (mkGoDiagnosticRunSpec (gdrs_IncidentRef inn) (gdrs_ProblemCaseRef inn) requestedAt).
Definition DiagnosticRunSpec_DeepCopy : Ptr goDiagnosticRunSpec -> goM (Ptr goDiagnosticRunSpec) :=
  copy_pointer DiagnosticRunSpec_DeepCopyInto.
Definition DiagnosticRunStatus_DeepCopyInto (inn : goDiagnosticRunStatus) : goM goDiagnosticRunStatus :=
  collectedAt ← copy_time (gdrt_CollectedAt inn);
  collectionErrors ← copy_strings (gdrt_CollectionErrors inn);
  redactionSummary ← copy_pointer RedactionSummary_DeepCopyInto (gdrt_RedactionSummary inn);
  logTruncationInfo ← copy_pointer mret (gdrt_LogTruncationInfo inn);
  mret (mkGoDiagnosticRunStatus (gdrt_State inn) collectedAt (gdrt_CollectorVersion inn) (gdrt_EvidenceRef inn)
    collectionErrors redactionSummary logTruncationInfo (gdrt_AnalysisState inn) (gdrt_AnalysisResultRef inn)).
Definition DiagnosticRunStatus_DeepCopy : Ptr goDiagnosticRunStatus -> goM (Ptr goDiagnosticRunStatus) :=
  copy_pointer DiagnosticRunStatus_DeepCopyInto.
Definition KubeChanStateStatus_DeepCopyInto (inn : goKubeChanStateStatus) : goM goKubeChanStateStatus :=
  pokeExpiresAt ← copy_time (gkct_PokeExpiresAt inn);
  updatedAt ← copy_time (gkct_UpdatedAt inn);
  mret (mkGoKubeChanStateStatus (gkct_MoodLevel inn) (gkct_OpenIncidentCount inn) (gkct_PokeCount inn) pokeExpiresAt
    updatedAt).
Definition KubeChanStateStatus_DeepCopy : Ptr goKubeChanStateStatus -> goM (Ptr goKubeChanStateStatus) :=
  copy_pointer KubeChanStateStatus_DeepCopyInto.
Definition LogTruncationInfo_DeepCopyInto (inn : LogTruncationInfo) : goM LogTruncationInfo := mret inn.
Definition LogTruncationInfo_DeepCopy : Ptr LogTruncationInfo -> goM (Ptr LogTruncationInfo) := copy_pointer LogTruncationInfo_DeepCopyInto.
Definition KubeChanStateSpec_DeepCopyInto (inn : KubeChanStateSpec) : goM KubeChanStateSpec := mret inn.
Definition KubeChanStateSpec_DeepCopy : Ptr KubeChanStateSpec -> goM (Ptr KubeChanStateSpec) := copy_pointer KubeChanStateSpec_DeepCopyInto.
Definition ProblemCase_DeepCopyInto : goProblemCase -> goM goProblemCase :=
  object_DeepCopyInto ProblemCaseSpec_DeepCopyInto ProblemCaseStatus_DeepCopyInto.
Definition ProblemCase_DeepCopy : Ptr goProblemCase -> goM (Ptr goProblemCase) := copy_pointer ProblemCase_DeepCopyInto.
Definition ProblemCase_DeepCopyObject : Ptr goProblemCase -> goM RuntimeObject :=
  copy_object ProblemCase_DeepCopy ProblemCaseObject.
Definition ProblemCaseList_DeepCopyInto : goProblemCaseList -> goM goProblemCaseList :=
  list_DeepCopyInto ProblemCase_DeepCopyInto.
Definition ProblemCaseList_DeepCopy : Ptr goProblemCaseList -> goM (Ptr goProblemCaseList) :=
  copy_pointer ProblemCaseList_DeepCopyInto.
Definition ProblemCaseList_DeepCopyObject : Ptr goProblemCaseList -> goM RuntimeObject :=
  copy_object ProblemCaseList_DeepCopy ProblemCaseListObject.
Definition Incident_DeepCopyInto : goIncident -> goM goIncident :=
  object_DeepCopyInto IncidentSpec_DeepCopyInto IncidentStatus_DeepCopyInto.
Definition Incident_DeepCopy : Ptr goIncident -> goM (Ptr goIncident) := copy_pointer Incident_DeepCopyInto.
Definition Incident_DeepCopyObject : Ptr goIncident -> goM RuntimeObject :=
  copy_object Incident_DeepCopy IncidentObject.
Definition IncidentList_DeepCopyInto : goIncidentList -> goM goIncidentList :=
  list_DeepCopyInto Incident_DeepCopyInto.
Definition IncidentList_DeepCopy : Ptr goIncidentList -> goM (Ptr goIncidentList) :=
  copy_pointer IncidentList_DeepCopyInto.
Definition IncidentList_DeepCopyObject : Ptr goIncidentList -> goM RuntimeObject :=
  copy_object IncidentList_DeepCopy IncidentListObject.
Definition KubechanExclusionRule_DeepCopyInto : goKubechanExclusionRule -> goM goKubechanExclusionRule :=
  object_DeepCopyInto ExclusionRuleSpec_DeepCopyInto ExclusionRuleStatus_DeepCopyInto.
Definition KubechanExclusionRule_DeepCopy : Ptr goKubechanExclusionRule -> goM (Ptr goKubechanExclusionRule) := copy_pointer KubechanExclusionRule_DeepCopyInto.
Definition KubechanExclusionRule_DeepCopyObject : Ptr goKubechanExclusionRule -> goM RuntimeObject :=
  copy_object KubechanExclusionRule_DeepCopy KubechanExclusionRuleObject.
Definition KubechanExclusionRuleList_DeepCopyInto : goKubechanExclusionRuleList -> goM goKubechanExclusionRuleList :=
  list_DeepCopyInto KubechanExclusionRule_DeepCopyInto.
Definition KubechanExclusionRuleList_DeepCopy : Ptr goKubechanExclusionRuleList -> goM (Ptr goKubechanExclusionRuleList) :=
  copy_pointer KubechanExclusionRuleList_DeepCopyInto.
Definition KubechanExclusionRuleList_DeepCopyObject : Ptr goKubechanExclusionRuleList -> goM RuntimeObject :=
  copy_object KubechanExclusionRuleList_DeepCopy KubechanExclusionRuleListObject.
Definition DiagnosticRun_DeepCopyInto : goDiagnosticRun -> goM goDiagnosticRun :=
  object_DeepCopyInto DiagnosticRunSpec_DeepCopyInto DiagnosticRunStatus_DeepCopyInto.
Definition DiagnosticRun_DeepCopy : Ptr goDiagnosticRun -> goM (Ptr goDiagnosticRun) := copy_pointer DiagnosticRun_DeepCopyInto.
Definition DiagnosticRun_DeepCopyObject : Ptr goDiagnosticRun -> goM RuntimeObject :=
  copy_object DiagnosticRun_DeepCopy DiagnosticRunObject.
Definition DiagnosticRunList_DeepCopyInto : goDiagnosticRunList -> goM goDiagnosticRunList :=
  list_DeepCopyInto DiagnosticRun_DeepCopyInto.
Definition DiagnosticRunList_DeepCopy : Ptr goDiagnosticRunList -> goM (Ptr goDiagnosticRunList) :=
  copy_pointer DiagnosticRunList_DeepCopyInto.
Definition DiagnosticRunList_DeepCopyObject : Ptr goDiagnosticRunList -> goM RuntimeObject :=
  copy_object DiagnosticRunList_DeepCopy DiagnosticRunListObject.
Definition KubeChanState_DeepCopyInto : goKubeChanState -> goM goKubeChanState :=
  object_DeepCopyInto mret KubeChanStateStatus_DeepCopyInto.
Definition KubeChanState_DeepCopy : Ptr goKubeChanState -> goM (Ptr goKubeChanState) := copy_pointer KubeChanState_DeepCopyInto.
Definition KubeChanState_DeepCopyObject : Ptr goKubeChanState -> goM RuntimeObject :=
  copy_object KubeChanState_DeepCopy KubeChanStateObject.
Definition KubeChanStateList_DeepCopyInto : goKubeChanStateList -> goM goKubeChanStateList :=
  list_DeepCopyInto KubeChanState_DeepCopyInto.
Definition KubeChanStateList_DeepCopy : Ptr goKubeChanStateList -> goM (Ptr goKubeChanStateList) :=
  copy_pointer KubeChanStateList_DeepCopyInto.
Definition KubeChanStateList_DeepCopyObject : Ptr goKubeChanStateList -> goM RuntimeObject :=
  copy_object KubeChanStateList_DeepCopy KubeChanStateListObject.
End generated.
