(* ===== verification/DeepCopyProofs.v ===== *)
(** * What deep copies guarantee (api/v1alpha1/zz_generated.deepcopy.go)

    Every generated function is [Deep]: it succeeds on every readable struct, only
    adds to the memory, and its result reads as the same value from new cells
    alone.  Hence a copy and its original are independent, which is what the patches
    of all services rely on. *)

From stdpp Require Import sorting.
From stdpp Require Import prelude gmap strings list fin_maps.
From S2P Require Import Prelude GoBase Heap Api DeepCopy.

(** One field of a struct: its copy, and what was copied before seen in the new memory. *)
Ltac lift_views h h1 :=
  repeat match goal with
  | E : view (?c ∖ h) _ = Some _, Hs : ?c ⊆ h1 |- _ =>
      apply (view_mono _ (h1 ∖ h)) in E; [|by apply new_cells_mono]
  end.
Ltac deep_step h Hcur :=
  eapply (runs_copy _ h); [eassumption|exact Hcur|];
  let y := fresh "y" in let h1 := fresh "h" in let Hs := fresh "Hs" in let Hy := fresh "Hy" in
  intros y h1 Hs Hy; lift_views h h1;
  let Hn := fresh "Hcur" in pose proof (transitivity Hcur Hs) as Hn; clear Hcur Hs; rename Hn into Hcur.
Ltac deep_by chg unf :=
  let h := fresh "h" in let x := fresh "x" in let a := fresh "a" in let Hv := fresh "Hv" in let Hcur := fresh "Hcur" in
  intros h x a; chg h x a; unf; intros Hv;
  repeat match type of Hv with
  | (view ?h ?f ≫= _) = _ => let E := fresh "E" in destruct (view h f) eqn:E; [cbn [mbind option_bind] in Hv|done]
  end;
  injection Hv as <-; assert (h ⊆ h) as Hcur by done; repeat deep_step h Hcur;
  apply runs_ret; match goal with |- view ?m ?r = Some ?b => chg m r b end; unf; cbn -[view];
  repeat match goal with E : view (_ ∖ h) ?y = Some _ |- context [view _ ?y] => rewrite E; cbn -[view] end; done.
Tactic Notation "deep_struct" constr(V) reference(F) :=
  deep_by ltac:(fun m r b => change (view m r = Some b) with (V m r = Some b)) ltac:(unfold V, F).

(** A struct without references. *)
Lemma deep_mret {T} {VT : ViewOf T T} : (forall h x, view h x = Some x) -> Deep (T := T) mret.
Proof. intros Hflat h x a Hv. apply runs_ret. rewrite Hflat in Hv |- *. done. Qed.

Section proofs.
Context {AM : ApiMachinery} {AL : ApiMachineryLaws}.

#[export] Instance deep_time : Deep copy_time.
Proof using AL. intros h [p|] a Hv; [by apply law_time|injection Hv as <-; by apply runs_ret]. Qed.
#[export] Instance deep_map : Deep (copy_map map_range).
Proof using AL. apply copy_map_deep, law_range. Qed.
#[export] Instance deep_flat_LogTruncationInfo : Deep (VT := View_LogTruncationInfo) mret := deep_mret (VT := View_LogTruncationInfo) (fun _ _ => eq_refl).
#[export] Instance deep_flat_KubeChanStateSpec : Deep (VT := View_KubeChanStateSpec) mret := deep_mret (VT := View_KubeChanStateSpec) (fun _ _ => eq_refl).
#[export] Instance deep_object {S T S' T'} {VS : ViewOf S S'} {VT : ViewOf T T'} (fs : S -> goM S) (ft : T -> goM T)
    {DS : Deep fs} {DT : Deep ft} : Deep (object_DeepCopyInto fs ft).
Proof using AL. deep_by ltac:(fun m r b => change (view m r = Some b) with (view_object m r = Some b))
  ltac:(unfold view_object, object_DeepCopyInto). Qed.
#[export] Instance deep_list {I I'} {GI : Stored I} {VI : ViewOf I I'} (f : I -> goM I) {DF : Deep f} : Deep (list_DeepCopyInto f).
Proof using AL. deep_by ltac:(fun m r b => change (view m r = Some b) with (view_list m r = Some b))
  ltac:(unfold view_list, list_DeepCopyInto). Qed.
#[export] Instance deep_ResourceRef : Deep ResourceRef_DeepCopyInto.
Proof using AL. deep_struct view_ResourceRef ResourceRef_DeepCopyInto. Qed.
#[export] Instance deep_ProblemCaseSpec : Deep ProblemCaseSpec_DeepCopyInto.
Proof using AL. deep_struct view_ProblemCaseSpec ProblemCaseSpec_DeepCopyInto. Qed.
#[export] Instance deep_ProblemCaseStatus : Deep ProblemCaseStatus_DeepCopyInto.
Proof using AL. deep_struct view_ProblemCaseStatus ProblemCaseStatus_DeepCopyInto. Qed.
#[export] Instance deep_IncidentSpec : Deep IncidentSpec_DeepCopyInto.
Proof using AL. deep_struct view_IncidentSpec IncidentSpec_DeepCopyInto. Qed.
#[export] Instance deep_IncidentStatus : Deep IncidentStatus_DeepCopyInto.
Proof using AL. deep_struct view_IncidentStatus IncidentStatus_DeepCopyInto. Qed.
#[export] Instance deep_ExclusionSelector : Deep ExclusionSelector_DeepCopyInto.
Proof using AL. deep_struct view_ExclusionSelector ExclusionSelector_DeepCopyInto. Qed.
#[export] Instance deep_ExclusionPeriod : Deep ExclusionPeriod_DeepCopyInto.
Proof using AL. deep_struct view_ExclusionPeriod ExclusionPeriod_DeepCopyInto. Qed.
#[export] Instance deep_ExclusionTimeWindow : Deep ExclusionTimeWindow_DeepCopyInto.
Proof using AL. deep_struct view_ExclusionTimeWindow ExclusionTimeWindow_DeepCopyInto. Qed.
#[export] Instance deep_ExclusionRuleSpec : Deep ExclusionRuleSpec_DeepCopyInto.
Proof using AL. deep_struct view_ExclusionRuleSpec ExclusionRuleSpec_DeepCopyInto. Qed.
#[export] Instance deep_ExclusionRuleStatus : Deep ExclusionRuleStatus_DeepCopyInto.
Proof using AL. deep_struct view_ExclusionRuleStatus ExclusionRuleStatus_DeepCopyInto. Qed.
#[export] Instance deep_RedactionSummary : Deep RedactionSummary_DeepCopyInto.
Proof using AL. deep_struct view_RedactionSummary RedactionSummary_DeepCopyInto. Qed.
#[export] Instance deep_DiagnosticRunSpec : Deep DiagnosticRunSpec_DeepCopyInto.
Proof using AL. deep_struct view_DiagnosticRunSpec DiagnosticRunSpec_DeepCopyInto. Qed.
#[export] Instance deep_DiagnosticRunStatus : Deep DiagnosticRunStatus_DeepCopyInto.
Proof using AL. deep_struct view_DiagnosticRunStatus DiagnosticRunStatus_DeepCopyInto. Qed.
#[export] Instance deep_KubeChanStateStatus : Deep KubeChanStateStatus_DeepCopyInto.
Proof using AL. deep_struct view_KubeChanStateStatus KubeChanStateStatus_DeepCopyInto. Qed.
#[export] Instance deep_LogTruncationInfo : Deep LogTruncationInfo_DeepCopyInto.
Proof using AL. intros h x a Hv. by apply runs_ret. Qed.
#[export] Instance deep_KubeChanStateSpec : Deep KubeChanStateSpec_DeepCopyInto.
Proof using AL. intros h x a Hv. by apply runs_ret. Qed.
#[export] Instance deep_ProblemCase : Deep ProblemCase_DeepCopyInto.
Proof using AL. unfold ProblemCase_DeepCopyInto. exact _. Qed.
#[export] Instance deep_ProblemCaseList : Deep ProblemCaseList_DeepCopyInto.
Proof using AL. unfold ProblemCaseList_DeepCopyInto. exact _. Qed.
#[export] Instance deep_Incident : Deep Incident_DeepCopyInto.
Proof using AL. unfold Incident_DeepCopyInto. exact _. Qed.
#[export] Instance deep_IncidentList : Deep IncidentList_DeepCopyInto.
Proof using AL. unfold IncidentList_DeepCopyInto. exact _. Qed.
#[export] Instance deep_KubechanExclusionRule : Deep KubechanExclusionRule_DeepCopyInto.
Proof using AL. unfold KubechanExclusionRule_DeepCopyInto. exact _. Qed.
#[export] Instance deep_KubechanExclusionRuleList : Deep KubechanExclusionRuleList_DeepCopyInto.
Proof using AL. unfold KubechanExclusionRuleList_DeepCopyInto. exact _. Qed.
#[export] Instance deep_DiagnosticRun : Deep DiagnosticRun_DeepCopyInto.
Proof using AL. unfold DiagnosticRun_DeepCopyInto. exact _. Qed.
#[export] Instance deep_DiagnosticRunList : Deep DiagnosticRunList_DeepCopyInto.
Proof using AL. unfold DiagnosticRunList_DeepCopyInto. exact _. Qed.
#[export] Instance deep_KubeChanState : Deep KubeChanState_DeepCopyInto.
Proof using AL. unfold KubeChanState_DeepCopyInto. exact _. Qed.
#[export] Instance deep_KubeChanStateList : Deep KubeChanStateList_DeepCopyInto.
Proof using AL. unfold KubeChanStateList_DeepCopyInto. exact _. Qed.
End proofs.

(** ** A copy and its original are independent *)

(** [copy] succeeds on what can be read, writes nothing that was there, and
    afterwards: as long as the new cells stay, the copy reads as the value,
    whatever became of the others; and as long as the old cells stay, the original
    does.  Nil is copied to nil. *)
Definition independent_copy {T A} {GT : Stored T} {VT : ViewOf T A} (copy : Ptr T -> goM (Ptr T)) : Prop :=
  (forall h, copy None h = Some (None, h)) /\
  forall h p a, view h p = Some (Some a) ->
  exists q h', copy p h = Some (q, h') /\ h ⊆ h' /\ (h' ∖ h) ##ₘ h /\
    (forall later, h' ∖ h ⊆ later -> view later q = Some (Some a)) /\
    (forall later, h ⊆ later -> view later p = Some (Some a)).
Lemma independent_of_deep {T A} {GT : Stored T} {VT : ViewOf T A} (f : T -> goM T) {DF : Deep f} :
  independent_copy (copy_pointer f).
Proof.
  split; [done|]. intros h p a Hv. destruct (deep h p (Some a) Hv) as (q & h' & Hrun & Hs & Hq).
  exists q, h'. split_and!; [done|done| | |].
  - apply map_disjoint_dom. rewrite dom_difference_L. set_solver.
  - intros later Hl. by eapply view_mono.
  - intros later Hl. by eapply view_mono.
Qed.

Section claims.
Context {AM : ApiMachinery} {AL : ApiMachineryLaws}.

(** C30: Every generated DeepCopy - of the five custom resources, of their lists and
    of the structs inside them - makes an independent copy: it cannot fail, changes
    nothing, and no later write to what existed before shows in the copy, nor a
    write to the copy in the original. *)
Theorem deep_copies_are_independent :
  (independent_copy ProblemCase_DeepCopy /\ independent_copy Incident_DeepCopy /\
   independent_copy KubechanExclusionRule_DeepCopy /\ independent_copy DiagnosticRun_DeepCopy /\
   independent_copy KubeChanState_DeepCopy) /\
  (independent_copy ProblemCaseList_DeepCopy /\ independent_copy IncidentList_DeepCopy /\
   independent_copy KubechanExclusionRuleList_DeepCopy /\ independent_copy DiagnosticRunList_DeepCopy /\
   independent_copy KubeChanStateList_DeepCopy) /\
  (independent_copy ResourceRef_DeepCopy /\ independent_copy ProblemCaseSpec_DeepCopy /\
   independent_copy ProblemCaseStatus_DeepCopy /\ independent_copy IncidentSpec_DeepCopy /\
   independent_copy IncidentStatus_DeepCopy /\ independent_copy ExclusionSelector_DeepCopy /\
   independent_copy ExclusionPeriod_DeepCopy /\ independent_copy ExclusionTimeWindow_DeepCopy /\
   independent_copy ExclusionRuleSpec_DeepCopy /\ independent_copy ExclusionRuleStatus_DeepCopy /\
   independent_copy RedactionSummary_DeepCopy /\ independent_copy LogTruncationInfo_DeepCopy /\
   independent_copy DiagnosticRunSpec_DeepCopy /\ independent_copy DiagnosticRunStatus_DeepCopy /\
   independent_copy KubeChanStateSpec_DeepCopy /\ independent_copy KubeChanStateStatus_DeepCopy).
Proof using AL. split_and!; apply independent_of_deep; exact _. Qed.

(** [DeepCopyObject] wraps a copy in an interface, and a nil pointer never becomes
    an interface that is not nil. *)
Definition wraps_copy {T A} {GT : Stored T} {VT : ViewOf T A} (copy : Ptr T -> goM (Ptr T)) (wrap : Ptr T -> RuntimeObject)
    (copy_obj : Ptr T -> goM RuntimeObject) : Prop :=
  (forall h, copy_obj None h = Some (NilObject, h)) /\
  forall h p a, view h p = Some (Some a) ->
  exists q h', copy p h = Some (q, h') /\ copy_obj p h = Some (wrap q, h') /\ q <> None.
Lemma wraps_copy_of {T A} {GT : Stored T} {VT : ViewOf T A} (copy : Ptr T -> goM (Ptr T)) wrap :
  independent_copy copy -> wraps_copy copy wrap (copy_object copy wrap).
Proof using Type.
  intros [Hnil Hcopy]. split.
  - intros h. unfold copy_object, mbind, go_bind. by rewrite Hnil.
  - intros h p a Hv. destruct (Hcopy h p a Hv) as (q & h' & Hrun & _ & _ & Hq & _). exists q, h'.
    specialize (Hq _ (reflexivity _)). destruct q; [|done]. split_and!; [done| |done].
    unfold copy_object, mbind, go_bind. by rewrite Hrun.
Qed.
Theorem deep_copy_objects :
  wraps_copy ProblemCase_DeepCopy ProblemCaseObject ProblemCase_DeepCopyObject /\
  wraps_copy ProblemCaseList_DeepCopy ProblemCaseListObject ProblemCaseList_DeepCopyObject /\
  wraps_copy Incident_DeepCopy IncidentObject Incident_DeepCopyObject /\
  wraps_copy IncidentList_DeepCopy IncidentListObject IncidentList_DeepCopyObject /\
  wraps_copy KubechanExclusionRule_DeepCopy KubechanExclusionRuleObject KubechanExclusionRule_DeepCopyObject /\
  wraps_copy KubechanExclusionRuleList_DeepCopy KubechanExclusionRuleListObject KubechanExclusionRuleList_DeepCopyObject /\
  wraps_copy DiagnosticRun_DeepCopy DiagnosticRunObject DiagnosticRun_DeepCopyObject /\
  wraps_copy DiagnosticRunList_DeepCopy DiagnosticRunListObject DiagnosticRunList_DeepCopyObject /\
  wraps_copy KubeChanState_DeepCopy KubeChanStateObject KubeChanState_DeepCopyObject /\
  wraps_copy KubeChanStateList_DeepCopy KubeChanStateListObject KubeChanStateList_DeepCopyObject.
Proof using AL. split_and!; apply wraps_copy_of, independent_of_deep; exact _. Qed.
End claims.

(** ** A concrete apimachinery *)
Definition copy_owner (x : goOwnerReference) : goM goOwnerReference :=
  controller ← copy_pointer mret (gor_Controller x);
  mret (mkGoOwnerReference (gor_APIVersion x) (gor_Kind x) (gor_Name x) controller).
Definition copy_meta (x : goObjectMeta) : goM goObjectMeta :=
  labels ← copy_map map_to_list (gom_Labels x);
  annotations ← copy_map map_to_list (gom_Annotations x);
  owners ← copy_structs copy_owner (gom_OwnerReferences x);
  mret (mkGoObjectMeta (gom_Name x) (gom_GenerateName x) (gom_Namespace x) labels annotations (gom_CreationTimestamp x) owners).
Definition copy_list_meta (x : goListMeta) : goM goListMeta :=
  remaining ← copy_pointer mret (glm_RemainingItemCount x); mret (mkGoListMeta remaining).
Definition plain_machinery : ApiMachinery := {|
  Time_DeepCopy := copy_pointer mret;
  ObjectMeta_DeepCopyInto := copy_meta;
  ListMeta_DeepCopyInto := copy_list_meta;
  map_range := map_to_list;
|}.
#[local] Instance deep_bool : Deep (VT := view_bool) mret := deep_mret (VT := view_bool) (fun _ _ => eq_refl).
#[local] Instance deep_Z : Deep (VT := view_Z) mret := deep_mret (VT := view_Z) (fun _ _ => eq_refl).
#[local] Instance deep_any_map : Deep (copy_map map_to_list).
Proof. by apply copy_map_deep. Qed.
#[local] Instance deep_owner : Deep copy_owner.
Proof. deep_struct view_OwnerReference copy_owner. Qed.
#[local] Instance deep_copy_meta : Deep copy_meta.
Proof. deep_struct view_ObjectMeta copy_meta. Qed.
#[local] Instance deep_copy_list_meta : Deep copy_list_meta.
Proof.
  intros h x a Hv. change (view h (glm_RemainingItemCount x) = Some a) in Hv. unfold copy_list_meta.
  eapply (runs_copy _ h); [exact Hv|done|]. intros y h' Hs Hy. by apply runs_ret.
Qed.
Lemma plain_machinery_laws : ApiMachineryLaws (AM := plain_machinery).
Proof. split; [exact _|exact _|exact _|done]. Qed.

Lemma deep_copies_are_independent_witness : independent_copy (@Incident_DeepCopy plain_machinery).
Proof. apply (@deep_copies_are_independent plain_machinery plain_machinery_laws). Defined.
