(* ===== verification/Client.v ===== *)
(** * The Kubernetes client the services are written against

    [sigs.k8s.io/controller-runtime/pkg/client] is a library outside src/: its
    operations are parameters, gathered in the class [ObjectClient] over an
    abstract world [W] and one kind of object.  What the library and the API
    server document about them is [ObjectClientLaws], used only by the theorems
    that say so; [MemStore] is an in-memory world that satisfies every law, the
    one the witnesses run on. *)

From stdpp Require Import sorting pretty.
From stdpp Require Import prelude gmap strings list.
From S2P Require Import Prelude GoBase Api.

(** [kpatch base obj] and [kpatch_status base obj] are [Patch] and
    [Status().Patch] with [client.MergeFrom(base)]: the server applies the
    difference between [base] and [obj] and returns the object it stored. *)
Class ObjectClient (W S T : Type) := {
  kget : string -> string -> W -> res (Object S T);
  klist : string -> gmap string string -> W -> res (list (Object S T));
  kcreate : Object S T -> eff W (Object S T);
  kpatch : Object S T -> Object S T -> eff W (Object S T);
  kpatch_status : Object S T -> Object S T -> eff W (Object S T);
  kupdate_status : Object S T -> eff W (Object S T);
  kdelete : Object S T -> eff W ();
}.
#[export] Hint Mode ObjectClient - ! ! : typeclass_instances.

(** A client that can fetch the metadata of any object by kind, as
    [unstructured.Unstructured]. *)
Class MetaReader (W : Type) := {
  get_meta : string -> string -> string -> W -> res ObjectMeta;
}.

Definition obj_key {S T} (o : Object S T) : string * string := (obj_namespace o, obj_name o).
(** The object stored under a key, if a read finds one. *)
Definition stored {W S T} `{ObjectClient W S T} (key : string * string) (w : W) : option (Object S T) :=
  match kget key.1 key.2 w with Ok o => Some o | Err _ => None end.

(** [client.InNamespace(ns)] with [client.MatchingLabels(ls)]; the empty
    namespace selects every namespace. *)
Definition selected {S T} (ns : string) (ls : gmap string string) (o : Object S T) : Prop :=
  (ns = EmptyString \/ obj_namespace o = ns) /\ ls ⊆ obj_labels o.

(** What the API documents of these operations when nobody else writes between
    the caller's read and its write. *)
Class ObjectClientLaws (W S T : Type) `{!ObjectClient W S T} := {
  law_get_key ns n (w : W) (o : Object S T) : kget ns n w = Ok o -> obj_key o = (ns, n);
  law_list_sound ns ls (w : W) (l : list (Object S T)) o :
    klist ns ls w = Ok l -> o ∈ l -> selected ns ls o /\ kget (obj_namespace o) (obj_name o) w = Ok o;
  law_list_complete ns ls (w : W) (l : list (Object S T)) o :
    klist ns ls w = Ok l -> kget (obj_namespace o) (obj_name o) w = Ok o -> selected ns ls o -> o ∈ l;
  (** an object is listed once *)
  law_list_nodup ns ls (w : W) (l : list (Object S T)) : klist ns ls w = Ok l -> NoDup (obj_key <$> l);
  law_create (o : Object S T) (w : W) o' w' :
    kcreate o w = (Ok o', w') ->
    obj_namespace o' = obj_namespace o /\ obj_labels o' = obj_labels o /\ spec o' = spec o /\
    (obj_name o <> EmptyString -> obj_name o' = obj_name o) /\
    (forall x : Object S T, kget (obj_namespace o') (obj_name o') w <> Ok x) /\
    kget (obj_namespace o') (obj_name o') w' = Ok o' /\
    (forall ns n, (ns, n) <> obj_key o' -> kget (S:=S) (T:=T) ns n w' = kget ns n w);
  law_patch (b o : Object S T) (w : W) o' w' :
    kget (obj_namespace b) (obj_name b) w = Ok b -> obj_key o = obj_key b ->
    kpatch b o w = (Ok o', w') ->
    o' = mkObject (meta o) (spec o) (status b) /\
    kget (obj_namespace b) (obj_name b) w' = Ok o' /\
    (forall ns n, (ns, n) <> obj_key b -> kget (S:=S) (T:=T) ns n w' = kget ns n w);
  law_patch_status (b o : Object S T) (w : W) o' w' :
    kget (obj_namespace b) (obj_name b) w = Ok b -> obj_key o = obj_key b ->
    kpatch_status b o w = (Ok o', w') ->
    o' = mkObject (meta b) (spec b) (status o) /\
    kget (obj_namespace b) (obj_name b) w' = Ok o' /\
    (forall ns n, (ns, n) <> obj_key b -> kget (S:=S) (T:=T) ns n w' = kget ns n w);
  law_update_status (o : Object S T) (w : W) o' w' :
    kupdate_status o w = (Ok o', w') ->
    exists cur : Object S T, kget (obj_namespace o) (obj_name o) w = Ok cur /\
      o' = mkObject (meta cur) (spec cur) (status o) /\
      kget (obj_namespace o) (obj_name o) w' = Ok o' /\
      (forall ns n, (ns, n) <> obj_key o -> kget (S:=S) (T:=T) ns n w' = kget ns n w);
  (** stored objects have names *)
  law_named ns n (w : W) (o : Object S T) : kget ns n w = Ok o -> n <> EmptyString;
  (** there is nothing to patch under a key that is not stored *)
  law_patch_missing (b o : Object S T) (w : W) r w' :
    (forall x : Object S T, kget (obj_namespace b) (obj_name b) w <> Ok x) ->
    (kpatch b o w = (r, w') \/ kpatch_status b o w = (r, w')) -> exists e, r = Err e;
  (** a write that reports an error has written nothing *)
  law_write_error (b o : Object S T) (w : W) e w' :
    (kcreate o w = (Err e, w') \/ kpatch b o w = (Err e, w') \/ kpatch_status b o w = (Err e, w') \/
     kupdate_status o w = (Err e, w')) ->
    forall ns n, kget (S:=S) (T:=T) ns n w' = kget ns n w;
}.

(** Writes to one kind do not change what is read of another. *)
Class ClientFrame (W S T S' T' : Type) `{!ObjectClient W S T} `{!ObjectClient W S' T'} := {
  frame_create (o : Object S T) (w : W) r w' ns n :
    kcreate o w = (r, w') -> kget (S := S') (T := T') ns n w' = kget ns n w;
  frame_patch (b o : Object S T) (w : W) r w' ns n :
    kpatch b o w = (r, w') -> kget (S := S') (T := T') ns n w' = kget ns n w;
  frame_patch_status (b o : Object S T) (w : W) r w' ns n :
    kpatch_status b o w = (r, w') -> kget (S := S') (T := T') ns n w' = kget ns n w;
}.

(** ** The outcome of a patch *)
Section updates.
Context {W S T : Type} `{!ObjectClient W S T}.

Definition is_stored (ob : Object S T) (w : W) : Prop := kget (obj_namespace ob) (obj_name ob) w = Ok ob.
(** Reads of other keys of the kind are as before. *)
Definition same_elsewhere (key : string * string) (w w' : W) : Prop :=
  forall ns n, (ns, n) <> key -> kget (S := S) (T := T) ns n w' = kget ns n w.

(** One stored object becomes another with the same metadata; nothing else changes. *)
Record rewrites (ob ob' : Object S T) (w w' : W) : Prop := {
  rw_before : is_stored ob w;
  rw_after : is_stored ob' w';
  rw_meta : meta ob' = meta ob;
  rw_elsewhere : same_elsewhere (obj_key ob) w w';
}.
Lemma rewrites_trans o1 o2 o3 w1 w2 w3 :
  rewrites o1 o2 w1 w2 -> rewrites o2 o3 w2 w3 -> rewrites o1 o3 w1 w3.
Proof.
  intros [H1 H2 H3 H4] [H5 H6 H7 H8]. split; [done|done|congruence|].
  intros ns n Hne. rewrite H8, H4; [done|done|]. unfold obj_key, obj_name, obj_namespace in *. by rewrite H3.
Qed.
Lemma rewrites_unchanged ob w w' :
  is_stored ob w -> (forall ns n, kget (S := S) (T := T) ns n w' = kget ns n w) ->
  rewrites ob ob w w'.
Proof. intros Hs H. split; [done| |done|by intros ns n _]. unfold is_stored. by rewrite H. Qed.

Context `{!ObjectClientLaws W S T}.

Lemma kget_is_stored ns n (ob : Object S T) (w : W) :
  kget ns n w = Ok ob -> is_stored ob w /\ obj_namespace ob = ns /\ obj_name ob = n.
Proof using All.
  intros H. pose proof (law_get_key _ _ _ _ H) as Hk. injection Hk as H1 H2.
  unfold is_stored. by rewrite H1, H2.
Qed.

Lemma kpatch_outcome (ob o : Object S T) w r w' :
  is_stored ob w -> meta o = meta ob -> kpatch ob o w = (r, w') ->
  exists ob', rewrites ob ob' w w' /\
    match r with Ok x => x = ob' /\ ob' = mkObject (meta ob) (spec o) (status ob) | Err _ => ob' = ob end.
Proof using All.
  intros Hs Hm Hp. destruct r as [x|e].
  - assert (obj_key o = obj_key ob) as Hk by (unfold obj_key, obj_namespace, obj_name; by rewrite Hm).
    destruct (law_patch _ _ _ _ _ Hs Hk Hp) as (-> & Hg & Hf). rewrite Hm in Hg |- *.
    exists (mkObject (meta ob) (spec o) (status ob)). split; [|done]. by split.
  - exists ob. split; [|done]. apply rewrites_unchanged; [done|]. by eapply law_write_error; right; left.
Qed.
Lemma kpatch_status_outcome (ob o : Object S T) w r w' :
  is_stored ob w -> meta o = meta ob -> kpatch_status ob o w = (r, w') ->
  exists ob', rewrites ob ob' w w' /\
    match r with Ok x => x = ob' /\ ob' = mkObject (meta ob) (spec ob) (status o) | Err _ => ob' = ob end.
Proof using All.
  intros Hs Hm Hp. destruct r as [x|e].
  - assert (obj_key o = obj_key ob) as Hk by (unfold obj_key, obj_namespace, obj_name; by rewrite Hm).
    destruct (law_patch_status _ _ _ _ _ Hs Hk Hp) as (-> & Hg & Hf). eexists. split; [|done].
    split; [done..|]. done.
  - exists ob. split; [|done]. apply rewrites_unchanged; [done|]. by eapply law_write_error; right; right; left.
Qed.

(** The world accepts every status patch of an object as it is stored. *)
Definition patches_succeed : Prop :=
  forall (ob o : Object S T) (w : W), is_stored ob w -> meta o = meta ob -> exists x, (kpatch_status ob o w).1 = Ok x.
End updates.

(** ** An in-memory client

    [MemStore] keeps one map of objects inside a world, reached by a getter and
    a setter. *)
Section MemStore.
Context {W S T : Type} (sget : W -> gmap (string * string) (Object S T))
  (sput : gmap (string * string) (Object S T) -> W -> W).

(** The objects stored under their own key, which has a name. *)
Definition mem_objs (w : W) : gmap (string * string) (Object S T) :=
  filter (fun ko => obj_key ko.2 = ko.1 /\ ko.1.2 <> EmptyString) (sget w).

Definition mem_get (ns n : string) (w : W) : res (Object S T) :=
  match mem_objs w !! (ns, n) with Some o => Ok o | None => Err ErrNotFound end.

Definition selectedb (ns : string) (ls : gmap string string) (o : Object S T) : bool :=
  (bool_decide (ns = EmptyString) || bool_decide (obj_namespace o = ns)) && bool_decide (ls ⊆ obj_labels o).
Definition mem_list (ns : string) (ls : gmap string string) (w : W) : res (list (Object S T)) :=
  Ok (filter (fun o => selectedb ns ls o = true) (snd <$> map_to_list (mem_objs w))).

Definition rename (o : Object S T) (n : string) : Object S T :=
  mkObject (mkObjectMeta (om_Kind (meta o)) n (om_GenerateName (meta o)) (om_Namespace (meta o))
    (om_Labels (meta o)) (om_Annotations (meta o)) (om_CreationTimestamp (meta o))
    (om_OwnerReferences (meta o))) (spec o) (status o).
(** A name is the one asked for, or the generated prefix with a number. *)
Definition mem_name (o : Object S T) (w : W) : string :=
  if decide (obj_name o = EmptyString)
  then om_GenerateName (meta o) +:+ "x" +:+ pretty (size (mem_objs w)) else obj_name o.
Definition mem_create (o : Object S T) : eff W (Object S T) := fun w =>
  let o' := rename o (mem_name o w) in
  match mem_objs w !! obj_key o' with
  | Some _ => (Err ErrAlreadyExists, w)
  | None => (Ok o', sput (<[obj_key o' := o']> (mem_objs w)) w)
  end.

Definition mem_write (f : Object S T -> Object S T) (key : string * string) : eff W (Object S T) := fun w =>
  match mem_objs w !! key with
  | Some cur => (Ok (f cur), sput (<[key := f cur]> (mem_objs w)) w)
  | None => (Err ErrNotFound, w)
  end.
Definition mem_patch (b o : Object S T) : eff W (Object S T) :=
  mem_write (fun cur => mkObject (meta o) (spec o) (status cur)) (obj_key b).
Definition mem_patch_status (b o : Object S T) : eff W (Object S T) :=
  mem_write (fun cur => mkObject (meta cur) (spec cur) (status o)) (obj_key b).
Definition mem_update_status (o : Object S T) : eff W (Object S T) :=
  mem_write (fun cur => mkObject (meta cur) (spec cur) (status o)) (obj_key o).
Definition mem_delete (o : Object S T) : eff W () := fun w =>
  (Ok tt, sput (delete (obj_key o) (mem_objs w)) w).

Definition mem_client : ObjectClient W S T :=
  Build_ObjectClient W S T mem_get mem_list mem_create mem_patch mem_patch_status mem_update_status mem_delete.

Context (sget_sput : forall m w, sget (sput m w) = m).

Lemma mem_objs_key w k o : mem_objs w !! k = Some o -> obj_key o = k.
Proof. unfold mem_objs. rewrite map_lookup_filter_Some. by intros (_ & ? & _). Qed.
Lemma mem_objs_named w k o : mem_objs w !! k = Some o -> k.2 <> EmptyString.
Proof. unfold mem_objs. rewrite map_lookup_filter_Some. by intros (_ & _ & ?). Qed.
Lemma mem_name_named o w : mem_name o w <> EmptyString.
Proof.
  unfold mem_name. case_decide; [|done]. by destruct (om_GenerateName (meta o)).
Qed.

Lemma mem_objs_insert w k o :
  obj_key o = k -> k.2 <> EmptyString -> mem_objs (sput (<[k := o]> (mem_objs w)) w) = <[k := o]> (mem_objs w).
Proof using sget_sput.
  intros Hk Hn. unfold mem_objs at 1. rewrite sget_sput. rewrite map_filter_insert_True by done.
  f_equal. apply map_filter_id. intros i x Hi. split; [by apply (mem_objs_key w)|by apply (mem_objs_named w _ x)].
Qed.

Lemma mem_get_ok ns n w o : mem_get ns n w = Ok o <-> mem_objs w !! (ns, n) = Some o.
Proof. unfold mem_get. destruct (mem_objs w !! (ns, n)); naive_solver. Qed.

Lemma mem_get_put w k o ns n :
  obj_key o = k -> k.2 <> EmptyString ->
  mem_get ns n (sput (<[k := o]> (mem_objs w)) w) = if decide ((ns, n) = k) then Ok o else mem_get ns n w.
Proof using sget_sput.
  intros Hk Hn. unfold mem_get. rewrite mem_objs_insert by done.
  case_decide as E; [by rewrite E, lookup_insert_eq | by rewrite lookup_insert_ne].
Qed.

Lemma mem_write_laws f k w o' w' :
  (forall cur, mem_objs w !! k = Some cur -> obj_key (f cur) = k) ->
  mem_write f k w = (Ok o', w') ->
  exists cur, mem_objs w !! k = Some cur /\ o' = f cur /\ obj_key o' = k /\
    forall ns n, mem_get ns n w' = if decide ((ns, n) = k) then Ok o' else mem_get ns n w.
Proof using sget_sput.
  intros Hf. unfold mem_write. destruct (mem_objs w !! k) as [cur|] eqn:E; [|done].
  intros [= <- <-]. exists cur. split_and!; auto. intros. rewrite mem_get_put; eauto using mem_objs_named.
Qed.

Lemma mem_list_elem ns ls w o :
  o ∈ filter (fun o => selectedb ns ls o = true) (snd <$> map_to_list (mem_objs w)) <->
  selected ns ls o /\ mem_get (obj_namespace o) (obj_name o) w = Ok o.
Proof.
  rewrite list_elem_of_filter, list_elem_of_fmap, mem_get_ok. unfold selectedb, selected.
  rewrite andb_true_iff, orb_true_iff, !bool_decide_eq_true.
  split.
  - intros [H ([k o2] & Heq & Hin)]. simpl in Heq. subst o2. apply elem_of_map_to_list in Hin.
    split; [done|]. by pose proof (mem_objs_key _ _ _ Hin) as <-.
  - intros [H Ho]. split; [done|]. exists (obj_key o, o). split; [done|]. by apply elem_of_map_to_list.
Qed.
End MemStore.

#[export] Hint Resolve mem_objs_key : kube.

Section MemLaws.
Context {W S T : Type} (sget : W -> gmap (string * string) (Object S T))
  (sput : gmap (string * string) (Object S T) -> W -> W)
  (sget_sput : forall m w, sget (sput m w) = m).

Lemma mem_write_err f k w e w' : mem_write sget sput f k w = (Err e, w') -> w' = w.
Proof. unfold mem_write. destruct (mem_objs sget w !! k); by intros [= _ <-]. Qed.

Lemma mem_update_status_spec (o : Object S T) (w : W) o' w' :
  mem_update_status sget sput o w = (Ok o', w') ->
  exists cur, mem_get sget (obj_namespace o) (obj_name o) w = Ok cur /\
    o' = mkObject (meta cur) (spec cur) (status o) /\ mem_get sget (obj_namespace o) (obj_name o) w' = Ok o' /\
    (forall ns n, (ns, n) <> obj_key o -> mem_get sget ns n w' = mem_get sget ns n w).
Proof using sget_sput.
  intros Hw. apply (mem_write_laws _ _ sget_sput) in Hw as (cur & Hcur & -> & _ & Hget).
  - exists cur. split_and!; [by apply mem_get_ok|done| |].
    + rewrite Hget. by rewrite decide_True.
    + intros ns n Hne. by rewrite Hget, decide_False.
  - intros cur Hcur. by apply mem_objs_key in Hcur.
Qed.

Lemma mem_client_laws : @ObjectClientLaws W S T (mem_client sget sput).
Proof using sget_sput.
  split; simpl.
  - intros ns n w o. rewrite mem_get_ok. apply mem_objs_key.
  - unfold mem_list. intros ns ls w l o [= <-]. by rewrite mem_list_elem.
  - unfold mem_list. intros ns ls w l o [= <-] ? ?. by rewrite mem_list_elem.
  - unfold mem_list. intros ns ls w l [= <-].
    assert (Hk : obj_key <$> (snd <$> map_to_list (mem_objs sget w)) = fst <$> map_to_list (mem_objs sget w)).
    { rewrite <- list_fmap_compose. apply list_fmap_ext. intros i [k o] Hi.
      apply list_elem_of_lookup_2, elem_of_map_to_list, mem_objs_key in Hi. done. }
    eapply sublist_NoDup; [|apply fmap_sublist, sublist_filter].
    rewrite Hk. apply NoDup_fst_map_to_list.
  - intros o w o' w'. unfold mem_create. set (o2 := rename o (mem_name sget o w)).
    destruct (mem_objs sget w !! obj_key o2) eqn:E; [done|]. intros [= <- <-].
    split_and!; try done.
    + unfold o2, rename, mem_name. simpl. intros ?. by rewrite decide_False.
    + unfold mem_get. change (obj_namespace o2, obj_name o2) with (obj_key o2). by rewrite E.
    + rewrite mem_get_put by (done || apply mem_name_named). by rewrite decide_True.
    + intros ns n Hne. rewrite mem_get_put by (done || apply mem_name_named). by rewrite decide_False.
  - intros b o w o' w' Hb Hk Hw. apply (mem_write_laws _ _ sget_sput) in Hw as (cur & Hcur & -> & Hk' & Hget).
    + apply mem_get_ok in Hb. assert (cur = b) as -> by (unfold obj_key in Hcur; congruence).
      split_and!; [done| |].
      * rewrite Hget. by rewrite decide_True.
      * intros ns n Hne. by rewrite Hget, decide_False.
    + done.
  - intros b o w o' w' Hb Hk Hw. apply (mem_write_laws _ _ sget_sput) in Hw as (cur & Hcur & -> & Hk' & Hget).
    + apply mem_get_ok in Hb. assert (cur = b) as -> by (unfold obj_key in Hcur; congruence).
      split_and!; [done| |].
      * rewrite Hget. by rewrite decide_True.
      * intros ns n Hne. by rewrite Hget, decide_False.
    + intros cur Hcur. apply mem_objs_key in Hcur. done.
  - intros o w o' w'. apply mem_update_status_spec.
  - intros ns n w o. rewrite mem_get_ok. apply mem_objs_named.
  - intros b o w r w' Hno. assert (mem_objs sget w !! obj_key b = None) as E.
    { destruct (mem_objs sget w !! obj_key b) as [x|] eqn:E; [|done]. destruct (Hno x). by apply mem_get_ok. }
    unfold mem_patch, mem_patch_status, mem_write. rewrite E. intros [[= <- _]|[= <- _]]; eauto.
  - intros b o w e w' [H|[H|[H|H]]] ns n; [|by apply mem_write_err in H as ->..].
    unfold mem_create in H. destruct (mem_objs sget w !! _); by simplify_eq.
Qed.

Context {S' T' : Type} (sget' : W -> gmap (string * string) (Object S' T'))
  (sput' : gmap (string * string) (Object S' T') -> W -> W)
  (sget'_sput : forall m w, sget' (sput m w) = sget' w).

Lemma mem_client_frame :
  @ClientFrame W S T S' T' (mem_client sget sput) (mem_client sget' sput').
Proof using sget'_sput.
  assert (Hg : forall m w ns n, mem_get sget' ns n (sput m w) = mem_get sget' ns n w).
  { intros. unfold mem_get, mem_objs. by rewrite sget'_sput. }
  assert (Hw : forall f k w r w' ns n,
    mem_write sget sput f k w = (r, w') -> mem_get sget' ns n w' = mem_get sget' ns n w).
  { unfold mem_write. intros f k w r w' ns n. destruct (mem_objs sget w !! k); by intros [= <- <-]. }
  split; simpl; eauto.
  intros o w r w' ns n. unfold mem_create.
  destruct (mem_objs sget w !! _); by intros [= <- <-].
Qed.
End MemLaws.

(** ** An in-memory cluster: one map per kind *)
Record MemCluster := mkMemCluster {
  mc_ProblemCases : gmap (string * string) ProblemCase;
  mc_Incidents : gmap (string * string) Incident;
  mc_Rules : gmap (string * string) KubechanExclusionRule;
  mc_DiagnosticRuns : gmap (string * string) DiagnosticRun;
  mc_States : gmap (string * string) KubeChanState;
  mc_Pods : gmap (string * string) Pod;
  mc_Deployments : gmap (string * string) Deployment;
  mc_Services : gmap (string * string) Service;
  mc_Nodes : gmap (string * string) Node;
  mc_StatefulSets : gmap (string * string) StatefulSet;
  mc_DaemonSets : gmap (string * string) DaemonSet;
  mc_EndpointSlices : gmap (string * string) EndpointSlice;
}.
Definition empty_cluster : MemCluster := mkMemCluster ∅ ∅ ∅ ∅ ∅ ∅ ∅ ∅ ∅ ∅ ∅ ∅.

Definition set_ProblemCases (m : gmap (string * string) ProblemCase) (w : MemCluster) : MemCluster :=
  mkMemCluster m (mc_Incidents w) (mc_Rules w) (mc_DiagnosticRuns w) (mc_States w) (mc_Pods w) (mc_Deployments w) (mc_Services w) (mc_Nodes w) (mc_StatefulSets w) (mc_DaemonSets w) (mc_EndpointSlices w).
Definition set_Incidents (m : gmap (string * string) Incident) (w : MemCluster) : MemCluster :=
  mkMemCluster (mc_ProblemCases w) m (mc_Rules w) (mc_DiagnosticRuns w) (mc_States w) (mc_Pods w) (mc_Deployments w) (mc_Services w) (mc_Nodes w) (mc_StatefulSets w) (mc_DaemonSets w) (mc_EndpointSlices w).
Definition set_Rules (m : gmap (string * string) KubechanExclusionRule) (w : MemCluster) : MemCluster :=
  mkMemCluster (mc_ProblemCases w) (mc_Incidents w) m (mc_DiagnosticRuns w) (mc_States w) (mc_Pods w) (mc_Deployments w) (mc_Services w) (mc_Nodes w) (mc_StatefulSets w) (mc_DaemonSets w) (mc_EndpointSlices w).
Definition set_DiagnosticRuns (m : gmap (string * string) DiagnosticRun) (w : MemCluster) : MemCluster :=
  mkMemCluster (mc_ProblemCases w) (mc_Incidents w) (mc_Rules w) m (mc_States w) (mc_Pods w) (mc_Deployments w) (mc_Services w) (mc_Nodes w) (mc_StatefulSets w) (mc_DaemonSets w) (mc_EndpointSlices w).
Definition set_States (m : gmap (string * string) KubeChanState) (w : MemCluster) : MemCluster :=
  mkMemCluster (mc_ProblemCases w) (mc_Incidents w) (mc_Rules w) (mc_DiagnosticRuns w) m (mc_Pods w) (mc_Deployments w) (mc_Services w) (mc_Nodes w) (mc_StatefulSets w) (mc_DaemonSets w) (mc_EndpointSlices w).
Definition set_Pods (m : gmap (string * string) Pod) (w : MemCluster) : MemCluster :=
  mkMemCluster (mc_ProblemCases w) (mc_Incidents w) (mc_Rules w) (mc_DiagnosticRuns w) (mc_States w) m (mc_Deployments w) (mc_Services w) (mc_Nodes w) (mc_StatefulSets w) (mc_DaemonSets w) (mc_EndpointSlices w).
Definition set_Deployments (m : gmap (string * string) Deployment) (w : MemCluster) : MemCluster :=
  mkMemCluster (mc_ProblemCases w) (mc_Incidents w) (mc_Rules w) (mc_DiagnosticRuns w) (mc_States w) (mc_Pods w) m (mc_Services w) (mc_Nodes w) (mc_StatefulSets w) (mc_DaemonSets w) (mc_EndpointSlices w).
Definition set_Services (m : gmap (string * string) Service) (w : MemCluster) : MemCluster :=
  mkMemCluster (mc_ProblemCases w) (mc_Incidents w) (mc_Rules w) (mc_DiagnosticRuns w) (mc_States w) (mc_Pods w) (mc_Deployments w) m (mc_Nodes w) (mc_StatefulSets w) (mc_DaemonSets w) (mc_EndpointSlices w).
Definition set_Nodes (m : gmap (string * string) Node) (w : MemCluster) : MemCluster :=
  mkMemCluster (mc_ProblemCases w) (mc_Incidents w) (mc_Rules w) (mc_DiagnosticRuns w) (mc_States w) (mc_Pods w) (mc_Deployments w) (mc_Services w) m (mc_StatefulSets w) (mc_DaemonSets w) (mc_EndpointSlices w).
Definition set_StatefulSets (m : gmap (string * string) StatefulSet) (w : MemCluster) : MemCluster :=
  mkMemCluster (mc_ProblemCases w) (mc_Incidents w) (mc_Rules w) (mc_DiagnosticRuns w) (mc_States w) (mc_Pods w) (mc_Deployments w) (mc_Services w) (mc_Nodes w) m (mc_DaemonSets w) (mc_EndpointSlices w).
Definition set_DaemonSets (m : gmap (string * string) DaemonSet) (w : MemCluster) : MemCluster :=
  mkMemCluster (mc_ProblemCases w) (mc_Incidents w) (mc_Rules w) (mc_DiagnosticRuns w) (mc_States w) (mc_Pods w) (mc_Deployments w) (mc_Services w) (mc_Nodes w) (mc_StatefulSets w) m (mc_EndpointSlices w).
Definition set_EndpointSlices (m : gmap (string * string) EndpointSlice) (w : MemCluster) : MemCluster :=
  mkMemCluster (mc_ProblemCases w) (mc_Incidents w) (mc_Rules w) (mc_DiagnosticRuns w) (mc_States w) (mc_Pods w) (mc_Deployments w) (mc_Services w) (mc_Nodes w) (mc_StatefulSets w) (mc_DaemonSets w) m.

#[export] Instance mc_ProblemCases_client : ObjectClient MemCluster ProblemCaseSpec ProblemCaseStatus := mem_client mc_ProblemCases set_ProblemCases.
#[export] Instance mc_Incidents_client : ObjectClient MemCluster IncidentSpec IncidentStatus := mem_client mc_Incidents set_Incidents.
#[export] Instance mc_Rules_client : ObjectClient MemCluster ExclusionRuleSpec ExclusionRuleStatus := mem_client mc_Rules set_Rules.
#[export] Instance mc_DiagnosticRuns_client : ObjectClient MemCluster DiagnosticRunSpec DiagnosticRunStatus := mem_client mc_DiagnosticRuns set_DiagnosticRuns.
#[export] Instance mc_States_client : ObjectClient MemCluster KubeChanStateSpec KubeChanStateStatus := mem_client mc_States set_States.
#[export] Instance mc_Pods_client : ObjectClient MemCluster () PodStatus := mem_client mc_Pods set_Pods.
#[export] Instance mc_Deployments_client : ObjectClient MemCluster DeploymentSpec DeploymentStatus := mem_client mc_Deployments set_Deployments.
#[export] Instance mc_Services_client : ObjectClient MemCluster ServiceSpec ServiceStatus := mem_client mc_Services set_Services.
#[export] Instance mc_Nodes_client : ObjectClient MemCluster NodeSpec NodeStatus := mem_client mc_Nodes set_Nodes.
#[export] Instance mc_StatefulSets_client : ObjectClient MemCluster StatefulSetSpec () := mem_client mc_StatefulSets set_StatefulSets.
#[export] Instance mc_DaemonSets_client : ObjectClient MemCluster DaemonSetSpec () := mem_client mc_DaemonSets set_DaemonSets.
#[export] Instance mc_EndpointSlices_client : ObjectClient MemCluster EndpointSliceSpec () := mem_client mc_EndpointSlices set_EndpointSlices.

#[export] Instance mc_ProblemCases_laws : ObjectClientLaws MemCluster ProblemCaseSpec ProblemCaseStatus.
Proof. by apply mem_client_laws. Qed.
#[export] Instance mc_Incidents_laws : ObjectClientLaws MemCluster IncidentSpec IncidentStatus.
Proof. by apply mem_client_laws. Qed.
#[export] Instance mc_Rules_laws : ObjectClientLaws MemCluster ExclusionRuleSpec ExclusionRuleStatus.
Proof. by apply mem_client_laws. Qed.
#[export] Instance mc_DiagnosticRuns_laws : ObjectClientLaws MemCluster DiagnosticRunSpec DiagnosticRunStatus.
Proof. by apply mem_client_laws. Qed.
#[export] Instance mc_States_laws : ObjectClientLaws MemCluster KubeChanStateSpec KubeChanStateStatus.
Proof. by apply mem_client_laws. Qed.
#[export] Instance mc_ProblemCases_Incidents_frame : ClientFrame MemCluster ProblemCaseSpec ProblemCaseStatus IncidentSpec IncidentStatus.
Proof. by apply mem_client_frame. Qed.
#[export] Instance mc_Incidents_ProblemCases_frame : ClientFrame MemCluster IncidentSpec IncidentStatus ProblemCaseSpec ProblemCaseStatus.
Proof. by apply mem_client_frame. Qed.
#[export] Instance mc_Rules_ProblemCases_frame :
  ClientFrame MemCluster ExclusionRuleSpec ExclusionRuleStatus ProblemCaseSpec ProblemCaseStatus.
Proof. by apply mem_client_frame. Qed.
#[export] Instance mc_Rules_Incidents_frame :
  ClientFrame MemCluster ExclusionRuleSpec ExclusionRuleStatus IncidentSpec IncidentStatus.
Proof. by apply mem_client_frame. Qed.
#[export] Instance mc_Pods_laws : ObjectClientLaws MemCluster () PodStatus.
Proof. by apply mem_client_laws. Qed.

Definition meta_of {S T} (m : gmap (string * string) (Object S T)) (ns n : string) : res ObjectMeta :=
  match m !! (ns, n) with Some o => Ok (meta o) | None => Err ErrNotFound end.
#[export] Instance mc_meta_reader : MetaReader MemCluster := {
  get_meta kind ns n w :=
    if decide (kind = "Pod") then meta_of (mc_Pods w) ns n
    else if decide (kind = "Deployment") then meta_of (mc_Deployments w) ns n
    else if decide (kind = "Service") then meta_of (mc_Services w) ns n
    else if decide (kind = "Node") then meta_of (mc_Nodes w) ns n
    else if decide (kind = "StatefulSet") then meta_of (mc_StatefulSets w) ns n
    else if decide (kind = "DaemonSet") then meta_of (mc_DaemonSets w) ns n
    else Err ErrNotFound
}.
