(* ===== verification/WatcherConfig.v ===== *)
(** * Detector thresholds: services/cluster-watcher/watcherconfig/config.go

    The live thresholds are three atomic cells.  [store_all] is [Set] as the
    sequence of the three stores a concurrent reader can see between;
    [Refresh] and [poll] take the outcome of the HTTP call as an argument.
    [envDuration] and [initial_config] are those of the cluster-watcher's
    main.go. *)

From stdpp Require Import sorting.
From stdpp Require Import prelude gmap strings list.
From S2P Require Import Prelude GoBase Json.

Definition defaultDebounceWindow : Duration := (30 * Second)%Z.
Definition defaultPendingThreshold : Duration := (5 * Minute)%Z.
Definition defaultUnavailableThreshold : Duration := (5 * Minute)%Z.

Record Config := mkConfig {
  debounceWindow : Z;
  pendingThreshold : Z;
  unavailableThreshold : Z;
}.
Definition zeroConfig : Config := mkConfig 0 0 0.

Inductive cell := DebounceCell | PendingCell | UnavailableCell.
Definition store_cell (c : cell) (v : Z) (cfg : Config) : Config :=
  match c with
  | DebounceCell => mkConfig v (pendingThreshold cfg) (unavailableThreshold cfg)
  | PendingCell => mkConfig (debounceWindow cfg) v (unavailableThreshold cfg)
  | UnavailableCell => mkConfig (debounceWindow cfg) (pendingThreshold cfg) v
  end.

(** The value [store] writes for a duration [d] with default [def]. *)
Definition or_default (d def : Duration) : Z := if decide (d ≤ 0)%Z then def else d.
(** The stores of [Set], in order. *)
Definition set_stores (debounce pending unavailable : Duration) : list (cell * Z) :=
  [(DebounceCell, or_default debounce defaultDebounceWindow);
   (PendingCell, or_default pending defaultPendingThreshold);
   (UnavailableCell, or_default unavailable defaultUnavailableThreshold)].
Definition store_all (stores : list (cell * Z)) (cfg : Config) : Config :=
  foldl (fun c s => store_cell s.1 s.2 c) cfg stores.
Definition Set_ (debounce pending unavailable : Duration) (cfg : Config) : Config :=
  store_all (set_stores debounce pending unavailable) cfg.
Definition New (debounce pending unavailable : Duration) : Config :=
  Set_ debounce pending unavailable zeroConfig.

Definition DebounceWindow (c : Config) : Duration := debounceWindow c.
Definition PendingThreshold (c : Config) : Duration := pendingThreshold c.
Definition UnavailableThreshold (c : Config) : Duration := unavailableThreshold c.

Record remoteSettings := mkRemoteSettings {
  DebounceWindowSecs : Z;
  PendingThresholdSecs : Z;
  UnavailableThresholdSecs : Z;
}.
(** [json.NewDecoder(resp.Body).Decode(&s)]; [None] is a body that is not JSON. *)
Definition decode_settings (body : option json) : res remoteSettings :=
  match body with
  | Some (JObj fields) =>
      match decode_field decode_int64 "debounce_window_secs" 0%Z fields,
            decode_field decode_int64 "pending_threshold_secs" 0%Z fields,
            decode_field decode_int64 "unavailable_threshold_secs" 0%Z fields with
      | Ok d, Ok p, Ok u => Ok (mkRemoteSettings d p u)
      | Err e, _, _ | _, Err e, _ | _, _, Err e => Err e
      end
  | Some JNull => Ok (mkRemoteSettings 0 0 0)
  | Some _ => Err err_json
  | None => Err (ErrOther "invalid character")
  end.

(** What the HTTP exchange came to: the request could not be built, the call
    failed, or the server answered. *)
Inductive http_outcome :=
  | BadRequest (e : goerr)
  | CallFailed (e : goerr)
  | Answered (code : Z) (body : option json).

Definition Refresh (out : http_outcome) (cfg : Config) : res () * Config :=
  match out with
  | BadRequest e => (Err (ErrWrap "building request" e), cfg)
  | CallFailed e => (Err (ErrWrap "GET /internal/settings" e), cfg)
  | Answered code body =>
      if decide (code <> 200)%Z then (Ok tt, cfg) else
      match decode_settings body with
      | Err e => (Err (ErrWrap "decoding response" e), cfg)
      | Ok s => (Ok tt, Set_ (dur_mul (DebounceWindowSecs s) Second)
                            (dur_mul (PendingThresholdSecs s) Second)
                            (dur_mul (UnavailableThresholdSecs s) Second) cfg)
      end
  end.

(** [StartPolling]: the first refresh, then one per tick until the context is
    done; what a refresh returns is only logged. *)
Inductive poll_event := Tick (out : http_outcome) | CtxDone.
Fixpoint poll_loop (evs : list poll_event) (cfg : Config) : Config :=
  match evs with
  | Tick out :: evs' => poll_loop evs' (Refresh out cfg).2
  | CtxDone :: _ | [] => cfg
  end.
Definition StartPolling (first : http_outcome) (evs : list poll_event) (cfg : Config) : Config :=
  poll_loop evs (Refresh first cfg).2.

(** main.go: an environment variable in seconds, as a bare count. *)
Definition envDuration (v : string) (defaultSecs : Z) : Duration :=
  if decide (v = EmptyString) then defaultSecs else
  match parse_int v with
  | None => defaultSecs
  | Some n => if decide (n ≤ 0)%Z then defaultSecs else n
  end.
Definition initial_config (envDebounce envPending envUnavailable : string) : Config :=
  New (dur_mul (envDuration envDebounce 30) Second)
      (dur_mul (envDuration envPending 300) Second)
      (dur_mul (envDuration envUnavailable 300) Second).
(** [controlNamespace] of main.go. *)
Definition control_namespace (env : string) : string :=
  if decide (env = EmptyString) then "kubechan" else env.
(** [envBool]: [strconv.ParseBool], with false for what it rejects. *)
Definition envBool (v : string) : bool := str_in v ["1"; "t"; "T"; "TRUE"; "true"; "True"].

(** ** Thresholds stay usable *)

Definition usable (c : Config) : Prop :=
  (0 < debounceWindow c < 2 ^ 63)%Z /\ (0 < pendingThreshold c < 2 ^ 63)%Z /\
  (0 < unavailableThreshold c < 2 ^ 63)%Z.

Lemma or_default_range d def : int64_range d -> (0 < def < 2 ^ 63)%Z -> (0 < or_default d def < 2 ^ 63)%Z.
Proof. unfold or_default, int64_range. case_decide; lia. Qed.

Lemma set_stores_range d p u :
  int64_range d -> int64_range p -> int64_range u ->
  Forall (fun s => 0 < s.2 < 2 ^ 63)%Z (set_stores d p u).
Proof. intros. repeat constructor; simpl; try (apply or_default_range; [done|by vm_compute]); apply or_default_range; done. Qed.

Lemma store_all_usable stores cfg :
  Forall (fun s => 0 < s.2 < 2 ^ 63)%Z stores -> usable cfg -> usable (store_all stores cfg).
Proof.
  intros H. revert cfg. induction H as [|[c v] l Hv _ IH]; intros cfg Hc; [done|].
  apply IH. unfold usable in *. destruct c; simpl in *; naive_solver.
Qed.

Lemma set_usable d p u cfg :
  int64_range d -> int64_range p -> int64_range u -> usable (Set_ d p u cfg).
Proof.
  intros Hd Hp Hu. unfold usable, Set_. simpl.
  split_and!; apply or_default_range; done.
Qed.

Lemma refresh_usable out cfg : usable cfg -> usable (Refresh out cfg).2.
Proof.
  intros H. destruct out as [| |code body]; simpl; [done..|].
  case_decide; [done|]. destruct (decode_settings body); simpl; [|done].
  apply set_usable; apply wrap64_range.
Qed.
Lemma poll_loop_usable evs cfg : usable cfg -> usable (poll_loop evs cfg).
Proof. revert cfg; induction evs as [|[out|] evs IH]; intros cfg H; simpl; auto using refresh_usable. Qed.
#[export] Hint Resolve set_usable refresh_usable poll_loop_usable wrap64_range : kube.

(** At every moment of any number of polls, with whatever the backend
    answers - errors, other statuses, counts of seconds that overflow a duration
    when multiplied - the three thresholds read from the configuration are
    positive 64-bit durations, even between two of the stores of one [Set]. *)
Theorem thresholds_always_usable envD envP envU first evs d p u n :
  int64_range d -> int64_range p -> int64_range u ->
  usable (store_all (take n (set_stores d p u)) (StartPolling first evs (initial_config envD envP envU))).
Proof.
  intros Hd Hp Hu. apply store_all_usable.
  - by apply Forall_take, set_stores_range.
  - apply poll_loop_usable, refresh_usable, set_usable; apply wrap64_range.
Qed.
Theorem thresholds_always_usable_witness :
  let first := Answered 200 (Some (JObj [("debounce_window_secs", JNum "9223372036854775807");
                                         ("pending_threshold_secs", JNum "600")])) in
  StartPolling first [] (initial_config "15" EmptyString "x") =
    mkConfig (30 * Second)%Z (600 * Second)%Z (300 * Second)%Z /\
  usable (store_all (take 1 (set_stores 5 0 7)) (StartPolling first [] (initial_config "15" EmptyString "x"))).
Proof.
  split; [by vm_compute|].
  apply thresholds_always_usable; by vm_compute.
Defined.

(** [Refresh] changes the thresholds only on a 200 answer whose body
    decodes, and then to the three answered counts of seconds, each replaced by
    its default when the resulting duration is not positive; it returns an error
    exactly when the exchange failed or a 200 body does not decode. *)
Theorem refresh_spec out cfg :
  let '(r, cfg') := Refresh out cfg in
  match out with
  | Answered code body =>
      (code <> 200%Z -> r = Ok tt /\ cfg' = cfg) /\
      (code = 200%Z -> forall e, decode_settings body = Err e -> (exists e', r = Err e') /\ cfg' = cfg) /\
      (code = 200%Z -> forall s, decode_settings body = Ok s ->
         r = Ok tt /\
         forall secs def got,
           (secs, def, got) ∈ [(DebounceWindowSecs s, 30%Z, DebounceWindow cfg');
                               (PendingThresholdSecs s, 300%Z, PendingThreshold cfg');
                               (UnavailableThresholdSecs s, 300%Z, UnavailableThreshold cfg')] ->
           (0 < secs < 2 ^ 33 -> got = secs * Second)%Z /\
           (- 2 ^ 33 < secs <= 0 -> got = def * Second)%Z)
  | _ => (exists e, r = Err e) /\ cfg' = cfg
  end.
Proof.
  destruct out as [e|e|code body]; simpl; eauto.
  case_decide as Hc.
  - split_and!; [done|congruence..].
  - destruct (decode_settings body) as [s|e] eqn:E; (split_and!; intros; [lia| |]); simplify_eq/=; eauto.
    split; [done|]. intros secs def got Hin.
    assert (Hor : forall n d D, D = (d * Second)%Z ->
      (0 < n < 2 ^ 33 -> or_default (dur_mul n Second) D = n * Second)%Z /\
      (- 2 ^ 33 < n <= 0 -> or_default (dur_mul n Second) D = d * Second)%Z).
    { intros n d D ->. unfold or_default, dur_mul, Second.
      split; intros; rewrite wrap64_id by (unfold int64_range; lia); case_decide; lia. }
    repeat (apply elem_of_cons in Hin as [Hin|Hin]); simplify_eq/=; [by apply Hor..|by apply elem_of_nil in Hin].
Qed.

(** The zero value of [Config] does not hold the defaults its comment promises. *)
Lemma zero_config_has_no_defaults :
  DebounceWindow zeroConfig = 0%Z /\ PendingThreshold zeroConfig = 0%Z /\
  DebounceWindow (New 0 0 0) = defaultDebounceWindow.
Proof. by vm_compute. Qed.
