(* ===== verification/Debounce.v ===== *)
(** * The debouncer: services/cluster-watcher/debounce/debouncer.go

    [Debounce] and [Cancel] each run under the mutex, so each is one step.  What
    the Go runtime does with a timer is made explicit: a timer made by
    [time.AfterFunc] is armed, it may fire once its delay has passed, its
    goroutine then takes the mutex and deletes the map entry of its key, and
    calls the function after releasing the mutex.  Every interleaving of these
    steps with other calls is a run of [step]. *)

From stdpp Require Import sorting relations.
From stdpp Require Import prelude gmap strings list.
From S2P Require Import Prelude GoBase.

Inductive stage := Armed | Stopped | Fired | Released | Done.
#[export] Instance stage_eq_dec : EqDecision stage.
Proof. solve_decision. Defined.

Section Debounce.
(** What a debounced function is. *)
Context {F : Type}.

(** A timer and the function it will call; [t_due] is the earliest time it can fire. *)
Record timer := mkTimer {
  t_key : string;
  t_fn : F;
  t_due : Time;
  t_stage : stage;
}.
(** The state: the map of the struct, every timer made so far (a timer is named
    by its index), the clock, and the calls made so far. *)
Record Debouncer := mkDebouncer {
  timers : gmap string nat;
  created : list timer;
  now : Time;
  calls : list (nat * Time);
}.

Definition New (start : Time) : Debouncer := mkDebouncer ∅ [] start [].

Definition set_stage (g : stage) (tm : timer) : timer := mkTimer (t_key tm) (t_fn tm) (t_due tm) g.
(** [t.Stop()]: a timer that already fired is not affected. *)
Definition Stop (t : nat) (l : list timer) : list timer :=
  alter (fun tm => if decide (t_stage tm = Armed) then set_stage Stopped tm else tm) t l.

Definition Debounce (key : string) (fn : F) (w : Duration) (d : Debouncer) : Debouncer :=
  let l := match timers d !! key with Some t => Stop t (created d) | None => created d end in
  mkDebouncer (<[key := length l]> (timers d)) (l ++ [mkTimer key fn (now d + Z.max 0 w)%Z Armed])
    (now d) (calls d).

Definition Cancel (key : string) (d : Debouncer) : Debouncer :=
  match timers d !! key with
  | Some t => mkDebouncer (delete key (timers d)) (Stop t (created d)) (now d) (calls d)
  | None => d
  end.

(** The goroutine of a fired timer, up to the release of the mutex. *)
Definition callback (t : nat) (tm : timer) (d : Debouncer) : Debouncer :=
  mkDebouncer (delete (t_key tm) (timers d)) (<[t := set_stage Released tm]> (created d)) (now d) (calls d).
Definition advance (dt : Duration) (d : Debouncer) : Debouncer :=
  mkDebouncer (timers d) (created d) (now d + dt)%Z (calls d).
Definition fire (t : nat) (tm : timer) (d : Debouncer) : Debouncer :=
  mkDebouncer (timers d) (<[t := set_stage Fired tm]> (created d)) (now d) (calls d).
Definition call (t : nat) (tm : timer) (d : Debouncer) : Debouncer :=
  mkDebouncer (timers d) (<[t := set_stage Done tm]> (created d)) (now d) (calls d ++ [(t, now d)]).

Inductive event :=
  | EvDebounce (key : string) (fn : F) (w : Duration)
  | EvCancel (key : string)
  | EvAdvance (dt : Duration)
  | EvFire (t : nat)
  | EvCallback (t : nat)
  | EvCall (t : nat).

Inductive step : event -> Debouncer -> Debouncer -> Prop :=
  | step_debounce key fn w d : step (EvDebounce key fn w) d (Debounce key fn w d)
  | step_cancel key d : step (EvCancel key) d (Cancel key d)
  | step_advance dt d : (0 <= dt)%Z -> step (EvAdvance dt) d (advance dt d)
  | step_fire t tm d :
      created d !! t = Some tm -> t_stage tm = Armed -> (t_due tm <= now d)%Z ->
      step (EvFire t) d (fire t tm d)
  | step_callback t tm d :
      created d !! t = Some tm -> t_stage tm = Fired -> step (EvCallback t) d (callback t tm d)
  | step_call t tm d :
      created d !! t = Some tm -> t_stage tm = Released -> step (EvCall t) d (call t tm d).

Inductive steps : list event -> Debouncer -> Debouncer -> Prop :=
  | steps_nil d : steps [] d d
  | steps_cons e es d1 d2 d3 : step e d1 d2 -> steps es d2 d3 -> steps (e :: es) d1 d3.

(** The steps, executed: the only successor of a state by an event, if any. *)
Definition exec_timer (t : nat) (g : stage) (d : Debouncer) : option timer :=
  tm ← created d !! t; if decide (t_stage tm = g) then Some tm else None.
Definition exec_step (e : event) (d : Debouncer) : option Debouncer :=
  match e with
  | EvDebounce key fn w => Some (Debounce key fn w d)
  | EvCancel key => Some (Cancel key d)
  | EvAdvance dt => if decide (0 <= dt)%Z then Some (advance dt d) else None
  | EvFire t => tm ← exec_timer t Armed d; if decide (t_due tm <= now d)%Z then Some (fire t tm d) else None
  | EvCallback t => tm ← exec_timer t Fired d; Some (callback t tm d)
  | EvCall t => tm ← exec_timer t Released d; Some (call t tm d)
  end.
Fixpoint exec (es : list event) (d : Debouncer) : option Debouncer :=
  match es with
  | [] => Some d
  | e :: es' => d' ← exec_step e d; exec es' d'
  end.

(** No goroutine of a fired timer of this key is waiting for the mutex. *)
Definition no_waiting (key : string) (d : Debouncer) : Prop :=
  forall t tm, created d !! t = Some tm -> t_key tm = key -> t_stage tm <> Fired.
(** A step that does not overtake a waiting goroutine of the same key. *)
Definition orderly (e : event) (d : Debouncer) : Prop :=
  match e with
  | EvDebounce key _ _ | EvCancel key => no_waiting key d
  | _ => True
  end.
Definition no_waitingb (key : string) (d : Debouncer) : bool :=
  forallb (fun tm => negb (bool_decide (t_key tm = key /\ t_stage tm = Fired))) (created d).
Fixpoint orderlyb (es : list event) (d : Debouncer) : bool :=
  match es with
  | [] => true
  | e :: es' =>
      match e with EvDebounce key _ _ | EvCancel key => no_waitingb key d | _ => true end &&
      match exec_step e d with Some d' => orderlyb es' d' | None => false end
  end.
Inductive orderly_steps : list event -> Debouncer -> Debouncer -> Prop :=
  | orderly_nil d : orderly_steps [] d d
  | orderly_cons e es d1 d2 d3 :
      orderly e d1 -> step e d1 d2 -> orderly_steps es d2 d3 -> orderly_steps (e :: es) d1 d3.

Lemma exec_timer_Some t g d tm : exec_timer t g d = Some tm <-> created d !! t = Some tm /\ t_stage tm = g.
Proof.
  unfold exec_timer. destruct (created d !! t) as [tm0|]; simpl; [case_decide|]; naive_solver.
Qed.
Lemma exec_step_iff e d d' : exec_step e d = Some d' <-> step e d d'.
Proof.
  split.
  - destruct e; simpl; intros H.
    1,2: injection H as <-; constructor.
    + case_decide; simplify_eq. by constructor.
    + apply bind_Some in H as (tm & [E1 E2]%exec_timer_Some & H). case_decide; simplify_eq. by constructor.
    + apply bind_Some in H as (tm & [E1 E2]%exec_timer_Some & H). simplify_eq. by constructor.
    + apply bind_Some in H as (tm & [E1 E2]%exec_timer_Some & H). simplify_eq. by constructor.
  - destruct 1 as [| |dt d Hd|t tm d H1 H2 H3|t tm d H1 H2|t tm d H1 H2]; simpl; [done|done|by rewrite decide_True|..].
    all: rewrite (proj2 (exec_timer_Some _ _ _ _) (conj H1 H2)); simpl; by rewrite ?decide_True.
Qed.
Lemma exec_iff es d d' : exec es d = Some d' <-> steps es d d'.
Proof.
  split.
  - revert d; induction es as [|e es IH]; simpl; intros d H; [simplify_eq; constructor|].
    apply bind_Some in H as (d1 & H1 & H2). econstructor; [by apply exec_step_iff|eauto].
  - induction 1 as [|e es d1 d2 d3 H _ IH]; simpl; [done|].
    apply exec_step_iff in H as ->. exact IH.
Qed.
Lemma no_waitingb_true key d : no_waitingb key d = true <-> no_waiting key d.
Proof.
  unfold no_waitingb, no_waiting. rewrite List.forallb_forall. split.
  - intros H t tm Ht Hk Hg. specialize (H tm). rewrite negb_true_iff, bool_decide_eq_false in H.
    apply H; [|done]. apply list_elem_of_In. by eapply list_elem_of_lookup_2.
  - intros H tm [t Ht]%list_elem_of_In%list_elem_of_lookup_1.
    rewrite negb_true_iff, bool_decide_eq_false. intros [Hk Hg]. by eapply H.
Qed.
Lemma exec_orderly es d d' : orderlyb es d = true -> exec es d = Some d' -> orderly_steps es d d'.
Proof.
  revert d; induction es as [|e es IH]; simpl; intros d Ho H; [simplify_eq; constructor|].
  apply andb_true_iff in Ho as [Ho1 Ho2]. destruct (exec_step e d) as [d1|] eqn:E; [|done].
  econstructor; [|by apply exec_step_iff|by apply IH].
  destruct e; simpl; try done; by apply no_waitingb_true.
Qed.

Definition is_pending (g : stage) : Prop := g = Armed \/ g = Fired.

(** ** Invariants *)

(** Every call is the one call of a timer that was due; in every interleaving. *)
Record calls_ok (l : list timer) (n : Time) (cs : list (nat * Time)) : Prop := {
  co_nodup : NoDup (fst <$> cs);
  co_done t at_ : (t, at_) ∈ cs -> exists tm, l !! t = Some tm /\ t_stage tm = Done /\ (t_due tm <= at_)%Z;
  co_due t tm : l !! t = Some tm -> t_stage tm <> Armed -> t_stage tm <> Stopped -> (t_due tm <= n)%Z;
}.
Definition calls_inv (d : Debouncer) : Prop := calls_ok (created d) (now d) (calls d).

(** The map holds exactly the pending timers, each the last one of its key;
    in orderly runs. *)
Record map_inv (d : Debouncer) : Prop := {
  mi_pending t tm : created d !! t = Some tm -> is_pending (t_stage tm) -> timers d !! t_key tm = Some t;
  mi_entry k t : timers d !! k = Some t ->
    exists tm, created d !! t = Some tm /\ t_key tm = k /\ is_pending (t_stage tm);
  mi_last k t t' tm : timers d !! k = Some t -> created d !! t' = Some tm -> t_key tm = k -> t' <= t;
}.

Lemma lookup_Stop t l t' tm :
  Stop t l !! t' = Some tm ->
  exists tm0, l !! t' = Some tm0 /\ t_key tm = t_key tm0 /\ t_fn tm = t_fn tm0 /\ t_due tm = t_due tm0 /\
    (t_stage tm = t_stage tm0 \/ (t_stage tm0 = Armed /\ t_stage tm = Stopped)) /\
    (t' = t -> t_stage tm <> Armed).
Proof.
  unfold Stop. destruct (decide (t' = t)) as [->|Hne].
  - rewrite list_lookup_alter_eq. intros (tm0 & E & ->)%fmap_Some. exists tm0.
    case_decide; simpl; naive_solver.
  - rewrite list_lookup_alter_ne by done. naive_solver.
Qed.
Lemma lookup_Stop_back t l t' tm0 :
  l !! t' = Some tm0 -> t_stage tm0 <> Armed -> Stop t l !! t' = Some tm0.
Proof.
  intros H Hg. unfold Stop. destruct (decide (t' = t)) as [->|].
  - rewrite list_lookup_alter_eq, H. simpl. by rewrite decide_False.
  - by rewrite list_lookup_alter_ne.
Qed.
Lemma length_Stop t l : length (Stop t l) = length l.
Proof. apply length_alter. Qed.

Lemma calls_ok_Stop t l n cs : calls_ok l n cs -> calls_ok (Stop t l) n cs.
Proof.
  intros [Hnd Hdone Hdue]. split; [done| |].
  - intros t' at_ Hin. destruct (Hdone _ _ Hin) as (tm & E & Hg & Hle).
    exists tm. split; [|done]. apply lookup_Stop_back; [done|congruence].
  - intros t' tm (tm0 & E & _ & _ & -> & [?|[]] & _)%lookup_Stop ??; [|congruence].
    apply (Hdue t' tm0); congruence.
Qed.

Lemma calls_ok_app l n cs tm : t_stage tm = Armed -> calls_ok l n cs -> calls_ok (l ++ [tm]) n cs.
Proof.
  intros Hg [Hnd Hdone Hdue]. split; [done| |].
  - intros t' at_ Hin. destruct (Hdone _ _ Hin) as (tm' & E & H). exists tm'.
    split; [by apply lookup_app_l_Some|done].
  - intros t' tm' [H|[_ H]]%lookup_app_Some; [by apply (Hdue t')|].
    apply list_lookup_singleton_Some in H as [_ <-]. done.
Qed.

Lemma calls_ok_update l n cs t tm g :
  l !! t = Some tm -> t_stage tm <> Done -> (t_due tm <= n)%Z -> calls_ok l n cs ->
  calls_ok (<[t := set_stage g tm]> l) n cs.
Proof.
  intros Ht Hg Hd [Hnd Hdone Hdue]. split; [done| |].
  - intros t' at_ Hin. destruct (Hdone _ _ Hin) as (tm' & E & Hg' & Hle).
    exists tm'. rewrite list_lookup_insert_ne; [done|]. intros <-. congruence.
  - intros t' tm'. rewrite list_lookup_insert. case_decide as Hc; [|eauto].
    destruct Hc as [<- _]. by intros [= <-].
Qed.

Lemma calls_ok_call l n cs t tm :
  l !! t = Some tm -> t_stage tm = Released -> calls_ok l n cs ->
  calls_ok (<[t := set_stage Done tm]> l) n (cs ++ [(t, n)]).
Proof.
  intros Ht Hg Hok. assert (Hd : (t_due tm <= n)%Z) by (apply (co_due _ _ _ Hok t); congruence).
  destruct (calls_ok_update l n cs t tm Done) as [Hnd Hdone Hdue]; [done|congruence|done|done|].
  split; [| |done].
  - rewrite fmap_app. apply NoDup_app. split_and!; [done| |apply NoDup_singleton].
    intros t' ([t2 at_] & -> & Hin)%list_elem_of_fmap Heq%list_elem_of_singleton.
    simpl in Heq. subst t2. destruct (co_done _ _ _ Hok _ _ Hin) as (tm' & E & ? & _). congruence.
  - intros t' at_ [Hin|[= -> ->]%list_elem_of_singleton]%elem_of_app; [by apply Hdone|].
    exists (set_stage Done tm). by rewrite list_lookup_insert_eq by by eapply lookup_lt_Some.
Qed.

Lemma step_calls_inv e d d' : step e d d' -> calls_inv d -> calls_inv d'.
Proof.
  unfold calls_inv. destruct 1 as [key fn w d|key d|dt d Hdt|t tm d Ht Hg Hd|t tm d Ht Hg|t tm d Ht Hg]; intros H; simpl.
  - apply calls_ok_app; [done|]. destruct (timers d !! key); auto using calls_ok_Stop.
  - unfold Cancel. destruct (timers d !! key); simpl; auto using calls_ok_Stop.
  - destruct H as [Hnd Hdone Hdue]. split; [done..|]. intros t tm ???.
    assert (t_due tm <= now d)%Z by eauto. lia.
  - apply calls_ok_update; [done|congruence|done..].
  - apply calls_ok_update; [done|congruence| |done]. apply (co_due _ _ _ H t); congruence.
  - by apply calls_ok_call.
Qed.

Lemma steps_calls_inv es d d' : steps es d d' -> calls_inv d -> calls_inv d'.
Proof. induction 1; eauto using step_calls_inv. Qed.
Lemma New_calls_inv start : calls_inv (New start).
Proof. split; simpl; [apply NoDup_nil_2|by intros ?? ?%elem_of_nil|done]. Qed.

(** What [Debounce] and [Cancel] leave of the timers made before. *)
Definition stopped_key (key : string) (d : Debouncer) : list timer :=
  match timers d !! key with Some t => Stop t (created d) | None => created d end.
Lemma length_stopped_key key d : length (stopped_key key d) = length (created d).
Proof. unfold stopped_key. destruct (timers d !! key); auto using length_Stop. Qed.

Lemma stopped_key_key key d t tm :
  stopped_key key d !! t = Some tm -> exists tm0, created d !! t = Some tm0 /\ t_key tm0 = t_key tm.
Proof.
  unfold stopped_key. destruct (timers d !! key); [|eauto].
  intros (tm0 & ? & ? & _)%lookup_Stop. eauto.
Qed.

(** Without a waiting goroutine of [key], none of its timers is left pending
    and those of other keys are as they were. *)
Lemma stopped_key_pending key d t tm :
  map_inv d -> no_waiting key d -> stopped_key key d !! t = Some tm -> is_pending (t_stage tm) ->
  t_key tm <> key /\ created d !! t = Some tm.
Proof.
  intros [Hp He _] Hw. unfold stopped_key, is_pending.
  assert (Hnone : forall tm, created d !! t = Some tm -> t_stage tm = Armed \/ t_stage tm = Fired ->
    t_key tm = key -> timers d !! key = Some t /\ t_stage tm = Armed).
  { intros tm0 E Hg <-. split; [by apply (Hp _ _ E)|]. destruct Hg; [done|]. by edestruct Hw. }
  destruct (timers d !! key) as [t0|] eqn:Ek.
  - intros H Hg. pose proof H as (tm0 & E & Hk & Hf & Hd & Hst & Hne)%lookup_Stop.
    assert (t_stage tm = t_stage tm0) as Hs by (destruct Hst as [|[_ Hx]]; [done|]; rewrite Hx in Hg; naive_solver).
    assert (tm = tm0) as -> by (destruct tm, tm0; simpl in *; congruence).
    split; [|done]. intros Hkey. destruct (Hnone _ E Hg Hkey) as [[= ->] Ha]. by apply Hne.
  - intros E Hg. split; [|done]. intros Hkey. by destruct (Hnone _ E Hg Hkey).
Qed.

Lemma stopped_key_other key d t tm :
  map_inv d -> created d !! t = Some tm -> t_key tm <> key -> stopped_key key d !! t = Some tm.
Proof.
  intros [Hp He _] E Hk. unfold stopped_key. destruct (timers d !! key) as [t0|] eqn:Ek; [|done].
  destruct (He _ _ Ek) as (tm0 & E0 & <- & _). unfold Stop.
  rewrite list_lookup_alter_ne; [done|]. intros <-. naive_solver.
Qed.

Lemma map_inv_Debounce key fn w d : no_waiting key d -> map_inv d -> map_inv (Debounce key fn w d).
Proof.
  intros Hw Hinv. unfold Debounce. fold (stopped_key key d).
  pose proof (length_stopped_key key d) as Hlen. split; simpl.
  - intros t tm [H|[Hl H]]%lookup_app_Some Hg.
    + destruct (stopped_key_pending _ _ _ _ Hinv Hw H Hg) as [Hne E].
      rewrite lookup_insert_ne by done. by apply (mi_pending _ Hinv t).
    + apply list_lookup_singleton_Some in H as [Ht <-]. simpl. rewrite lookup_insert_eq. f_equal. lia.
  - intros k t. rewrite lookup_insert. case_decide as Hk.
    + intros [= <-]. subst k. eexists. rewrite lookup_app_r, Nat.sub_diag by done. simpl.
      split_and!; [done|done|by left].
    + intros Ht. destruct (mi_entry _ Hinv _ _ Ht) as (tm & E & Hkt & Hg). exists tm.
      split; [|done]. apply lookup_app_l_Some, stopped_key_other; [done..|congruence].
  - intros k t t' tm. rewrite lookup_insert. case_decide as Hk.
    + intros [= <-] Ht' _. apply lookup_lt_Some in Ht'. rewrite length_app in Ht'. simpl in Ht'. lia.
    + intros Ht [H|[Hl H]]%lookup_app_Some Hkt.
      * destruct (stopped_key_key _ _ _ _ H) as (tm0 & E & ?). apply (mi_last _ Hinv k t t' tm0); congruence.
      * apply list_lookup_singleton_Some in H as [_ <-]. done.
Qed.

Lemma map_inv_Cancel key d : no_waiting key d -> map_inv d -> map_inv (Cancel key d).
Proof.
  intros Hw Hinv. unfold Cancel. destruct (timers d !! key) as [t0|] eqn:Ek; [|done].
  assert (Stop t0 (created d) = stopped_key key d) as Hs by (unfold stopped_key; by rewrite Ek).
  split; simpl; rewrite ?Hs.
  - intros t tm H Hg. destruct (stopped_key_pending _ _ _ _ Hinv Hw H Hg) as [Hne E].
    rewrite lookup_delete_ne by done. by apply (mi_pending _ Hinv t).
  - intros k t [Hk Ht]%lookup_delete_Some. destruct (mi_entry _ Hinv _ _ Ht) as (tm & E & Hkt & Hg). exists tm.
    split; [|done]. apply stopped_key_other; [done..|congruence].
  - intros k t t' tm [Hk Ht]%lookup_delete_Some H Hkt.
    destruct (stopped_key_key _ _ _ _ H) as (tm0 & E & ?). apply (mi_last _ Hinv k t t' tm0); congruence.
Qed.

(** A timer that stays pending, or stays not pending. *)
Lemma map_inv_set_stage t tm g cs d :
  created d !! t = Some tm -> map_inv d -> (is_pending g <-> is_pending (t_stage tm)) ->
  map_inv (mkDebouncer (timers d) (<[t := set_stage g tm]> (created d)) (now d) cs).
Proof.
  intros Ht [Hp He Hl] Hg. split; simpl.
  - intros t' tm'. rewrite list_lookup_insert. case_decide as Hc; [|eauto].
    destruct Hc as [<- _]. intros [= <-] Hg'. apply (Hp _ _ Ht). by apply Hg.
  - intros k t' Hk. destruct (He _ _ Hk) as (tm' & E & Hkt & Hg'). destruct (decide (t = t')) as [<-|Hne].
    + exists (set_stage g tm). rewrite list_lookup_insert_eq by by eapply lookup_lt_Some.
      simplify_eq. split_and!; [done..|]. by apply Hg.
    + exists tm'. by rewrite list_lookup_insert_ne.
  - intros k t1 t' tm' Hk. rewrite list_lookup_insert. case_decide as Hc; [|eauto].
    destruct Hc as [<- _]. intros [= <-] Hkt. by apply (Hl _ _ _ _ Hk Ht).
Qed.

Lemma map_inv_callback t tm d :
  created d !! t = Some tm -> t_stage tm = Fired -> map_inv d -> map_inv (callback t tm d).
Proof.
  intros Ht Hst [Hp He Hl]. assert (Htk : timers d !! t_key tm = Some t) by (apply Hp; [done|by right]).
  split; simpl.
  - intros t' tm'. rewrite list_lookup_insert. case_decide as Hc.
    + destruct Hc as [<- _]. intros [= <-] [|]; done.
    + intros E Hg. rewrite lookup_delete_ne; [by apply Hp|]. intros Hk.
      pose proof (Hp _ _ E Hg) as H. rewrite <- Hk, Htk in H. injection H as <-.
      apply Hc. split; [done|]. by eapply lookup_lt_Some.
  - intros k t' [Hk Ht']%lookup_delete_Some. destruct (He _ _ Ht') as (tm' & E & Hkt & Hg').
    exists tm'. rewrite list_lookup_insert_ne; [done|]. intros <-. congruence.
  - intros k t1 t' tm' [Hk Ht1]%lookup_delete_Some. rewrite list_lookup_insert. case_decide as Hc; [|eauto].
    destruct Hc as [<- _]. intros [= <-] Hkt. by apply (Hl _ _ _ _ Ht1 Ht).
Qed.

Lemma orderly_map_inv e d d' : orderly e d -> step e d d' -> map_inv d -> map_inv d'.
Proof.
  intros Ho Hs Hinv. destruct Hs as [key fn w d|key d|dt d Hdt|t tm d Ht Hg Hd|t tm d Ht Hg|t tm d Ht Hg].
  - by apply map_inv_Debounce.
  - by apply map_inv_Cancel.
  - by destruct Hinv; split.
  - apply map_inv_set_stage; [done..|]. unfold is_pending. naive_solver.
  - by apply map_inv_callback.
  - apply map_inv_set_stage; [done..|]. rewrite Hg. unfold is_pending. naive_solver.
Qed.

Lemma orderly_steps_map_inv es d d' : orderly_steps es d d' -> map_inv d -> map_inv d'.
Proof. induction 1; eauto using orderly_map_inv. Qed.
Lemma New_map_inv start : map_inv (New start).
Proof. split; simpl; intros; simplify_map_eq; done. Qed.

(** ** Once cancelled, a key stays quiet until it is debounced again *)

(** No timer of [key] can still reach its call, apart from those in [out] whose
    goroutine had already left the mutex. *)
Definition silenced (key : string) (out : list nat) (d : Debouncer) : Prop :=
  forall t tm, created d !! t = Some tm -> t_key tm = key ->
    ~ is_pending (t_stage tm) /\ (t_stage tm = Released -> t ∈ out).

Lemma silenced_insert key out t tm g l d m n cs :
  created d !! t = Some tm -> l = <[t := set_stage g tm]> (created d) -> silenced key out d ->
  (t_key tm = key -> ~ is_pending g /\ (g = Released -> t ∈ out)) -> silenced key out (mkDebouncer m l n cs).
Proof.
  intros Ht -> Hs Hg t' tm'. simpl. rewrite list_lookup_insert. case_decide as Hc; [|eauto].
  destruct Hc as [<- _]. intros [= <-]. done.
Qed.
Lemma silenced_Stop key out t d m n cs :
  silenced key out d -> silenced key out (mkDebouncer m (Stop t (created d)) n cs).
Proof.
  intros Hs t' tm (tm0 & E & Hk & _ & _ & Hst & _)%lookup_Stop Hkey.
  destruct (Hs _ _ E) as [H1 H2]; [congruence|].
  destruct Hst as [->|[Ha Hst]]; [done|]. rewrite Ha in H1. destruct H1. by left.
Qed.

Lemma silenced_step key out e d d' :
  (forall fn w, e <> EvDebounce key fn w) -> step e d d' -> silenced key out d -> silenced key out d'.
Proof.
  intros He Hs Hq. destruct Hs as [k fn w d|k d|dt d Hdt|t tm d Ht Hg Hd|t tm d Ht Hg|t tm d Ht Hg].
  - assert (Hk : key <> k) by (intros ->; by eapply He).
    assert (silenced key out (mkDebouncer (timers d) (stopped_key k d) (now d) (calls d))) as Hq'.
    { unfold stopped_key. destruct (timers d !! k); [by apply silenced_Stop|done]. }
    intros t tm [H|[_ H]]%lookup_app_Some Hkt; [by eapply Hq'|].
    apply list_lookup_singleton_Some in H as [_ <-]. done.
  - unfold Cancel. destruct (timers d !! k); [by apply silenced_Stop|done].
  - done.
  - eapply silenced_insert; [done..|]. intros Hk. destruct (Hq _ _ Ht Hk) as [[] _]. by left.
  - eapply silenced_insert; [done..|]. intros Hk. destruct (Hq _ _ Ht Hk) as [[] _]. by right.
  - eapply silenced_insert; [done..|]. intros Hk. split; [by intros [|]|done].
Qed.

(** A timer keeps its key, function and due time. *)
Definition same_timer (tm tm' : timer) : Prop :=
  t_key tm' = t_key tm /\ t_fn tm' = t_fn tm /\ t_due tm' = t_due tm.
Lemma Stop_keeps t l t' tm : l !! t' = Some tm -> exists tm', Stop t l !! t' = Some tm' /\ same_timer tm tm'.
Proof.
  intros E. destruct (Stop t l !! t') as [tm'|] eqn:E'.
  - exists tm'. split; [done|]. apply lookup_Stop in E' as (tm0 & ? & ? & ? & ? & _). by simplify_eq.
  - apply lookup_ge_None in E'. rewrite length_Stop in E'. apply lookup_lt_Some in E. lia.
Qed.
Lemma step_keeps e d d' t tm :
  step e d d' -> created d !! t = Some tm -> exists tm', created d' !! t = Some tm' /\ same_timer tm tm'.
Proof.
  assert (Hrefl : exists tm', Some tm = Some tm' /\ same_timer tm tm') by by exists tm.
  assert (Hins : forall (l : list timer) t0 tm0 g, l !! t0 = Some tm0 -> l !! t = Some tm ->
    exists tm', <[t0 := set_stage g tm0]> l !! t = Some tm' /\ same_timer tm tm').
  { intros l t0 tm0 g H0 E. rewrite list_lookup_insert. case_decide as Hc; [|by rewrite E].
    destruct Hc as [<- _]. assert (tm0 = tm) as -> by congruence. by exists (set_stage g tm). }
  destruct 1 as [key fn w d|key d|dt d Hdt|t0 tm0 d|t0 tm0 d|t0 tm0 d]; intros E; simpl; auto.
  - assert (exists tm', stopped_key key d !! t = Some tm' /\ same_timer tm tm') as (tm' & E' & Hs).
    { unfold stopped_key. destruct (timers d !! key); [by apply Stop_keeps|by rewrite E]. }
    exists tm'. split; [by apply lookup_app_l_Some|done].
  - unfold Cancel. destruct (timers d !! key); [by apply Stop_keeps|by rewrite E].
  - by rewrite E.
Qed.
Lemma steps_keep es d d' t tm :
  steps es d d' -> created d !! t = Some tm -> exists tm', created d' !! t = Some tm' /\ same_timer tm tm'.
Proof.
  intros Hs. revert tm. induction Hs as [d|e es d1 d2 d3 Hs Hss IH]; intros tm E; [by exists tm|].
  destruct (step_keeps _ _ _ _ _ Hs E) as (tm2 & E2 & H2). destruct (IH _ E2) as (tm3 & E3 & H3).
  exists tm3. unfold same_timer in *. naive_solver congruence.
Qed.

(** The calls that silenced runs make for [key] are those already on their way. *)
Lemma silenced_calls key out es d d' :
  (forall fn w, EvDebounce key fn w ∉ es) -> steps es d d' -> silenced key out d ->
  forall t at_ tm, (t, at_) ∈ calls d' -> (t, at_) ∉ calls d -> created d' !! t = Some tm -> t_key tm = key ->
  t ∈ out.
Proof.
  intros He Hs. induction Hs as [d|e es d1 d2 d3 Hs Hss IH]; intros Hq t at_ tm Hin Hnin Ht Hk; [done|].
  destruct (decide ((t, at_) ∈ calls d2)) as [Hin2|Hnin2].
  - assert (exists tm1, created d1 !! t = Some tm1 /\ t_stage tm1 = Released) as (tm1 & E1 & Hg).
    { destruct Hs; simpl in *; try done.
      - unfold Cancel in Hin2. by destruct (timers d !! key0).
      - apply elem_of_app in Hin2 as [|[= -> ->]%list_elem_of_singleton]; [done|eauto]. }
    destruct (steps_keep (e :: es) d1 d3 t tm1) as (tm3 & E3 & Hkey & _); [by econstructor|done|].
    eapply Hq; [done| |done]. congruence.
  - eapply IH; [|eapply silenced_step; [|done..]|done..].
    + intros fn w Hx. apply (He fn w). by right.
    + intros fn w ->. apply (He fn w). by left.
Qed.

(** The functions passed to [Debounce], in order. *)
Definition debounced (es : list event) : list (string * F) :=
  omap (fun e => match e with EvDebounce key fn _ => Some (key, fn) | _ => None end) es.
Definition timer_fn (tm : timer) : string * F := (t_key tm, t_fn tm).

Lemma timer_fn_Stop t l : timer_fn <$> Stop t l = timer_fn <$> l.
Proof.
  unfold Stop. apply list_eq. intros i. rewrite !list_lookup_fmap.
  destruct (decide (i = t)) as [->|]; [|by rewrite list_lookup_alter_ne].
  rewrite list_lookup_alter_eq. destruct (l !! t); simpl; [|done]. by case_decide.
Qed.
Lemma timer_fn_set_stage t tm g (l : list timer) :
  l !! t = Some tm -> timer_fn <$> <[t := set_stage g tm]> l = timer_fn <$> l.
Proof.
  intros H. rewrite list_fmap_insert. apply list_insert_id. by rewrite list_lookup_fmap, H.
Qed.
Lemma step_timer_fn e d d' :
  step e d d' -> timer_fn <$> created d' = (timer_fn <$> created d) ++ debounced [e].
Proof.
  destruct 1; simpl; rewrite ?app_nil_r; [| |done|by apply timer_fn_set_stage..].
  - rewrite fmap_app. f_equal. destruct (timers d !! key); by rewrite ?timer_fn_Stop.
  - unfold Cancel. destruct (timers d !! key); simpl; by rewrite ?timer_fn_Stop.
Qed.
Lemma steps_timer_fn es d d' :
  steps es d d' -> timer_fn <$> created d' = (timer_fn <$> created d) ++ debounced es.
Proof.
  induction 1 as [d|e es d1 d2 d3 Hs _ IH]; [by rewrite app_nil_r|].
  rewrite IH, (step_timer_fn _ _ _ Hs), <- app_assoc. f_equal.
  unfold debounced. change (e :: es) with ([e] ++ es). by rewrite omap_app.
Qed.
Lemma orderly_steps_steps es d d' : orderly_steps es d d' -> steps es d d'.
Proof. induction 1; econstructor; eauto. Qed.

(** In every interleaving, each call of [Debounce] runs its function at most
    once and not before the window it was given has passed: the calls made are
    calls of distinct timers, the timers are those of the [Debounce] calls in
    order, and a call is made at or after its timer's due time. *)
Theorem debounced_call_runs_at_most_once start es d :
  steps es (New start) d ->
  NoDup (fst <$> calls d) /\ timer_fn <$> created d = debounced es /\
  forall t at_, (t, at_) ∈ calls d ->
    exists tm, created d !! t = Some tm /\ t_stage tm = Done /\ (t_due tm <= at_)%Z.
Proof.
  intros Hs. destruct (steps_calls_inv _ _ _ Hs (New_calls_inv start)) as [Hnd Hdone Hdue].
  split_and!; [done| |done]. by apply steps_timer_fn in Hs.
Qed.

(** C12: When no call of [Debounce] or [Cancel] overtakes the goroutine of a
    fired timer of the same key, rapid calls coalesce: a key has at most one
    pending timer, it is the timer of the last [Debounce] of that key, and it
    is the one in the map. *)
Theorem debounce_coalesces start es d t tm :
  orderly_steps es (New start) d -> created d !! t = Some tm -> is_pending (t_stage tm) ->
  timers d !! t_key tm = Some t /\
  forall t' tm', created d !! t' = Some tm' -> t_key tm' = t_key tm ->
    t' <= t /\ (is_pending (t_stage tm') -> t' = t).
Proof.
  intros Hs Ht Hg. apply orderly_steps_map_inv in Hs as Hinv; [|apply New_map_inv].
  assert (Hk : timers d !! t_key tm = Some t) by by apply (mi_pending _ Hinv).
  split; [done|]. intros t' tm' Ht' Hkey. split; [by eapply (mi_last _ Hinv)|].
  intros Hg'. pose proof (mi_pending _ Hinv _ _ Ht' Hg') as Hx. congruence.
Qed.

(** In such runs [Cancel] is final: whatever happens after it, as long as
    the key is not debounced again, a function of that key runs only if its
    goroutine had already released the mutex when [Cancel] was called. *)
Theorem cancel_stops_pending_call start es d key es' d' t at_ tm :
  orderly_steps es (New start) d -> no_waiting key d ->
  steps es' (Cancel key d) d' -> (forall fn w, EvDebounce key fn w ∉ es') ->
  (t, at_) ∈ calls d' -> (t, at_) ∉ calls d -> created d' !! t = Some tm -> t_key tm = key ->
  exists tm0, created d !! t = Some tm0 /\ t_stage tm0 = Released.
Proof.
  intros Ho Hw Hs He Hin Hnin Ht Hk.
  apply orderly_steps_map_inv in Ho as Hinv; [|apply New_map_inv].
  set (out := filter (fun t => t_stage <$> created d !! t = Some Released) (seq 0 (length (created d)))).
  assert (Hcs : calls (Cancel key d) = calls d) by (unfold Cancel; by destruct (timers d !! key)).
  enough (t ∈ out) as (Hr & _)%list_elem_of_filter.
  { destruct (created d !! t) as [tm0|]; [|done]. exists tm0. naive_solver. }
  eapply silenced_calls; [done|done| |done|by rewrite Hcs|done|done].
  intros t0 tm0 E0 Hk0.
  assert (Hst : stopped_key key d !! t0 = Some tm0).
  { revert E0. unfold Cancel, stopped_key. by destruct (timers d !! key). }
  split.
  - intros Hp. by destruct (stopped_key_pending _ _ _ _ Hinv Hw Hst Hp).
  - intros Hr. assert (created d !! t0 = Some tm0 \/ exists tm1, created d !! t0 = Some tm1 /\ t_stage tm1 = Released) as Hc.
    { revert Hst. unfold stopped_key. destruct (timers d !! key); [|by left].
      intros (tm1 & E & _ & _ & _ & [Hx|[_ Hx]] & _)%lookup_Stop; [|congruence]. right. exists tm1. split; congruence. }
    apply list_elem_of_filter. split.
    + destruct Hc as [->|(tm1 & -> & Hg)]; simpl; congruence.
    + apply elem_of_seq. split; [lia|]. simpl. rewrite <- (length_stopped_key key d). by eapply lookup_lt_Some.
Qed.

(** A pending call is never lost: from any state, an armed timer can come
    due, fire, pass the mutex and make its call. *)
Theorem armed_call_can_run d t tm :
  created d !! t = Some tm -> t_stage tm = Armed ->
  exists d', steps [EvAdvance (Z.max 0 (t_due tm - now d)); EvFire t; EvCallback t; EvCall t] d d' /\
    calls d' = calls d ++ [(t, now d')].
Proof.
  intros Ht Hg. assert (Hl : t < length (created d)) by by eapply lookup_lt_Some.
  set (d1 := advance (Z.max 0 (t_due tm - now d)) d). set (d2 := fire t tm d1).
  set (d3 := callback t (set_stage Fired tm) d2). set (d4 := call t (set_stage Released (set_stage Fired tm)) d3).
  exists d4. split; [|done].
  apply (steps_cons _ _ _ d1); [constructor; lia|].
  apply (steps_cons _ _ _ d2); [constructor; simpl; [done|done|lia]|].
  apply (steps_cons _ _ _ d3).
  { constructor; [|done]. simpl. by rewrite list_lookup_insert_eq. }
  apply (steps_cons _ _ _ d4); [|constructor].
  constructor; [|done]. simpl. rewrite list_lookup_insert_eq; [done|]. by rewrite length_insert.
Qed.
End Debounce.
Arguments event : clear implicits.
Arguments Debouncer : clear implicits.
Arguments timer : clear implicits.

(** ** Concrete runs *)

Definition two_quick_calls : list (event string) :=
  [EvDebounce "pod" "first" 10; EvAdvance 5; EvDebounce "pod" "second" 10; EvAdvance 10;
   EvFire 1; EvCallback 1; EvCall 1].
Definition after (es : list (event string)) : Debouncer string := default (New 0) (exec es (New 0)).

Theorem debounced_call_runs_at_most_once_witness :
  let d := after two_quick_calls in calls d = [(1, 15%Z)] /\ NoDup (fst <$> calls d).
Proof.
  split; [by vm_compute|]. apply (debounced_call_runs_at_most_once 0 two_quick_calls).
  apply exec_iff. by vm_compute.
Defined.
Theorem debounce_coalesces_witness :
  let d := after (take 4 two_quick_calls) in
  timers d !! "pod" = Some 1 /\
  (forall t' tm', created d !! t' = Some tm' -> t_key tm' = "pod" -> t' <= 1 /\ (is_pending (t_stage tm') -> t' = 1)).
Proof.
  apply (debounce_coalesces 0 (take 4 two_quick_calls) _ 1 (mkTimer "pod" "second" 15 Armed)).
  - apply exec_orderly; by vm_compute.
  - by vm_compute.
  - by left.
Defined.
(** A call whose goroutine is past the mutex when [Cancel] comes. *)
Definition late_cancel : list (event string) :=
  [EvDebounce "pod" "first" 10; EvAdvance 10; EvFire 0; EvCallback 0].
Theorem cancel_stops_pending_call_witness :
  exists tm0, created (after late_cancel) !! 0 = Some tm0 /\ t_stage tm0 = Released.
Proof.
  apply (cancel_stops_pending_call 0 late_cancel (after late_cancel) "pod" [EvCall 0]
    (after (late_cancel ++ [EvCancel "pod"; EvCall 0])) 0 10%Z (mkTimer "pod" "first" 10 Done)).
  - apply exec_orderly; by vm_compute.
  - apply no_waitingb_true. by vm_compute.
  - apply exec_iff. by vm_compute.
  - intros fn w [Hx|Hx%elem_of_nil]%elem_of_cons; done.
  - vm_compute. by left.
  - by intros Hx%elem_of_nil.
  - by vm_compute.
  - done.
Defined.
Theorem armed_call_can_run_witness :
  exists d', steps [EvAdvance 10; EvFire 1; EvCallback 1; EvCall 1] (after (take 3 two_quick_calls)) d' /\
    calls d' = [(1, now d')].
Proof.
  apply (armed_call_can_run (after (take 3 two_quick_calls)) 1 (mkTimer "pod" "second" 15 Armed)); by vm_compute.
Defined.

(** A goroutine of a fired timer that takes the mutex after a newer call of
    [Debounce] deletes the newer timer's map entry. *)
Definition stale_callback : list (event string) :=
  [EvDebounce "pod" "first" 10; EvAdvance 10; EvFire 0; EvDebounce "pod" "second" 10; EvCallback 0;
   EvCancel "pod"; EvAdvance 10; EvFire 1; EvCallback 1; EvCall 1].

(** Without that order coalescing and [Cancel] both break: after the
    goroutine of an earlier timer has deleted the map entry of a newer one,
    [Cancel] no longer stops the newer call, which runs although it was cancelled
    before it was due, and a further [Debounce] leaves two armed timers of one key. *)
Theorem stale_callback_defeats_cancel :
  (exists d, steps stale_callback (New 0) d /\ calls d = [(1, 20%Z)]) /\
  (exists d, steps (take 5 stale_callback ++ [EvDebounce "pod" "third" 10]) (New 0) d /\
     t_stage <$> created d = [Released; Armed; Armed] /\ Forall (fun tm => t_key tm = "pod") (created d)).
Proof.
  split.
  - exists (after stale_callback). split; [apply exec_iff|]; by vm_compute.
  - exists (after (take 5 stale_callback ++ [EvDebounce "pod" "third" 10])).
    split_and!; [apply exec_iff; by vm_compute|by vm_compute|repeat constructor].
Qed.
