(* ===== verification/Detectors.v ===== *)
(** * The detectors: services/cluster-watcher/detector

    A [Detector] is the Go interface: a name and an evaluation of one object
    against the reader.  Each detector reads the clock where the code calls
    [time.Since]; [clk i] is the i-th reading during one evaluation.  The
    detectors with a threshold function take the value it returns when
    called, [None] for a nil function. *)

From stdpp Require Import sorting.
From stdpp Require Import prelude gmap strings list.
From S2P Require Import Prelude GoBase Api Client WatcherConfig.

Record Symptom := mkSymptom { sy_Message : string; sy_Severity : string }.
#[export] Instance Symptom_eq_dec : EqDecision Symptom.
Proof. solve_decision. Defined.

Definition Clock := nat -> Time.

Record Detector (W : Type) := mkDetector {
  Name : string;
  Evaluate : Clock -> ClientObject -> W -> res (list Symptom);
}.
Arguments mkDetector {_} _ _.
Arguments Name {_} _.
Arguments Evaluate {_} _ _ _ _.

(** ** Pods: containers waiting for a reason

    [check] appends to the symptoms; both loops run it on every container. *)
Definition check_containers (check : list Symptom -> ContainerStatus -> list Symptom) (pod : Pod) : list Symptom :=
  let symptoms := foldl check [] (pot_ContainerStatuses (status pod)) in
  foldl check symptoms (pot_InitContainerStatuses (status pod)).

Module CrashLoopBackOff.
Definition check (symptoms : list Symptom) (cs : ContainerStatus) : list Symptom :=
  if decide (cst_Waiting cs = Some "CrashLoopBackOff") then
    symptoms ++ [mkSymptom ("container " +:+ go_quote (cst_Name cs) +:+ " is in CrashLoopBackOff (restarts: "
                            +:+ itoa (cst_RestartCount cs) +:+ ")") "critical"]
  else symptoms.
Definition evaluate {W} (clk : Clock) (obj : ClientObject) (w : W) : res (list Symptom) :=
  match obj with
  | PodObject pod => Ok (check_containers check pod)
  | _ => Ok []
  end.
Definition detector {W} : Detector W := mkDetector "CrashLoopBackOff" evaluate.
End CrashLoopBackOff.

Module ImagePullBackOff.
Definition check (symptoms : list Symptom) (cs : ContainerStatus) : list Symptom :=
  match cst_Waiting cs with
  | None => symptoms
  | Some reason =>
      if str_in reason ["ImagePullBackOff"; "ErrImagePull"] then
        symptoms ++ [mkSymptom ("container " +:+ go_quote (cst_Name cs) +:+ " cannot pull image "
                                +:+ go_quote (cst_Image cs) +:+ ": " +:+ reason) "high"]
      else symptoms
  end.
Definition evaluate {W} (clk : Clock) (obj : ClientObject) (w : W) : res (list Symptom) :=
  match obj with
  | PodObject pod => Ok (check_containers check pod)
  | _ => Ok []
  end.
Definition detector {W} : Detector W := mkDetector "ImagePullBackOff" evaluate.
End ImagePullBackOff.

Module PendingTooLong.
Definition defaultPendingThreshold : Duration := (5 * Minute)%Z.
Definition evaluate {W} (threshold : option Duration) (clk : Clock) (obj : ClientObject) (w : W) : res (list Symptom) :=
  match obj with
  | PodObject pod =>
      if decide (pot_Phase (status pod) <> PodPending) then Ok [] else
      let threshold := default defaultPendingThreshold threshold in
      let age := time_sub (clk 0) (om_CreationTimestamp (meta pod)) in
      if decide (age < threshold)%Z then Ok [] else
      Ok [mkSymptom ("pod has been Pending for " +:+ duration_string (dur_round age Second)
                     +:+ " (threshold: " +:+ duration_string threshold +:+ ")") "medium"]
  | _ => Ok []
  end.
Definition detector {W} (threshold : option Duration) : Detector W :=
  mkDetector "PendingTooLong" (evaluate threshold).
End PendingTooLong.

Module DeploymentUnavailable.
Definition defaultUnavailableThreshold : Duration := (5 * Minute)%Z.
(** The first condition Available=False, or the creation of the deployment. *)
Fixpoint unavailable_since (created : Time) (conds : list DeploymentCondition) : Time :=
  match conds with
  | [] => created
  | cond :: conds' =>
      if decide (dc_Type cond = DeploymentAvailable /\ dc_Status cond = ConditionFalse)
      then dc_LastTransitionTime cond else unavailable_since created conds'
  end.
Definition evaluate {W} (threshold : option Duration) (clk : Clock) (obj : ClientObject) (w : W) : res (list Symptom) :=
  match obj with
  | DeploymentObject deploy =>
      let desired := default 1%Z (des_Replicas (spec deploy)) in
      let available := det_AvailableReplicas (status deploy) in
      let unavailable := det_UnavailableReplicas (status deploy) in
      if decide (desired = 0)%Z then Ok [] else
      if decide (desired <= available /\ unavailable = 0)%Z then Ok [] else
      if decide (available = 0 /\ unavailable = 0)%Z then Ok [] else
      let threshold := default defaultUnavailableThreshold threshold in
      let unavailableSince := unavailable_since (om_CreationTimestamp (meta deploy)) (det_Conditions (status deploy)) in
      if decide (time_sub (clk 0%nat) unavailableSince < threshold)%Z then Ok [] else
      let duration := duration_string (dur_round (time_sub (clk 1) unavailableSince) Second) in
      if decide (available = 0)%Z then
        Ok [mkSymptom ("deployment " +:+ go_quote (obj_name deploy) +:+ " has 0/" +:+ itoa desired
                       +:+ " available replicas for " +:+ duration) "high"]
      else if decide (unavailable > 0)%Z then
        Ok [mkSymptom ("deployment " +:+ go_quote (obj_name deploy) +:+ " has " +:+ itoa unavailable
                       +:+ " unavailable replica(s) (" +:+ itoa (det_ReadyReplicas (status deploy)) +:+ "/"
                       +:+ itoa desired +:+ " ready) for " +:+ duration) "high"]
      else Ok []
  | _ => Ok []
  end.
Definition detector {W} (threshold : option Duration) : Detector W :=
  mkDetector "DeploymentUnavailable" (evaluate threshold).
End DeploymentUnavailable.

Module ServiceNoEndpoints.
Section ServiceNoEndpoints.
Context {W : Type} `{!ObjectClient W EndpointSliceSpec ()}.
Definition service_selector (name : string) : gmap string string := {[ "kubernetes.io/service-name" := name ]}.
(** The two loops over the slices and their endpoints. *)
Definition has_ready (items : list EndpointSlice) : bool :=
  existsb (fun es => existsb (fun ep => bool_decide (ep_Ready ep = Some true)) (es_Endpoints (spec es))) items.
Definition evaluate (clk : Clock) (obj : ClientObject) (w : W) : res (list Symptom) :=
  match obj with
  | ServiceObject svc =>
      if decide (svs_Type (spec svc) <> ServiceTypeClusterIP) then Ok [] else
      if decide (svs_ClusterIP (spec svc) = "None" \/ svs_ClusterIP (spec svc) = EmptyString) then Ok [] else
      match klist (obj_namespace svc) (service_selector (obj_name svc)) w with
      | Err e => Err (ErrWrap ("listing EndpointSlices for service " +:+ obj_namespace svc +:+ "/" +:+ obj_name svc) e)
      | Ok items =>
          if has_ready items then Ok [] else
          Ok [mkSymptom ("service " +:+ go_quote (obj_name svc) +:+ " has no ready endpoints") "high"]
      end
  | _ => Ok []
  end.
Definition detector : Detector W := mkDetector "ServiceNoEndpoints" evaluate.
End ServiceNoEndpoints.
End ServiceNoEndpoints.

(** ** The detectors of main.go, their thresholds read from the live configuration *)
Section registry.
Context {W : Type} `{!ObjectClient W EndpointSliceSpec ()}.
Definition podDetectors (cfg : Config) : list (Detector W) :=
  [CrashLoopBackOff.detector; ImagePullBackOff.detector; PendingTooLong.detector (Some (PendingThreshold cfg))].
Definition deployDetectors (cfg : Config) : list (Detector W) :=
  [DeploymentUnavailable.detector (Some (UnavailableThreshold cfg))].
Definition svcDetectors : list (Detector W) := [ServiceNoEndpoints.detector].
Definition allDetectors (cfg : Config) : list (Detector W) :=
  (podDetectors cfg ++ deployDetectors cfg) ++ svcDetectors.
End registry.

(** ** Lemmas *)

(** A pod detector's symptoms are those of the containers, then of the init
    containers, that its check answers for. *)
Lemma check_containers_omap (check : list Symptom -> ContainerStatus -> list Symptom) f pod :
  (forall acc cs, check acc cs = match f cs with Some y => acc ++ [y] | None => acc end) ->
  check_containers check pod =
    omap f (pot_ContainerStatuses (status pod) ++ pot_InitContainerStatuses (status pod)).
Proof.
  intros Hc. unfold check_containers. rewrite omap_app.
  assert (Hf : forall l acc, foldl check acc l = acc ++ omap f l).
  { intros l; induction l as [|x l IH]; intros acc; simpl; [by rewrite app_nil_r|].
    rewrite IH, Hc. destruct (f x); simpl; [by rewrite <- app_assoc|done]. }
  by rewrite !Hf.
Qed.

Definition all_containers (pod : Pod) : list ContainerStatus :=
  pot_ContainerStatuses (status pod) ++ pot_InitContainerStatuses (status pod).
Definition waits_for (reasons : list string) (cs : ContainerStatus) : Prop :=
  match cst_Waiting cs with Some r => r ∈ reasons | None => False end.
#[export] Instance waits_for_dec reasons cs : Decision (waits_for reasons cs).
Proof. unfold waits_for. destruct (cst_Waiting cs); apply _. Defined.

Lemma length_omap_filter {A B} (f : A -> option B) (P : A -> Prop) `{!forall x, Decision (P x)} l :
  (forall x, is_Some (f x) <-> P x) -> length (omap f l) = length (filter P l).
Proof.
  intros Hf. induction l as [|x l IH]; [done|]. rewrite filter_cons. csimpl. specialize (Hf x).
  destruct (f x) as [y|]; case_decide as Hp; simpl; try done.
  - by rewrite IH.
  - destruct Hp. by apply Hf.
  - by destruct Hf as [_ [? ?]].
Qed.

Lemma pod_check_spec check f reasons sev pod :
  (forall acc cs, check acc cs = match f cs with Some y => acc ++ [y] | None => acc end) ->
  (forall cs, is_Some (f cs) <-> waits_for reasons cs) ->
  (forall cs y, f cs = Some y -> sy_Severity y = sev) ->
  length (check_containers check pod) = length (filter (waits_for reasons) (all_containers pod)) /\
  Forall (fun y => sy_Severity y = sev) (check_containers check pod).
Proof.
  intros Hc Hf Hs. rewrite (check_containers_omap _ f) by done. split; [by apply length_omap_filter|].
  apply Forall_forall. intros y (cs & _ & Hy)%list_elem_of_omap. eauto.
Qed.

(** A result without symptoms, with some, or an error. *)
Definition raises (r : res (list Symptom)) : Prop := exists y ys, r = Ok (y :: ys).

(** ** What the detectors report *)

(** The two container detectors report one symptom, of their one severity,
    for every regular and init container that waits for one of their reasons,
    and nothing else; on objects that are not pods they report nothing. *)
Theorem pod_container_detectors {W} (clk : Clock) (pod : Pod) (w : W) :
  (exists ys, Evaluate CrashLoopBackOff.detector clk (PodObject pod) w = Ok ys /\
     length ys = length (filter (waits_for ["CrashLoopBackOff"]) (all_containers pod)) /\
     Forall (fun y => sy_Severity y = SeverityCritical) ys) /\
  (exists ys, Evaluate ImagePullBackOff.detector clk (PodObject pod) w = Ok ys /\
     length ys = length (filter (waits_for ["ImagePullBackOff"; "ErrImagePull"]) (all_containers pod)) /\
     Forall (fun y => sy_Severity y = SeverityHigh) ys) /\
  (forall obj, (forall p, obj <> PodObject p) ->
     Evaluate CrashLoopBackOff.detector clk obj w = Ok [] /\ Evaluate ImagePullBackOff.detector clk obj w = Ok []).
Proof.
  split_and!.
  - eexists. split; [done|]. eapply (pod_check_spec _ (fun cs => head (CrashLoopBackOff.check [] cs))).
    + intros acc cs. unfold CrashLoopBackOff.check. by case_decide.
    + intros cs. unfold CrashLoopBackOff.check, waits_for.
      case_decide as H; simpl; [rewrite H; set_solver|]. destruct (cst_Waiting cs); [|split; [by intros [? ?]|done]].
      split; [by intros [? ?]|]. intros ->%list_elem_of_singleton. done.
    + intros cs y. unfold CrashLoopBackOff.check. case_decide; by intros [= <-].
  - eexists. split; [done|]. eapply (pod_check_spec _ (fun cs => head (ImagePullBackOff.check [] cs))).
    + intros acc cs. unfold ImagePullBackOff.check. destruct (cst_Waiting cs); [|done]. by destruct (str_in _ _).
    + intros cs. unfold ImagePullBackOff.check, waits_for, str_in.
      destruct (cst_Waiting cs); [|split; [by intros [? ?]|done]].
      case_bool_decide as H; simpl; [by split|split; [by intros [? ?]|done]].
    + intros cs y. unfold ImagePullBackOff.check. destruct (cst_Waiting cs); [|done].
      destruct (str_in _ _); by intros [= <-].
  - intros [] H; done || by destruct (H p).
Qed.

(** With the replica counts a server reports (none negative), the
    deployment detector raises exactly one symptom, of severity high, when the
    deployment wants replicas, some replica is unavailable, and that has lasted
    for the threshold: since the first condition Available=False, or since its
    creation when no condition says so. *)
Theorem deployment_unavailable_iff {W} (th : Duration) (clk : Clock) (d : Deployment) (w : W) :
  let since := DeploymentUnavailable.unavailable_since (om_CreationTimestamp (meta d)) (det_Conditions (status d)) in
  let r := Evaluate (DeploymentUnavailable.detector (Some th)) clk (DeploymentObject d) w in
  (0 <= det_AvailableReplicas (status d))%Z -> (0 <= det_UnavailableReplicas (status d))%Z ->
  ((exists m, r = Ok [mkSymptom m SeverityHigh]) <->
     des_Replicas (spec d) <> Some 0%Z /\ (0 < det_UnavailableReplicas (status d))%Z /\
     (th <= time_sub (clk O) since)%Z) /\
  (r = Ok [] \/ exists m, r = Ok [mkSymptom m SeverityHigh]).
Proof.
  intros since r Ha Hu. unfold r, Evaluate, DeploymentUnavailable.detector, DeploymentUnavailable.evaluate.
  fold since. simpl. set (a := det_AvailableReplicas _) in *. set (u := det_UnavailableReplicas _) in *.
  assert (Hd : default 1%Z (des_Replicas (spec d)) = 0%Z <-> des_Replicas (spec d) = Some 0%Z)
    by (destruct (des_Replicas (spec d)); naive_solver lia).
  repeat case_decide; (split; [split|]); try (by intros [m Hm]); try (intros (H1 & H2 & H3); exfalso; naive_solver lia);
    try (intros; split_and!); eauto; naive_solver lia.
Qed.

(** The detectors with a threshold do not flap: while an object stays as it
    is, once they raise a symptom they raise one at every later evaluation. *)
Theorem threshold_detectors_do_not_flap {W} (det : Detector W) (th : option Duration) clk clk' obj (w w' : W) :
  det = PendingTooLong.detector th \/ det = DeploymentUnavailable.detector th ->
  (clk O <= clk' O)%Z -> raises (Evaluate det clk obj w) -> raises (Evaluate det clk' obj w').
Proof.
  intros Hdet Hclk.
  destruct obj as [pod|deploy| |]; [destruct Hdet as [->| ->]..| |]; try by destruct Hdet as [->| ->]; intros (? & ? & ?).
  - simpl. unfold PendingTooLong.evaluate, raises.
    pose proof (time_sub_mono _ _ (om_CreationTimestamp (meta pod)) Hclk).
    repeat case_decide; eauto; (naive_solver lia || lia).
  - by intros (? & ? & ?).
  - by intros (? & ? & ?).
  - simpl. unfold DeploymentUnavailable.evaluate, raises. simpl. set (s := DeploymentUnavailable.unavailable_since _ _).
    pose proof (time_sub_mono _ _ s Hclk).
    repeat case_decide; eauto; (naive_solver lia || lia).
Qed.

Definition pending_pod : Pod :=
  mkObject (mkObjectMeta "Pod" "web" EmptyString "shop" ∅ ∅ 0%Z []) tt (mkPodStatus PodPending [] []).
Theorem threshold_detectors_do_not_flap_witness :
  raises (Evaluate (PendingTooLong.detector None) (fun _ => (301 * Second)%Z) (PodObject pending_pod) tt).
Proof.
  apply (threshold_detectors_do_not_flap _ None (fun _ => (300 * Second)%Z) _ _ tt tt); [by left|by vm_compute|].
  eexists _, _. by vm_compute.
Defined.

Definition stuck_deployment : Deployment :=
  mkObject (mkObjectMeta "Deployment" "api" EmptyString "shop" ∅ ∅ 0%Z []) (mkDeploymentSpec (Some 3%Z) ∅)
    (mkDeploymentStatus 2 1 2 [mkDeploymentCondition "Progressing" "True" 9%Z;
                               mkDeploymentCondition DeploymentAvailable ConditionFalse (100 * Second)%Z]).
Theorem deployment_unavailable_iff_witness :
  exists m, Evaluate (DeploymentUnavailable.detector (Some (60 * Second)%Z)) (fun _ => (200 * Second)%Z)
    (DeploymentObject stuck_deployment) tt = Ok [mkSymptom m SeverityHigh].
Proof.
  apply (deployment_unavailable_iff (60 * Second)%Z (fun _ => (200 * Second)%Z) stuck_deployment tt);
    by vm_compute.
Defined.

Section service.
Context {W : Type} `{!ObjectClient W EndpointSliceSpec ()} `{!ObjectClientLaws W EndpointSliceSpec ()}.

(** The service detector raises its one symptom exactly for a ClusterIP
    service that is not headless and has no ready endpoint in any of the
    endpoint slices of its namespace that carry its name as a label; when the
    slices cannot be listed the error is passed on. *)
Theorem service_without_endpoints_iff clk (s : Service) (w : W) :
  let r := Evaluate ServiceNoEndpoints.detector clk (ServiceObject s) w in
  let checked := svs_Type (spec s) = ServiceTypeClusterIP /\ svs_ClusterIP (spec s) ∉ ["None"; EmptyString] in
  let sel := selected (obj_namespace s) (ServiceNoEndpoints.service_selector (obj_name s)) in
  (raises r <-> checked /\ (exists l, klist (S := EndpointSliceSpec) (T := ()) (obj_namespace s)
                              (ServiceNoEndpoints.service_selector (obj_name s)) w = Ok l) /\
     forall es : EndpointSlice, kget (obj_namespace es) (obj_name es) w = Ok es -> sel es ->
       forall ep, ep ∈ es_Endpoints (spec es) -> ep_Ready ep <> Some true) /\
  (forall e, r = Err e -> checked /\ exists e', klist (S := EndpointSliceSpec) (T := ()) (obj_namespace s)
                              (ServiceNoEndpoints.service_selector (obj_name s)) w = Err e').
Proof using All.
  intros r checked sel. unfold r. simpl. unfold ServiceNoEndpoints.evaluate.
  assert (Hchk : checked <-> svs_Type (spec s) = ServiceTypeClusterIP /\
    ~ (svs_ClusterIP (spec s) = "None" \/ svs_ClusterIP (spec s) = EmptyString)) by (unfold checked; set_solver).
  unfold raises. case_decide; [split; [split; [by intros (?&?&?)|]|done]; naive_solver|].
  case_decide; [split; [split; [by intros (?&?&?)|]|done]; naive_solver|].
  destruct (klist (obj_namespace s) _ w) as [l|e] eqn:El; [|split; [split; [by intros (?&?&?)|]|]; naive_solver].
  assert (Hready : ServiceNoEndpoints.has_ready l = false <->
    forall es : EndpointSlice, kget (obj_namespace es) (obj_name es) w = Ok es -> sel es ->
       forall ep, ep ∈ es_Endpoints (spec es) -> ep_Ready ep <> Some true).
  { unfold ServiceNoEndpoints.has_ready. rewrite <- not_true_iff_false, List.existsb_exists. split.
    - intros Hn es Hget Hsel ep Hep Hr. apply Hn. exists es.
      split; [apply list_elem_of_In; by eapply law_list_complete|].
      apply List.existsb_exists. exists ep. split; [by apply list_elem_of_In|by apply bool_decide_eq_true].
    - intros Hn (es & Hin%list_elem_of_In & Hex). apply List.existsb_exists in Hex as (ep & Hep%list_elem_of_In & Hr).
      apply bool_decide_eq_true in Hr. destruct (law_list_sound _ _ _ _ _ El Hin) as [Hsel Hget]. by eapply Hn. }
  destruct (ServiceNoEndpoints.has_ready l); (split; [|done]); split.
  - by intros (?&?&?).
  - intros (_ & _ & Hx). by apply Hready in Hx.
  - intros _. split; [naive_solver|]. split; [eauto|]. by apply Hready.
  - eauto.
Qed.
End service.

#[export] Instance mc_EndpointSlices_laws : ObjectClientLaws MemCluster EndpointSliceSpec ().
Proof. by apply mem_client_laws. Qed.
Definition web_service : Service :=
  mkObject (mkObjectMeta "Service" "web" EmptyString "shop" ∅ ∅ 0%Z [])
    (mkServiceSpec ServiceTypeClusterIP "10.0.0.1" ∅) mkServiceStatus.
Definition unready_slice : EndpointSlice :=
  mkObject (mkObjectMeta "EndpointSlice" "web-1" EmptyString "shop" {[ "kubernetes.io/service-name" := "web" ]} ∅ 0%Z [])
    (mkEndpointSliceSpec [mkEndpoint (Some false) ["10.1.0.7"]; mkEndpoint None []]) tt.
Definition unready_cluster : MemCluster := set_EndpointSlices {[ obj_key unready_slice := unready_slice ]} empty_cluster.
Theorem service_without_endpoints_iff_witness :
  raises (Evaluate ServiceNoEndpoints.detector (fun _ => 0%Z) (ServiceObject web_service) unready_cluster).
Proof.
  apply (service_without_endpoints_iff (fun _ => 0%Z) web_service unready_cluster).
  split_and!; [done|set_solver|eexists; by vm_compute|].
  intros es Hget _ ep Hep. apply (mem_get_ok mc_EndpointSlices) in Hget.
  unfold mem_objs in Hget. apply map_lookup_filter_Some in Hget as [Hget _].
  simpl in Hget. apply lookup_singleton_Some in Hget as [_ <-]. simpl in Hep. set_solver.
Defined.

(** Every detector of main.go has its own name, the name label the problem
    cases are found by. *)
Theorem detector_names_unique {W} `{!ObjectClient W EndpointSliceSpec ()} (cfg : Config) :
  NoDup (Name <$> allDetectors (W := W) cfg).
Proof. apply (bool_decide_unpack _). by vm_compute. Qed.
