(* ===== verification/Exclusion.v ===== *)
(** * Exclusion rules: services/cluster-watcher/exclusion/matcher.go

    Whether a rule suppresses a detector on an object, and the two operations on
    the rule that matched.  The time-zone database is the parameter [tzdb]. *)

From Stdlib Require Import Ascii.
From stdpp Require Import sorting.
From stdpp Require Import prelude gmap strings list.
From S2P Require Import Prelude GoBase Api Client.

(** [time.LoadLocation], [None] for a name it rejects. *)
Definition TimeZoneDB := string -> option Location.

Definition containsString (slice : list string) (s : string) : bool := existsb (fun v => bool_decide (v = s)) slice.

Definition matchesDetector (detectors : list string) (detectorName : string) : bool :=
  match detectors with
  | [] => true
  | _ => containsString detectors detectorName
  end.

(** The loop over [TargetResources]. *)
Fixpoint matchesTarget (refs : list ResourceRef) (objKind objNS objName : string) : bool :=
  match refs with
  | [] => false
  | ref :: refs' =>
      if decide (rr_Kind ref = objKind /\ rr_Name ref = objName) then
        if decide (rr_Namespace ref = EmptyString \/ rr_Namespace ref = objNS) then true
        else matchesTarget refs' objKind objNS objName
      else matchesTarget refs' objKind objNS objName
  end.

Definition matchesResource (spec : ExclusionRuleSpec) (obj : ObjectMeta) : bool :=
  let objKind := om_Kind obj in
  let objNS := om_Namespace obj in
  let objName := om_Name obj in
  if matchesTarget (ers_TargetResources spec) objKind objNS objName then true else
  match ers_Selector spec with
  | Some sel =>
      if decide (sel_Namespace sel <> EmptyString /\ sel_Namespace sel <> objNS) then false else
      if bool_decide (sel_Kinds sel <> []) && negb (containsString (sel_Kinds sel) objKind) then false else
      forallb (fun kv => bool_decide (mget (om_Labels obj) kv.1 = kv.2)) (map_to_list (sel_MatchLabels sel))
  | None => false
  end.

(** [hhmm]: the minutes of a "HH:MM" string. *)
Definition hhmm (s : string) : option Z :=
  match cut_on ":"%char s with
  | None => None
  | Some (hs, ms) => h ← scan_d hs; m ← scan_d ms; Some (wrap64 (wrap64 (h * 60) + m))
  end.

(** One period of the loop of [inTimeWindow]. *)
Definition periodActive (dayName : string) (nowMins : Z) (p : ExclusionPeriod) : bool :=
  if negb (containsString (per_Days p) dayName) then false else
  match hhmm (per_Start p) with
  | None => false
  | Some startMins =>
      match hhmm (per_End p) with
      | None => false
      | Some endMins =>
          if decide (startMins <= endMins)%Z
          then bool_decide (startMins <= nowMins)%Z && bool_decide (nowMins < endMins)%Z
          else bool_decide (startMins <= nowMins)%Z || bool_decide (nowMins < endMins)%Z
      end
  end.

Definition inTimeWindow (tzdb : TimeZoneDB) (tw : ExclusionTimeWindow) (now : Time) : res bool :=
  match tzdb (tw_Timezone tw) with
  | None => Err (ErrOther ("invalid timezone " +:+ go_quote (tw_Timezone tw)))
  | Some loc =>
      let dayName := day_name loc now in
      let nowMins := (clock_hour loc now * 60 + clock_minute loc now)%Z in
      Ok (existsb (periodActive dayName nowMins) (tw_Periods tw))
  end.

(** The guards of the loop of [IsExcluded] on one rule. *)
Definition ruleExcludes (tzdb : TimeZoneDB) (now : Time) (obj : ObjectMeta) (detectorName : string)
    (rule : KubechanExclusionRule) : bool :=
  if negb (ers_Enabled (spec rule)) then false else
  if decide (ers_Namespace (spec rule) <> EmptyString /\ ers_Namespace (spec rule) <> om_Namespace obj) then false else
  if negb (matchesResource (spec rule) obj) then false else
  if negb (matchesDetector (ers_Detectors (spec rule)) detectorName) then false else
  match ers_TimeWindow (spec rule) with
  | Some tw => match inTimeWindow tzdb tw now with Ok active => active | Err _ => false end
  | None => true
  end.

Section client.
Context {W : Type} `{!ObjectClient W ExclusionRuleSpec ExclusionRuleStatus} (tzdb : TimeZoneDB).

Fixpoint firstExcluding (now : Time) (obj : ObjectMeta) (detectorName : string)
    (rules : list KubechanExclusionRule) : bool * string :=
  match rules with
  | [] => (false, EmptyString)
  | rule :: rules' =>
      if ruleExcludes tzdb now obj detectorName rule then (true, obj_name rule)
      else firstExcluding now obj detectorName rules'
  end.

Definition IsExcluded (controlNS : string) (now : Time) (obj : ObjectMeta) (detectorName : string) (w : W)
    : res (bool * string) :=
  match klist controlNS ∅ w with
  | Err e => Err (ErrWrap "listing KubechanExclusionRules" e)
  | Ok rules => Ok (firstExcluding now obj detectorName rules)
  end.

(** [PatchMatchedStatus]: the counter is a Go [int]. *)
Definition PatchMatchedStatus (now : Time) (rule : KubechanExclusionRule) : eff W () :=
  let rule' := with_status rule (mkExclusionRuleStatus (Some now) (wrap64 (ert_SuppressedCount (status rule) + 1))) in
  wrap ("patching ExclusionRule " +:+ obj_name rule +:+ " status") (kpatch_status rule rule') ≫= fun _ => mret tt.

(** [GetRule]: no error and no rule when it is gone. *)
Definition GetRule (controlNS name : string) (w : W) : res (option KubechanExclusionRule) :=
  match kget controlNS name w with
  | Ok rule => Ok (Some rule)
  | Err e => if IsNotFound e then Ok None else Err e
  end.
End client.

(** ** What a rule promises *)

(** The object is one of the rule's targets, or selected by its selector. *)
Definition targets (spec : ExclusionRuleSpec) (obj : ObjectMeta) : Prop :=
  (exists ref, ref ∈ ers_TargetResources spec /\ rr_Kind ref = om_Kind obj /\ rr_Name ref = om_Name obj /\
     rr_Namespace ref ∈ [EmptyString; om_Namespace obj]) \/
  (exists sel, ers_Selector spec = Some sel /\ sel_Namespace sel ∈ [EmptyString; om_Namespace obj] /\
     (sel_Kinds sel = [] \/ om_Kind obj ∈ sel_Kinds sel) /\
     forall k v, sel_MatchLabels sel !! k = Some v -> mget (om_Labels obj) k = v).
(** Minutes [m] of a day lie in a period, which may wrap around midnight. *)
Definition in_period (start end_ m : Z) : Prop :=
  if decide (start <= end_)%Z then (start <= m < end_)%Z else (start <= m \/ m < end_)%Z.
Definition window_open (tzdb : TimeZoneDB) (tw : ExclusionTimeWindow) (now : Time) : Prop :=
  exists loc p s e, tzdb (tw_Timezone tw) = Some loc /\ p ∈ tw_Periods tw /\ day_name loc now ∈ per_Days p /\
    hhmm (per_Start p) = Some s /\ hhmm (per_End p) = Some e /\ in_period s e (day_minutes loc now).
Record suppresses (tzdb : TimeZoneDB) (now : Time) (obj : ObjectMeta) (det : string)
    (rule : KubechanExclusionRule) : Prop := {
  su_enabled : ers_Enabled (spec rule) = true;
  su_namespace : ers_Namespace (spec rule) ∈ [EmptyString; om_Namespace obj];
  su_targets : targets (spec rule) obj;
  su_detector : ers_Detectors (spec rule) = [] \/ det ∈ ers_Detectors (spec rule);
  su_window : forall tw, ers_TimeWindow (spec rule) = Some tw -> window_open tzdb tw now;
}.

(** ** Lemmas *)

Lemma containsString_true l s : containsString l s = true <-> s ∈ l.
Proof.
  unfold containsString. rewrite List.existsb_exists. split.
  - intros (x & Hx%list_elem_of_In & ->%bool_decide_eq_true). done.
  - intros H%list_elem_of_In. exists s. split; [done|by apply bool_decide_eq_true].
Qed.
Lemma matchesDetector_true ds d : matchesDetector ds d = true <-> ds = [] \/ d ∈ ds.
Proof.
  unfold matchesDetector. destruct ds as [|d0 ds]; [naive_solver|].
  rewrite containsString_true. naive_solver.
Qed.
Lemma matchesTarget_true refs k ns n :
  matchesTarget refs k ns n = true <->
  exists ref, ref ∈ refs /\ rr_Kind ref = k /\ rr_Name ref = n /\ rr_Namespace ref ∈ [EmptyString; ns].
Proof.
  induction refs as [|ref refs IH]; simpl; [set_solver|].
  repeat case_decide; rewrite ?IH; set_solver.
Qed.
(** An empty namespace of a rule stands for every namespace. *)
Lemma in_scope (a b : string) : ~ (a <> EmptyString /\ a <> b) <-> a ∈ [EmptyString; b].
Proof.
  rewrite elem_of_cons, list_elem_of_singleton.
  destruct (decide (a = EmptyString)), (decide (a = b)); naive_solver.
Qed.
Lemma matchesResource_true spec obj : matchesResource spec obj = true <-> targets spec obj.
Proof.
  unfold matchesResource, targets. rewrite <- matchesTarget_true.
  destruct (matchesTarget _ _ _ _); [naive_solver|].
  destruct (ers_Selector spec) as [sel|]; [|naive_solver].
  assert (Hl : forallb (fun kv => bool_decide (mget (om_Labels obj) kv.1 = kv.2)) (map_to_list (sel_MatchLabels sel)) = true
    <-> forall k v, sel_MatchLabels sel !! k = Some v -> mget (om_Labels obj) k = v).
  { rewrite List.forallb_forall. split.
    - intros H k v Hkv. specialize (H (k, v)). apply bool_decide_eq_true in H; [done|].
      by apply list_elem_of_In, elem_of_map_to_list.
    - intros H [k v] Hkv%list_elem_of_In%elem_of_map_to_list. apply bool_decide_eq_true. by apply H. }
  transitivity (sel_Namespace sel ∈ [EmptyString; om_Namespace obj] /\
    (sel_Kinds sel = [] \/ om_Kind obj ∈ sel_Kinds sel) /\
    forall k v, sel_MatchLabels sel !! k = Some v -> mget (om_Labels obj) k = v).
  2: { split; [intros H; right; by exists sel|]. intros [|(? & [= <-] & H)]; done. }
  rewrite <- Hl, elem_of_cons, list_elem_of_singleton, <- containsString_true.
  case_decide as Hns; [split; [done|naive_solver]|].
  apply in_scope in Hns as Hns'. rewrite elem_of_cons, list_elem_of_singleton in Hns'.
  case_bool_decide as Hk; simpl.
  - destruct (containsString _ _); simpl; naive_solver.
  - destruct (decide (sel_Kinds sel = [])); naive_solver.
Qed.

Lemma periodActive_true d m p :
  periodActive d m p = true <->
  d ∈ per_Days p /\ exists s e, hhmm (per_Start p) = Some s /\ hhmm (per_End p) = Some e /\ in_period s e m.
Proof.
  unfold periodActive. pose proof (containsString_true (per_Days p) d) as Hd.
  destruct (containsString (per_Days p) d); simpl; [|naive_solver].
  destruct (hhmm (per_Start p)) as [s|]; [|naive_solver].
  destruct (hhmm (per_End p)) as [e|]; [|naive_solver].
  transitivity (in_period s e m); [|naive_solver].
  unfold in_period. case_decide; rewrite ?andb_true_iff, ?orb_true_iff, !bool_decide_eq_true; done.
Qed.

Lemma inTimeWindow_true tzdb tw now : inTimeWindow tzdb tw now = Ok true <-> window_open tzdb tw now.
Proof.
  unfold inTimeWindow, window_open. destruct (tzdb (tw_Timezone tw)) as [loc|]; [|naive_solver].
  rewrite clock_minutes. split.
  - intros [= (p & Hp%list_elem_of_In & Ha)%List.existsb_exists].
    apply periodActive_true in Ha as (? & s & e & ? & ? & ?). by exists loc, p, s, e.
  - intros (loc' & p & s & e & [= <-] & Hp & Hd & Hs & He & Hin). f_equal.
    apply List.existsb_exists. exists p. split; [by apply list_elem_of_In|].
    apply periodActive_true. eauto 10.
Qed.

Lemma ruleExcludes_true tzdb now obj det rule :
  ruleExcludes tzdb now obj det rule = true <-> suppresses tzdb now obj det rule.
Proof.
  unfold ruleExcludes.
  pose proof (matchesResource_true (spec rule) obj) as Hr.
  pose proof (matchesDetector_true (ers_Detectors (spec rule)) det) as Hd.
  destruct (ers_Enabled (spec rule)) eqn:He; simpl; [|split; [done|intros []; congruence]].
  case_decide as Hns; [split; [done|intros [_ Ht _ _ _]; by apply in_scope in Ht]|].
  destruct (matchesResource _ _); simpl; [|split; [done|intros [_ _ Ht _ _]; by apply Hr in Ht]].
  destruct (matchesDetector _ _); simpl; [|split; [done|intros [_ _ _ Ht _]; by apply Hd in Ht]].
  apply proj1 in Hr, Hd. specialize (Hr eq_refl). specialize (Hd eq_refl).
  assert (Hns' : ers_Namespace (spec rule) ∈ [EmptyString; om_Namespace obj]).
  { by apply in_scope. }
  destruct (ers_TimeWindow (spec rule)) as [tw|] eqn:Etw.
  - pose proof (inTimeWindow_true tzdb tw now) as Hw. split.
    + intros H. split; [done..|]. intros tw'. rewrite Etw. intros [= <-]. apply Hw.
      destruct (inTimeWindow tzdb tw now); [by subst|done].
    + intros [_ _ _ _ H]. rewrite Etw in H. specialize (H _ eq_refl). apply Hw in H. by rewrite H.
  - split; [|done]. intros _. split; [done..|]. by rewrite Etw.
Qed.

(** Two decimal digits. *)
Definition two_digits (z : Z) : string :=
  String (byte_of (48 + z / 10)) (String (byte_of (48 + z mod 10)) EmptyString).

Lemma two_digits_cut z sep s :
  (0 <= z < 100)%Z -> (byte_val sep < 48 \/ 57 < byte_val sep)%Z ->
  cut_on sep (two_digits z +:+ String sep s) = Some (two_digits z, s).
Proof.
  intros Hz Hs.
  assert (Hne : forall d, (0 <= d < 10)%Z -> byte_of (48 + d) <> sep).
  { intros d Hd <-. assert (byte_val (byte_of (48 + d)) = 48 + d)%Z as E; [|rewrite E in Hs; lia].
    unfold byte_val, byte_of. rewrite Ascii.N_ascii_embedding; lia. }
  simpl. rewrite decide_False by (apply Hne; split; [apply Z.div_pos; lia|apply Z.div_lt_upper_bound; lia]).
  rewrite decide_False by (apply Hne, Z.mod_pos_bound; lia).
  by rewrite decide_True.
Qed.
Lemma two_digits_scan z : (0 <= z < 100)%Z -> scan_d (two_digits z) = Some z.
Proof.
  intros Hz. assert (Hall : forallb (fun n => bool_decide (scan_d (two_digits (Z.of_nat n)) = Some (Z.of_nat n))) (seq 0 100) = true)
    by by vm_compute.
  rewrite List.forallb_forall in Hall. specialize (Hall (Z.to_nat z)).
  apply bool_decide_eq_true in Hall; [by rewrite Z2Nat.id in Hall by lia|].
  apply List.in_seq. lia.
Qed.

(** The start and end of a period are read back as written: [hhmm] parses
    the "HH:MM" text of any hour and minute to its minutes since midnight. *)
Theorem hhmm_roundtrip h m :
  (0 <= h < 100)%Z -> (0 <= m < 100)%Z -> hhmm (two_digits h +:+ ":" +:+ two_digits m) = Some (60 * h + m)%Z.
Proof.
  intros Hh Hm. unfold hhmm.
  change (":" +:+ two_digits m) with (String ":"%char (two_digits m)).
  rewrite two_digits_cut; [|done|by left + (right; by vm_compute)].
  rewrite !two_digits_scan by done. simpl. f_equal.
  rewrite (wrap64_id (h * 60)) by (unfold int64_range; lia).
  rewrite wrap64_id by (unfold int64_range; lia). lia.
Qed.
Theorem hhmm_roundtrip_witness : hhmm "22:30" = Some 1350%Z.
Proof. apply (hhmm_roundtrip 22 30); lia. Defined.

Section theorems.
Context {W : Type} `{!ObjectClient W ExclusionRuleSpec ExclusionRuleStatus} (tzdb : TimeZoneDB).

Lemma firstExcluding_true now obj det rules n :
  firstExcluding tzdb now obj det rules = (true, n) <->
  exists l1 rule l2, rules = l1 ++ rule :: l2 /\ suppresses tzdb now obj det rule /\ obj_name rule = n /\
    Forall (fun r => ~ suppresses tzdb now obj det r) l1.
Proof.
  induction rules as [|r rules IH]; simpl.
  - split; [done|]. by intros ([] & ? & ? & ? & _).
  - pose proof (ruleExcludes_true tzdb now obj det r) as Hr.
    destruct (ruleExcludes _ _ _ _ r).
    + split.
      * intros [= <-]. exists [], r, rules. naive_solver.
      * intros ([|x l1] & rule & l2 & [= -> ->] & Hs & <- & Hl1); [done|].
        apply Forall_cons in Hl1 as [[] _]. by apply Hr.
    + rewrite IH. split.
      * intros (l1 & rule & l2 & -> & Hs & Hn & Hl1). exists (r :: l1), rule, l2.
        split_and!; [done..|]. constructor; [|done]. by intros Hx%Hr.
      * intros ([|x l1] & rule & l2 & [= -> ->] & Hs & Hn & Hl1); [by apply Hr in Hs|].
        apply Forall_cons in Hl1 as [_ Hl1]. eauto 10.
Qed.
Lemma firstExcluding_false_any now obj det rules n :
  firstExcluding tzdb now obj det rules = (false, n) ->
  n = EmptyString /\ forall r, r ∈ rules -> ~ suppresses tzdb now obj det r.
Proof.
  induction rules as [|r rules IH]; simpl.
  - intros [= <-]. split; [done|by intros ??%elem_of_nil].
  - pose proof (ruleExcludes_true tzdb now obj det r) as Hr. destruct (ruleExcludes _ _ _ _ r); [done|].
    intros [-> H]%IH. split; [done|]. intros r' [->|Hin]%elem_of_cons; [by intros ?%Hr|by apply H].
Qed.
Lemma firstExcluding_false now obj det rules :
  firstExcluding tzdb now obj det rules = (false, EmptyString) <->
  Forall (fun r => ~ suppresses tzdb now obj det r) rules.
Proof.
  induction rules as [|r rules IH]; simpl; [done|].
  rewrite Forall_cons, <- ruleExcludes_true. destruct (ruleExcludes _ _ _ _ r); naive_solver.
Qed.

(** C11: [IsExcluded] answers with the name of the first listed rule that
    suppresses the detector on the object - enabled, in its namespace scope,
    targeting the object by reference or selector, naming the detector or none,
    and inside its time window if it has one - and answers no exactly when no
    listed rule does; a rule whose time zone is unknown or whose periods do not
    parse suppresses nothing; the only error is that of listing the rules. *)
Theorem is_excluded_spec controlNS now obj det (w : W) :
  match klist (S := ExclusionRuleSpec) (T := ExclusionRuleStatus) controlNS ∅ w with
  | Err e => exists e', IsExcluded tzdb controlNS now obj det w = Err e'
  | Ok rules =>
      (forall n, IsExcluded tzdb controlNS now obj det w = Ok (true, n) <->
         exists l1 rule l2, rules = l1 ++ rule :: l2 /\ suppresses tzdb now obj det rule /\ obj_name rule = n /\
           Forall (fun r => ~ suppresses tzdb now obj det r) l1) /\
      (IsExcluded tzdb controlNS now obj det w = Ok (false, EmptyString) <->
         Forall (fun r => ~ suppresses tzdb now obj det r) rules) /\
      exists b n, IsExcluded tzdb controlNS now obj det w = Ok (b, n)
  end.
Proof.
  unfold IsExcluded. destruct (klist controlNS ∅ w) as [rules|e]; [|eauto]. split_and!.
  - intros n. rewrite <- firstExcluding_true. split; [by intros [= ->]|by intros ->].
  - rewrite <- firstExcluding_false. split; [by intros [= ->]|by intros ->].
  - destruct (firstExcluding _ _ _ _ rules); eauto.
Qed.

Context `{!ObjectClientLaws W ExclusionRuleSpec ExclusionRuleStatus}.

(** Counting a match touches only the matched rule's status: the stored rule
    keeps its metadata and spec, its counter goes up by one (as a 64-bit
    integer) and its last match is the time given; every other rule is as it
    was, so no rule starts or stops suppressing anything. *)
Theorem patch_matched_status_spec now (rule : KubechanExclusionRule) (w w' : W) :
  kget (obj_namespace rule) (obj_name rule) w = Ok rule ->
  PatchMatchedStatus now rule w = (Ok tt, w') ->
  (exists rule' : KubechanExclusionRule, kget (obj_namespace rule) (obj_name rule) w' = Ok rule' /\
     meta rule' = meta rule /\ spec rule' = spec rule /\
     ert_SuppressedCount (status rule') = wrap64 (ert_SuppressedCount (status rule) + 1) /\
     ert_LastMatchedAt (status rule') = Some now /\
     forall t obj det, suppresses tzdb t obj det rule' <-> suppresses tzdb t obj det rule) /\
  forall ns n, (ns, n) <> obj_key rule ->
    kget (S := ExclusionRuleSpec) (T := ExclusionRuleStatus) ns n w' = kget ns n w.
Proof using All.
  intros Hget Hp. unfold PatchMatchedStatus in Hp. apply eff_bind_ok in Hp as (o' & w1 & Hp & [= <-]).
  apply wrap_ok in Hp. apply law_patch_status in Hp as (-> & Hget' & Hframe); [|done..].
  split; [|done]. eexists. split_and!; [exact Hget'|done..|].
  intros t obj det. rewrite <- !ruleExcludes_true. done.
Qed.
End theorems.

Definition UTC_only : TimeZoneDB := fun s => if decide (s = "UTC") then Some UTC else None.
Definition night_rule : KubechanExclusionRule :=
  mkObject (new_meta "night" EmptyString "kubechan" ∅)
    (mkExclusionRuleSpec EmptyString true EmptyString ["PendingTooLong"] []
       (Some (mkExclusionSelector "shop" ["Pod"] ∅))
       (Some (mkExclusionTimeWindow "UTC" [mkExclusionPeriod "22:00" "06:00" ["Fri"]])))
    (mkExclusionRuleStatus None 7).
Definition rules_cluster : MemCluster := set_Rules {[ obj_key night_rule := night_rule ]} empty_cluster.
Example night_rule_excludes :
  let pod := mkObjectMeta "Pod" "web-0" EmptyString "shop" ∅ ∅ 0%Z [] in
  let friday := (1767312000 * Second)%Z in
  IsExcluded UTC_only "kubechan" (friday + 23 * Hour)%Z pod "PendingTooLong" rules_cluster = Ok (true, "night") /\
  IsExcluded UTC_only "kubechan" (friday + 12 * Hour)%Z pod "PendingTooLong" rules_cluster = Ok (false, EmptyString).
Proof. by vm_compute. Qed.
Theorem patch_matched_status_spec_witness :
  exists w' rule', PatchMatchedStatus 5%Z night_rule rules_cluster = (Ok tt, w') /\
    kget "kubechan" "night" w' = Ok rule' /\ ert_SuppressedCount (status (rule' : KubechanExclusionRule)) = 8%Z.
Proof.
  destruct (PatchMatchedStatus 5%Z night_rule rules_cluster) as [r w'] eqn:E.
  assert (r = Ok tt) as -> by (change r with (r, w').1; rewrite <- E; by vm_compute).
  destruct (patch_matched_status_spec UTC_only 5%Z night_rule rules_cluster w') as [(rule' & Hg & _ & _ & Hc & _) _];
    [by vm_compute|done|].
  exists w', rule'. split_and!; [done|exact Hg|]. rewrite Hc. by vm_compute.
Defined.
