(* ===== verification/ProblemCases.v ===== *)
(** * The lifecycle of problem cases: services/cluster-watcher/problemcase

    lookup.go and lifecycle.go: the label that identifies the affected resource,
    finding the open case of a resource and detector, creating or updating it,
    and resolving it.  [now] is the one reading of the clock of each
    operation. *)

From Stdlib Require Import Ascii.
From stdpp Require Import sorting.
From stdpp Require Import prelude gmap strings list.
From S2P Require Import Prelude GoBase Api Client Detectors.

Definition LabelAffectedResource : string := "kubechan.io/affected-resource".
Definition LabelDetector : string := "kubechan.io/detector".

Definition AffectedResourceLabelValue (ref : ResourceRef) : string :=
  let ns := if decide (rr_Namespace ref = EmptyString) then "cluster" else rr_Namespace ref in
  let v := to_lower (rr_Kind ref +:+ "." +:+ ns +:+ "." +:+ rr_Name ref) in
  if decide (63 < slen v) then stake 63 v else v.

(** The labels a case is looked up by and created with. *)
Definition caseLabels (ref : ResourceRef) (detectorName : string) : gmap string string :=
  {[ LabelAffectedResource := AffectedResourceLabelValue ref; LabelDetector := detectorName ]}.

Fixpoint firstUnresolved (items : list ProblemCase) : option ProblemCase :=
  match items with
  | [] => None
  | pc :: items' =>
      if decide (pct_State (status pc) <> ProblemCaseStateResolved) then Some pc else firstUnresolved items'
  end.

Section client.
Context {W : Type} `{!ObjectClient W ProblemCaseSpec ProblemCaseStatus}.

Definition FindOpen (controlNamespace : string) (ref : ResourceRef) (detectorName : string) (w : W)
    : res (option ProblemCase) :=
  match klist controlNamespace (caseLabels ref detectorName) w with
  | Err e => Err (ErrWrap "listing ProblemCases" e)
  | Ok items => Ok (firstUnresolved items)
  end.

Definition set_symptoms (msgs : list string) (pc : ProblemCase) : ProblemCase :=
  let s := spec pc in
  with_spec pc (mkProblemCaseSpec (pcs_AffectedResource s) (pcs_Detector s) (pcs_Severity s) msgs (pcs_RelatedResources s)).
Definition set_last_seen (now : Time) (pc : ProblemCase) : ProblemCase :=
  let t := status pc in
  with_status pc (mkProblemCaseStatus (pct_State t) (pct_FirstSeen t) (Some now) (pct_ResolvedAt t)
    (pct_LatestDiagnosticRunRef t) (pct_LatestAnalysisResultRef t)).

Definition patchLastSeen (pc : ProblemCase) (now : Time) (msgs : list string) : eff W () :=
  let name := obj_namespace pc +:+ "/" +:+ obj_name pc in
  pc1 ← wrap ("patching ProblemCase spec " +:+ name) (kpatch pc (set_symptoms msgs pc));
  _ ← wrap ("patching ProblemCase status " +:+ name) (kpatch_status pc1 (set_last_seen now pc1));
  mret tt.

(** The status of a case that was just created. *)
Definition set_opened (now : Time) (pc : ProblemCase) : ProblemCase :=
  let t := status pc in
  with_status pc (mkProblemCaseStatus ProblemCaseStateOpen (Some now) (Some now) (pct_ResolvedAt t)
    (pct_LatestDiagnosticRunRef t) (pct_LatestAnalysisResultRef t)).
Definition newCase (controlNamespace : string) (ref : ResourceRef) (severity detectorName : string)
    (msgs : list string) : ProblemCase :=
  mkObject (new_meta EmptyString (to_lower (detectorName +:+ "-" +:+ rr_Kind ref +:+ "-")) controlNamespace
              (caseLabels ref detectorName))
    (mkProblemCaseSpec ref detectorName severity msgs []) zeroProblemCaseStatus.

Definition initStatus (now : Time) (pc : ProblemCase) : eff W () :=
  _ ← wrap "setting initial ProblemCase status" (kpatch_status pc (set_opened now pc)); mret tt.

Definition createNew (controlNamespace : string) (ref : ResourceRef) (severity detectorName : string)
    (msgs : list string) (now : Time) : eff W () :=
  let pc := newCase controlNamespace ref severity detectorName msgs in
  r ← attempt (kcreate pc);
  match r with
  | Ok pc' => initStatus now pc'
  | Err e =>
      if IsAlreadyExists e then
        existing ← reads (FindOpen controlNamespace ref detectorName);
        match existing with
        | Some existing => patchLastSeen existing now msgs
        | None => initStatus now pc
        end
      else throw (ErrWrap "creating ProblemCase" e)
  end.

Definition CreateOrUpdate (now : Time) (controlNamespace : string) (ref : ResourceRef) (severity detectorName : string)
    (symptoms : list Symptom) : eff W () :=
  existing ← reads (FindOpen controlNamespace ref detectorName);
  let msgs := sy_Message <$> symptoms in
  match existing with
  | Some existing => patchLastSeen existing now msgs
  | None => createNew controlNamespace ref severity detectorName msgs now
  end.

Definition set_resolved (now : Time) (pc : ProblemCase) : ProblemCase :=
  let t := status pc in
  with_status pc (mkProblemCaseStatus ProblemCaseStateResolved (pct_FirstSeen t) (pct_LastSeen t) (Some now)
    (pct_LatestDiagnosticRunRef t) (pct_LatestAnalysisResultRef t)).
Definition Resolve (now : Time) (pc : ProblemCase) : eff W () :=
  _ ← wrap ("resolving ProblemCase " +:+ obj_namespace pc +:+ "/" +:+ obj_name pc)
        (kpatch_status pc (set_resolved now pc));
  mret tt.
End client.

(** ** The label value *)

Lemma label_value_length ref : slen (AffectedResourceLabelValue ref) <= 63.
Proof.
  unfold AffectedResourceLabelValue. case_decide; [|lia]. rewrite slen_stake. lia.
Qed.

Lemma to_lower_app a b : to_lower (a +:+ b) = to_lower a +:+ to_lower b.
Proof. induction a as [|c a IH]; [done|]. simpl. change (String (lower_byte c) (to_lower (a +:+ b)) = String (lower_byte c) (to_lower a +:+ to_lower b)). by rewrite IH. Qed.
Lemma lower_byte_dot d : lower_byte d = "."%char -> d = "."%char.
Proof. destruct d as [[] [] [] [] [] [] [] []]; vm_compute; intros H; try done; discriminate H. Qed.
Lemma no_dot_lower s : no_byte "."%char s -> no_byte "."%char (to_lower s).
Proof.
  induction s as [|d s IH]; simpl; [done|]. intros [Hd Hs]. split; [|by apply IH].
  by intros ->%lower_byte_dot.
Qed.
Definition effective_ns (ref : ResourceRef) : string :=
  if decide (rr_Namespace ref = EmptyString) then "cluster" else rr_Namespace ref.
Definition label_text (ref : ResourceRef) : string :=
  to_lower (rr_Kind ref +:+ "." +:+ effective_ns ref +:+ "." +:+ rr_Name ref).

Lemma caseLabels_resource ref det : caseLabels ref det !! LabelAffectedResource = Some (AffectedResourceLabelValue ref).
Proof. unfold caseLabels. by rewrite lookup_insert_eq. Qed.
Lemma caseLabels_detector ref det : caseLabels ref det !! LabelDetector = Some det.
Proof. unfold caseLabels. rewrite lookup_insert_ne by done. by rewrite lookup_singleton_eq. Qed.
Lemma caseLabels_subseteq ref det ref' det' :
  caseLabels ref' det' ⊆ caseLabels ref det -> caseLabels ref' det' = caseLabels ref det.
Proof.
  intros Hsub. rewrite map_subseteq_spec in Hsub.
  pose proof (Hsub _ _ (caseLabels_resource ref' det')) as H1. rewrite caseLabels_resource in H1.
  pose proof (Hsub _ _ (caseLabels_detector ref' det')) as H2. rewrite caseLabels_detector in H2.
  injection H1 as E1. injection H2 as E2. unfold caseLabels. by rewrite E1, E2.
Qed.

(** ** Open cases *)
Section proofs.
Context {W : Type} `{!ObjectClient W ProblemCaseSpec ProblemCaseStatus}
  `{!ObjectClientLaws W ProblemCaseSpec ProblemCaseStatus}.

(** A stored case of the labels that is not resolved. *)
Definition open_case (ns : string) (ls : gmap string string) (pc : ProblemCase) (w : W) : Prop :=
  is_stored pc w /\ selected ns ls pc /\ pct_State (status pc) <> ProblemCaseStateResolved.
(** No resource has two open cases of one detector. *)
Definition one_open_case (ns : string) (w : W) : Prop :=
  forall ref det pc1 pc2, open_case ns (caseLabels ref det) pc1 w -> open_case ns (caseLabels ref det) pc2 w ->
    obj_key pc1 = obj_key pc2.
Lemma firstUnresolved_Some l pc :
  firstUnresolved l = Some pc -> pc ∈ l /\ pct_State (status pc) <> ProblemCaseStateResolved.
Proof.
  induction l as [|x l IH]; simpl; [done|]. case_decide.
  - intros [= ->]. split; [by left|done].
  - intros [? ?]%IH. split; [by right|done].
Qed.
Lemma firstUnresolved_None l pc :
  firstUnresolved l = None -> pc ∈ l -> pct_State (status pc) = ProblemCaseStateResolved.
Proof.
  induction l as [|x l IH]; simpl; [by intros _ ?%elem_of_nil|]. case_decide as Hx; [done|].
  intros Hn [->|Hin]%elem_of_cons; [|by apply IH].
  destruct (decide (pct_State (status x) = ProblemCaseStateResolved)); [done|by destruct Hx].
Qed.

Lemma FindOpen_Some ns ref det w pc : FindOpen ns ref det w = Ok (Some pc) -> open_case ns (caseLabels ref det) pc w.
Proof using All.
  unfold FindOpen. destruct (klist _ _ w) as [l|] eqn:El; [|done]. intros [= [Hin Hst]%firstUnresolved_Some].
  destruct (law_list_sound _ _ _ _ _ El Hin). split; [done|]. split; [done|done].
Qed.
Lemma FindOpen_None ns ref det w pc : FindOpen ns ref det w = Ok None -> ~ open_case ns (caseLabels ref det) pc w.
Proof using All.
  unfold FindOpen. destruct (klist _ _ w) as [l|] eqn:El; [|done]. intros [= Hn] (Hst & Hsel & Hne).
  apply Hne. eapply firstUnresolved_None; [done|]. by eapply law_list_complete.
Qed.

Lemma open_case_ext ns ls pc w w' :
  kget (S := ProblemCaseSpec) (T := ProblemCaseStatus) (obj_namespace pc) (obj_name pc) w' = kget (obj_namespace pc) (obj_name pc) w ->
  open_case ns ls pc w' <-> open_case ns ls pc w.
Proof. unfold open_case, is_stored. by intros ->. Qed.

(** Replacing one stored case by one that is no more open keeps the invariant. *)
Lemma one_open_case_update ns w w' (pc pc' : ProblemCase) :
  is_stored pc w -> is_stored pc' w' -> obj_key pc' = obj_key pc ->
  (forall ref det, caseLabels ref det ⊆ obj_labels pc' -> caseLabels ref det ⊆ obj_labels pc) ->
  same_elsewhere (S := ProblemCaseSpec) (T := ProblemCaseStatus) (obj_key pc) w w' ->
  (pct_State (status pc') <> ProblemCaseStateResolved -> pct_State (status pc) <> ProblemCaseStateResolved) ->
  one_open_case ns w -> one_open_case ns w'.
Proof.
  intros Hpc Hpc' Hk Hl Hsame Hst Hone ref det.
  assert (Hback : forall x, open_case ns (caseLabels ref det) x w' -> exists y, open_case ns (caseLabels ref det) y w /\ obj_key y = obj_key x).
  { intros x (Hx & Hsel & Hox). destruct (decide (obj_key x = obj_key pc)) as [E|E].
    - exists pc. assert (x = pc') as ->.
      { unfold is_stored in *. unfold obj_key in *. congruence. }
      assert (obj_namespace pc' = obj_namespace pc) as Hns by (unfold obj_key in Hk; congruence).
      unfold open_case, selected in *. rewrite Hns in Hsel.
      destruct Hsel as [Hn Hls]. split; [|congruence]. split; [exact Hpc|]. split; [by split; [|apply Hl]|by apply Hst].
    - exists x. split; [|done]. apply (open_case_ext _ _ _ w w'); [by apply Hsame|done]. }
  intros x1 x2 (y1 & Hy1 & <-)%Hback (y2 & Hy2 & <-)%Hback. by eapply Hone.
Qed.

(** Adding a case where its labels had no open one keeps the invariant. *)
Lemma one_open_case_add ns w w' (pc : ProblemCase) (ref : ResourceRef) (det : string) :
  (forall x, ~ open_case ns (caseLabels ref det) x w) ->
  (forall x : ProblemCase, kget (obj_namespace pc) (obj_name pc) w <> Ok x) ->
  obj_labels pc = caseLabels ref det -> is_stored pc w' -> same_elsewhere (S := ProblemCaseSpec) (T := ProblemCaseStatus) (obj_key pc) w w' ->
  one_open_case ns w -> one_open_case ns w'.
Proof.
  intros Hnone Hfresh Hl Hpc Hsame Hone ref' det'.
  assert (Hcase : forall x, open_case ns (caseLabels ref' det') x w' ->
    x = pc \/ (obj_key x <> obj_key pc /\ open_case ns (caseLabels ref' det') x w)).
  { intros x Hx. destruct (decide (obj_key x = obj_key pc)) as [E|E].
    - left. destruct Hx as [Hx _]. unfold is_stored, obj_key in *. congruence.
    - right. split; [done|]. apply (open_case_ext _ _ _ w w'); [by apply Hsame|done]. }
  assert (Hsub : forall x, open_case ns (caseLabels ref' det') pc w' -> open_case ns (caseLabels ref' det') x w -> False).
  { intros x (_ & [_ Hsel] & _) (Hx & [Hns Hselx] & Hst). apply (Hnone x). split_and!; [done| |done].
    split; [done|]. rewrite Hl in Hsel.
    by rewrite <- (caseLabels_subseteq _ _ _ _ Hsel). }
  intros x1 x2 H1 H2.
  destruct (Hcase _ H1) as [->|[? Hx1]], (Hcase _ H2) as [->|[? Hx2]]; [done| | |by eapply Hone].
  - destruct (Hsub _ H1 Hx2).
  - destruct (Hsub _ H2 Hx1).
Qed.

Lemma patchLastSeen_outcome (pc : ProblemCase) now msgs w r w' :
  is_stored pc w -> patchLastSeen pc now msgs w = (r, w') ->
  exists pc', rewrites pc pc' w w' /\ pct_State (status pc') = pct_State (status pc) /\
    (r = Ok tt -> pc' = set_last_seen now (set_symptoms msgs pc)) /\
    pcs_AffectedResource (spec pc') = pcs_AffectedResource (spec pc) /\ pcs_Detector (spec pc') = pcs_Detector (spec pc).
Proof using All.
  intros Hs. unfold patchLastSeen, mbind, eff_bind, wrap.
  destruct (kpatch pc _ w) as [r1 w1] eqn:E1. intros H.
  apply kpatch_outcome in E1 as (pc1 & Hr1 & Hpc1); [|done..].
  destruct r1 as [x|e1]; [|injection H as <- <-; subst pc1; by exists pc].
  destruct Hpc1 as [-> ->]. destruct (kpatch_status _ _ w1) as [r2 w2] eqn:E2.
  apply kpatch_status_outcome in E2 as (pc2 & Hr2 & Hpc2); [|apply Hr1|done].
  exists pc2. destruct r2 as [x|e2].
  - destruct Hpc2 as [-> ->]. injection H as <- <-. split_and!; [by eapply rewrites_trans|done..].
  - subst pc2. injection H as <- <-. split_and!; [by eapply rewrites_trans|done..].
Qed.

Lemma initStatus_outcome (pc : ProblemCase) now w r w' :
  is_stored pc w -> initStatus now pc w = (r, w') ->
  exists pc', rewrites pc pc' w w' /\ spec pc' = spec pc /\ (r = Ok tt -> pc' = set_opened now pc).
Proof using All.
  intros Hs. unfold initStatus, mbind, eff_bind, wrap. destruct (kpatch_status _ _ w) as [r1 w1] eqn:E1. intros H.
  apply kpatch_status_outcome in E1 as (pc1 & Hr1 & Hpc1); [|done..].
  exists pc1. destruct r1 as [x|e1].
  - destruct Hpc1 as [-> ->]. by injection H as <- <-.
  - subst pc1. by injection H as <- <-.
Qed.

(** Initialising the status of an object that was never stored fails. *)
Lemma initStatus_missing (pc : ProblemCase) now w r w' :
  obj_name pc = EmptyString -> initStatus now pc w = (r, w') ->
  (exists e, r = Err e) /\ forall ns n, kget (S := ProblemCaseSpec) (T := ProblemCaseStatus) ns n w' = kget ns n w.
Proof using All.
  intros Hn. unfold initStatus, mbind, eff_bind, wrap. destruct (kpatch_status _ _ w) as [r1 w1] eqn:E1. intros H.
  destruct (law_patch_missing pc (set_opened now pc) w r1 w1) as [e ->]; [|by right|].
  { intros x Hx%law_named. done. }
  injection H as <- <-. split; [eauto|]. by eapply law_write_error; right; right; left.
Qed.

Lemma rewrites_open_case ns ls (pc pc' : ProblemCase) w w' :
  rewrites pc pc' w w' -> open_case ns ls pc w -> pct_State (status pc') <> ProblemCaseStateResolved ->
  open_case ns ls pc' w'.
Proof.
  intros [_ Ha Hm _] (_ & Hsel & _) Hst. split_and!; [done| |done].
  unfold selected, obj_namespace, obj_labels in *. by rewrite Hm.
Qed.
Lemma rewrites_one_open_case ns (pc pc' : ProblemCase) w w' :
  rewrites pc pc' w w' ->
  (pct_State (status pc') <> ProblemCaseStateResolved -> pct_State (status pc) <> ProblemCaseStateResolved) ->
  one_open_case ns w -> one_open_case ns w'.
Proof using All.
  intros [Hb Ha Hm He] Hst. apply (one_open_case_update ns w w' pc pc'); try done;
    unfold obj_key, obj_namespace, obj_name, obj_labels; by rewrite Hm.
Qed.

(** [createNew] where no case is open: a fresh case, or an error. *)
Lemma createNew_outcome ns ref sev det msgs now w r w' :
  (forall x, ~ open_case ns (caseLabels ref det) x w) -> createNew ns ref sev det msgs now w = (r, w') ->
  (exists pc', (forall x : ProblemCase, kget (obj_namespace pc') (obj_name pc') w <> Ok x) /\
     is_stored pc' w' /\ same_elsewhere (S := ProblemCaseSpec) (T := ProblemCaseStatus) (obj_key pc') w w' /\
     obj_namespace pc' = ns /\ obj_labels pc' = caseLabels ref det /\
     spec pc' = mkProblemCaseSpec ref det sev msgs [] /\
     (r = Ok tt -> exists t, status pc' = status (set_opened now (mkObject (meta pc') (spec pc') t)))) \/
  ((exists e, r = Err e) /\
     forall ns n, kget (S := ProblemCaseSpec) (T := ProblemCaseStatus) ns n w' = kget ns n w).
Proof using All.
  intros Hnone. unfold createNew, mbind, eff_bind, attempt. set (pc := newCase ns ref sev det msgs).
  destruct (kcreate pc w) as [[pc1|e] w1] eqn:Ec.
  - intros Hi. apply law_create in Ec as (Hns & Hl & Hsp & _ & Hfresh & Hst & Hf).
    apply initStatus_outcome in Hi as (pc2 & [_ Ha Hm He] & Hsp2 & Hr); [|done].
    left. exists pc2. unfold obj_key, obj_namespace, obj_name, obj_labels in *. rewrite !Hm.
    split_and!; [done|done| |done|done| |].
    + intros n1 n2 Hne. rewrite He, Hf by done. done.
    + by rewrite Hsp2, Hsp.
    + intros ->. exists (status pc1). rewrite Hr by done. done.
  - assert (Hsame : forall ns n, kget (S := ProblemCaseSpec) (T := ProblemCaseStatus) ns n w1 = kget ns n w).
    { eapply (law_write_error pc pc). by left. }
    destruct (IsAlreadyExists e); [|intros [= <- <-]; right; eauto].
    unfold reads. destruct (FindOpen ns ref det w1) as [[pc1|]|e1] eqn:Ef; [| |intros [= <- <-]; right; eauto].
    + apply FindOpen_Some in Ef. apply (open_case_ext _ _ _ w w1) in Ef; [|done]. by destruct (Hnone pc1).
    + intros Hi. apply initStatus_missing in Hi as [He Hs]; [|done]. right. split; [done|].
      intros ns' n'. by rewrite Hs.
Qed.


Lemma CreateOrUpdate_one_open_case now ns ref sev det symptoms w r w' :
  CreateOrUpdate now ns ref sev det symptoms w = (r, w') -> one_open_case ns w -> one_open_case ns w'.
Proof using All.
  intros H Hone. unfold CreateOrUpdate, mbind, eff_bind, reads in H.
  destruct (FindOpen ns ref det w) as [[pc|]|e] eqn:Ef; [| |by injection H as <- <-].
  - apply FindOpen_Some in Ef as Ho. apply patchLastSeen_outcome in H as (pc' & Hr & Hst & _); [|apply Ho].
    eapply rewrites_one_open_case; [done|by rewrite Hst|done].
  - assert (Hnone : forall x, ~ open_case ns (caseLabels ref det) x w) by (intros x; by eapply FindOpen_None).
    apply createNew_outcome in H as [(pc' & Hfr & Hst & He & Hns & Hl & _ & _)|[_ Hs]]; [| |done].
    + by eapply one_open_case_add.
    + intros ref' det' pc1 pc2 H1 H2.
      apply (open_case_ext _ _ _ w w') in H1; [|done]. apply (open_case_ext _ _ _ w w') in H2; [|done].
      by eapply Hone.
Qed.

Lemma Resolve_outcome now (pc : ProblemCase) w r w' :
  is_stored pc w -> Resolve now pc w = (r, w') ->
  exists pc', rewrites pc pc' w w' /\ (r = Ok tt -> pc' = set_resolved now pc) /\ (pc' = pc \/ pc' = set_resolved now pc).
Proof using All.
  intros Hs. unfold Resolve, mbind, eff_bind, wrap. destruct (kpatch_status _ _ w) as [r1 w1] eqn:E1. intros H.
  apply kpatch_status_outcome in E1 as (pc1 & Hr1 & Hpc1); [|done..]. exists pc1.
  destruct r1 as [x|e1].
  - destruct Hpc1 as [-> ->]. injection H as <- <-. auto.
  - subst pc1. injection H as <- <-. split_and!; auto. done.
Qed.

(** The history of the cases of a namespace: reports and resolutions of stored
    cases, each with any outcome. *)
Inductive case_history (ns : string) : W -> W -> Prop :=
  | ch_none w : case_history ns w w
  | ch_report now ref sev det symptoms w r w1 w2 :
      CreateOrUpdate now ns ref sev det symptoms w = (r, w1) -> case_history ns w1 w2 -> case_history ns w w2
  | ch_resolve now pc w r w1 w2 :
      is_stored pc w -> Resolve now pc w = (r, w1) -> case_history ns w1 w2 -> case_history ns w w2.

(** No resource ever gets two open cases of one detector: whatever is
    reported and resolved, in whatever order, and whichever of the writes fail half
    way, if the namespace starts with at most one open case per resource and
    detector it keeps at most one. *)
Theorem one_open_case_invariant ns w w' : case_history ns w w' -> one_open_case ns w -> one_open_case ns w'.
Proof using All.
  induction 1 as [w|now ref sev det symptoms w r w1 w2 Hc _ IH|now pc w r w1 w2 Hs Hr _ IH]; intros Hone; [done|..].
  - apply IH. by eapply CreateOrUpdate_one_open_case.
  - apply IH. apply Resolve_outcome in Hr as (pc' & Hrw & _ & Hor); [|done].
    eapply rewrites_one_open_case; [done| |done]. by destruct Hor as [-> | ->].
Qed.

(** Resolving the open case of a resource and detector makes it resolved,
    stamped with the time, and changes nothing else; when the resource had no
    second open case, none is found afterwards, so the next report opens a new one. *)
Theorem resolve_ok now (pc : ProblemCase) ns ref det w w' :
  open_case ns (caseLabels ref det) pc w -> one_open_case ns w -> Resolve now pc w = (Ok tt, w') ->
  rewrites pc (set_resolved now pc) w w' /\ one_open_case ns w' /\
  forall r, FindOpen ns ref det w' = Ok r -> r = None.
Proof using All.
  intros Ho Hone H. apply Resolve_outcome in H as (pc' & Hr & Heq & _); [|apply Ho].
  rewrite (Heq eq_refl) in *. clear Heq.
  split; [done|]. split; [eapply rewrites_one_open_case; [done| |done]; done|].
  intros [pc2|]; [|done]. intros Hf. apply FindOpen_Some in Hf as Ho2. exfalso.
  destruct (decide (obj_key pc2 = obj_key pc)) as [E|E].
  - destruct Ho2 as (Hst & _ & Hne). destruct Hr as [_ Ha _ _].
    unfold is_stored, obj_key in *. simpl in Ha.
    assert (pc2 = set_resolved now pc) as ->; [|done].
    injection E as E1 E2. change (kget (obj_namespace pc) (obj_name pc) w' = Ok (set_resolved now pc)) in Ha.
    rewrite E1, E2, Ha in Hst. by injection Hst.
  - apply E. destruct Ho2 as (Hst & Hsel & Hne). apply (Hone ref det); [|done].
    split_and!; [|done|done]. unfold is_stored in *. destruct Hr as [_ _ _ He].
    rewrite <- Hst. symmetry. by apply He.
Qed.
End proofs.

(** The label value fits the 63 bytes of a Kubernetes label, and while it is
    not truncated it identifies the resource: two references whose kinds and
    namespaces hold no dot and whose texts fit have the same label only if
    kind, namespace and name agree up to case. *)
Theorem label_identifies_resource ref1 ref2 :
  no_byte "."%char (rr_Kind ref1) -> no_byte "."%char (rr_Kind ref2) ->
  no_byte "."%char (rr_Namespace ref1) -> no_byte "."%char (rr_Namespace ref2) ->
  slen (label_text ref1) <= 63 -> slen (label_text ref2) <= 63 ->
  AffectedResourceLabelValue ref1 = AffectedResourceLabelValue ref2 ->
  slen (AffectedResourceLabelValue ref1) <= 63 /\
  equal_fold (rr_Kind ref1) (rr_Kind ref2) = true /\
  equal_fold (effective_ns ref1) (effective_ns ref2) = true /\
  equal_fold (rr_Name ref1) (rr_Name ref2) = true.
Proof.
  intros Hk1 Hk2 Hn1 Hn2 Hl1 Hl2. split; [apply label_value_length|]. revert H.
  unfold AffectedResourceLabelValue. fold (effective_ns ref1) (effective_ns ref2).
  fold (label_text ref1) (label_text ref2). rewrite !decide_False by lia.
  assert (Hcut : forall ref, no_byte "."%char (rr_Kind ref) -> no_byte "."%char (rr_Namespace ref) ->
    cut_on "."%char (label_text ref) = Some (to_lower (rr_Kind ref), to_lower (effective_ns ref) +:+ String "."%char (to_lower (rr_Name ref))) /\
    cut_on "."%char (to_lower (effective_ns ref) +:+ String "."%char (to_lower (rr_Name ref))) =
      Some (to_lower (effective_ns ref), to_lower (rr_Name ref))).
  { intros ref Hk Hn. unfold label_text. rewrite !to_lower_app.
    assert (no_byte "."%char (effective_ns ref)) as He.
    { unfold effective_ns. case_decide; [repeat split; done|done]. }
    split; apply cut_on_app; by apply no_dot_lower. }
  intros H. destruct (Hcut ref1 Hk1 Hn1) as [H1 H1'], (Hcut ref2 Hk2 Hn2) as [H2 H2'].
  rewrite H, H2 in H1. injection H1 as Ek Er. rewrite Er, H1' in H2'. injection H2' as En Em.
  unfold equal_fold. by rewrite Ek, En, Em, !bool_decide_true.
Qed.
Theorem label_identifies_resource_witness :
  equal_fold "Web-0" "web-0" = true.
Proof.
  apply (label_identifies_resource (ref_to "shop" "Pod" "Web-0") (ref_to "shop" "pod" "web-0"));
    by vm_compute; repeat split; try lia.
Defined.

(** Truncation loses that: two pods of one deployment whose names differ only
    after the 63rd byte of the label share their label, so they share their open
    cases; and a truncated label can end in a byte no Kubernetes label value may end in. *)
Theorem long_names_share_label :
  let pod n := ref_to "payments-production" "Pod" ("transaction-reconciliation-worker-5d8f7c" +:+ n) in
  AffectedResourceLabelValue (pod "9b64-x2x8k") = AffectedResourceLabelValue (pod "9b64-qq7zz") /\
  rr_Name (pod "9b64-x2x8k") <> rr_Name (pod "9b64-qq7zz") /\
  sdrop 62 (AffectedResourceLabelValue (ref_to "payments-production" "Pod"
    "transaction-reconciliation-worker-5d8f-x2x8k")) = "-".
Proof. by vm_compute. Qed.

Definition web_pod : ResourceRef := ref_to "shop" "Pod" "web-0".
Definition waiting : list Symptom := [mkSymptom "pod has been Pending for 6m0s (threshold: 5m0s)" "medium"].
Definition first_case : ProblemCase :=
  mkObject (new_meta "pendingtoolong-pod-x0" "pendingtoolong-pod-" "kubechan" (caseLabels web_pod "PendingTooLong"))
    (mkProblemCaseSpec web_pod "PendingTooLong" "medium" (sy_Message <$> waiting) [])
    (mkProblemCaseStatus ProblemCaseStateOpen (Some 10%Z) (Some 10%Z) None EmptyString EmptyString).
Definition found_case : ProblemCase := set_last_seen 20%Z first_case.
Definition one_case_cluster : MemCluster := set_ProblemCases {[ obj_key first_case := first_case ]} empty_cluster.
Definition two_reports_cluster : MemCluster := set_ProblemCases {[ obj_key found_case := found_case ]} empty_cluster.

Lemma empty_one_open_case ns : one_open_case ns empty_cluster.
Proof. intros ref det pc1 pc2 (Hx & _). unfold is_stored in Hx. simpl in Hx. discriminate Hx. Qed.
Theorem one_open_case_invariant_witness : one_open_case "kubechan" two_reports_cluster.
Proof.
  apply (one_open_case_invariant "kubechan" empty_cluster); [|apply empty_one_open_case].
  eapply (ch_report _ 10%Z web_pod "medium" "PendingTooLong" waiting _ (Ok tt) one_case_cluster); [vm_refl|].
  eapply (ch_report _ 20%Z web_pod "high" "PendingTooLong" waiting _ (Ok tt) two_reports_cluster); [vm_refl|].
  constructor.
Defined.
Lemma single_one_open_case ns w k c : w = set_ProblemCases {[ k := c ]} empty_cluster -> one_open_case ns w.
Proof.
  intros Hw ref det pc1 pc2 (H1 & _) (H2 & _).
  assert (Hk : forall x : ProblemCase, is_stored x w -> obj_key x = k).
  { intros x Hx%(mem_get_ok mc_ProblemCases). unfold mem_objs in Hx. apply map_lookup_filter_Some in Hx as [Hx _].
    rewrite Hw in Hx. simpl in Hx. apply lookup_singleton_Some in Hx as [Hx _]. done. }
  by rewrite (Hk pc1), (Hk pc2).
Qed.
Theorem resolve_ok_witness :
  let w' := (Resolve 30%Z found_case two_reports_cluster).2 in
  one_open_case "kubechan" w' /\ forall r, FindOpen "kubechan" web_pod "PendingTooLong" w' = Ok r -> r = None.
Proof.
  eapply (resolve_ok 30%Z found_case "kubechan" web_pod "PendingTooLong" two_reports_cluster).
  - apply FindOpen_Some. vm_refl.
  - by apply (single_one_open_case _ _ (obj_key found_case) found_case).
  - vm_refl.
Defined.
