(* ===== verification/Watchers.v ===== *)
(** * The watching reconcilers: services/cluster-watcher/controllers

    helpers.go and the reconcilers of pods, services, deployments, nodes and
    events.  A reconcile reads the cluster and acts on the debouncer only; the
    function it debounces is the record [Job] of what its closure captures, and
    [run_job] is the closure's body.  The three detector loops are one
    definition, instantiated per kind. *)

From stdpp Require Import sorting.
From stdpp Require Import prelude gmap strings list.
From S2P Require Import Prelude GoBase Api Client Debounce Detectors Exclusion ProblemCases.

(** ** helpers.go *)
Definition severityOrder (s : string) : Z :=
  if decide (s = "critical") then 4%Z else if decide (s = "high") then 3%Z
  else if decide (s = "medium") then 2%Z else if decide (s = "low") then 1%Z else 0%Z.

Definition highest_step (acc : Z * string) (s : Symptom) : Z * string :=
  let w := severityOrder (sy_Severity s) in
  if decide (acc.1 < w)%Z then (w, sy_Severity s) else acc.
Definition highestSeverity (symptoms : list Symptom) : string := (foldl highest_step (0%Z, "low") symptoms).2.

Definition debounceKey (namespace kind name detectorName : string) : string :=
  namespace +:+ "/" +:+ kind +:+ "/" +:+ name +:+ "/" +:+ detectorName.

Record Request := mkRequest { req_Namespace : string; req_Name : string }.
#[export] Instance Request_eq_dec : EqDecision Request.
Proof. solve_decision. Defined.
Definition NamespacedName (req : Request) : string := req_Namespace req +:+ "/" +:+ req_Name req.
(** [ctrl.Result]: its [RequeueAfter]. *)
Abbreviation Result := Duration (only parsing).

(** The object a mapper is called with: a rule, or something else. *)
Inductive MappedObject :=
  | MappedRule (rule : KubechanExclusionRule)
  | MappedOther (m : ObjectMeta).
Definition ruleNamespace (obj : MappedObject) : string :=
  match obj with
  | MappedRule rule => ers_Namespace (spec rule)
  | MappedOther m => om_Namespace m
  end.

Section mappers.
Context {W S T : Type} `{!ObjectClient W S T}.
Definition requestsFor (items : list (Object S T)) : list Request :=
  (fun o => mkRequest (obj_namespace o) (obj_name o)) <$> items.
(** The body the three rule mappers share. *)
Definition ruleMapper (obj : MappedObject) (w : W) : list Request :=
  match klist (S := S) (T := T) (ruleNamespace obj) ∅ w with
  | Err _ => []
  | Ok items => requestsFor items
  end.
End mappers.
Definition ruleToPodsMapper {W} `{!ObjectClient W () PodStatus} : MappedObject -> W -> list Request :=
  ruleMapper (S := ()) (T := PodStatus).
Definition ruleToServicesMapper {W} `{!ObjectClient W ServiceSpec ServiceStatus} : MappedObject -> W -> list Request :=
  ruleMapper (S := ServiceSpec) (T := ServiceStatus).
Definition ruleToDeploymentsMapper {W} `{!ObjectClient W DeploymentSpec DeploymentStatus}
    : MappedObject -> W -> list Request :=
  ruleMapper (S := DeploymentSpec) (T := DeploymentStatus).

(** The mapper of endpoint slices to their service (service_reconciler.go). *)
Definition esToService (m : ObjectMeta) : list Request :=
  let svcName := mget (om_Labels m) "kubernetes.io/service-name" in
  if decide (svcName = EmptyString) then [] else [mkRequest (om_Namespace m) svcName].
(** The mapper of replica sets to their deployment (deployment_reconciler.go). *)
Fixpoint firstDeploymentOwner (ns : string) (refs : list OwnerReference) : list Request :=
  match refs with
  | [] => []
  | ref :: refs' =>
      if decide (or_Kind ref = "Deployment") then [mkRequest ns (or_Name ref)] else firstDeploymentOwner ns refs'
  end.
Definition rsToDeployment (m : ObjectMeta) : list Request :=
  firstDeploymentOwner (om_Namespace m) (om_OwnerReferences m).

(** ** The detector loop *)

(** What the closure passed to [Debounce] captures. *)
Record Job := mkJob {
  job_Object : ClientObject;
  job_Ref : ResourceRef;
  job_Severity : string;
  job_Detector : string;
  job_Symptoms : list Symptom;
}.

Section reconcile.
Context {W : Type} (controlNamespace : string).

(** [for _, d := range r.Detectors { r.Debouncer.Cancel(...) }] *)
Definition cancelAll (ns kind name : string) (dets : list (Detector W)) (deb : Debouncer Job) : Debouncer Job :=
  foldl (fun deb d => Cancel (debounceKey ns kind name (Name d)) deb) deb dets.

(** One turn of the loop; [clk] is the clock the detector reads, [win] what the
    debouncer's window function returns. *)
Definition evaluateOne (kind : string) (obj : ClientObject) (w : W) (win : Duration) (clk : Clock)
    (d : Detector W) (deb : Debouncer Job) : Debouncer Job :=
  let ns := om_Namespace (co_meta obj) in
  let name := om_Name (co_meta obj) in
  match Evaluate d clk obj w with
  | Err _ => deb
  | Ok symptoms =>
      let key := debounceKey ns kind name (Name d) in
      match symptoms with
      | [] => Cancel key deb
      | _ => Debounce key (mkJob obj (ref_to ns kind name) (highestSeverity symptoms) (Name d) symptoms) win deb
      end
  end.
Fixpoint evaluateAll (kind : string) (obj : ClientObject) (w : W) (win : Duration) (clks : string -> Clock)
    (dets : list (Detector W)) (deb : Debouncer Job) : Debouncer Job :=
  match dets with
  | [] => deb
  | d :: dets' => evaluateAll kind obj w win clks dets' (evaluateOne kind obj w win (clks (Name d)) d deb)
  end.

(** [Reconcile]: [get] is the typed read of the object. *)
Definition reconcileWatched (kind : string) (get : W -> res ClientObject) (dets : list (Detector W))
    (req : Request) (win : Duration) (clks : string -> Clock) (w : W) (deb : Debouncer Job)
    : res Result * Debouncer Job :=
  if decide (req_Namespace req = controlNamespace) then (Ok 0%Z, deb) else
  match get w with
  | Err e =>
      if IsNotFound e then (Ok 0%Z, cancelAll (req_Namespace req) kind (req_Name req) dets deb)
      else (Err (ErrWrap ("getting " +:+ kind +:+ " " +:+ NamespacedName req) e), deb)
  | Ok obj => (Ok 0%Z, evaluateAll kind obj w win clks dets deb)
  end.

Definition map_res {A B} (f : A -> B) (r : res A) : res B := match r with Ok a => Ok (f a) | Err e => Err e end.
Definition PodReconcile `{!ObjectClient W () PodStatus} (dets : list (Detector W)) (req : Request) :=
  reconcileWatched "Pod" (fun w => map_res PodObject (kget (req_Namespace req) (req_Name req) w)) dets req.
Definition ServiceReconcile `{!ObjectClient W ServiceSpec ServiceStatus} (dets : list (Detector W)) (req : Request) :=
  reconcileWatched "Service" (fun w => map_res ServiceObject (kget (req_Namespace req) (req_Name req) w)) dets req.
Definition DeploymentReconcile `{!ObjectClient W DeploymentSpec DeploymentStatus} (dets : list (Detector W)) (req : Request) :=
  reconcileWatched "Deployment" (fun w => map_res DeploymentObject (kget (req_Namespace req) (req_Name req) w)) dets req.

(** Nodes and events are only fetched. *)
Definition NodeReconcile `{!ObjectClient W NodeSpec NodeStatus} (req : Request) (w : W) : res Result :=
  match kget (S := NodeSpec) (T := NodeStatus) (req_Namespace req) (req_Name req) w with
  | Ok _ => Ok 0%Z
  | Err e => if IsNotFound e then Ok 0%Z else Err (ErrWrap ("getting Node " +:+ req_Name req) e)
  end.
Definition relevantEventKinds (kind : string) : bool := str_in kind ["Pod"; "Deployment"; "Service"; "Node"].
End reconcile.

(** ** The debounced closure *)
Section job.
Context {W : Type} `{!ObjectClient W ExclusionRuleSpec ExclusionRuleStatus}
  `{!ObjectClient W ProblemCaseSpec ProblemCaseStatus} (tzdb : TimeZoneDB) (controlNamespace : string).

(** [t1], [t2], [t3]: the clock as [IsExcluded], [PatchMatchedStatus] and
    [CreateOrUpdate] read it.  Errors are logged only. *)
Definition run_job (t1 t2 t3 : Time) (job : Job) (w : W) : W :=
  let excluded := match IsExcluded tzdb controlNamespace t1 (co_meta (job_Object job)) (job_Detector job) w with
                  | Ok (excluded, ruleName) => (excluded, ruleName)
                  | Err _ => (false, EmptyString)
                  end in
  if excluded.1 then
    match GetRule controlNamespace excluded.2 w with
    | Ok (Some rule) => (PatchMatchedStatus t2 rule w).2
    | _ => w
    end
  else (CreateOrUpdate t3 controlNamespace (job_Ref job) (job_Severity job) (job_Detector job) (job_Symptoms job) w).2.
End job.

(** ** Lemmas on the debouncer *)

(** The function a key is waiting to run. *)
Definition pending_job {F} (key : string) (d : Debouncer F) : option F :=
  t ← timers d !! key; tm ← created d !! t; if decide (t_stage tm = Armed) then Some (t_fn tm) else None.
(** Every map entry is a timer of its key; in every interleaving. *)
Definition keys_ok {F} (d : Debouncer F) : Prop :=
  forall k t, timers d !! k = Some t -> exists tm, created d !! t = Some tm /\ t_key tm = k.

Lemma step_keys_ok {F} (e : event F) d d' : step e d d' -> keys_ok d -> keys_ok d'.
Proof.
  intros Hs Hok. assert (Hkeep : forall k t, timers d !! k = Some t -> exists tm, created d' !! t = Some tm /\ t_key tm = k).
  { intros k t Ht. destruct (Hok _ _ Ht) as (tm & E & <-).
    destruct (step_keeps _ _ _ _ _ Hs E) as (tm' & E' & Hk & _). eauto. }
  intros k t. destruct Hs as [key fn w d|key d| | | |]; simpl; try exact (Hkeep k t).
  - rewrite lookup_insert. case_decide as Hk; [|exact (Hkeep k t)].
    intros [= <-]. eexists. rewrite lookup_app_r, Nat.sub_diag by done. by split.
  - unfold Cancel in Hkeep |- *. destruct (timers d !! key); simpl in *; [|exact (Hkeep k t)].
    intros [_ Ht]%lookup_delete_Some. by apply Hkeep.
  - intros [_ Ht]%lookup_delete_Some. by apply Hkeep.
Qed.
Lemma steps_keys_ok {F} (es : list (event F)) start d : steps es (New start) d -> keys_ok d.
Proof.
  intros Hs. assert (Hn : keys_ok (New (F := F) start)) by (intros k t; simpl; by intros ?%lookup_empty_Some).
  revert Hn. induction Hs; eauto using step_keys_ok.
Qed.

Lemma pending_job_Debounce {F} key (fn : F) w d k :
  keys_ok d -> pending_job k (Debounce key fn w d) = if decide (k = key) then Some fn else pending_job k d.
Proof.
  intros Hok. unfold pending_job, Debounce. simpl. fold (stopped_key key d).
  rewrite lookup_insert. case_decide as Hk; simplify_eq/=.
  - subst. rewrite decide_True by done. rewrite lookup_app_r, Nat.sub_diag by done. done.
  - rewrite decide_False by done. destruct (timers d !! k) as [t|] eqn:Et; [|done]. simpl.
    destruct (Hok _ _ Et) as (tm & E & Hkey). rewrite E. simpl.
    assert (stopped_key key d !! t = Some tm) as Hst.
    { unfold stopped_key. destruct (timers d !! key) as [t0|] eqn:E0; [|done].
      unfold Stop. rewrite list_lookup_alter_ne; [done|]. intros <-.
      destruct (Hok _ _ E0) as (tm0 & ? & ?). congruence. }
    by rewrite (lookup_app_l_Some _ _ _ _ Hst).
Qed.
Lemma pending_job_Cancel {F} key (d : Debouncer F) k :
  keys_ok d -> pending_job k (Cancel key d) = if decide (k = key) then None else pending_job k d.
Proof.
  intros Hok. unfold pending_job, Cancel. destruct (timers d !! key) as [t0|] eqn:E0; simpl.
  - case_decide as Hk; [subst; by rewrite lookup_delete_eq|]. rewrite lookup_delete_ne by done.
    destruct (timers d !! k) as [t|] eqn:Et; [|done]. simpl.
    destruct (Hok _ _ Et) as (tm & E & Hkey). unfold Stop. rewrite list_lookup_alter_ne; [done|].
    intros <-. destruct (Hok _ _ E0) as (tm0 & ? & ?). congruence.
  - case_decide as Hk; [subst; by rewrite E0|done].
Qed.
Lemma keys_ok_Debounce {F} key (fn : F) w d : keys_ok d -> keys_ok (Debounce key fn w d).
Proof. apply (step_keys_ok (EvDebounce key fn w)). constructor. Qed.
Lemma keys_ok_Cancel {F} key (d : Debouncer F) : keys_ok d -> keys_ok (Cancel key d).
Proof. apply (step_keys_ok (EvCancel key)). constructor. Qed.
#[export] Hint Resolve keys_ok_Debounce keys_ok_Cancel : kube.

Lemma app_string_inj_r (s a b : string) : s +:+ a = s +:+ b -> a = b.
Proof. induction s as [|c s IH]; [done|]. intros H. apply IH. by injection H. Qed.
Lemma debounceKey_inj ns kind name d1 d2 : debounceKey ns kind name d1 = debounceKey ns kind name d2 -> d1 = d2.
Proof. unfold debounceKey. intros H. do 6 apply app_string_inj_r in H. done. Qed.

(** ** Theorems *)

(** [highestSeverity] is the most severe of the symptoms' severities: it is
    one of them or the fallback "low", and none of them weighs more. *)
Theorem highestSeverity_spec symptoms :
  (highestSeverity symptoms = "low" \/ exists s, s ∈ symptoms /\ sy_Severity s = highestSeverity symptoms) /\
  forall s, s ∈ symptoms -> (severityOrder (sy_Severity s) <= severityOrder (highestSeverity symptoms))%Z.
Proof.
  unfold highestSeverity.
  assert (H : forall l acc, (acc.1 = severityOrder acc.2 \/ acc = (0%Z, "low")) ->
    let r := foldl highest_step acc l in
    (r.1 = severityOrder r.2 \/ r = (0%Z, "low")) /\ (acc.1 <= r.1)%Z /\
    (r.2 = acc.2 \/ exists s, s ∈ l /\ sy_Severity s = r.2) /\
    forall s, s ∈ l -> (severityOrder (sy_Severity s) <= r.1)%Z).
  { induction l as [|x l IH]; intros acc Hacc; simpl.
    - split_and!; [done|lia|by left|by intros ??%elem_of_nil].
    - assert (Hstep : ((highest_step acc x).1 = severityOrder (highest_step acc x).2 \/ highest_step acc x = (0%Z, "low")) /\
        (acc.1 <= (highest_step acc x).1)%Z /\ (severityOrder (sy_Severity x) <= (highest_step acc x).1)%Z /\
        ((highest_step acc x).2 = acc.2 \/ (highest_step acc x).2 = sy_Severity x)).
      { unfold highest_step. case_decide; simpl; split_and!; auto; lia. }
      destruct Hstep as (Hs & Hle1 & Hle2 & Hor).
      destruct (IH (highest_step acc x) Hs) as (H1 & H2 & H3 & H4). split_and!; [done|lia| |].
      + destruct H3 as [->|(s & ? & ?)]; [|right; exists s; split; [by right|done]].
        destruct Hor as [-> | ->]; [by left|right; exists x; split; [by left|done]].
      + intros s [->|Hin]%elem_of_cons; [lia|by apply H4]. }
  destruct (H symptoms (0%Z, "low")) as (H1 & _ & H3 & H4); [by right|]. cbv zeta in *.
  set (r := foldl highest_step (0%Z, "low") symptoms) in *. split; [done|].
  intros s Hs. specialize (H4 s Hs). destruct H1 as [H1|H1]; [lia|]. rewrite H1 in H4 |- *. simpl in H4.
  assert (0 <= severityOrder "low")%Z by (by vm_compute). simpl. lia.
Qed.

Section reconcile_theorems.
Context {W : Type} (controlNamespace : string).

(** What the loop leaves waiting under the key of detector [d]. *)
Definition expected_job (kind : string) (obj : ClientObject) (w : W) (clks : string -> Clock) (deb : Debouncer Job)
    (d : Detector W) : option Job :=
  let ns := om_Namespace (co_meta obj) in
  let name := om_Name (co_meta obj) in
  match Evaluate d (clks (Name d)) obj w with
  | Err _ => pending_job (debounceKey ns kind name (Name d)) deb
  | Ok [] => None
  | Ok symptoms => Some (mkJob obj (ref_to ns kind name) (highestSeverity symptoms) (Name d) symptoms)
  end.

Lemma pending_job_evaluateOne kind obj w win clks d deb k :
  keys_ok deb ->
  let key := debounceKey (om_Namespace (co_meta obj)) kind (om_Name (co_meta obj)) (Name d) in
  keys_ok (evaluateOne kind obj w win (clks (Name d)) d deb) /\
  pending_job k (evaluateOne kind obj w win (clks (Name d)) d deb) =
    if decide (k = key) then expected_job kind obj w clks deb d else pending_job k deb.
Proof.
  intros Hok key. unfold evaluateOne, expected_job. fold key.
  destruct (Evaluate d (clks (Name d)) obj w) as [[|s l]|e].
  - split; [by auto with kube|]. by rewrite pending_job_Cancel.
  - split; [by auto with kube|]. by rewrite pending_job_Debounce.
  - split; [done|]. case_decide; by subst.
Qed.
Lemma pending_job_evaluateAll kind obj w win clks dets deb k :
  keys_ok deb -> NoDup (Name <$> dets) ->
  let key d := debounceKey (om_Namespace (co_meta obj)) kind (om_Name (co_meta obj)) (Name d) in
  let deb' := evaluateAll kind obj w win clks dets deb in
  (forall d, d ∈ dets -> k = key d -> pending_job k deb' = expected_job kind obj w clks deb d) /\
  (Forall (fun d => k <> key d) dets -> pending_job k deb' = pending_job k deb).
Proof.
  intros Hok Hnd key. revert deb Hok. induction dets as [|d dets IH]; intros deb Hok; simpl.
  { split; [by intros ??%elem_of_nil|done]. }
  rewrite fmap_cons in Hnd. apply NoDup_cons in Hnd as [Hni Hnd].
  destruct (pending_job_evaluateOne kind obj w win clks d deb k Hok) as [Hok1 Hp1].
  destruct (IH Hnd _ Hok1) as [IH1 IH2]. fold (key d) in Hp1. split.
  - intros d0 [->|Hd]%elem_of_cons Hk.
    + rewrite decide_True in Hp1 by done. rewrite <- Hp1. apply IH2. apply Forall_forall. intros d1 Hd1 ->.
      apply debounceKey_inj in Hk. apply Hni. rewrite <- Hk. by apply list_elem_of_fmap_2.
    + rewrite (IH1 d0 Hd Hk). unfold expected_job. fold (key d0).
      assert (Hne : key d0 <> key d).
      { intros Hkk%debounceKey_inj. apply Hni. rewrite <- Hkk. by apply list_elem_of_fmap_2. }
      destruct (Evaluate d0 _ obj w) as [[]|]; try done.
      rewrite Hk in Hp1. rewrite decide_False in Hp1 by done. done.
  - intros [Hk1 Hk2]%Forall_cons. rewrite (IH2 Hk2), Hp1. by rewrite decide_False.
Qed.
Lemma pending_job_cancelAll ns kind name (dets : list (Detector W)) deb k :
  keys_ok deb ->
  pending_job k (cancelAll ns kind name dets deb) =
    if decide (Exists (fun d => k = debounceKey ns kind name (Name d)) dets) then None else pending_job k deb.
Proof.
  unfold cancelAll. revert deb. induction dets as [|d dets IH]; intros deb Hok; cbn [foldl].
  { rewrite decide_False; [done|by intros ?%Exists_nil]. }
  rewrite IH by auto with kube. rewrite pending_job_Cancel by done.
  destruct (decide (Exists _ (d :: dets))) as [H|H].
  - apply Exists_cons in H as [->|H]; [|by rewrite decide_True].
    case_decide; [done|]. by rewrite decide_True.
  - rewrite !decide_False; [done|..].
    + intros ->. apply H. by left.
    + intros Hx. apply H. by right.
Qed.

(** C9: A reconcile of a watched object leaves the debouncer exactly as the
    detectors demand: nothing is touched for the control namespace or when the
    object cannot be read; when the object is gone every call waiting for its
    detectors is cancelled; otherwise each detector with symptoms has one call
    waiting, made of its own findings, each without symptoms has none, each that
    failed keeps what it had; and calls of other objects are never touched. *)
Theorem reconcile_watched_spec kind get dets req win clks (w : W) deb :
  keys_ok deb -> NoDup (Name <$> dets) ->
  let r := (reconcileWatched controlNamespace kind get dets req win clks w deb).1 in
  let deb' := (reconcileWatched controlNamespace kind get dets req win clks w deb).2 in
  (req_Namespace req = controlNamespace -> r = Ok 0%Z /\ deb' = deb) /\
  (req_Namespace req <> controlNamespace ->
   match get w with
   | Err e =>
       (IsNotFound e = false -> deb' = deb /\ exists e', r = Err e') /\
       (IsNotFound e = true -> r = Ok 0%Z /\ forall k, pending_job k deb' =
          if decide (Exists (fun d => k = debounceKey (req_Namespace req) kind (req_Name req) (Name d)) dets)
          then None else pending_job k deb)
   | Ok obj =>
       let key d := debounceKey (om_Namespace (co_meta obj)) kind (om_Name (co_meta obj)) (Name d) in
       r = Ok 0%Z /\
       (forall d, d ∈ dets -> pending_job (key d) deb' = expected_job kind obj w clks deb d) /\
       (forall k, Forall (fun d => k <> key d) dets -> pending_job k deb' = pending_job k deb)
   end).
Proof.
  intros Hok Hnd. unfold reconcileWatched. case_decide as Hc; [by split|].
  destruct (get w) as [obj|e]; [|destruct (IsNotFound e)]; (split; [done|]); intros _.
  - split; [done|]. split.
    + intros d Hd. by apply pending_job_evaluateAll.
    + intros k Hk. by apply pending_job_evaluateAll.
  - split; [done|]. intros _. split; [done|]. intros k. by apply pending_job_cancelAll.
  - split; [|done]. intros _. split; [done|]. eauto.
Qed.
End reconcile_theorems.

Section mapper_theorems.
Context {W S T : Type} `{!ObjectClient W S T} `{!ObjectClientLaws W S T} (tzdb : TimeZoneDB).

(** When an exclusion rule changes, every object it can suppress at any time,
    for any detector, is queued again. *)
Theorem rule_change_requeues_suppressed (rule : KubechanExclusionRule) (o : Object S T) (w : W) l now det :
  klist (S := S) (T := T) (ers_Namespace (spec rule)) ∅ w = Ok l ->
  kget (obj_namespace o) (obj_name o) w = Ok o -> suppresses tzdb now (meta o) det rule ->
  mkRequest (obj_namespace o) (obj_name o) ∈ ruleMapper (S := S) (T := T) (MappedRule rule) w.
Proof using All.
  intros Hl Ho [_ Hns _ _ _]. unfold ruleMapper. simpl. rewrite Hl.
  apply list_elem_of_fmap. exists o. split; [done|]. eapply law_list_complete; [done|done|].
  split; [|apply map_empty_subseteq]. apply elem_of_cons in Hns as [->|Hns%list_elem_of_singleton]; auto.
Qed.
End mapper_theorems.

Section job_theorems.
Context {W : Type} `{!ObjectClient W ExclusionRuleSpec ExclusionRuleStatus}
  `{!ObjectClient W ProblemCaseSpec ProblemCaseStatus}
  `{!ObjectClientLaws W ProblemCaseSpec ProblemCaseStatus}
  `{!ClientFrame W ExclusionRuleSpec ExclusionRuleStatus ProblemCaseSpec ProblemCaseStatus}
  (tzdb : TimeZoneDB) (controlNamespace : string).

(** C8: A debounced report respects the exclusion rules as they are when it runs:
    if a listed rule suppresses the detector on the object no problem case is
    created or changed; if none does, or the rules cannot be listed, the report
    goes through; and either way no resource gets a second open case. *)
Theorem run_job_respects_exclusions t1 t2 t3 (job : Job) (w : W) :
  let w' := run_job tzdb controlNamespace t1 t2 t3 job w in
  let report := CreateOrUpdate t3 controlNamespace (job_Ref job) (job_Severity job) (job_Detector job) (job_Symptoms job) w in
  match klist (S := ExclusionRuleSpec) (T := ExclusionRuleStatus) controlNamespace ∅ w with
  | Ok rules =>
      (Exists (suppresses tzdb t1 (co_meta (job_Object job)) (job_Detector job)) rules ->
         forall ns n, kget (S := ProblemCaseSpec) (T := ProblemCaseStatus) ns n w' = kget ns n w) /\
      (Forall (fun r => ~ suppresses tzdb t1 (co_meta (job_Object job)) (job_Detector job) r) rules -> w' = report.2)
  | Err _ => w' = report.2
  end /\
  (one_open_case controlNamespace w -> one_open_case controlNamespace w').
Proof using All.
  intros w' report. unfold w', run_job, IsExcluded. fold report.
  assert (Hrep : one_open_case controlNamespace w -> one_open_case controlNamespace report.2).
  { apply (CreateOrUpdate_one_open_case t3 controlNamespace (job_Ref job) (job_Severity job) (job_Detector job)
      (job_Symptoms job) w report.1). apply surjective_pairing. }
  destruct (klist controlNamespace ∅ w) as [rules|e]; [|done].
  destruct (firstExcluding tzdb t1 _ _ rules) as [[] n] eqn:Ef; simpl.
  - assert (Hsame : forall ns m, kget (S := ProblemCaseSpec) (T := ProblemCaseStatus) ns m
      match GetRule controlNamespace n w with Ok (Some rule) => (PatchMatchedStatus t2 rule w).2 | _ => w end = kget ns m w).
    { intros ns m. destruct (GetRule controlNamespace n w) as [[rule|]|]; [|done..].
      unfold PatchMatchedStatus, mbind, eff_bind, wrap. set (o := with_status rule _).
      destruct (kpatch_status rule o w) as [[] w1] eqn:Ep; simpl; by eapply frame_patch_status. }
    split; [split; [intros _; exact Hsame|]|].
    + apply firstExcluding_true in Ef as (l1 & rule & l2 & -> & Hs & _).
      intros [_ [Hn _]%Forall_cons]%Forall_app. done.
    + intros Hone ref det pc1 pc2 H1 H2. apply (open_case_ext _ _ _ w _) in H1; [|done].
      apply (open_case_ext _ _ _ w _) in H2; [|done]. by eapply Hone.
  - split; [split; [|done]|done]. intros (rule & Hin & Hs)%Exists_exists. exfalso.
    destruct (firstExcluding_false_any tzdb t1 (co_meta (job_Object job)) (job_Detector job) rules n Ef) as [_ Hf].
    by apply (Hf rule).
Qed.
End job_theorems.

(** ** A concrete run *)
Definition shop_cluster : MemCluster := set_Pods {[ obj_key pending_pod := pending_pod ]} rules_cluster.
Definition pod_clock : string -> Clock := fun _ _ => (400 * Second)%Z.
Definition pending_only : list (Detector MemCluster) := [CrashLoopBackOff.detector; PendingTooLong.detector None].
Definition web_get (w : MemCluster) : res ClientObject := map_res PodObject (kget "shop" "web" w).
Theorem reconcile_watched_spec_witness :
  let deb' := (reconcileWatched "kubechan" "Pod" web_get pending_only (mkRequest "shop" "web") 10 pod_clock
                 shop_cluster (New 0)).2 in
  pending_job (debounceKey "shop" "Pod" "web" "PendingTooLong") deb' =
    expected_job "Pod" (PodObject pending_pod) shop_cluster pod_clock (New 0) (PendingTooLong.detector None).
Proof.
  assert (Hg : web_get shop_cluster = Ok (PodObject pending_pod)) by vm_refl.
  destruct (reconcile_watched_spec "kubechan" "Pod" web_get pending_only
    (mkRequest "shop" "web") 10%Z pod_clock shop_cluster (New 0)) as [_ H].
  - apply (steps_keys_ok [] 0%Z). constructor.
  - apply (bool_decide_eq_true_1 _). vm_refl.
  - rewrite Hg in H. destruct (H ltac:(discriminate)) as (_ & Hd & _).
    apply (Hd (PendingTooLong.detector None)). by right; left.
Defined.
Theorem rule_change_requeues_suppressed_witness :
  mkRequest "shop" "web" ∈ ruleToPodsMapper (MappedRule night_rule) shop_cluster.
Proof.
  apply (rule_change_requeues_suppressed UTC_only night_rule pending_pod shop_cluster [pending_pod]
    (1767312000 * Second + 23 * Hour)%Z "PendingTooLong").
  - vm_refl.
  - vm_refl.
  - apply ruleExcludes_true. by vm_compute.
Defined.
Definition night_job : Job :=
  mkJob (PodObject pending_pod) (ref_to "shop" "Pod" "web") "medium" "PendingTooLong" waiting.
Theorem run_job_respects_exclusions_witness :
  one_open_case "kubechan" (run_job UTC_only "kubechan" 0 0 0 night_job shop_cluster).
Proof.
  apply (run_job_respects_exclusions UTC_only "kubechan" 0 0 0 night_job shop_cluster).
  intros ref det pc1 pc2 (Hx & _). discriminate Hx.
Defined.
