(* ===== verification/Resolver.v ===== *)
(** * Auto-resolution: services/cluster-watcher/controllers/problemcase_reconciler.go

    Re-evaluates the detector of an open problem case and resolves the case when
    the symptoms have cleared or the resource is gone. *)

From stdpp Require Import sorting.
From stdpp Require Import prelude gmap strings list.
From S2P Require Import Prelude GoBase Api Client Detectors ProblemCases Watchers.

Definition requeueAfter : Duration := (60 * Second)%Z.

Section Resolver.
Context {W : Type} `{!ObjectClient W ProblemCaseSpec ProblemCaseStatus} `{!ObjectClient W () PodStatus}
  `{!ObjectClient W DeploymentSpec DeploymentStatus} `{!ObjectClient W ServiceSpec ServiceStatus}
  `{!ObjectClient W NodeSpec NodeStatus} (dets : list (Detector W)).

Fixpoint findDetectorIn (l : list (Detector W)) (name : string) : option (Detector W) :=
  match l with
  | [] => None
  | d :: l' => if decide (Name d = name) then Some d else findDetectorIn l' name
  end.
Definition findDetector (name : string) : option (Detector W) := findDetectorIn dets name.

Definition fetchAffectedResource (ref : ResourceRef) (w : W) : res ClientObject :=
  let ns := rr_Namespace ref in
  let n := rr_Name ref in
  if decide (rr_Kind ref = "Pod") then map_res PodObject (kget ns n w)
  else if decide (rr_Kind ref = "Deployment") then map_res DeploymentObject (kget ns n w)
  else if decide (rr_Kind ref = "Service") then map_res ServiceObject (kget ns n w)
  else if decide (rr_Kind ref = "Node") then map_res NodeObject (kget ns n w)
  else Err (ErrOther ("unsupported kind " +:+ go_quote (rr_Kind ref) +:+ " in ProblemCase")).

(** [Reconcile]; [clk] is the detector's clock, [now] the one [Resolve] reads. *)
Definition Reconcile (req : Request) (clk : Clock) (now : Time) : eff W Result := fun w =>
  match kget (S := ProblemCaseSpec) (T := ProblemCaseStatus) (req_Namespace req) (req_Name req) w with
  | Err e =>
      if IsNotFound e then (Ok 0%Z, w) else (Err (ErrWrap ("getting ProblemCase " +:+ NamespacedName req) e), w)
  | Ok pc =>
      if decide (pct_State (status pc) <> ProblemCaseStateOpen) then (Ok 0%Z, w) else
      match fetchAffectedResource (pcs_AffectedResource (spec pc)) w with
      | Err e =>
          if IsNotFound e then (_ ← Resolve now pc; mret 0%Z) w
          else (Err (ErrWrap "fetching affected resource" e), w)
      | Ok obj =>
          match findDetector (pcs_Detector (spec pc)) with
          | None => (Ok requeueAfter, w)
          | Some d =>
              match Evaluate d clk obj w with
              | Err e => (Err (ErrWrap ("evaluating detector " +:+ go_quote (Name d)) e), w)
              | Ok [] => (_ ← Resolve now pc; mret 0%Z) w
              | Ok _ => (Ok requeueAfter, w)
              end
          end
      end
  end.

(** The symptoms of a case have cleared: its resource is gone, or its detector
    reports nothing on it any more. *)
Definition cleared (pc : ProblemCase) (clk : Clock) (w : W) : Prop :=
  match fetchAffectedResource (pcs_AffectedResource (spec pc)) w with
  | Err e => IsNotFound e = true
  | Ok obj => exists d, findDetector (pcs_Detector (spec pc)) = Some d /\ Evaluate d clk obj w = Ok []
  end.

Context `{!ObjectClientLaws W ProblemCaseSpec ProblemCaseStatus}.

(** A reconcile of an open case resolves it exactly when its symptoms have
    cleared and the status write succeeds, stamping the resolution time and
    touching no other case; while they have not it leaves every case alone and
    either asks to be run again after a minute or returns the error that kept it
    from knowing. A case in any other state is left alone. *)
Theorem reconcile_resolves_cleared_cases req clk now (pc : ProblemCase) w r w' :
  kget (req_Namespace req) (req_Name req) w = Ok pc -> Reconcile req clk now w = (r, w') ->
  (pct_State (status pc) <> ProblemCaseStateOpen -> r = Ok 0%Z /\ w' = w) /\
  (pct_State (status pc) = ProblemCaseStateOpen -> cleared pc clk w ->
     (r = Ok 0%Z /\ rewrites pc (set_resolved now pc) w w') \/
     (exists e, r = Err e) /\ exists pc', rewrites pc pc' w w' /\ pc' ∈ [pc; set_resolved now pc]) /\
  (pct_State (status pc) = ProblemCaseStateOpen -> ~ cleared pc clk w ->
     w' = w /\ (r = Ok requeueAfter \/ exists e, r = Err e)).
Proof using All.
  intros Hget. assert (Hs : is_stored pc w).
  { pose proof (law_get_key _ _ _ _ Hget) as [= H1 H2]. unfold is_stored. by rewrite H1, H2. }
  unfold Reconcile. rewrite Hget. case_decide as Hst; [intros [= <- <-]; split_and!; done|].
  assert (Hres : forall r w', ((_ ← Resolve now pc; mret 0%Z) : eff W Z) w = (r, w') ->
    (r = Ok 0%Z /\ rewrites pc (set_resolved now pc) w w') \/
    (exists e, r = Err e) /\ exists pc', rewrites pc pc' w w' /\ pc' ∈ [pc; set_resolved now pc]).
  { intros r0 w0. unfold mbind, eff_bind. destruct (Resolve now pc w) as [r1 w1] eqn:E.
    apply Resolve_outcome in E as (pc' & Hr & Ho & Hor); [|done]. destruct r1 as [[]|e]; intros [= <- <-].
    - left. split; [done|]. by rewrite <- Ho.
    - right. split; [eauto|]. exists pc'. split; [done|]. destruct Hor as [-> | ->]; set_solver. }
  unfold cleared. destruct (fetchAffectedResource _ w) as [obj|e]; [|destruct (IsNotFound e)].
  - destruct (findDetector _) as [d|].
    + destruct (Evaluate d clk obj w) as [[|s l]|e] eqn:Ee.
      * intros H. split_and!; [done|intros _ _; by apply Hres|]. intros _ []. eauto.
      * intros [= <- <-]. split_and!; [done| |by auto]. intros _ (d' & [= <-] & Hd). congruence.
      * intros [= <- <-]. split_and!; [done| |eauto]. intros _ (d' & [= <-] & Hd). congruence.
    + intros [= <- <-]. split_and!; [done| |by auto]. by intros _ (d' & ? & _).
  - intros H. split_and!; [done|intros _ _; by apply Hres|done].
  - intros [= <- <-]. split_and!; [done|done|eauto].
Qed.

(** A case whose initial status write failed stays stuck: it has no state, so
    no reconcile ever resolves it, even once its resource is gone, and new reports
    of the resource find it as the open case and leave its state empty. *)
Theorem case_without_state_is_stuck req clk now (pc : ProblemCase) w r w' ns ref sev det symptoms t w'' :
  kget (req_Namespace req) (req_Name req) w = Ok pc -> pct_State (status pc) = EmptyString ->
  FindOpen ns ref det w = Ok (Some pc) ->
  Reconcile req clk now w = (r, w') -> CreateOrUpdate t ns ref sev det symptoms w = (Ok tt, w'') ->
  w' = w /\ r = Ok 0%Z /\
  exists pc', kget (S := ProblemCaseSpec) (req_Namespace req) (req_Name req) w'' = Ok pc' /\
    pct_State (status pc') = EmptyString.
Proof using All.
  intros Hget Hst Hf Hr Hc. unfold Reconcile in Hr. rewrite Hget in Hr.
  rewrite decide_True in Hr by (rewrite Hst; done). injection Hr as <- <-. split_and!; [done..|].
  unfold CreateOrUpdate, mbind, eff_bind, reads in Hc. rewrite Hf in Hc.
  apply FindOpen_Some in Hf as (Hs & _).
  apply patchLastSeen_outcome in Hc as (pc' & [_ Ha Hm _] & Hst' & _); [|done].
  pose proof (law_get_key _ _ _ _ Hget) as [= <- <-]. exists pc'. split; [|congruence].
  unfold is_stored, obj_namespace, obj_name in *. by rewrite <- Hm.
Qed.
End Resolver.

(** ** Concrete runs *)
Definition case_req : Request := mkRequest "kubechan" (obj_name found_case).
Definition gone_dets : list (Detector MemCluster) := [PendingTooLong.detector None].
(** The pod of the open case no longer exists. *)
Theorem reconcile_resolves_cleared_cases_witness :
  rewrites found_case (set_resolved 99%Z found_case) two_reports_cluster
    (Reconcile gone_dets case_req (fun _ => 0%Z) 99%Z two_reports_cluster).2.
Proof.
  destruct (Reconcile gone_dets case_req (fun _ => 0%Z) 99%Z two_reports_cluster) as [r w'] eqn:E.
  assert (Hr : (Reconcile gone_dets case_req (fun _ => 0%Z) 99%Z two_reports_cluster).1 = Ok 0%Z) by vm_refl.
  rewrite E in Hr. simpl in Hr. subst r.
  destruct (reconcile_resolves_cleared_cases gone_dets case_req (fun _ => 0%Z) 99%Z found_case two_reports_cluster
    (Ok 0%Z) w') as (_ & H & _); [vm_refl|exact E|].
  destruct H as [[_ H]|[[e [=]] _]]; [vm_refl| |exact H].
  change (match fetchAffectedResource web_pod two_reports_cluster with
          | Err e => IsNotFound e = true | Ok obj => exists d, findDetector gone_dets "PendingTooLong" = Some d /\
              Evaluate d (fun _ => 0%Z) obj two_reports_cluster = Ok [] end).
  assert (fetchAffectedResource web_pod two_reports_cluster = Err ErrNotFound) as -> by vm_refl. done.
Defined.

Definition stateless_case : ProblemCase :=
  mkObject (mkObjectMeta "ProblemCase" "pendingtoolong-pod-x0" EmptyString "kubechan" (caseLabels web_pod "PendingTooLong") ∅ 0%Z [])
    (mkProblemCaseSpec web_pod "PendingTooLong" "medium" [] []) zeroProblemCaseStatus.
Definition stuck_cluster : MemCluster := set_ProblemCases {[ obj_key stateless_case := stateless_case ]} empty_cluster.
Theorem case_without_state_is_stuck_witness :
  let w'' := (CreateOrUpdate 5%Z "kubechan" web_pod "medium" "PendingTooLong" waiting stuck_cluster).2 in
  exists pc' : ProblemCase, kget "kubechan" "pendingtoolong-pod-x0" w'' = Ok pc' /\ pct_State (status pc') = EmptyString.
Proof.
  eapply (case_without_state_is_stuck gone_dets (mkRequest "kubechan" "pendingtoolong-pod-x0") (fun _ => 0%Z) 9%Z
    stateless_case stuck_cluster (Ok 0%Z) stuck_cluster "kubechan" web_pod "medium" "PendingTooLong" waiting 5%Z);
    vm_refl.
Defined.
