(* ===== verification/RuleReconciler.v ===== *)
(** * Retroactive suppression: services/cluster-watcher/controllers/exclusionrule_reconciler.go

    When a rule changes, the open automatic incidents it matches are resolved
    with their problem cases.  This file has its own reading of time windows,
    [isWindowActive], compared below with the one of Exclusion. *)

From Stdlib Require Import Ascii.
From stdpp Require Import sorting.
From stdpp Require Import prelude gmap strings list.
From S2P Require Import Prelude GoBase Api Client Exclusion ProblemCases Watchers.

(** ** Time windows *)

(** A byte difference wraps around at 256. *)
Definition byte_digit (c : ascii) : Z := ((byte_val c - 48) mod 256)%Z.
(** [parseHHMM] with [h] and [m] zero before the call. *)
Definition parseHHMM (s : string) : Z * Z :=
  match s with
  | String a (String b (String c (String d (String e EmptyString)))) =>
      if decide (c = ":"%char) then ((byte_digit a * 10 + byte_digit b)%Z, (byte_digit d * 10 + byte_digit e)%Z)
      else (0%Z, 0%Z)
  | _ => (0%Z, 0%Z)
  end.

(** [time.Date] of a local day and a time on it, in nanoseconds: the offset of the
    zone is looked up at the local reading taken as UTC, and again at the instant
    that gives, since the two may lie on different sides of a transition. *)
Definition time_Date (loc : Location) (days h m : Z) : Time :=
  let unix := (days * 86400 + h * 3600 + m * 60)%Z in
  let off := loc (unix * Second)%Z in
  if decide (off = 0)%Z then (unix * Second)%Z
  else ((unix - loc ((unix - off) * Second)) * Second)%Z.

Definition parseDayTime (loc : Location) (ref : Time) (hhmm : string) : Time :=
  let '(h, m) := parseHHMM hhmm in time_Date loc (local_days loc ref) h m.

Definition period_window (loc : Location) (now : Time) (p : ExclusionPeriod) : Time * Time :=
  let start := parseDayTime loc now (per_Start p) in
  let end_ := parseDayTime loc now (per_End p) in
  (start, if decide (end_ < start)%Z then (end_ + 24 * Hour)%Z else end_).

Definition isWindowActive (tzdb : TimeZoneDB) (tw : ExclusionTimeWindow) (now : Time) : bool * Duration :=
  let loc := default UTC (tzdb (tw_Timezone tw)) in
  let weekday := day_name loc now in
  let active := existsb (fun p => existsb (fun d =>
      if decide (d <> weekday) then false else
      let '(start, end_) := period_window loc now p in
      negb (bool_decide (now < start)%Z) && bool_decide (now < end_)%Z) (per_Days p)) (tw_Periods tw) in
  if active then (true, 0%Z) else (false, (5 * Minute)%Z).

(** ** Matching incidents *)

Definition upper_to_lower (c : ascii) : ascii := if decide (65 <= byte_val c <= 90)%Z then byte_of (byte_val c + 32) else c.
(** [kindMatches]: equal lengths, then byte by byte. *)
Fixpoint bytesMatch (a b : string) : bool :=
  match a, b with
  | String ca a', String cb b' =>
      if decide (upper_to_lower ca <> upper_to_lower cb) then false else bytesMatch a' b'
  | _, _ => true
  end.
Definition kindMatches (a b : string) : bool :=
  if decide (slen a <> slen b) then false else bytesMatch a b.

Fixpoint resourceRefMatchesAny (ref : ResourceRef) (targets : list ResourceRef) : bool :=
  match targets with
  | [] => false
  | t :: ts =>
      if negb (kindMatches (rr_Kind ref) (rr_Kind t)) then resourceRefMatchesAny ref ts
      else if decide (rr_Name t <> EmptyString /\ rr_Name t <> rr_Name ref) then resourceRefMatchesAny ref ts
      else if decide (rr_Namespace t <> EmptyString /\ rr_Namespace t <> rr_Namespace ref) then resourceRefMatchesAny ref ts
      else true
  end.

Definition incidentMatchesRule (inc : Incident) (rule : KubechanExclusionRule) : bool :=
  let s := spec rule in
  let root := ins_RootResource (spec inc) in
  if decide (ers_Namespace s <> EmptyString /\ ers_Namespace s <> rr_Namespace root) then false else
  match ers_TargetResources s with
  | _ :: _ => if negb (resourceRefMatchesAny root (ers_TargetResources s)) then false else true
  | [] =>
      match ers_Selector s with
      | None => if decide (ers_Namespace s = EmptyString) then false else true
      | Some _ => true
      end
  end.

(** ** The reconciler *)
Section Reconciler.
Context {W : Type} `{!ObjectClient W ProblemCaseSpec ProblemCaseStatus}
  `{!ObjectClient W IncidentSpec IncidentStatus} `{!ObjectClient W ExclusionRuleSpec ExclusionRuleStatus}
  (tzdb : TimeZoneDB) (controlNamespace : string).

Definition set_incident_resolved (now : Time) (inc : Incident) : Incident :=
  let t := status inc in
  with_status inc (mkIncidentStatus IncidentStateResolved (int_OpenedAt t) (Some now) 0 (int_OccurrenceCount t)
    (int_LastOccurrenceAt t)).

(** The loop over the member cases: one that cannot be read is skipped. *)
Definition resolveMember (now : Time) (ns name : string) : eff W () := fun w =>
  match kget (S := ProblemCaseSpec) (T := ProblemCaseStatus) ns name w with
  | Err _ => (Ok tt, w)
  | Ok pc =>
      if decide (pct_State (status pc) = ProblemCaseStateResolved) then (Ok tt, w)
      else (_ ← kpatch_status pc (set_resolved now pc); mret tt) w
  end.
Definition resolveIncident (now : Time) (inc : Incident) : eff W () :=
  _ ← for_each (resolveMember now (obj_namespace inc)) (ins_ProblemCases (spec inc));
  _ ← kpatch_status inc (set_incident_resolved now inc);
  mret tt.

(** The guards of the incident loop. *)
Definition suppressible (rule : KubechanExclusionRule) (inc : Incident) : bool :=
  if decide (int_State (status inc) = IncidentStateResolved) then false
  else if decide (ins_Source (spec inc) = "manual") then false
  else incidentMatchesRule inc rule.
(** The incident loop: how many were resolved; a failure is logged.  [now i] is
    the clock [resolveIncident] reads for the [i]th incident. *)
Fixpoint resolveMatching (now : nat -> Time) (rule : KubechanExclusionRule) (items : list Incident) (w : W) : Z * W :=
  match items with
  | [] => (0%Z, w)
  | inc :: items' =>
      if suppressible rule inc then
        let '(r, w1) := resolveIncident (now (length items')) inc w in
        let '(n, w2) := resolveMatching now rule items' w1 in
        (match r with Ok _ => (n + 1)%Z | Err _ => n end, w2)
      else resolveMatching now rule items' w
  end.

Definition countSuppressed (now : Time) (resolved : Z) (rule : KubechanExclusionRule) : KubechanExclusionRule :=
  with_status rule (mkExclusionRuleStatus (Some now) (wrap64 (ert_SuppressedCount (status rule) + resolved))).

Definition Reconcile (req : Request) (t_window : Time) (t_inc : nat -> Time) (t_last : Time) : eff W Result := fun w =>
  match kget (S := ExclusionRuleSpec) (T := ExclusionRuleStatus) (req_Namespace req) (req_Name req) w with
  | Err e => (if IsNotFound e then Ok 0%Z else Err e, w)
  | Ok rule =>
      if negb (ers_Enabled (spec rule)) then (Ok 0%Z, w) else
      let '(active, requeueIn) := match ers_TimeWindow (spec rule) with
                                  | Some tw => isWindowActive tzdb tw t_window
                                  | None => (true, 0%Z)
                                  end in
      if negb active then (Ok (if decide (requeueIn > 0)%Z then requeueIn else 0%Z), w) else
      match klist (S := IncidentSpec) (T := IncidentStatus) controlNamespace ∅ w with
      | Err e => (Err e, w)
      | Ok items =>
          let '(resolved, w1) := resolveMatching t_inc rule items w in
          if decide (resolved > 0)%Z
          then (Ok 0%Z, (kpatch_status rule (countSuppressed t_last resolved rule) w1).2)
          else (Ok 0%Z, w1)
      end
  end.
End Reconciler.

(** ** Matching lemmas *)
Lemma bytesMatch_lower a b : slen a = slen b -> bytesMatch a b = bool_decide (to_lower a = to_lower b).
Proof.
  revert b; induction a as [|ca a IH]; intros [|cb b] Hl; try done.
  simpl. change (upper_to_lower ca) with (lower_byte ca). change (upper_to_lower cb) with (lower_byte cb).
  case_decide as Hc.
  - symmetry. apply bool_decide_eq_false. by intros [=].
  - assert (lower_byte ca = lower_byte cb) as Heq by (destruct (decide (lower_byte ca = lower_byte cb)); done).
    rewrite IH by (unfold slen in *; simpl in Hl; lia). apply bool_decide_ext. split; [intros ->; by rewrite Heq|by intros [=]].
Qed.
Lemma kindMatches_equal_fold a b : kindMatches a b = equal_fold a b.
Proof.
  unfold kindMatches, equal_fold. case_decide as Hl.
  - symmetry. apply bool_decide_eq_false. intros He. apply Hl. rewrite <- (slen_to_lower a), <- (slen_to_lower b). by rewrite He.
  - apply bytesMatch_lower. destruct (decide (slen a = slen b)); done.
Qed.

Lemma resourceRefMatchesAny_true ref targets :
  resourceRefMatchesAny ref targets = true <->
  exists t, t ∈ targets /\ equal_fold (rr_Kind ref) (rr_Kind t) = true /\
    rr_Name t ∈ [EmptyString; rr_Name ref] /\ rr_Namespace t ∈ [EmptyString; rr_Namespace ref].
Proof.
  induction targets as [|t ts IH]; simpl.
  - split; [done|]. by intros (? & ?%elem_of_nil & _).
  - rewrite kindMatches_equal_fold.
    assert (Hskip : forall P : Prop, (~ (equal_fold (rr_Kind ref) (rr_Kind t) = true /\
        rr_Name t ∈ [EmptyString; rr_Name ref] /\ rr_Namespace t ∈ [EmptyString; rr_Namespace ref])) ->
      resourceRefMatchesAny ref ts = true <->
      exists t0, t0 ∈ t :: ts /\ equal_fold (rr_Kind ref) (rr_Kind t0) = true /\
        rr_Name t0 ∈ [EmptyString; rr_Name ref] /\ rr_Namespace t0 ∈ [EmptyString; rr_Namespace ref]).
    { intros _ Hn. rewrite IH. split.
      - intros (t0 & Ht & H). exists t0. split; [by right|done].
      - intros (t0 & [->|Ht]%elem_of_cons & H); [done|by exists t0]. }
    destruct (equal_fold (rr_Kind ref) (rr_Kind t)) eqn:Ek; simpl; [|apply (Hskip True); by intros [? _]].
    case_decide as Hn; [apply (Hskip True); intros (_ & H & _); by apply in_scope in H|].
    case_decide as Hs; [apply (Hskip True); intros (_ & _ & H); by apply in_scope in H|].
    split; [|done]. intros _. exists t. apply in_scope in Hn, Hs. split; [by left|done].
Qed.

(** ** What a run changes *)
Section effects.
Context {W : Type} `{!ObjectClient W ProblemCaseSpec ProblemCaseStatus}
  `{!ObjectClient W IncidentSpec IncidentStatus} `{!ObjectClient W ExclusionRuleSpec ExclusionRuleStatus}
  `{!ObjectClientLaws W ProblemCaseSpec ProblemCaseStatus} `{!ObjectClientLaws W IncidentSpec IncidentStatus}
  `{!ClientFrame W ProblemCaseSpec ProblemCaseStatus IncidentSpec IncidentStatus}
  `{!ClientFrame W IncidentSpec IncidentStatus ProblemCaseSpec ProblemCaseStatus}
  `{!ClientFrame W ExclusionRuleSpec ExclusionRuleStatus ProblemCaseSpec ProblemCaseStatus}
  `{!ClientFrame W ExclusionRuleSpec ExclusionRuleStatus IncidentSpec IncidentStatus}
  (tzdb : TimeZoneDB) (controlNamespace : string).

Abbreviation get_case := (kget (W := W) (S := ProblemCaseSpec) (T := ProblemCaseStatus)).
Abbreviation get_incident := (kget (W := W) (S := IncidentSpec) (T := IncidentStatus)).

(** Cases change only to resolved, and only where [P] allows. *)
Definition cases_resolved (P : string -> string -> Prop) (w w' : W) : Prop :=
  forall ns n, get_case ns n w' = get_case ns n w \/
    (P ns n /\ exists pc t, get_case ns n w = Ok pc /\ get_case ns n w' = Ok (set_resolved t pc)).
(** Incidents change only from one satisfying [P] to its resolved version. *)
Definition incidents_resolved (P : Incident -> Prop) (w w' : W) : Prop :=
  forall ns n, get_incident ns n w' = get_incident ns n w \/
    exists inc t, get_incident ns n w = Ok inc /\ P inc /\ get_incident ns n w' = Ok (set_incident_resolved t inc).

Lemma cases_resolved_trans P w1 w2 w3 : cases_resolved P w1 w2 -> cases_resolved P w2 w3 -> cases_resolved P w1 w3.
Proof.
  intros H1 H2 ns n. destruct (H1 ns n) as [E1|(HP & pc & t & E1 & E1')], (H2 ns n) as [E2|(HP2 & pc2 & t2 & E2 & E2')].
  - left. congruence.
  - right. split; [done|]. exists pc2, t2. split; congruence.
  - right. split; [done|]. exists pc, t. split; congruence.
  - right. split; [done|]. exists pc, t2. split; [done|]. rewrite E2'. rewrite E1' in E2. by injection E2 as <-.
Qed.
Lemma cases_resolved_mono (P Q : string -> string -> Prop) w w' :
  (forall ns n, P ns n -> Q ns n) -> cases_resolved P w w' -> cases_resolved Q w w'.
Proof. intros HPQ H ns n. destruct (H ns n) as [?|[? ?]]; eauto. Qed.

Lemma resolveMember_effect now ns name w r w' :
  resolveMember now ns name w = (r, w') ->
  cases_resolved (fun ns' n' => ns' = ns /\ n' = name) w w' /\ (forall ns n, get_incident ns n w' = get_incident ns n w) /\
  (r = Ok tt -> forall pc, get_case ns name w' = Ok pc -> pct_State (status pc) = ProblemCaseStateResolved).
Proof using All.
  unfold resolveMember. destruct (get_case ns name w) as [pc|e] eqn:Eg.
  2: { intros [= <- <-]. split_and!; [by left|done|]. intros _ pc. by rewrite Eg. }
  case_decide as Hst.
  { intros [= <- <-]. split_and!; [by left|done|]. intros _ pc'. rewrite Eg. by intros [= <-]. }
  destruct (kget_is_stored _ _ _ _ Eg) as (Hs & Hns & Hn).
  unfold mbind, eff_bind. destruct (kpatch_status pc _ w) as [r1 w1] eqn:Ep. intros H.
  assert (w1 = w') as -> by (destruct r1; by injection H).
  assert (Hi : forall ns n, get_incident ns n w' = get_incident ns n w)
    by (intros; by eapply (frame_patch_status (S := ProblemCaseSpec) (T := ProblemCaseStatus))).
  apply kpatch_status_outcome in Ep as (pc' & [_ Ha Hm He] & Ho); [|done..].
  assert (Hc : get_case ns name w' = Ok pc').
  { unfold is_stored, obj_namespace, obj_name in Ha. rewrite Hm in Ha. by rewrite <- Hns, <- Hn. }
  split_and!; [|done|].
  - intros ns' n'. destruct (decide ((ns', n') = obj_key pc)) as [E|E]; [|left; by apply He].
    unfold obj_key in E. rewrite Hns, Hn in E. injection E as -> ->. destruct r1; [|left; congruence]. right. split; [done|].
    destruct Ho as [_ Ho]. exists pc, now. split; [done|]. rewrite Hc, Ho. done.
  - intros -> x. rewrite Hc. intros [= <-]. destruct r1; [|done]. destruct Ho as [_ ->]. done.
Qed.

Lemma resolveMembers_effect now ns names w r w' :
  for_each (resolveMember now ns) names w = (r, w') ->
  cases_resolved (fun ns' n' => ns' = ns /\ n' ∈ names) w w' /\ (forall ns n, get_incident ns n w' = get_incident ns n w) /\
  (r = Ok tt -> forall n pc, n ∈ names -> get_case ns n w' = Ok pc -> pct_State (status pc) = ProblemCaseStateResolved).
Proof using All.
  revert w. induction names as [|n names IH]; simpl; intros w.
  { intros [= <- <-]. split_and!; [by left|done|by intros _ ?? ?%elem_of_nil]. }
  unfold mbind, eff_bind. destruct (resolveMember now ns n w) as [r1 w1] eqn:E1.
  apply resolveMember_effect in E1 as (Hc1 & Hi1 & Hr1). destruct r1 as [[]|e].
  - intros (Hc2 & Hi2 & Hr2)%IH. split_and!.
    + eapply cases_resolved_trans; [eapply cases_resolved_mono, Hc1|eapply cases_resolved_mono, Hc2].
      * intros ns' n' [-> ->]. split; [done|by left].
      * intros ns' n' [-> ?]. split; [done|by right].
    + intros. by rewrite Hi2, Hi1.
    + intros Hr n' pc [->|Hin]%elem_of_cons; [|by apply Hr2].
      intros Hg. destruct (Hc2 ns n) as [E|(_ & pc2 & t & _ & E)].
      * rewrite E in Hg. by apply Hr1.
      * rewrite E in Hg. by injection Hg as <-.
  - intros [= <- <-]. split_and!; [|done|done]. eapply cases_resolved_mono, Hc1.
    intros ns' n' [-> ->]. split; [done|by left].
Qed.

Lemma resolveIncident_effect now (inc : Incident) w r w' :
  is_stored inc w -> resolveIncident now inc w = (r, w') ->
  cases_resolved (fun ns' n' => ns' = obj_namespace inc /\ n' ∈ ins_ProblemCases (spec inc)) w w' /\
  same_elsewhere (S := IncidentSpec) (T := IncidentStatus) (obj_key inc) w w' /\
  (get_incident (obj_namespace inc) (obj_name inc) w' = Ok inc \/
   get_incident (obj_namespace inc) (obj_name inc) w' = Ok (set_incident_resolved now inc)) /\
  (r = Ok tt -> get_incident (obj_namespace inc) (obj_name inc) w' = Ok (set_incident_resolved now inc) /\
     forall n pc, n ∈ ins_ProblemCases (spec inc) -> get_case (obj_namespace inc) n w' = Ok pc ->
       pct_State (status pc) = ProblemCaseStateResolved).
Proof using All.
  intros Hs. unfold resolveIncident, mbind, eff_bind.
  destruct (for_each _ _ w) as [r1 w1] eqn:E1. apply resolveMembers_effect in E1 as (Hc1 & Hi1 & Hr1).
  assert (Hs1 : is_stored inc w1) by (unfold is_stored; by rewrite Hi1).
  destruct r1 as [[]|e].
  - destruct (kpatch_status inc _ w1) as [r2 w2] eqn:E2. intros H.
    assert (w2 = w') as -> by (destruct r2; by injection H).
    assert (Hc2 : forall ns n, get_case ns n w' = get_case ns n w1)
      by (intros; by eapply (frame_patch_status (S := IncidentSpec) (T := IncidentStatus))).
    apply kpatch_status_outcome in E2 as (inc' & [_ Ha Hm He] & Ho); [|done..].
    assert (Hg : get_incident (obj_namespace inc) (obj_name inc) w' = Ok inc').
    { unfold is_stored, obj_namespace, obj_name in *. by rewrite Hm in Ha. }
    split_and!.
    + intros ns n. rewrite Hc2. apply Hc1.
    + intros ns n Hne. rewrite He, Hi1; done.
    + rewrite Hg. destruct r2; [destruct Ho as [_ ->]; by right|subst; by left].
    + intros ->. destruct r2; [|done]. destruct Ho as [_ ->]. split; [exact Hg|].
      intros n pc Hn. rewrite Hc2. by apply Hr1.
  - intros [= <- <-]. split_and!; [done|by intros ns n _|left; by rewrite Hi1|done].
Qed.

Definition automatic_match (rule : KubechanExclusionRule) (inc : Incident) : Prop :=
  int_State (status inc) <> IncidentStateResolved /\ ins_Source (spec inc) <> "manual" /\ incidentMatchesRule inc rule = true.
Lemma suppressible_true rule inc : suppressible rule inc = true <-> automatic_match rule inc.
Proof. unfold suppressible, automatic_match. repeat case_decide; split; (done || by intros (? & ? & ?)). Qed.
Definition member_of_suppressible (rule : KubechanExclusionRule) (w : W) (ns n : string) : Prop :=
  exists inc : Incident, is_stored inc w /\ automatic_match rule inc /\ obj_namespace inc = ns /\
    n ∈ ins_ProblemCases (spec inc).

Lemma resolveMatching_effect now rule items w n w' :
  Forall (fun inc => is_stored inc w) items -> NoDup (obj_key <$> items) ->
  resolveMatching now rule items w = (n, w') ->
  cases_resolved (fun ns' n' => exists inc, inc ∈ items /\ suppressible rule inc = true /\ obj_namespace inc = ns' /\
                               n' ∈ ins_ProblemCases (spec inc)) w w' /\
  (forall ns n, get_incident ns n w' = get_incident ns n w \/
     exists inc t, inc ∈ items /\ suppressible rule inc = true /\ obj_key inc = (ns, n) /\
       get_incident ns n w' = Ok (set_incident_resolved t inc)).
Proof using All.
  revert w n. induction items as [|inc items IH]; simpl; intros w n Hall Hnd.
  { intros [= <- <-]. split; [by left|by left]. }
  apply Forall_cons in Hall as [Hs Hall]. apply NoDup_cons in Hnd as [Hni Hnd].
  destruct (suppressible rule inc) eqn:Esup.
  - destruct (resolveIncident _ inc w) as [r w1] eqn:E1.
    destruct (resolveMatching now rule items w1) as [n2 w2] eqn:E2. intros [= _ <-].
    apply resolveIncident_effect in E1 as (Hc1 & He1 & Hi1 & _); [|done].
    apply IH in E2 as (Hc2 & Hi2); [| |done].
    + split.
      * eapply cases_resolved_trans; [eapply cases_resolved_mono, Hc1|eapply cases_resolved_mono, Hc2].
        -- intros ns n' [-> Hin]. exists inc. split_and!; [by left|done..].
        -- intros ns n' (inc' & Hin & H). exists inc'. split; [by right|done].
      * intros ns m. destruct (decide ((ns, m) = obj_key inc)) as [Ek|Ek].
        -- destruct (Hi2 ns m) as [E|(inc' & t & Hin & _ & Hk & _)].
           ++ injection Ek as -> ->. rewrite E. destruct Hi1 as [E1|E1]; [left; by rewrite E1, Hs|].
              right. exists inc. eexists. split_and!; [by left|done|done|exact E1].
           ++ destruct Hni. rewrite <- Ek, <- Hk. by apply list_elem_of_fmap_2.
        -- destruct (Hi2 ns m) as [E|(inc' & t & Hin & H)]; [left; rewrite E; by apply He1|].
           right. exists inc', t. split; [by right|done].
    + apply Forall_forall. intros inc' Hin. rewrite Forall_forall in Hall. unfold is_stored. rewrite He1; [by apply Hall|].
      intros Hk. apply Hni. change (obj_key inc' = obj_key inc) in Hk. rewrite <- Hk. by apply list_elem_of_fmap_2.
  - intros E2. apply IH in E2 as (Hc2 & Hi2); [|done..]. split.
    + eapply cases_resolved_mono, Hc2. intros ns n' (inc' & Hin & H). exists inc'. split; [by right|done].
    + intros ns m. destruct (Hi2 ns m) as [E|(inc' & t & Hin & H)]; [by left|].
      right. exists inc', t. split; [by right|done].
Qed.

(** When no write fails, every step of the loop succeeds. *)
Section success.
Context (Hpc : patches_succeed (W := W) (S := ProblemCaseSpec) (T := ProblemCaseStatus))
  (Hinc : patches_succeed (W := W) (S := IncidentSpec) (T := IncidentStatus)).

Lemma resolveMembers_succeed now ns names w : (for_each (resolveMember now ns) names w).1 = Ok tt.
Proof using All.
  revert w. induction names as [|n names IH]; intros w; [done|]. simpl. unfold mbind, eff_bind.
  assert (Hm : (resolveMember now ns n w).1 = Ok tt).
  { unfold resolveMember. destruct (get_case ns n w) as [pc|] eqn:Eg; [|done]. case_decide; [done|].
    destruct (kget_is_stored _ _ _ _ Eg) as (Hs & _).
    destruct (Hpc pc (set_resolved now pc) w Hs eq_refl) as [x Hx].
    unfold mbind, eff_bind. destruct (kpatch_status pc _ w) as [[]]; done. }
  destruct (resolveMember now ns n w) as [r1 w1]. simpl in Hm. by subst r1.
Qed.
Lemma resolveIncident_succeeds now (inc : Incident) w : is_stored inc w -> (resolveIncident now inc w).1 = Ok tt.
Proof using All.
  intros Hs. unfold resolveIncident, mbind, eff_bind.
  pose proof (resolveMembers_succeed now (obj_namespace inc) (ins_ProblemCases (spec inc)) w) as Hm.
  destruct (for_each _ _ w) as [r1 w1] eqn:E1. simpl in Hm. subst r1.
  apply resolveMembers_effect in E1 as (_ & Hi1 & _).
  destruct (Hinc inc (set_incident_resolved now inc) w1) as [x Hx]; [unfold is_stored; by rewrite Hi1|done|].
  destruct (kpatch_status inc _ w1) as [[]]; done.
Qed.

Lemma resolveMatching_complete now rule items w n w' inc :
  Forall (fun inc => is_stored inc w) items -> NoDup (obj_key <$> items) ->
  resolveMatching now rule items w = (n, w') -> inc ∈ items -> suppressible rule inc = true ->
  (exists t, get_incident (obj_namespace inc) (obj_name inc) w' = Ok (set_incident_resolved t inc)) /\
  forall m pc, m ∈ ins_ProblemCases (spec inc) -> get_case (obj_namespace inc) m w' = Ok pc ->
    pct_State (status pc) = ProblemCaseStateResolved.
Proof using All.
  revert w n. induction items as [|inc0 items IH]; simpl; intros w n Hall Hnd E Hin Hsup; [by apply elem_of_nil in Hin|].
  apply Forall_cons in Hall as [Hs Hall]. apply NoDup_cons in Hnd as [Hni Hnd].
  destruct (suppressible rule inc0) eqn:Esup.
  2: { apply elem_of_cons in Hin as [->|Hin]; [congruence|]. by eapply IH. }
  pose proof (resolveIncident_succeeds (now (length items)) inc0 w Hs) as Hok.
  destruct (resolveIncident _ inc0 w) as [r w1] eqn:E1. simpl in Hok. subst r.
  destruct (resolveMatching now rule items w1) as [n2 w2] eqn:E2. injection E as _ <-.
  apply resolveIncident_effect in E1 as (_ & He1 & _ & Hr1); [|done]. destruct (Hr1 eq_refl) as [Hi1 Hc1].
  assert (Hall1 : Forall (fun inc => is_stored inc w1) items).
  { apply Forall_forall. intros inc' Hin'. rewrite Forall_forall in Hall. unfold is_stored. rewrite He1; [by apply Hall|].
    intros Hk. apply Hni. change (obj_key inc' = obj_key inc0) in Hk. rewrite <- Hk. by apply list_elem_of_fmap_2. }
  apply elem_of_cons in Hin as [->|Hin]; [|by eapply IH].
  apply resolveMatching_effect in E2 as (Hc2 & Hi2); [|done..]. split.
  - eexists. destruct (Hi2 (obj_namespace inc0) (obj_name inc0)) as [->|(inc' & t & Hin' & _ & Hk & _)]; [exact Hi1|].
    destruct Hni. change (obj_key inc' = obj_key inc0) in Hk. rewrite <- Hk. by apply list_elem_of_fmap_2.
  - intros m pc Hm Hg. destruct (Hc2 (obj_namespace inc0) m) as [Ec|(_ & pc2 & t & _ & Ec)].
    + rewrite Ec in Hg. by eapply Hc1.
    + rewrite Ec in Hg. by injection Hg as <-.
Qed.
End success.

(** The rule applies at all now: enabled, and inside its window if it has one. *)
Definition rule_applies (rule : KubechanExclusionRule) (now : Time) : Prop :=
  ers_Enabled (spec rule) = true /\
  forall tw, ers_TimeWindow (spec rule) = Some tw -> (isWindowActive tzdb tw now).1 = true.

#[export] Instance rule_applies_dec rule now : Decision (rule_applies rule now).
Proof.
  unfold rule_applies. destruct (ers_TimeWindow (spec rule)) as [tw|].
  - destruct (decide (ers_Enabled (spec rule) = true /\ (isWindowActive tzdb tw now).1 = true)) as [[? ?]|H].
    + left. split; [done|]. by intros ? [= <-].
    + right. intros [? Hw]. apply H. auto.
  - destruct (decide (ers_Enabled (spec rule) = true)); [left|right]; naive_solver.
Defined.

Lemma Reconcile_loop req t_window t_inc t_last rule w :
  kget (req_Namespace req) (req_Name req) w = Ok rule ->
  let w' := (Reconcile tzdb controlNamespace req t_window t_inc t_last w).2 in
  (~ rule_applies rule t_window -> w' = w) /\
  (rule_applies rule t_window ->
   match klist (S := IncidentSpec) (T := IncidentStatus) controlNamespace ∅ w with
   | Err _ => w' = w
   | Ok items =>
       (forall ns n, get_case ns n w' = get_case ns n (resolveMatching t_inc rule items w).2) /\
       (forall ns n, get_incident ns n w' = get_incident ns n (resolveMatching t_inc rule items w).2)
   end).
Proof using All.
  intros Hget. unfold Reconcile, rule_applies. rewrite Hget.
  destruct (ers_Enabled (spec rule)); simpl; [|split; [done|by intros [? _]]].
  assert (Hact : (match ers_TimeWindow (spec rule) with Some tw => isWindowActive tzdb tw t_window | None => (true, 0%Z) end).1 = true
    <-> forall tw, ers_TimeWindow (spec rule) = Some tw -> (isWindowActive tzdb tw t_window).1 = true).
  { destruct (ers_TimeWindow (spec rule)) as [tw|]; [|done]. split; [by intros H ? [= <-]|auto]. }
  destruct (match ers_TimeWindow (spec rule) with Some _ => _ | None => _ end) as [active requeueIn].
  simpl in Hact. destruct active; simpl; [|split; [done|intros [_ H]; by apply Hact in H]].
  split; [intros []; split; [done|by apply Hact]|]. intros _.
  destruct (klist controlNamespace ∅ w) as [items|]; [|done].
  destruct (resolveMatching t_inc rule items w) as [n w1]. simpl. case_decide; simpl; [|done].
  destruct (kpatch_status rule _ w1) as [r2 w2] eqn:Ep. simpl.
  split; intros; by eapply (frame_patch_status (S := ExclusionRuleSpec) (T := ExclusionRuleStatus)).
Qed.


End effects.

(** ** The two readings of a time window *)

(** A period written "HH:MM" - "HH:MM" that ends no earlier than it starts. *)
Definition day_period (p : ExclusionPeriod) : Prop :=
  exists h1 m1 h2 m2, (0 <= h1 < 24 /\ 0 <= m1 < 60 /\ 0 <= h2 < 25 /\ 0 <= m2 < 60)%Z /\
    (60 * h1 + m1 <= 60 * h2 + m2)%Z /\
    per_Start p = two_digits h1 +:+ ":" +:+ two_digits m1 /\ per_End p = two_digits h2 +:+ ":" +:+ two_digits m2.

Lemma parseHHMM_two_digits h m :
  (0 <= h < 100)%Z -> (0 <= m < 100)%Z -> parseHHMM (two_digits h +:+ ":" +:+ two_digits m) = (h, m).
Proof.
  intros Hh Hm.
  assert (Hd : forall d, (0 <= d < 10)%Z -> byte_digit (byte_of (48 + d)) = d).
  { intros d Hd. unfold byte_digit, byte_val, byte_of. rewrite Ascii.N_ascii_embedding by lia.
    rewrite Z2N.id by lia. rewrite Z.mod_small; lia. }
  assert (Hv : forall z, (0 <= z < 100)%Z -> (byte_digit (byte_of (48 + z / 10)) * 10 + byte_digit (byte_of (48 + z mod 10)))%Z = z).
  { intros z Hz. pose proof (Z.div_mod z 10 ltac:(lia)). pose proof (Z.mod_pos_bound z 10 ltac:(lia)).
    rewrite !Hd by lia. lia. }
  simpl. by rewrite !Hv.
Qed.
Lemma hhmm_two_digits h m :
  (0 <= h < 100)%Z -> (0 <= m < 100)%Z -> hhmm (two_digits h +:+ ":" +:+ two_digits m) = Some (60 * h + m)%Z.
Proof.
  intros Hh Hm. unfold hhmm. change (":" +:+ two_digits m) with (String ":"%char (two_digits m)).
  rewrite two_digits_cut; [|done|by right; vm_compute].
  rewrite !two_digits_scan by done. simpl. f_equal.
  rewrite (wrap64_id (h * 60)) by (unfold int64_range; lia). rewrite wrap64_id by (unfold int64_range; lia). lia.
Qed.

(** On a fixed offset [c], the instant of a time of today is where the local
    clock shows it. *)
Lemma time_Date_fixed c now h m :
  let t := time_Date (fun _ => c) (local_days (fun _ => c) now) h m in
  ((t <= now)%Z <-> (60 * h + m <= day_minutes (fun _ => c) now)%Z) /\
  ((now < t)%Z <-> (day_minutes (fun _ => c) now < 60 * h + m)%Z).
Proof.
  intros t. assert (Ht : t = ((local_days (fun _ => c) now * 86400 + h * 3600 + m * 60 - c) * Second)%Z).
  { unfold t, time_Date. case_decide as Hc; [|done]. rewrite Hc. f_equal. lia. }
  assert (Hle : (t <= now)%Z <-> (60 * h + m <= day_minutes (fun _ => c) now)%Z); [|lia].
  rewrite Ht. unfold day_minutes, local_days, local_secs.
  set (s := (now / Second + c)%Z). unfold Second in *.
  pose proof (Z.div_mod s 86400 ltac:(lia)) as Hs. pose proof (Z.mod_pos_bound s 86400 ltac:(lia)).
  set (d := (s / 86400)%Z) in *. set (x := (s mod 86400)%Z) in *.
  pose proof (Z.div_mod x 60 ltac:(lia)) as Hx. pose proof (Z.mod_pos_bound x 60 ltac:(lia)).
  pose proof (Z.div_mod now 1000000000 ltac:(lia)) as Hn. pose proof (Z.mod_pos_bound now 1000000000 ltac:(lia)).
  set (q := (now / 1000000000)%Z) in *. set (y := (x / 60)%Z) in *. clearbody d x q y.
  assert (s = (q + c)%Z) as Hsq by reflexivity. clearbody s. split; nia.
Qed.

(** The reconciler and the matcher agree on when a rule is in force, for
    every zone of fixed offset and every list of periods that end no earlier than
    they start, at every instant. *)
Theorem time_window_readings_agree tzdb tw c now :
  tzdb (tw_Timezone tw) = Some (fun _ => c) -> Forall day_period (tw_Periods tw) ->
  ((isWindowActive tzdb tw now).1 = true <-> inTimeWindow tzdb tw now = Ok true).
Proof.
  intros Htz Hall. unfold isWindowActive, inTimeWindow. rewrite Htz. simpl.
  set (day := day_name (fun _ => c) now).
  assert (Hp : forall p, p ∈ tw_Periods tw ->
    existsb (fun d => if decide (d <> day) then false else
      let '(start, end_) := period_window (fun _ => c) now p in
      negb (bool_decide (now < start)%Z) && bool_decide (now < end_)%Z) (per_Days p) = true <->
    periodActive day (clock_hour (fun _ => c) now * 60 + clock_minute (fun _ => c) now) p = true).
  { intros p Hin. rewrite Forall_forall in Hall. destruct (Hall p Hin) as (h1 & m1 & h2 & m2 & Hr & Hle & Es & Ee).
    rewrite clock_minutes, periodActive_true, List.existsb_exists, Es, Ee, !hhmm_two_digits by lia.
    unfold period_window, parseDayTime. rewrite Es, Ee, !parseHHMM_two_digits by lia.
    destruct (time_Date_fixed c now h1 m1) as [Hs1 _]. destruct (time_Date_fixed c now h2 m2) as [_ He2].
    set (ts := time_Date _ _ h1 m1) in *. set (te := time_Date _ _ h2 m2) in *.
    assert (Hord : ~ (te < ts)%Z).
    { assert (Htt : forall h m, time_Date (fun _ => c) (local_days (fun _ => c) now) h m =
        ((local_days (fun _ => c) now * 86400 + h * 3600 + m * 60 - c) * Second)%Z).
      { intros h m. unfold time_Date. case_decide as Hc; [|done]. rewrite Hc. f_equal. lia. }
      unfold ts, te. rewrite !Htt. unfold Second. lia. }
    rewrite (decide_False (P := (te < ts)%Z)) by done.
    transitivity (day ∈ per_Days p /\ (60 * h1 + m1 <= day_minutes (fun _ => c) now < 60 * h2 + m2)%Z).
    - rewrite <- Hs1, <- He2. split.
      + intros (d & Hd%list_elem_of_In & Hx). case_decide as Hne; [done|].
        assert (d = day) as -> by (destruct (decide (d = day)); [done|by destruct Hne]).
        apply andb_true_iff in Hx as [H1%negb_true_iff%bool_decide_eq_false H2%bool_decide_eq_true].
        split; [done|]. lia.
      + intros (Hd & H1 & H2). exists day. split; [by apply list_elem_of_In|].
        rewrite decide_False by (intros Hx; by apply Hx). apply andb_true_iff.
        split; [apply negb_true_iff, bool_decide_eq_false; lia|by apply bool_decide_eq_true].
    - split.
      + intros [Hd Hm]. split; [done|]. eexists _, _. split_and!; [done..|]. unfold in_period. by rewrite decide_True.
      + intros (Hd & s & e & [= <-] & [= <-] & Hip). split; [done|]. unfold in_period in Hip.
        by rewrite decide_True in Hip. }
  assert (Hex : forall f g (l : list ExclusionPeriod), (forall p, p ∈ l -> f p = true <-> g p = true) -> existsb f l = true <-> existsb g l = true).
  { intros f g l H. rewrite !List.existsb_exists.
    split; intros (x & Hx & Hf); exists x; (split; [done|]); apply list_elem_of_In in Hx; by apply (H x Hx). }
  transitivity (existsb (periodActive day (clock_hour (fun _ => c) now * 60 + clock_minute (fun _ => c) now))
    (tw_Periods tw) = true); [|split; [by intros -> |by intros [= ->]]].
  rewrite <- (Hex _ _ _ Hp). by destruct (existsb _ (tw_Periods tw)).
Qed.
Definition office_hours : ExclusionTimeWindow :=
  mkExclusionTimeWindow "CET" [mkExclusionPeriod "09:00" "18:30" ["Mon"; "Fri"]].
Definition CET_db : TimeZoneDB := fun s => if decide (s = "CET") then Some (fun _ => 3600%Z) else None.
Theorem time_window_readings_agree_witness :
  (isWindowActive CET_db office_hours (1767312000 * Second + 8 * Hour)%Z).1 = true.
Proof.
  apply (time_window_readings_agree _ _ 3600%Z); [done| |by vm_compute].
  repeat constructor. exists 9%Z, 0%Z, 18%Z, 30%Z. split_and!; (lia || by vm_compute).
Defined.

(** They disagree on a period that spans midnight: on the listed day before
    its end the matcher suppresses while the reconciler does not, and neither
    covers the morning after, which the comment of the reconciler means to handle. *)
Theorem midnight_window_readings_differ :
  let tw := mkExclusionTimeWindow "UTC" [mkExclusionPeriod "22:00" "06:00" ["Fri"]] in
  let friday := (1767312000 * Second)%Z in
  inTimeWindow UTC_only tw (friday + 3 * Hour)%Z = Ok true /\
  (isWindowActive UTC_only tw (friday + 3 * Hour)%Z).1 = false /\
  inTimeWindow UTC_only tw (friday + 23 * Hour)%Z = Ok true /\
  (isWindowActive UTC_only tw (friday + 23 * Hour)%Z).1 = true /\
  inTimeWindow UTC_only tw (friday + 27 * Hour)%Z = Ok false /\
  (isWindowActive UTC_only tw (friday + 27 * Hour)%Z).1 = false.
Proof. by vm_compute. Qed.

(** ** What a rule matches *)

(** A rule resolves an automatic incident in its namespace scope when it names
    targets and one of them matches the root resource (kind up to case, name and
    namespace exactly or left out), when it names none but has a selector, or
    when it has neither but is limited to a namespace: the selector itself and the
    detectors of the rule play no part, so a rule that selects something else
    entirely, for a detector that never fired, resolves the incident. *)
Theorem incident_match_ignores_selector_and_detectors (inc : Incident) (rule : KubechanExclusionRule) :
  let s := spec rule in
  let root := ins_RootResource (spec inc) in
  (incidentMatchesRule inc rule = true <->
     ers_Namespace s ∈ [EmptyString; rr_Namespace root] /\
     ((exists t, t ∈ ers_TargetResources s /\ equal_fold (rr_Kind root) (rr_Kind t) = true /\
         rr_Name t ∈ [EmptyString; rr_Name root] /\ rr_Namespace t ∈ [EmptyString; rr_Namespace root]) \/
      (ers_TargetResources s = [] /\ (ers_Selector s <> None \/ ers_Namespace s <> EmptyString)))) /\
  forall sel1 sel2 dets1 dets2 d e ns refs tw,
    let rule_of sel dets := mkObject (meta rule) (mkExclusionRuleSpec d e ns dets refs (Some sel) tw) (status rule) in
    incidentMatchesRule inc (rule_of sel1 dets1) = incidentMatchesRule inc (rule_of sel2 dets2).
Proof.
  intros s root. split; [|done]. unfold incidentMatchesRule. fold s root.
  pose proof (resourceRefMatchesAny_true root (ers_TargetResources s)) as Hr.
  case_decide as Hns; [split; [done|intros [H _]; by apply in_scope in H]|].
  apply in_scope in Hns. destruct (ers_TargetResources s) as [|t ts].
  - split; [|intros [_ [(t & ?%elem_of_nil & _)|[_ H]]]; [done|]].
    + intros H. split; [done|]. right. split; [done|].
      destruct (ers_Selector s); [by left|]. case_decide; [done|by right].
    + destruct (ers_Selector s); [done|]. destruct H as [|]; [done|]. by rewrite decide_False.
  - destruct (resourceRefMatchesAny root (t :: ts)); simpl.
    + split; [|done]. intros _. split; [done|]. left. by apply Hr.
    + split; [done|]. intros [_ [H|[? _]]]; [|done]. by apply Hr in H.
Qed.

(** ** A concrete run *)
Definition dev_rule : KubechanExclusionRule :=
  mkObject (new_meta "dev-pods" EmptyString "kubechan" ∅)
    (mkExclusionRuleSpec EmptyString true EmptyString ["PendingTooLong"] []
       (Some (mkExclusionSelector "dev" ["Pod"] ∅)) None) (mkExclusionRuleStatus None 0).
Definition prod_incident : Incident :=
  mkObject (new_meta "incident-prod" EmptyString "kubechan" ∅)
    (mkIncidentSpec (ref_to "prod" "StatefulSet" "db") [obj_name found_case] EmptyString EmptyString [] false)
    (mkIncidentStatus IncidentStateOpen (Some 1%Z) None 1 1 (Some 1%Z)).
Definition rule_cluster : MemCluster :=
  set_Rules {[ obj_key dev_rule := dev_rule ]} (set_Incidents {[ obj_key prod_incident := prod_incident ]} two_reports_cluster).
Definition after_rule : MemCluster :=
  (Reconcile UTC_only "kubechan" (mkRequest "kubechan" "dev-pods") 0 (fun _ => 50%Z) 51 rule_cluster).2.
Lemma dev_rule_applies : rule_applies UTC_only dev_rule 0.
Proof. split; [done|]. by intros ? [=]. Qed.
Lemma mem_patches_succeed {S T} (sget : MemCluster -> gmap (string * string) (Object S T)) sput :
  @patches_succeed MemCluster S T (mem_client sget sput).
Proof.
  intros ob o w Hs%(mem_get_ok sget) _. simpl. unfold mem_patch_status, mem_write, obj_key. rewrite Hs. eauto.
Qed.

