(* ===== verification/Correlation.v ===== *)
(** * Correlation: services/cluster-watcher/controllers/correlation_reconciler.go

    Groups problem cases into incidents by walking the controller
    owner references of the affected resource to its root workload.  [digest16] is the
    hexadecimal text of the first sixteen bytes of a SHA-256 sum.  The walk is
    recursive on what the cluster says, so it takes fuel: [None] is a walk that
    has not ended yet. *)

From stdpp Require Import sorting relations.
From stdpp Require Import prelude gmap strings list.
From S2P Require Import Prelude GoBase Api Client ProblemCases Watchers.

Definition LabelIncident : string := "kubechan.io/incident".
Definition LabelRootResourceKind : string := "kubechan.io/root-resource-kind".
Definition LabelRootResourceName : string := "kubechan.io/root-resource-name".
Definition LabelIncidentFingerprint : string := "kubechan.io/incident-fingerprint".
Definition defaultRecurrenceWindow : Duration := (24 * Hour)%Z.

(** Group, version and kind. *)
Definition kindToGVK (kind : string) : option (string * string * string) :=
  if str_in kind ["Pod"; "Service"] then Some (EmptyString, "v1", kind)
  else if str_in kind ["ReplicaSet"; "Deployment"; "StatefulSet"; "DaemonSet"] then Some ("apps", "v1", kind)
  else if decide (kind = "Job") then Some ("batch", "v1", kind)
  else None.
Definition labelSafe (s : string) : string := if decide (63 < slen s) then stake 63 s else s.
Definition resourceKey (ref : ResourceRef) : string := rr_Namespace ref +:+ "/" +:+ rr_Kind ref +:+ "/" +:+ rr_Name ref.

(** ** The root of a resource *)
Section Roots.
Context {W : Type} `{!MetaReader W} `{!ObjectClient W ServiceSpec ServiceStatus} `{!ObjectClient W () PodStatus}
  `{!ObjectClient W DeploymentSpec DeploymentStatus} `{!ObjectClient W StatefulSetSpec ()}
  `{!ObjectClient W DaemonSetSpec ()}.

(** The first owner reference with [Controller] set. *)
Fixpoint controllerOf (refs : list OwnerReference) : option OwnerReference :=
  match refs with
  | [] => None
  | o :: refs' => if decide (or_Controller o = Some true) then Some o else controllerOf refs'
  end.

(** [selector.Matches(labels.Set(ls))] of [labels.SelectorFromSet]. *)
Definition selectorMatches (sel ls : gmap string string) : bool := bool_decide (sel ⊆ ls).

(** The loop over the selected pods; [rec] is [findRootResource]. *)
Fixpoint podRoots (rec : ResourceRef -> option (res ResourceRef)) (ns : string) (pods : list Pod)
    (candidates : gmap string ResourceRef) : option (res (gmap string ResourceRef)) :=
  match pods with
  | [] => Some (Ok candidates)
  | p :: pods' =>
      match rec (ref_to ns "Pod" (obj_name p)) with
      | None => None
      | Some (Err e) => Some (Err e)
      | Some (Ok root) =>
          podRoots rec ns pods' (if decide (rr_Kind root <> "Pod") then <[resourceKey root := root]> candidates else candidates)
      end
  end.
(** The three loops over workloads whose pod template the selector matches. *)
Definition addWorkloads {S T} (kind ns : string) (templateLabels : Object S T -> gmap string string)
    (sel : gmap string string) (items : list (Object S T)) (candidates : gmap string ResourceRef) : gmap string ResourceRef :=
  foldl (fun m o => if selectorMatches sel (templateLabels o)
                    then let c := ref_to ns kind (obj_name o) in <[resourceKey c := c]> m else m) candidates items.

Definition findServiceRoot (rec : ResourceRef -> option (res ResourceRef)) (ref : ResourceRef) (w : W)
    : option (res ResourceRef) :=
  let ns := rr_Namespace ref in
  match kget (S := ServiceSpec) (T := ServiceStatus) ns (rr_Name ref) w with
  | Err e => Some (if IsNotFound e then Ok ref else Err e)
  | Ok svc =>
      let sel := svs_Selector (spec svc) in
      if decide (sel = ∅ \/ svs_Type (spec svc) = ServiceTypeExternalName) then Some (Ok ref) else
      match klist (S := ()) (T := PodStatus) ns sel w with
      | Err e => Some (Err e)
      | Ok pods =>
          match podRoots rec ns pods ∅ with
          | None => None
          | Some (Err e) => Some (Err e)
          | Some (Ok c0) =>
              match klist (S := DeploymentSpec) (T := DeploymentStatus) ns ∅ w with
              | Err e => Some (Err e)
              | Ok deployments =>
                  let c1 := addWorkloads "Deployment" ns (fun d => des_TemplateLabels (spec d)) sel deployments c0 in
                  match klist (S := StatefulSetSpec) (T := ()) ns ∅ w with
                  | Err e => Some (Err e)
                  | Ok statefulSets =>
                      let c2 := addWorkloads "StatefulSet" ns (fun s => sts_TemplateLabels (spec s)) sel statefulSets c1 in
                      match klist (S := DaemonSetSpec) (T := ()) ns ∅ w with
                      | Err e => Some (Err e)
                      | Ok daemonSets =>
                          let c3 := addWorkloads "DaemonSet" ns (fun d => dss_TemplateLabels (spec d)) sel daemonSets c2 in
                          match map_to_list c3 with
                          | [(_, root)] => Some (Ok root)
                          | _ => Some (Ok ref)
                          end
                      end
                  end
              end
          end
      end
  end.

Fixpoint findRootResource (fuel : nat) (ref : ResourceRef) (w : W) : option (res ResourceRef) :=
  match fuel with
  | O => None
  | S f =>
      if decide (rr_Kind ref = "Service") then findServiceRoot (fun r => findRootResource f r w) ref w else
      match kindToGVK (rr_Kind ref) with
      | None => Some (Ok ref)
      | Some (_, _, kind) =>
          match get_meta kind (rr_Namespace ref) (rr_Name ref) w with
          | Err e => Some (if IsNotFound e then Ok ref else Err e)
          | Ok m =>
              match controllerOf (om_OwnerReferences m) with
              | Some owner => findRootResource f (ref_to (rr_Namespace ref) (or_Kind owner) (or_Name owner)) w
              | None => Some (Ok ref)
              end
          end
      end
  end.
End Roots.

(** ** Incidents *)
Section Incidents.
Context {W : Type} `{!ObjectClient W ProblemCaseSpec ProblemCaseStatus} `{!ObjectClient W IncidentSpec IncidentStatus}
  (digest16 : string -> string) (controlNamespace : string) (RecurrenceWindow : Duration).

Definition incidentFingerprint (root : ResourceRef) : string := digest16 (resourceKey root).
Definition window : Duration := if decide (RecurrenceWindow = 0)%Z then defaultRecurrenceWindow else RecurrenceWindow.

(** The loop of [findReusableIncident]: the first open automatic incident, or the
    resolved ones met. *)
Fixpoint scanIncidents (items resolved : list Incident) : Incident + list Incident :=
  match items with
  | [] => inr resolved
  | inc :: items' =>
      if decide (ins_Source (spec inc) = "manual") then scanIncidents items' resolved
      else if decide (int_State (status inc) <> IncidentStateResolved) then inl inc
      else scanIncidents items' (resolved ++ [inc])
  end.
(** Latest resolution first, never resolved last. *)
Definition resolvedLater (a b : Incident) : bool :=
  match int_ResolvedAt (status a), int_ResolvedAt (status b) with
  | None, _ => false
  | Some _, None => true
  | Some ta, Some tb => bool_decide (tb < ta)%Z
  end.
Definition fingerprintLabels (root : ResourceRef) : gmap string string :=
  {[ LabelIncidentFingerprint := incidentFingerprint root ]}.
Definition findReusableIncident (namespace : string) (root : ResourceRef) (now : Time) (w : W)
    : res (option Incident * bool) :=
  match klist namespace (fingerprintLabels root) w with
  | Err e => Err e
  | Ok items =>
      match scanIncidents items [] with
      | inl inc => Ok (Some inc, false)
      | inr resolved =>
          match sort_slice resolvedLater resolved with
          | inc :: _ =>
              match int_ResolvedAt (status inc) with
              | Some t => if decide (time_sub now t <= window)%Z then Ok (Some inc, true) else Ok (None, false)
              | None => Ok (None, false)
              end
          | [] => Ok (None, false)
          end
      end
  end.

Definition set_reopened (now : Time) (inc : Incident) : Incident :=
  let t := status inc in
  let n := wrap64 (int_OccurrenceCount t + 1) in
  with_status inc (mkIncidentStatus IncidentStateOpen (int_OpenedAt t) None (int_ActiveProblemCases t)
    (if decide (n < 2)%Z then 2%Z else n) (Some now)).
Definition reopenIncident (now : Time) (inc : Incident) : eff W Incident := kpatch_status inc (set_reopened now inc).

(** Not called by the reconciler; the first unresolved incident of a root. *)
Fixpoint firstUnresolvedIncident (items : list Incident) : option Incident :=
  match items with
  | [] => None
  | inc :: items' =>
      if decide (int_State (status inc) <> IncidentStateResolved) then Some inc else firstUnresolvedIncident items'
  end.
Definition rootLabels (root : ResourceRef) : gmap string string :=
  {[ LabelRootResourceKind := to_lower (rr_Kind root); LabelRootResourceName := labelSafe (rr_Name root) ]}.
Definition findOpenIncident (namespace : string) (root : ResourceRef) (w : W) : res (option Incident) :=
  match klist namespace (rootLabels root) w with
  | Err e => Err e
  | Ok items => Ok (firstUnresolvedIncident items)
  end.

(** A recurrence window below one second makes the divisor zero: a run-time panic,
    which ends the reconcile like an error. *)
Definition panicDivide : goerr := ErrOther "runtime error: integer divide by zero".
Definition incidentBucket (now : Time) : option Z :=
  let secs := Z.quot window Second in
  if decide (secs = 0)%Z then None else Some (Z.quot (now / Second) secs).
Definition newIncident (namespace : string) (root : ResourceRef) (bucket : Z) : Incident :=
  let fingerprint := incidentFingerprint root in
  mkObject (new_meta ("incident-" +:+ stake 12 fingerprint +:+ "-" +:+ format_int36 bucket) EmptyString namespace
      (<[LabelIncidentFingerprint := fingerprint]> (rootLabels root)))
    (mkIncidentSpec root [] EmptyString EmptyString [] false) zeroIncidentStatus.
Definition set_incident_opened (now : Time) (inc : Incident) : Incident :=
  let t := status inc in
  with_status inc (mkIncidentStatus IncidentStateOpen (Some now) (int_ResolvedAt t) (int_ActiveProblemCases t) 1 (Some now)).
Definition createIncident (now : Time) (namespace : string) (root : ResourceRef) : eff W Incident :=
  match incidentBucket now with
  | None => throw panicDivide
  | Some bucket =>
      let inc := newIncident namespace root bucket in
      r ← attempt (kcreate inc);
      match r with
      | Ok inc' => kpatch_status inc' (set_incident_opened now inc')
      | Err e =>
          if IsAlreadyExists e then
            r2 ← attempt (reads (kget (obj_namespace inc) (obj_name inc)));
            match r2 with Ok existing => mret existing | Err _ => throw e end
          else throw e
      end
  end.

(** The loops that count the members that are not resolved. *)
Fixpoint countActive (ns : string) (names : list string) (w : W) : res Z :=
  match names with
  | [] => Ok 0%Z
  | name :: names' =>
      match kget (S := ProblemCaseSpec) (T := ProblemCaseStatus) ns name w with
      | Err e => if IsNotFound e then countActive ns names' w else Err e
      | Ok pc =>
          match countActive ns names' w with
          | Ok n => Ok (if decide (pct_State (status pc) <> ProblemCaseStateResolved) then (n + 1)%Z else n)
          | Err e => Err e
          end
      end
  end.

Definition set_members (names : list string) (inc : Incident) : Incident :=
  let s := spec inc in
  with_spec inc (mkIncidentSpec (ins_RootResource s) names (ins_Source s) (ins_UserMessage s) (ins_RelatedResources s)
    (ins_FalsePositive s)).
Definition set_active (n : Z) (inc : Incident) : Incident :=
  let t := status inc in
  with_status inc (mkIncidentStatus (int_State t) (int_OpenedAt t) (int_ResolvedAt t) n (int_OccurrenceCount t)
    (int_LastOccurrenceAt t)).
Definition addProblemCaseToIncident (inc : Incident) (pcName : string) : eff W () :=
  if str_in pcName (ins_ProblemCases (spec inc)) then mret tt else
  inc1 ← kpatch inc (set_members (ins_ProblemCases (spec inc) ++ [pcName]) inc);
  active ← reads (countActive (obj_namespace inc1) (ins_ProblemCases (spec inc1)));
  _ ← kpatch_status inc1 (set_active active inc1);
  mret tt.

Definition set_resolved_if_idle (now : Time) (active : Z) (inc : Incident) : Incident :=
  let t := status inc in
  if decide (active = 0)%Z
  then with_status inc (mkIncidentStatus IncidentStateResolved (int_OpenedAt t) (Some now) active (int_OccurrenceCount t)
         (int_LastOccurrenceAt t))
  else set_active active inc.
Definition maybeResolveIncident (now : Time) (namespace incidentName : string) : eff W () := fun w =>
  match kget (S := IncidentSpec) (T := IncidentStatus) namespace incidentName w with
  | Err e => (if IsNotFound e then Ok tt else Err e, w)
  | Ok inc =>
      if decide (int_State (status inc) = IncidentStateResolved) then (Ok tt, w) else
      if decide (ins_ProblemCases (spec inc) = []) then (Ok tt, w) else
      match countActive namespace (ins_ProblemCases (spec inc)) w with
      | Err e => (Err e, w)
      | Ok active => (_ ← kpatch_status inc (set_resolved_if_idle now active inc); mret tt) w
      end
  end.

(** The clock at the four places [Reconcile] reads it. *)
Record ReconcileTimes := mkReconcileTimes { tm_find : Time; tm_create : Time; tm_reopen : Time; tm_resolve : Time }.

(** From the root of the case's resource on. *)
Definition correlate (ts : ReconcileTimes) (pc : ProblemCase) (root : ResourceRef) : eff W Result :=
  found ← wrap "finding reusable incident" (reads (findReusableIncident controlNamespace root (tm_find ts)));
  incident ← match found with
             | (None, _) => wrap "creating incident" (createIncident (tm_create ts) controlNamespace root)
             | (Some inc, true) => wrap "reopening incident" (reopenIncident (tm_reopen ts) inc)
             | (Some inc, false) => mret inc
             end;
  _ ← wrap "adding ProblemCase to Incident" (addProblemCaseToIncident incident (obj_name pc));
  _ ← wrap "labelling ProblemCase" (kpatch pc (with_label pc LabelIncident (obj_name incident)));
  mret 0%Z.

Context `{!MetaReader W} `{!ObjectClient W ServiceSpec ServiceStatus} `{!ObjectClient W () PodStatus}
  `{!ObjectClient W DeploymentSpec DeploymentStatus} `{!ObjectClient W StatefulSetSpec ()}
  `{!ObjectClient W DaemonSetSpec ()}.

(** [None]: the walk to the root did not end within the fuel. *)
Definition Reconcile (fuel : nat) (ts : ReconcileTimes) (req : Request) (w : W) : option (res Result * W) :=
  match kget (S := ProblemCaseSpec) (T := ProblemCaseStatus) (req_Namespace req) (req_Name req) w with
  | Err e => Some (if IsNotFound e then Ok 0%Z else Err e, w)
  | Ok pc =>
      let incidentName := mget (obj_labels pc) LabelIncident in
      if decide (pct_State (status pc) = ProblemCaseStateResolved) then
        if decide (incidentName = EmptyString) then Some (Ok 0%Z, w)
        else Some ((_ ← maybeResolveIncident (tm_resolve ts) controlNamespace incidentName; mret 0%Z) w)
      else if decide (incidentName <> EmptyString) then Some (Ok 0%Z, w)
      else
        match findRootResource fuel (pcs_AffectedResource (spec pc)) w with
        | None => None
        | Some (Err e) => Some (Err (ErrWrap "finding root resource" e), w)
        | Some (Ok root) => Some (correlate ts pc root w)
        end
  end.
End Incidents.

(** ** The walk to the root ends, unless ownership is cyclic *)
Section RootTheorems.
Context {W : Type} `{!MetaReader W} `{!ObjectClient W ServiceSpec ServiceStatus} `{!ObjectClient W () PodStatus}
  `{!ObjectClient W DeploymentSpec DeploymentStatus} `{!ObjectClient W StatefulSetSpec ()}
  `{!ObjectClient W DaemonSetSpec ()} (w : W).

(** [p] is the resource the walk goes to from [ref]. *)
Definition owner_step (ref p : ResourceRef) : Prop :=
  rr_Kind ref <> "Service" /\ exists gvk m o, kindToGVK (rr_Kind ref) = Some gvk /\
    get_meta gvk.2 (rr_Namespace ref) (rr_Name ref) w = Ok m /\ controllerOf (om_OwnerReferences m) = Some o /\
    p = ref_to (rr_Namespace ref) (or_Kind o) (or_Name o).
(** [p] is a pod the walk looks at to resolve the service [ref]. *)
Definition backing_pod (ref p : ResourceRef) : Prop :=
  rr_Kind ref = "Service" /\ exists svc pods pod,
    kget (S := ServiceSpec) (T := ServiceStatus) (rr_Namespace ref) (rr_Name ref) w = Ok svc /\
    klist (S := ()) (T := PodStatus) (rr_Namespace ref) (svs_Selector (spec svc)) w = Ok pods /\ pod ∈ pods /\
    p = ref_to (rr_Namespace ref) "Pod" (obj_name pod).

Lemma owner_step_eq f ref p : owner_step ref p -> findRootResource (S f) ref w = findRootResource f p w.
Proof.
  intros (Hk & [[g v] k] & m & o & Hg & Hm & Ho & ->). simpl. rewrite decide_False by done.
  rewrite Hg. simpl in Hm. by rewrite Hm, Ho.
Qed.
Lemma owner_step_functional ref p1 p2 : owner_step ref p1 -> owner_step ref p2 -> p1 = p2.
Proof. intros (_ & gvk & m & o & H1 & H2 & H3 & ->) (_ & gvk' & m' & o' & H1' & H2' & H3' & ->). congruence. Qed.

Lemma findServiceRoot_ends (rec : ResourceRef -> option (res ResourceRef)) ref :
  rr_Kind ref = "Service" -> (forall p, backing_pod ref p -> is_Some (rec p)) -> is_Some (findServiceRoot rec ref w).
Proof.
  intros Hk Hrec. unfold findServiceRoot. destruct (kget _ _ w) as [svc|] eqn:Es; [|eauto].
  case_decide; [eauto|]. destruct (klist _ (svs_Selector (spec svc)) w) as [pods|] eqn:Ep; [|eauto].
  assert (Hpr : forall l c, (forall p, p ∈ l -> p ∈ pods) -> is_Some (podRoots rec (rr_Namespace ref) l c)).
  { induction l as [|p l IH]; intros c Hl; simpl; [eauto|].
    destruct (Hrec (ref_to (rr_Namespace ref) "Pod" (obj_name p))) as [x ->].
    { split; [done|]. exists svc, pods, p. split_and!; auto. apply Hl. by left. }
    destruct x; [|eauto]. apply IH. intros p' Hp'. apply Hl. by right. }
  destruct (Hpr pods ∅) as [x ->]; [done|]. destruct x as [c0|]; [|eauto].
  destruct (klist (rr_Namespace ref) ∅ w) as [dl|]; [|eauto].
  destruct (klist (S := StatefulSetSpec) (rr_Namespace ref) ∅ w) as [sl|]; [|eauto].
  destruct (klist (S := DaemonSetSpec) (rr_Namespace ref) ∅ w) as [al|]; [|eauto].
  destruct (map_to_list _) as [|[? ?] [|? ?]]; eauto.
Qed.

(** C35: When some measure of resources goes down along controller owner
    references, and from a service to the pods its selector lists, the walk to the
    root resource ends within that many steps plus one: with a root or with the
    error of a read. *)
Theorem root_walk_terminates (rank : ResourceRef -> nat) ref fuel :
  (forall r p, owner_step r p \/ backing_pod r p -> rank p < rank r) -> rank ref < fuel ->
  is_Some (findRootResource fuel ref w).
Proof.
  intros Hrank. revert ref. induction fuel as [|f IH]; intros ref Hf; [lia|].
  destruct (decide (rr_Kind ref = "Service")) as [Hs|Hs].
  - simpl. rewrite decide_True by done. apply findServiceRoot_ends; [done|]. intros p Hp. apply IH.
    assert (rank p < rank ref) by auto. lia.
  - destruct (kindToGVK (rr_Kind ref)) as [[[g v] k]|] eqn:Ek; [|simpl; rewrite decide_False, Ek by done; eauto].
    destruct (get_meta k (rr_Namespace ref) (rr_Name ref) w) as [m|] eqn:Em;
      [|simpl; rewrite decide_False, Ek, Em by done; eauto].
    destruct (controllerOf (om_OwnerReferences m)) as [o|] eqn:Eo;
      [|simpl; rewrite decide_False, Ek, Em, Eo by done; eauto].
    assert (Hst : owner_step ref (ref_to (rr_Namespace ref) (or_Kind o) (or_Name o))).
    { split; [done|]. by exists (g, v, k), m, o. }
    rewrite (owner_step_eq f _ _ Hst). apply IH. assert (rank (ref_to (rr_Namespace ref) (or_Kind o) (or_Name o)) < rank ref) by auto. lia.
Qed.

Lemma root_walk_result fuel ref root :
  findRootResource fuel ref w = Some (Ok root) ->
  exists top, rtc owner_step ref top /\
    ((rr_Kind top = "Service" /\ exists f, findServiceRoot (fun r => findRootResource f r w) top w = Some (Ok root)) \/
     (root = top /\ forall p, ~ owner_step top p)).
Proof.
  revert ref. induction fuel as [|f IH]; intros ref H; [done|].
  destruct (decide (rr_Kind ref = "Service")) as [Hs|Hs].
  { simpl in H. rewrite decide_True in H by done. exists ref. split; [done|]. left. eauto. }
  destruct (kindToGVK (rr_Kind ref)) as [[[g v] k]|] eqn:Ek.
  2: { simpl in H. rewrite decide_False, Ek in H by done. injection H as <-. exists ref. split; [done|]. right.
       split; [done|]. intros p (_ & gvk & m & o & Hg & _). congruence. }
  destruct (get_meta k (rr_Namespace ref) (rr_Name ref) w) as [m|e] eqn:Em.
  2: { simpl in H. rewrite decide_False, Ek, Em in H by done. destruct (IsNotFound e); [|done]. injection H as <-.
       exists ref. split; [done|]. right. split; [done|]. intros p (_ & gvk & m & o & Hg & Hm & _).
       rewrite Ek in Hg. injection Hg as <-. simpl in Hm. congruence. }
  destruct (controllerOf (om_OwnerReferences m)) as [o|] eqn:Eo.
  - assert (Hst : owner_step ref (ref_to (rr_Namespace ref) (or_Kind o) (or_Name o))).
    { split; [done|]. by exists (g, v, k), m, o. }
    rewrite (owner_step_eq f _ _ Hst) in H. apply IH in H as (top & Hr & H). exists top. split; [|done].
    by eapply rtc_l.
  - simpl in H. rewrite decide_False, Ek, Em, Eo in H by done. injection H as <-. exists ref. split; [done|]. right.
    split; [done|]. intros p (_ & gvk & m' & o & Hg & Hm & Ho & _). rewrite Ek in Hg. injection Hg as <-.
    simpl in Hm. congruence.
Qed.

(** A resource that owns itself through controller references keeps the walk
    going for ever: no amount of fuel ends it, so the reconcile of a problem case
    on it never returns. *)
Theorem ownership_cycle_never_ends ref fuel : tc owner_step ref ref -> findRootResource fuel ref w = None.
Proof.
  revert ref. induction fuel as [|f IH]; intros ref Hc; [done|].
  assert (exists p, owner_step ref p /\ tc owner_step p p) as (p & Hp & Hcp).
  { inversion Hc as [x y Hxy|x y z Hxy Hyz]; subst.
    - exists ref. split; [done|]. by apply tc_once.
    - exists y. split; [done|]. by eapply tc_r. }
  rewrite (owner_step_eq f _ _ Hp). by apply IH.
Qed.
End RootTheorems.

(** ** Reusing, creating and closing incidents *)
Definition automatic (inc : Incident) : Prop := ins_Source (spec inc) <> "manual".
Definition unresolved (inc : Incident) : Prop := int_State (status inc) <> IncidentStateResolved.

Lemma scanIncidents_inl items acc inc : scanIncidents items acc = inl inc -> inc ∈ items /\ automatic inc /\ unresolved inc.
Proof.
  revert acc. induction items as [|x items IH]; intros acc; simpl; [done|]. case_decide; [|case_decide].
  - intros (?&?&?)%IH. split_and!; [by right|done..].
  - intros [= ->]. split_and!; [by left|done..].
  - intros (?&?&?)%IH. split_and!; [by right|done..].
Qed.
Lemma scanIncidents_inr items acc l :
  scanIncidents items acc = inr l ->
  (forall inc, inc ∈ l <-> inc ∈ acc \/ (inc ∈ items /\ automatic inc)) /\
  (forall inc, inc ∈ items -> automatic inc -> ~ unresolved inc).
Proof.
  revert acc. induction items as [|x items IH]; intros acc; simpl.
  { intros [= ->]. split; [|by intros ? ?%elem_of_nil]. intros inc. split; [by left|].
    intros [?|[?%elem_of_nil _]]; done. }
  case_decide as Hm; [|case_decide as Hu; [done|]]; intros [H1 H2]%IH; split.
  - intros inc. rewrite H1, elem_of_cons. unfold automatic. naive_solver.
  - intros inc [->|Hin]%elem_of_cons; [intros Ha; by destruct Ha|by apply H2].
  - intros inc. rewrite H1, elem_of_cons, elem_of_app, list_elem_of_singleton. unfold automatic. naive_solver.
  - intros inc [->|Hin]%elem_of_cons; [intros _ Hx; by apply Hx|by apply H2].
Qed.

(** [a] was resolved no earlier than [b]; an incident without a resolution time
    comes before every other. *)
Definition resolved_no_earlier (a b : Incident) : Prop :=
  match int_ResolvedAt (status a), int_ResolvedAt (status b) with
  | _, None => True
  | Some ta, Some tb => (tb <= ta)%Z
  | None, Some _ => False
  end.
#[export] Instance resolved_no_earlier_trans : Transitive resolved_no_earlier.
Proof.
  intros a b c. unfold resolved_no_earlier.
  destruct (int_ResolvedAt (status a)), (int_ResolvedAt (status b)), (int_ResolvedAt (status c)); intros; try done; lia.
Qed.
Lemma latest_resolved_first l inc rest :
  sort_slice resolvedLater l = inc :: rest -> inc ∈ l /\ forall x, x ∈ l -> resolved_no_earlier inc x.
Proof.
  intros E. assert (Hs : StronglySorted resolved_no_earlier (sort_slice resolvedLater l)).
  { apply sort_slice_sorted; [apply _|..]; intros x y; unfold resolvedLater, resolved_no_earlier;
      destruct (int_ResolvedAt (status x)), (int_ResolvedAt (status y)); try done.
    - intros H%bool_decide_eq_true. lia.
    - intros H%bool_decide_eq_false. lia. }
  rewrite E in Hs. apply StronglySorted_inv in Hs as [_ Hall]. rewrite Forall_forall in Hall.
  assert (Hel : forall x, x ∈ l <-> x ∈ inc :: rest) by (intros x; by rewrite <- E, elem_of_sort_slice).
  split; [apply Hel; by left|]. intros x [->|Hx]%Hel%elem_of_cons; [|by apply Hall].
  unfold resolved_no_earlier. destruct (int_ResolvedAt (status inc)); [lia|done].
Qed.

Section IncidentTheorems.
Context {W : Type} `{!ObjectClient W ProblemCaseSpec ProblemCaseStatus} `{!ObjectClient W IncidentSpec IncidentStatus}
  (digest16 : string -> string) (controlNamespace : string) (RecurrenceWindow : Duration).

(** The incident reused for a root is, among the automatic incidents listed
    with its fingerprint, an unresolved one when there is one; else the one resolved
    last, provided that was no longer ago than the recurrence window; and none only
    when every automatic one is resolved, longer ago than that or at no recorded
    time. Manual incidents are never reused. *)
Theorem reusable_incident_spec namespace root now (w : W) :
  match klist namespace (fingerprintLabels digest16 root) w with
  | Err e => findReusableIncident digest16 RecurrenceWindow namespace root now w = Err e
  | Ok items =>
      exists o reopen, findReusableIncident digest16 RecurrenceWindow namespace root now w = Ok (o, reopen) /\
      match o, reopen with
      | Some inc, false => inc ∈ items /\ automatic inc /\ unresolved inc
      | Some inc, true => inc ∈ items /\ automatic inc /\
          (forall x, x ∈ items -> automatic x -> ~ unresolved x /\ resolved_no_earlier inc x) /\
          exists t, int_ResolvedAt (status inc) = Some t /\ (time_sub now t <= window RecurrenceWindow)%Z
      | None, _ => reopen = false /\ forall x, x ∈ items -> automatic x -> ~ unresolved x /\
          forall t, int_ResolvedAt (status x) = Some t -> (window RecurrenceWindow < time_sub now t)%Z
      end
  end.
Proof.
  unfold findReusableIncident. destruct (klist _ _ w) as [items|e]; [|done].
  destruct (scanIncidents items []) as [inc|l] eqn:Es.
  { apply scanIncidents_inl in Es. by exists (Some inc), false. }
  apply scanIncidents_inr in Es as [Hl Hres].
  assert (Hauto : forall x, x ∈ l <-> x ∈ items /\ automatic x).
  { intros x. rewrite Hl. split; [by intros [?%elem_of_nil|]|by right]. }
  destruct (sort_slice resolvedLater l) as [|inc rest] eqn:Esort.
  { exists None, false. split; [done|]. split; [done|]. intros x Hx Ha.
    assert (x ∈ sort_slice resolvedLater l) as Hn by by apply elem_of_sort_slice, Hauto.
    rewrite Esort in Hn. by apply elem_of_nil in Hn. }
  apply latest_resolved_first in Esort as [Hin Hmax]. apply Hauto in Hin as [Hin Ha].
  destruct (int_ResolvedAt (status inc)) as [t|] eqn:Et; [case_decide as Hw|].
  - exists (Some inc), true. split; [done|]. split_and!; [done|done| |by exists t].
    intros x Hx Hxa. split; [by apply Hres|]. by apply Hmax, Hauto.
  - exists None, false. split; [done|]. split; [done|]. intros x Hx Hxa. split; [by apply Hres|]. intros tx Htx.
    assert (Hr : resolved_no_earlier inc x) by by apply Hmax, Hauto.
    unfold resolved_no_earlier in Hr. rewrite Et, Htx in Hr.
    assert (time_sub now t <= time_sub now tx)%Z by (unfold time_sub; lia). lia.
  - exists None, false. split; [done|]. split; [done|]. intros x Hx Hxa. split; [by apply Hres|]. intros tx Htx.
    assert (Hr : resolved_no_earlier inc x) by by apply Hmax, Hauto.
    unfold resolved_no_earlier in Hr. by rewrite Et, Htx in Hr.
Qed.
End IncidentTheorems.

Section Members.
Context {W : Type} `{!ObjectClient W ProblemCaseSpec ProblemCaseStatus} `{!ObjectClient W IncidentSpec IncidentStatus}.

(** The members that can be read and are not resolved. *)
Definition active_member (ns : string) (w : W) (name : string) : Prop :=
  exists pc, kget (S := ProblemCaseSpec) (T := ProblemCaseStatus) ns name w = Ok pc /\
    pct_State (status pc) <> ProblemCaseStateResolved.
#[export] Instance active_member_dec ns w name : Decision (active_member ns w name).
Proof.
  unfold active_member. destruct (kget (S := ProblemCaseSpec) (T := ProblemCaseStatus) ns name w) as [pc|e].
  - destruct (decide (pct_State (status pc) <> ProblemCaseStateResolved)).
    + left. by exists pc.
    + right. intros (pc' & [= <-] & ?). done.
  - right. by intros (pc' & ? & _).
Defined.
Lemma countActive_spec ns names w n :
  countActive ns names w = Ok n -> n = Z.of_nat (length (filter (active_member ns w) names)).
Proof.
  revert n. induction names as [|name names IH]; simpl; intros n.
  { by intros [= <-]. }
  destruct (kget ns name w) as [pc|e] eqn:Eg.
  - destruct (countActive ns names w) as [m|]; [|done]. specialize (IH _ eq_refl).
    rewrite filter_cons. intros [= <-]. case_decide as Hst.
    + rewrite decide_True by by exists pc. simpl. lia.
    + rewrite decide_False; [done|]. intros (pc' & E & ?). congruence.
  - destruct (IsNotFound e); [|done]. intros H%IH. rewrite filter_cons, decide_False; [done|].
    intros (pc' & E & ?). congruence.
Qed.

Context `{!ObjectClientLaws W IncidentSpec IncidentStatus}
  `{!ClientFrame W IncidentSpec IncidentStatus ProblemCaseSpec ProblemCaseStatus}.

Lemma maybe_resolve_effect now namespace name (inc : Incident) w w' :
  kget namespace name w = Ok inc -> unresolved inc -> ins_ProblemCases (spec inc) <> [] ->
  maybeResolveIncident now namespace name w = (Ok tt, w') ->
  let active := filter (active_member namespace w) (ins_ProblemCases (spec inc)) in
  exists inc' : Incident, rewrites inc inc' w w' /\ spec inc' = spec inc /\
    int_ActiveProblemCases (status inc') = Z.of_nat (length active) /\
    int_OccurrenceCount (status inc') = int_OccurrenceCount (status inc) /\
    (~ unresolved inc' <-> active = []) /\
    (active = [] -> int_ResolvedAt (status inc') = Some now) /\
    forall ns n, kget (S := ProblemCaseSpec) (T := ProblemCaseStatus) ns n w' = kget ns n w.
Proof using All.
  intros Hget Hun Hne. destruct (kget_is_stored _ _ _ _ Hget) as (Hs & _).
  unfold maybeResolveIncident. rewrite Hget. rewrite decide_False by done. rewrite decide_False by done.
  destruct (countActive namespace _ w) as [n|e] eqn:Ec; [|done]. apply countActive_spec in Ec.
  intros (x & w1 & Hp & [= <-])%eff_bind_ok. set (active := filter (active_member namespace w) (ins_ProblemCases (spec inc))) in *.
  assert (Hf : forall ns n, kget (S := ProblemCaseSpec) (T := ProblemCaseStatus) ns n w1 = kget ns n w)
    by (intros; by eapply (frame_patch_status (S := IncidentSpec) (T := IncidentStatus))).
  apply kpatch_status_outcome in Hp as (inc' & Hr & -> & ->); [|done|unfold set_resolved_if_idle; by case_decide].
  eexists. split; [exact Hr|]. subst n.
  assert (Hz : Z.of_nat (length active) = 0%Z <-> active = []) by (destruct active; simpl; [done|split; [lia|done]]).
  unfold set_resolved_if_idle, unresolved in *.
  case_decide as Hd; simpl; split_and!; try done; tauto.
Qed.
(** When a member of an unresolved incident with members is resolved, the
    incident's active count becomes the number of members that still exist and are
    not resolved, and the incident is resolved, stamped with the time, exactly when
    that number is zero; the problem cases and all other incidents are untouched. *)
Theorem maybe_resolve_ok now namespace name (inc : Incident) w w' :
  kget namespace name w = Ok inc -> unresolved inc -> ins_ProblemCases (spec inc) <> [] ->
  maybeResolveIncident now namespace name w = (Ok tt, w') ->
  let active := filter (active_member namespace w) (ins_ProblemCases (spec inc)) in
  exists inc' : Incident, rewrites inc inc' w w' /\ spec inc' = spec inc /\
    int_ActiveProblemCases (status inc') = Z.of_nat (length active) /\
    int_OccurrenceCount (status inc') = int_OccurrenceCount (status inc) /\
    (~ unresolved inc' <-> active = []) /\
    (active = [] -> int_ResolvedAt (status inc') = Some now) /\
    forall ns n, kget (S := ProblemCaseSpec) (T := ProblemCaseStatus) ns n w' = kget ns n w.
Proof using All. apply maybe_resolve_effect. Qed.
End Members.

Section CorrelateTheorems.
Context {W : Type} `{!ObjectClient W ProblemCaseSpec ProblemCaseStatus} `{!ObjectClient W IncidentSpec IncidentStatus}
  (digest16 : string -> string) (controlNamespace : string) (RecurrenceWindow : Duration)
  `{!ObjectClientLaws W IncidentSpec IncidentStatus}
  `{!ClientFrame W IncidentSpec IncidentStatus ProblemCaseSpec ProblemCaseStatus}.

Context `{!ClientFrame W ProblemCaseSpec ProblemCaseStatus IncidentSpec IncidentStatus}
  `{!ObjectClientLaws W ProblemCaseSpec ProblemCaseStatus}.

Definition same_cases (w w' : W) : Prop :=
  forall ns n, kget (S := ProblemCaseSpec) (T := ProblemCaseStatus) ns n w' = kget ns n w.

Lemma frame_inc_patch (b o : Incident) w r w' : kpatch b o w = (r, w') -> same_cases w w'.
Proof using All. intros H ns n. by eapply (frame_patch (S := IncidentSpec) (T := IncidentStatus)). Qed.
Lemma frame_inc_patch_status (b o : Incident) w r w' : kpatch_status b o w = (r, w') -> same_cases w w'.
Proof using All. intros H ns n. by eapply (frame_patch_status (S := IncidentSpec) (T := IncidentStatus)). Qed.
Lemma frame_inc_create (o : Incident) w r w' : kcreate o w = (r, w') -> same_cases w w'.
Proof using All. intros H ns n. by eapply (frame_create (S := IncidentSpec) (T := IncidentStatus)). Qed.

Lemma addProblemCaseToIncident_effect (inc : Incident) name w w' :
  is_stored inc w -> addProblemCaseToIncident inc name w = (Ok tt, w') ->
  same_cases w w' /\
  exists inc', rewrites inc inc' w w' /\ name ∈ ins_ProblemCases (spec inc') /\
    int_State (status inc') = int_State (status inc) /\
    (NoDup (ins_ProblemCases (spec inc)) -> NoDup (ins_ProblemCases (spec inc'))).
Proof using All.
  intros Hs. unfold addProblemCaseToIncident, str_in. case_bool_decide as Hin.
  { intros [= <-]. split; [done|]. exists inc. split_and!; [by apply rewrites_unchanged|done..]. }
  intros (inc1 & w1 & Hp & H)%eff_bind_ok. pose proof (frame_inc_patch _ _ _ _ _ Hp) as Hf1.
  apply kpatch_outcome in Hp as (x & Hr1 & -> & ->); [|done..].
  apply eff_bind_ok in H as (n & w2 & [Hc ->]%reads_ok & (y & w3 & Hp & [= <-])%eff_bind_ok).
  pose proof (frame_inc_patch_status _ _ _ _ _ Hp) as Hf2.
  apply kpatch_status_outcome in Hp as (z & Hr2 & -> & ->); [|apply Hr1|done].
  split; [intros ns m; by rewrite Hf2, Hf1|]. eexists. split_and!; [by eapply rewrites_trans|simpl|done|simpl].
  - apply elem_of_app. right. by apply list_elem_of_singleton.
  - intros Hnd. apply NoDup_app. split_and!; [done| |apply NoDup_singleton].
    by intros ? ? ->%list_elem_of_singleton.
Qed.

Lemma createIncident_effect now ns root w (inc : Incident) w' :
  createIncident digest16 RecurrenceWindow now ns root w = (Ok inc, w') ->
  is_stored inc w' /\ same_cases w w' /\ (ins_ProblemCases (spec inc) = [] \/ is_stored inc w) /\
  (unresolved inc \/ exists bucket, incidentBucket RecurrenceWindow now = Some bucket /\
     kget ns (obj_name (newIncident digest16 ns root bucket)) w = Ok inc) /\ obj_namespace inc = ns.
Proof using All.
  unfold createIncident. destruct (incidentBucket RecurrenceWindow now) as [bucket|]; [|done].
  set (inc0 := newIncident digest16 ns root bucket).
  unfold mbind at 1, eff_bind, attempt. destruct (kcreate inc0 w) as [[inc1|e] w1] eqn:Ec;
    pose proof (frame_inc_create _ _ _ _ Ec) as Hf1.
  - intros Hp. pose proof (frame_inc_patch_status _ _ _ _ _ Hp) as Hf2.
    apply law_create in Ec as (Hns & _ & Hsp & _ & _ & Hst & _).
    apply kpatch_status_outcome in Hp as (x & Hr & -> & ->); [|done..].
    split_and!; [apply Hr|intros ns' n; by rewrite Hf2, Hf1|left; simpl; by rewrite Hsp|by left|exact Hns].
  - assert (Hsame : forall ns' n, kget (S := IncidentSpec) (T := IncidentStatus) ns' n w1 = kget ns' n w).
    { eapply (law_write_error inc0 inc0). by left. }
    destruct (IsAlreadyExists e); [|done]. unfold mbind, eff_bind, reads.
    destruct (kget (obj_namespace inc0) (obj_name inc0) w1) as [x|] eqn:Eg; [|done]. intros [= <- <-].
    destruct (kget_is_stored _ _ _ _ Eg) as (Hs & Hns & _). split_and!; [done|done|right; unfold is_stored; by rewrite <- Hsame| |exact Hns].
    right. exists bucket. split; [done|]. by rewrite <- Hsame.
Qed.

Lemma reopenIncident_effect now (inc inc' : Incident) w w' :
  is_stored inc w -> reopenIncident now inc w = (Ok inc', w') ->
  is_stored inc' w' /\ same_cases w w' /\ unresolved inc' /\ spec inc' = spec inc /\ obj_namespace inc' = obj_namespace inc.
Proof using All.
  intros Hs Hp. pose proof (frame_inc_patch_status _ _ _ _ _ Hp) as Hf.
  apply kpatch_status_outcome in Hp as (x & Hr & -> & ->); [|done..]. split_and!; [apply Hr|done..].
Qed.

(** The incident [correlate] goes on with. *)
Lemma chosen_incident ts root w inc w1 found :
  findReusableIncident digest16 RecurrenceWindow controlNamespace root (tm_find ts) w = Ok found ->
  match found with
  | (None, _) => wrap "creating incident" (createIncident digest16 RecurrenceWindow (tm_create ts) controlNamespace root)
  | (Some inc, true) => wrap "reopening incident" (reopenIncident (tm_reopen ts) inc)
  | (Some inc, false) => mret inc
  end w = (Ok inc, w1) ->
  is_stored inc w1 /\ same_cases w w1 /\
  (ins_ProblemCases (spec inc) = [] \/ exists i : Incident, is_stored i w /\ spec i = spec inc) /\
  (unresolved inc \/ exists bucket, incidentBucket RecurrenceWindow (tm_create ts) = Some bucket /\
     kget controlNamespace (obj_name (newIncident digest16 controlNamespace root bucket)) w = Ok inc) /\
  (controlNamespace <> EmptyString -> obj_namespace inc = controlNamespace).
Proof using All.
  unfold findReusableIncident. destruct (klist _ _ w) as [items|] eqn:El; [|done].
  assert (Hst : forall i, i ∈ items -> is_stored i w).
  { intros i Hi. by destruct (law_list_sound _ _ _ _ _ El Hi). }
  assert (Hhome : forall i, i ∈ items -> controlNamespace <> EmptyString -> obj_namespace i = controlNamespace).
  { intros i Hi Hne. by destruct (law_list_sound _ _ _ _ _ El Hi) as [[[?|?] _] _]. }
  destruct (scanIncidents items []) as [i|l] eqn:Es.
  { apply scanIncidents_inl in Es as (Hin & _ & Hun). intros [= <-] [= <- <-].
    split_and!; [by apply Hst|done|right; exists i; by split; [apply Hst|]|by left|by apply Hhome]. }
  apply scanIncidents_inr in Es as [Hl _].
  assert (Hreuse : forall i, i ∈ l -> wrap "reopening incident" (reopenIncident (tm_reopen ts) i) w = (Ok inc, w1) ->
    is_stored inc w1 /\ same_cases w w1 /\
    (ins_ProblemCases (spec inc) = [] \/ exists i : Incident, is_stored i w /\ spec i = spec inc) /\ unresolved inc /\
    (controlNamespace <> EmptyString -> obj_namespace inc = controlNamespace)).
  { intros i [?%elem_of_nil|[Hi _]]%Hl Hr%wrap_ok; [done|]. apply reopenIncident_effect in Hr as (? & ? & ? & ? & ->); [|by apply Hst].
    split_and!; [done..| |done|by apply Hhome]. right. exists i. split; [by apply Hst|done]. }
  assert (Hcreate : wrap "creating incident" (createIncident digest16 RecurrenceWindow (tm_create ts) controlNamespace root) w = (Ok inc, w1) ->
    is_stored inc w1 /\ same_cases w w1 /\
    (ins_ProblemCases (spec inc) = [] \/ exists i : Incident, is_stored i w /\ spec i = spec inc) /\
    (unresolved inc \/ exists bucket, incidentBucket RecurrenceWindow (tm_create ts) = Some bucket /\
     kget controlNamespace (obj_name (newIncident digest16 controlNamespace root bucket)) w = Ok inc) /\
    (controlNamespace <> EmptyString -> obj_namespace inc = controlNamespace)).
  { intros (? & ? & Hsp & ? & ?)%wrap_ok%createIncident_effect. split_and!; [done..| |done|done].
    destruct Hsp; [by left|right; by exists inc]. }
  destruct (sort_slice resolvedLater l) as [|i rest] eqn:Esort; [by intros [= <-]|].
  apply latest_resolved_first in Esort as [Hin _].
  destruct (int_ResolvedAt (status i)); [case_decide|]; intros [= <-] Hr; [|by apply Hcreate..].
  destruct (Hreuse i Hin Hr) as (?&?&?&?&?). split_and!; auto.
Qed.

Lemma correlate_effect ts (pc : ProblemCase) root r w w' :
  is_stored pc w -> correlate digest16 controlNamespace RecurrenceWindow ts pc root w = (Ok r, w') ->
  same_elsewhere (S := ProblemCaseSpec) (T := ProblemCaseStatus) (obj_key pc) w w' /\
  exists inc : Incident, is_stored inc w' /\
    kget (obj_namespace pc) (obj_name pc) w' = Ok (with_label pc LabelIncident (obj_name inc)) /\
    obj_name pc ∈ ins_ProblemCases (spec inc) /\
    ((forall i : Incident, is_stored i w -> NoDup (ins_ProblemCases (spec i))) -> NoDup (ins_ProblemCases (spec inc))) /\
    (unresolved inc \/ exists bucket i, incidentBucket RecurrenceWindow (tm_create ts) = Some bucket /\
       kget controlNamespace (obj_name (newIncident digest16 controlNamespace root bucket)) w = Ok i /\ ~ unresolved i) /\
    (controlNamespace <> EmptyString -> obj_namespace inc = controlNamespace).
Proof using All.
  intros Hs H. unfold correlate in H. apply eff_bind_ok in H as (found & w0 & [Hf ->]%wrap_ok%reads_ok & H).
  apply eff_bind_ok in H as (inc & w1 & Hc & H).
  apply (chosen_incident _ _ _ _ _ _ Hf) in Hc as (Hst & Hsame1 & Hmem & Hun & Hhome).
  apply eff_bind_ok in H as ([] & w2 & Ha%wrap_ok & (x & w3 & Hp%wrap_ok & [= _ <-])%eff_bind_ok).
  apply addProblemCaseToIncident_effect in Ha as (Hsame2 & inc' & [_ Hst' Hm _] & Hin & Hstate & Hnd); [|done].
  assert (Hs2 : kget (obj_namespace pc) (obj_name pc) w2 = Ok pc) by by rewrite Hsame2, Hsame1.
  assert (Hi3 : forall ns n, kget (S := IncidentSpec) (T := IncidentStatus) ns n w3 = kget ns n w2)
    by (intros; by eapply (frame_patch (S := ProblemCaseSpec) (T := ProblemCaseStatus))).
  assert (Hname : obj_name inc = obj_name inc') by (unfold obj_name; by rewrite Hm).
  apply law_patch in Hp as (-> & Hg & He); [|done..]. split.
  - intros ns n Hne. rewrite He, Hsame2, Hsame1; done.
  - exists inc'. split_and!; [unfold is_stored; by rewrite Hi3|rewrite Hg, Hname; done|done| | |unfold obj_namespace in *; by rewrite Hm].
    + intros Hall. apply Hnd. destruct Hmem as [->|(i & Hi & <-)]; [apply NoDup_nil_2|by apply Hall].
    + unfold unresolved in *. rewrite Hstate.
      destruct (decide (int_State (status inc) = IncidentStateResolved)) as [E|E]; [|by left].
      right. destruct Hun as [Hx|(b & Hb & Hk)]; [by destruct Hx|]. exists b, inc. split_and!; [done|done|]. intros Hx. by apply Hx.
Qed.
End CorrelateTheorems.

(** ** Concrete runs *)
Definition owned_by (kind name : string) : OwnerReference := mkOwnerReference "apps/v1" kind name (Some true).
Definition db_pod : Pod :=
  mkObject (mkObjectMeta "Pod" "db-0" EmptyString "shop" ∅ ∅ 0%Z [owned_by "StatefulSet" "db"]) tt (mkPodStatus PodPending [] []).
Definition db_set : StatefulSet :=
  mkObject (mkObjectMeta "StatefulSet" "db" EmptyString "shop" ∅ ∅ 0%Z []) (mkStatefulSetSpec ∅) tt.
Definition db_cluster : MemCluster :=
  set_Pods {[ obj_key db_pod := db_pod ]} (set_StatefulSets {[ obj_key db_set := db_set ]} empty_cluster).
Definition kind_rank (r : ResourceRef) : nat :=
  if decide (rr_Kind r = "Service") then 2 else if decide (rr_Kind r = "Pod") then 1 else 0.

Lemma db_cluster_ranked r p : owner_step db_cluster r p \/ backing_pod db_cluster r p -> kind_rank p < kind_rank r.
Proof.
  intros [(Hns & [[g v] k] & m & o & Hg & Hm & Ho & ->)|(Hk & svc & pods & pod & Hsvc & _)].
  2: { apply (mem_get_ok mc_Services) in Hsvc. unfold mem_objs in Hsvc.
       apply map_lookup_filter_Some in Hsvc as [Hsvc _].
       change (mc_Services db_cluster) with (∅ : gmap (string * string) Service) in Hsvc. by rewrite lookup_empty in Hsvc. }
  simpl in Hm. unfold meta_of in Hm.
  assert (Hkind : k = rr_Kind r).
  { revert Hg. unfold kindToGVK. repeat (case_match; try by intros [= _ _ <-]). }
  assert (Hcase : m = meta db_pod /\ k = "Pod" \/ m = meta db_set).
  { revert Hm. repeat case_decide; simpl; rewrite ?lookup_empty; try done.
    - destruct ({[_ := _]} !! _) as [x|] eqn:E; [|done]. apply lookup_singleton_Some in E as [_ <-]. intros [= <-]. by left.
    - destruct ({[_ := _]} !! _) as [x|] eqn:E; [|done]. apply lookup_singleton_Some in E as [_ <-]. intros [= <-]. by right. }
  destruct Hcase as [[-> Hp]| ->]; [|done]. simpl in Ho. injection Ho as <-.
  unfold kind_rank. rewrite <- Hkind, Hp. simpl. lia.
Qed.
Theorem root_walk_terminates_witness :
  findRootResource 2 (ref_to "shop" "Pod" "db-0") db_cluster = Some (Ok (ref_to "shop" "StatefulSet" "db")) /\
  is_Some (findRootResource 2 (ref_to "shop" "Pod" "db-0") db_cluster).
Proof.
  split; [vm_refl|]. apply (root_walk_terminates db_cluster kind_rank); [apply db_cluster_ranked|by vm_compute; lia].
Defined.

Definition self_owned : StatefulSet :=
  mkObject (mkObjectMeta "StatefulSet" "db" EmptyString "shop" ∅ ∅ 0%Z [owned_by "StatefulSet" "db"]) (mkStatefulSetSpec ∅) tt.
Definition cyclic_cluster : MemCluster := set_StatefulSets {[ obj_key self_owned := self_owned ]} empty_cluster.
Theorem ownership_cycle_never_ends_witness :
  findRootResource 1000 (ref_to "shop" "StatefulSet" "db") cyclic_cluster = None.
Proof.
  apply ownership_cycle_never_ends, tc_once. split; [done|].
  exists ("apps", "v1", "StatefulSet"), (meta self_owned), (owned_by "StatefulSet" "db"). split_and!; vm_refl.
Defined.

Definition member_incident : Incident :=
  mkObject (new_meta "incident-db" EmptyString "kubechan" ∅)
    (mkIncidentSpec (ref_to "shop" "StatefulSet" "db") [obj_name found_case; "gone"] EmptyString EmptyString [] false)
    (mkIncidentStatus IncidentStateOpen (Some 1%Z) None 2 1 (Some 1%Z)).
Definition incident_cluster : MemCluster :=
  set_Incidents {[ obj_key member_incident := member_incident ]} two_reports_cluster.
Theorem maybe_resolve_ok_witness :
  exists (inc' : Incident) w', maybeResolveIncident 70%Z "kubechan" "incident-db" incident_cluster = (Ok tt, w') /\
    is_stored inc' w' /\ spec inc' = spec member_incident.
Proof.
  destruct (maybeResolveIncident 70%Z "kubechan" "incident-db" incident_cluster) as [r w'] eqn:E.
  assert (Hr : (maybeResolveIncident 70%Z "kubechan" "incident-db" incident_cluster).1 = Ok tt) by vm_refl.
  rewrite E in Hr. simpl in Hr. subst r.
  destruct (maybe_resolve_ok 70%Z "kubechan" "incident-db" member_incident incident_cluster w') as (inc' & Hrw & Hsp & _);
    [vm_refl|done|done|exact E|].
  exists inc', w'. split_and!; [done|apply Hrw|done].
Defined.

Definition times : ReconcileTimes := mkReconcileTimes (100 * Second) (100 * Second) (100 * Second) (100 * Second).
