(* ===== verification/Patches.v ===== *)
(** * The base of a patch (controllers/correlation_reconciler.go, over shared memory)

    Every patch of the services is the difference between a deep copy taken before
    and the object changed afterwards, and both live in one memory: labels are a map
    that is written in place, [append] may write into the array it was given.  Two
    such sequences, statement by statement, and what the patch is computed from: the
    object as it was and the object that [Correlation] passes to [kpatch]. *)

From stdpp Require Import sorting.
From stdpp Require Import prelude gmap strings list fin_maps.
From S2P Require Import Prelude GoBase Heap Api DeepCopy DeepCopyProofs Client Exclusion ProblemCases Correlation.

Section labels.
Context {S T S' T' : Type} {VS : ViewOf S S'} {VT : ViewOf T T'}.
Definition labels_of (x : goObject S T) : MapRef := gom_Labels (gob_ObjectMeta x).
(** [x.Labels = r] *)
Definition set_labels (r : MapRef) (x : goObject S T) : goObject S T :=
  let m := gob_ObjectMeta x in
  mkGoObject (gob_TypeMeta x)
    (mkGoObjectMeta (gom_Name m) (gom_GenerateName m) (gom_Namespace m) r (gom_Annotations m) (gom_CreationTimestamp m)
      (gom_OwnerReferences m)) (gob_Spec x) (gob_Status x).
Definition with_labels (ls : gmap string string) (o : Object S' T') : Object S' T' :=
  let m := meta o in
  mkObject (mkObjectMeta (om_Kind m) (om_Name m) (om_GenerateName m) (om_Namespace m) ls (om_Annotations m)
    (om_CreationTimestamp m) (om_OwnerReferences m)) (spec o) (status o).

Lemma set_labels_same (x : goObject S T) : set_labels (labels_of x) x = x.
Proof using Type. by destruct x as [? []]. Qed.
Lemma view_labels (h : heap) x (o : Object S' T') : view h x = Some o -> view h (labels_of x) = Some (obj_labels o).
Proof using Type.
  change (view h x) with (view_object h x). unfold view_object. intros (m & Hm & (s & _ & (t & _ & [= <-])%bind_Some)%bind_Some)%bind_Some.
  change (view_ObjectMeta h (gob_ObjectMeta x) = Some m) in Hm. unfold view_ObjectMeta in Hm.
  by apply bind_Some in Hm as (ls & Hls & (an & _ & (ow & _ & [= <-])%bind_Some)%bind_Some).
Qed.
(** A struct with other labels reads as the object with other labels. *)
Lemma view_set_labels (h : heap) x (o : Object S' T') r0 r ls :
  view h (set_labels r0 x) = Some o -> view h r = Some ls -> view h (set_labels r x) = Some (with_labels ls o).
Proof using Type.
  change (view_object h (set_labels r0 x) = Some o -> view h r = Some ls -> view_object h (set_labels r x) = Some (with_labels ls o)).
  unfold view_object. cbn [gob_ObjectMeta gob_Spec gob_Status set_labels gob_TypeMeta].
  intros (m & Hm & (s & -> & (t & -> & [= <-])%bind_Some)%bind_Some)%bind_Some Hr.
  match type of Hm with view h ?x = _ => change (view_ObjectMeta h x = Some m) in Hm end.
  match goal with |- (view h ?x ≫= _) = _ => change (view h x) with (view_ObjectMeta h x) end.
  unfold view_ObjectMeta in *. cbn [gom_Labels gom_Annotations gom_OwnerReferences gom_Name gom_GenerateName gom_Namespace
    gom_CreationTimestamp] in *.
  apply bind_Some in Hm as (l0 & _ & (an & -> & (ow & -> & [= <-])%bind_Some)%bind_Some). rewrite Hr. done.
Qed.
End labels.

Section sequences.
Context {AM : ApiMachinery}.
(** [patch := client.MergeFrom(pc.DeepCopy())], the test for nil labels, the write. *)
Definition label_with (copy : Ptr goProblemCase -> goM (Ptr goProblemCase)) (p : Ptr goProblemCase) (name : string)
    : goM (Ptr goProblemCase) :=
  base ← copy p;
  pc ← load p;
  _ ← match labels_of pc with
      | None => labels ← make_map; store p (set_labels labels pc)
      | Some _ => mret tt
      end;
  pc ← load p;
  _ ← set_key (labels_of pc) LabelIncident name;
  mret base.
Definition label_incident : Ptr goProblemCase -> string -> goM (Ptr goProblemCase) := label_with ProblemCase_DeepCopy.
(** [specPatch := client.MergeFrom(inc.DeepCopy())] and the append. *)
Definition set_cases (s : Slice string) (x : goIncident) : goIncident :=
  let i := gob_Spec x in
  mkGoObject (gob_TypeMeta x) (gob_ObjectMeta x)
    (mkGoIncidentSpec (gins_RootResource i) s (gins_Source i) (gins_UserMessage i) (gins_RelatedResources i)
      (gins_FalsePositive i)) (gob_Status x).
Definition append_case (grow : nat -> nat) (p : Ptr goIncident) (pcName : string) : goM (Ptr goIncident) :=
  base ← Incident_DeepCopy p;
  inc ← load p;
  cases ← append grow (gins_ProblemCases (gob_Spec inc)) pcName;
  inc ← load p;
  _ ← store p (set_cases cases inc);
  mret base.
End sequences.

(** ** Objects as a decoder leaves them: nothing is shared *)

(** The struct behind [p], the array it is in, and that what it refers to lies
    elsewhere. *)
Definition stored_at {T A} {GT : Stored T} {VT : ViewOf T A} (h : heap) (p : Ptr T) (b : positive) (i : nat) (l : list T)
    (x : T) (o : A) : Prop :=
  p = Some (b, i) /\ array h b = Some l /\ l !! i = Some x /\ view (delete b h) x = Some o.
(** Nothing else in the object reads the map of its labels. *)
Definition owns_labels {S T S' T'} {VS : ViewOf S S'} {VT : ViewOf T T'} (h : heap) (x : goObject S T) : Prop :=
  match labels_of x with None => True | Some a => is_Some (view (delete a h) (set_labels None x)) end.
(** Nothing else in the incident reads the array of its cases. *)
Definition owns_cases (h : heap) (x : goIncident) : Prop :=
  match gins_ProblemCases (gob_Spec x) with
  | None => True
  | Some s => is_Some (view (delete (sl_array s) h) (set_cases None x))
  end.

Lemma array_delete {T} {GT : Stored T} (h : heap) a b (l : list T) :
  array (delete b h) a = Some l -> a <> b /\ array h a = Some l.
Proof.
  unfold array. rewrite lookup_delete. case_decide as Hab; [done|]. intros Ha. split; [congruence|exact Ha].
Qed.
Lemma view_at {T A} {GT : Stored T} {VT : ViewOf T A} (h : heap) b i (l : list T) x (a : A) :
  array h b = Some l -> l !! i = Some x -> view h x = Some a -> view h (Some (b, i) : Ptr T) = Some (Some a).
Proof. intros Hl Hi Hv. cbn. rewrite Hl. cbn. rewrite Hi. cbn. by rewrite Hv. Qed.
Lemma stored_view {T A} {GT : Stored T} {VT : ViewOf T A} (h : heap) p b i l x (o : A) :
  stored_at h p b i l x o -> view h p = Some (Some o).
Proof.
  intros (-> & Hl & Hi & Hv). apply (view_at _ _ _ _ _ _ Hl Hi). eapply view_mono; [apply delete_subseteq|exact Hv].
Qed.

(** What a sequence sees of the memory after [DeepCopy]: the old memory and a base
    that no write outside the new cells changes. *)
Lemma base_taken {T A} {GT : Stored T} {VT : ViewOf T A} (copy : Ptr T -> goM (Ptr T)) h p b i l x (o : A) :
  independent_copy copy -> stored_at h p b i l x o ->
  exists base h1, copy p h = Some (base, h1) /\ h ⊆ h1 /\ h1 ∖ h ⊆ h1 /\ (forall a, is_Some (h !! a) -> (h1 ∖ h) !! a = None) /\
    (forall later, h1 ∖ h ⊆ later -> view later base = Some (Some o)) /\ stored_at h1 p b i l x o.
Proof.
  intros [_ Hcopy] Hst. destruct (Hcopy h p o (stored_view _ _ _ _ _ _ _ Hst)) as (base & h1 & Hrun & Hs & _ & Hbase & _).
  exists base, h1. split_and!; [done|done| | |done|].
  - apply map_subseteq_spec. intros a c Hc. by apply lookup_difference_Some in Hc as [? _].
  - intros a [c Hc]. apply lookup_difference_None. right. by eexists.
  - destruct Hst as (-> & Hl & Hi & Hv). split_and!; [done|by eapply array_mono|done|].
    eapply view_mono; [|exact Hv]. by apply delete_mono.
Qed.

Lemma load_stored {T A} {GT : Stored T} {VT : ViewOf T A} (h : heap) p b i l x (o : A) :
  stored_at h p b i l x o -> load p h = Some (x, h).
Proof. intros (-> & Hl & Hi & _). by eapply load_array. Qed.
Lemma outside_write (h h1 h' : heap) a :
  (h1 ∖ h) !! a = None -> (forall j, j <> a -> h' !! j = h1 !! j) -> h1 ∖ h ⊆ h'.
Proof.
  intros Ha Hother. apply map_subseteq_spec. intros j c Hj. rewrite Hother by congruence.
  by apply lookup_difference_Some in Hj as [? _].
Qed.

Section labelling.
Context {AM : ApiMachinery} {AL : ApiMachineryLaws}.
Implicit Types (h : heap) (p : Ptr goProblemCase) (x : goProblemCase) (o : ProblemCase).

Lemma with_label_labels o k v : with_labels (<[k := v]> (obj_labels o)) o = with_label o k v.
Proof using Type. done. Qed.
Lemma case_copy : independent_copy ProblemCase_DeepCopy.
Proof using AL. apply independent_of_deep. exact _. Qed.
Lemma labels_stored h p b i l x o a : stored_at h p b i l x o -> labels_of x = Some a -> is_Some (h !! a).
Proof using Type.
  intros (_ & _ & _ & Hv) Ha. apply view_labels in Hv. rewrite Ha in Hv. cbn in Hv. apply bind_Some in Hv as (lm & Hlm & _).
  apply array_delete in Hlm as [_ Hlm]. exact (array_is_Some _ _ _ Hlm).
Qed.
(** Writing the label into the map an object has. *)
Lemma write_label h p b i l x o a name :
  stored_at h p b i l x o -> labels_of x = Some a -> is_Some (view (delete a h) (set_labels None x)) ->
  exists h', set_key (Some a) LabelIncident name h = Some (tt, h') /\ (forall j, j <> a -> h' !! j = h !! j) /\
    view h' p = Some (Some (with_label o LabelIncident name)).
Proof using Type.
  intros Hst Ha [o' Ho']. pose proof Hst as (-> & Hl & Hi & Hv). pose proof (view_labels _ _ _ Hv) as Hlab. rewrite Ha in Hlab.
  cbn in Hlab. apply bind_Some in Hlab as (lm & Hlm & Hm). apply array_delete in Hlm as [Hab Hlm].
  exists (<[a := box (<[0 := <[LabelIncident := name]> (obj_labels o)]> lm)]> h). split_and!.
  - unfold set_key, mbind, go_bind. rewrite (load_array _ _ _ _ _ Hlm Hm).
    by rewrite (store_new _ _ _ _ _ Hlm) by (by eapply lookup_lt_Some).
  - intros j Hj. by rewrite lookup_insert_ne.
  - set (h' := <[a := _]> h). assert (array h' b = Some l) as Hl' by (unfold array, h'; by rewrite lookup_insert_ne).
    rewrite <- with_label_labels. apply (view_at _ _ _ _ _ _ Hl' Hi).
    assert (view h (set_labels None x) = Some (with_labels ∅ o)) as Hnone.
    { apply (view_set_labels h x o (labels_of x)); [|done]. apply (view_mono (delete b h)); [apply delete_subseteq|].
      rewrite set_labels_same. exact Hv. }
    rewrite (view_mono (delete a h) h _ _ (delete_subseteq _ _) Ho') in Hnone. injection Hnone as ->.
    rewrite <- (set_labels_same x), Ha. apply (view_set_labels h' x (with_labels ∅ o) None).
    + eapply view_mono; [|exact Ho']. unfold h'. apply map_subseteq_spec. intros j c [Hne Hj]%lookup_delete_Some. by rewrite lookup_insert_ne.
    + cbn. unfold h'. rewrite array_insert. cbn. apply list_lookup_insert_eq. by eapply lookup_lt_Some.
Qed.

(** A map for an object without labels. *)
Lemma new_labels h p b i l x o :
  stored_at h p b i l x o -> labels_of x = None ->
  exists a h', h !! a = None /\ (labels ← make_map; store p (set_labels labels x)) h = Some (tt, h') /\
    (forall j, j <> a -> j <> b -> h' !! j = h !! j) /\
    stored_at h' p b i (<[i := set_labels (Some a) x]> l) (set_labels (Some a) x) o /\
    is_Some (view (delete a h') (set_labels None (set_labels (Some a) x))).
Proof using Type.
  intros (-> & Hl & Hi & Hv) Ha. set (a := fresh (dom h)). pose proof (alloc_fresh h : h !! a = None) as Hfresh.
  pose proof (lookup_lt_Some _ _ _ Hi) as Hlt. destruct (array_is_Some _ _ _ Hl) as [cb Hcb]. assert (a <> b) as Hab by congruence.
  assert (h ⊆ <[a := box [∅]]> h) as H2 by by apply insert_subseteq.
  exists a, (<[b := box (<[i := set_labels (Some a) x]> l)]> (<[a := box [∅]]> h)). split_and!.
  - done.
  - unfold make_map, mbind, go_bind, alloc. fold a. cbn [mret go_ret]. by apply store_new; [eapply array_mono|].
  - intros j Hja Hjb. by rewrite !lookup_insert_ne.
  - split_and!; [done|apply array_insert|by apply list_lookup_insert_eq|]. rewrite delete_insert_eq.
    assert (with_labels ∅ o = o) as <-.
    { pose proof (view_labels _ _ _ Hv) as Hn. rewrite Ha in Hn. injection Hn as Hn. destruct o as [[] ? ?]. cbn in *. by rewrite Hn. }
    apply (view_set_labels _ x o (labels_of x)).
    + rewrite set_labels_same. eapply view_mono; [|exact Hv]. by apply delete_mono.
    + cbn. unfold array. by rewrite lookup_delete_ne, lookup_insert_eq by done.
  - exists o. assert (set_labels None (set_labels (Some a) x) = x) as -> by (rewrite <- (set_labels_same x) at 2; by rewrite Ha).
    eapply view_mono; [|exact Hv]. apply map_subseteq_spec. intros j c [Hne Hj]%lookup_delete_Some.
    rewrite lookup_delete_ne by congruence. by rewrite !lookup_insert_ne by congruence.
Qed.

(** C31: The patch that labels a problem case is computed from the case as it was
    and the labelled case, and is the patch [Correlation] sends: the label is
    written into the map of the live object, and the base, a deep copy, does not
    share it. *)
Theorem label_patch_is_exact h p b i l x o name :
  stored_at h p b i l x o -> owns_labels h x ->
  exists base h', label_incident p name h = Some (base, h') /\
    view h' base = Some (Some o) /\ view h' p = Some (Some (with_label o LabelIncident name)).
Proof using AL.
  intros Hst Hown. destruct (base_taken ProblemCase_DeepCopy _ _ _ _ _ _ _ case_copy Hst)
    as (base & h1 & Hrun & Hs & _ & Hnew & Hbase & Hst1). unfold label_incident, label_with.
  unfold mbind at 1, go_bind at 1. rewrite Hrun. unfold mbind at 1, go_bind at 1. rewrite (load_stored _ _ _ _ _ _ _ Hst1).
  unfold owns_labels in Hown. destruct (labels_of x) as [a|] eqn:Ha.
  - destruct (write_label h1 p b i l x o a name Hst1 Ha) as (h' & Hset & Hother & Hp).
    { destruct Hown as [o' Ho']. exists o'. eapply view_mono; [|exact Ho']. by apply delete_mono. }
    exists base, h'. split_and!; [|apply Hbase|exact Hp].
    + unfold mbind at 1, go_bind at 1. cbn [mret go_ret]. unfold mbind at 1, go_bind at 1.
      rewrite (load_stored _ _ _ _ _ _ _ Hst1), Ha. unfold mbind, go_bind. by rewrite Hset.
    + apply (outside_write h h1 h' a); [|done]. apply Hnew. eapply labels_stored; [exact Hst|done].
  - destruct (new_labels h1 p b i l x o Hst1 Ha) as (a & h3 & Ha1 & Hmake & Hother3 & Hst3 & Hown3).
    destruct (write_label h3 p b i _ _ o a name Hst3 eq_refl Hown3) as (h' & Hset & Hother & Hp).
    exists base, h'. split_and!; [|apply Hbase|exact Hp].
    + unfold mbind at 1, go_bind at 1. rewrite Hmake. unfold mbind at 1, go_bind at 1.
      rewrite (load_stored _ _ _ _ _ _ _ Hst3). unfold mbind, go_bind. cbn [labels_of set_labels gob_ObjectMeta gom_Labels].
      by rewrite Hset.
    + destruct Hst as (_ & Hl & _). apply map_subseteq_spec. intros j c Hj.
      pose proof (Hnew b (array_is_Some _ _ _ Hl)) as Hb. pose proof (proj1 (lookup_difference_Some _ _ _ _) Hj) as [Hj1 _].
      rewrite Hother, Hother3 by congruence. done.
Qed.
End labelling.

(** [append] leaves a slice with one more element, and writes at most the array of
    the slice it was given. *)
Lemma append_ok {GT : Stored string} (grow : nat -> nat) (h : heap) (s : Slice string) k v :
  view h s = Some k ->
  exists s' h', append grow s v h = Some (s', h') /\
    (forall j, is_Some (h !! j) -> sl_array <$> s <> Some j -> h' !! j = h !! j) /\
    (forall b, is_Some (h !! b) -> sl_array <$> s <> Some b -> view (delete b h') s' = Some (k ++ [v])).
Proof.
  intros Hv. destruct s as [[c off n cap]|].
  - cbn in Hv. apply bind_Some in Hv as (l & Hl & Hv). case_decide as Hfit; [|done].
    apply (mapM_view_string h) in Hv as ->. unfold append, mbind, go_bind, read_array. cbn [sl_array sl_len sl_off sl_cap].
    rewrite Hl. cbn [mbind option_bind]. case_decide as Hroom.
    + rewrite (store_new _ _ _ _ _ Hl) by lia. eexists _, _. split; [done|]. split.
      { intros j _ Hj. rewrite lookup_insert_ne; [done|]. cbn in Hj. congruence. }
      intros b _ Hb. cbn. unfold array. rewrite lookup_delete_ne, lookup_insert_eq by (cbn in Hb; congruence). cbn. rewrite unbox_box. cbn.
      rewrite decide_True by (rewrite length_insert; lia). apply (mapM_view_string h).
      rewrite drop_insert_ge by lia. replace (off + n - off) with n by lia.
      rewrite (take_S_r _ _ v) by (apply list_lookup_insert_eq; rewrite length_drop; lia).
      by rewrite take_insert_ge by lia.
    + unfold alloc. cbn [mret go_ret]. eexists _, _. split; [done|]. pose proof (alloc_fresh h) as Hfresh. split.
      { intros j [d Hj] _. rewrite lookup_insert_ne; [done|]. congruence. }
      intros b [d Hb] _. set (shown := take n (drop off l)).
      assert (length shown = n) as Hn by (unfold shown; rewrite length_take, length_drop; lia).
      cbn. unfold array. rewrite lookup_delete_ne, lookup_insert_eq by congruence. cbn. rewrite unbox_box. cbn.
      rewrite decide_True by (rewrite length_app; simpl; rewrite length_replicate; lia). apply (mapM_view_string h).
      rewrite drop_0, (take_S_r _ _ v) by (rewrite lookup_app_r, Hn, Nat.sub_diag by lia; done).
      by rewrite take_app_length' by done.
  - injection Hv as <-. unfold append, mbind, go_bind, alloc. cbn [mret go_ret]. eexists _, _. split; [done|].
    pose proof (alloc_fresh h) as Hfresh. split.
    { intros j [d Hj] _. rewrite lookup_insert_ne; [done|]. congruence. }
    intros b [d Hb] _. cbn. unfold array. rewrite lookup_delete_ne, lookup_insert_eq by congruence. cbn. rewrite unbox_box. cbn.
    by rewrite decide_True by (rewrite length_replicate; lia).
Qed.

Section appending.
Context {AM : ApiMachinery} {AL : ApiMachineryLaws} (grow : nat -> nat).
Implicit Types (h : heap) (p : Ptr goIncident) (x : goIncident) (o : Incident).

Lemma incident_copy : independent_copy Incident_DeepCopy.
Proof using AL. apply independent_of_deep. exact _. Qed.
Lemma view_cases h x o : view h x = Some o -> view h (gins_ProblemCases (gob_Spec x)) = Some (ins_ProblemCases (spec o)).
Proof using Type.
  change (view h x) with (view_object h x). unfold view_object. intros (m & _ & (s & Hs & (t & _ & [= <-])%bind_Some)%bind_Some)%bind_Some.
  change (view_IncidentSpec h (gob_Spec x) = Some s) in Hs. unfold view_IncidentSpec in Hs.
  by apply bind_Some in Hs as (r & _ & (c & Hc & (rs & _ & [= <-])%bind_Some)%bind_Some).
Qed.
Lemma view_set_cases h x o r0 r k :
  view h (set_cases r0 x) = Some o -> view h r = Some k -> view h (set_cases r x) = Some (set_members k o).
Proof using Type.
  change (view_object h (set_cases r0 x) = Some o -> view h r = Some k -> view_object h (set_cases r x) = Some (set_members k o)).
  unfold view_object. cbn [gob_ObjectMeta gob_Spec gob_Status set_cases gob_TypeMeta].
  intros (m & -> & (s & Hs & (t & -> & [= <-])%bind_Some)%bind_Some)%bind_Some Hr. cbn [mbind option_bind].
  match type of Hs with view h ?x = _ => change (view_IncidentSpec h x = Some s) in Hs end.
  match goal with |- (view h ?x ≫= _) = _ => change (view h x) with (view_IncidentSpec h x) end.
  unfold view_IncidentSpec in *. cbn [gins_RootResource gins_ProblemCases gins_RelatedResources] in *.
  apply bind_Some in Hs as (rr & -> & (c & _ & (rs & -> & [= <-])%bind_Some)%bind_Some). cbn [mbind option_bind]. by rewrite Hr.
Qed.
Lemma set_cases_same x : set_cases (gins_ProblemCases (gob_Spec x)) x = x.
Proof using Type. by destruct x as [? ? [] ?]. Qed.

Lemma cases_stored h p b i l x o j :
  stored_at h p b i l x o -> sl_array <$> gins_ProblemCases (gob_Spec x) = Some j -> is_Some (h !! j).
Proof using Type.
  intros (_ & _ & _ & Hv) Hj. apply view_cases in Hv. destruct (gins_ProblemCases _) as [s|]; [|done]. injection Hj as <-.
  cbn in Hv. apply bind_Some in Hv as (lc & Hlc & _). apply array_delete in Hlc as [_ Hlc]. exact (array_is_Some _ _ _ Hlc).
Qed.
(** An incident reads without the array of its cases, but for them. *)
Lemma without_cases h x o : view h x = Some o -> owns_cases h x ->
  exists r o', (forall k, set_members k o' = set_members k o) /\
    forall h', (forall j, sl_array <$> gins_ProblemCases (gob_Spec x) <> Some j -> is_Some (h !! j) -> h' !! j = h !! j) ->
    view h' (set_cases r x) = Some o'.
Proof using Type.
  intros Hv Hown. unfold owns_cases in Hown. destruct (gins_ProblemCases (gob_Spec x)) as [s|] eqn:Es.
  - destruct Hown as [o' Ho']. exists None, o'. split.
    + assert (view h (set_cases None x) = Some (set_members [] o)) as Hnone.
      { apply (view_set_cases h x o (gins_ProblemCases (gob_Spec x))); [|done]. by rewrite set_cases_same. }
      pose proof (eq_trans (eq_sym Hnone) (view_mono _ h _ _ (delete_subseteq _ _) Ho')) as [= <-]. done.
    + intros h' Hh'. eapply view_mono; [|exact Ho']. apply map_subseteq_spec. intros j c [Hne Hj]%lookup_delete_Some.
      rewrite Hh'; [done| |by eexists]. cbn. congruence.
  - exists None, o. split; [done|]. intros h' Hh'. rewrite <- Es, set_cases_same. eapply view_mono; [|exact Hv].
    apply map_subseteq_spec. intros j c Hj. by rewrite Hh'.
Qed.

(** The patch that adds a case to an incident is computed from the incident as
    it was and the one with the case at the end of its list, whether [append] writes
    into the array the incident has or into a new one. *)
Theorem append_patch_is_exact h p b i l x o pcName :
  stored_at h p b i l x o -> owns_cases (delete b h) x ->
  exists base h', append_case grow p pcName h = Some (base, h') /\
    view h' base = Some (Some o) /\ view h' p = Some (Some (set_members (ins_ProblemCases (spec o) ++ [pcName]) o)).
Proof using AL.
  intros Hst Hown. destruct (base_taken Incident_DeepCopy _ _ _ _ _ _ _ incident_copy Hst)
    as (base & h1 & Hrun & Hs & _ & Hnew & Hbase & Hst1). unfold append_case.
  unfold mbind at 1, go_bind at 1. rewrite Hrun. unfold mbind at 1, go_bind at 1. rewrite (load_stored _ _ _ _ _ _ _ Hst1).
  pose proof Hst1 as (-> & Hl & Hi & Hv). pose proof (view_cases _ _ _ Hv) as Hc.
  set (s := gins_ProblemCases (gob_Spec x)) in *.
  destruct (append_ok grow h1 s (ins_ProblemCases (spec o)) pcName) as (s' & h2 & Happ & Hother & Hs').
  { eapply view_mono; [|exact Hc]. apply delete_subseteq. }
  assert (sl_array <$> s <> Some b) as Hsb.
  { destruct s as [s|]; [|done]. cbn in Hc |- *. apply bind_Some in Hc as (lc & Hlc & _). apply array_delete in Hlc as [? _]. congruence. }
  assert (array h2 b = Some l) as Hl2 by (unfold array; rewrite Hother; [exact Hl|exact (array_is_Some _ _ _ Hl)|done]).
  set (h3 := <[b := box (<[i := set_cases s' x]> l)]> h2).
  assert (forall j, is_Some (h1 !! j) -> j <> b -> sl_array <$> s <> Some j -> h3 !! j = h1 !! j) as Hkeep.
  { intros j Hj Hjb Hjs. unfold h3. rewrite lookup_insert_ne by done. by apply Hother. }
  exists base, h3. split_and!.
  - unfold mbind at 1, go_bind at 1. fold s. rewrite Happ. unfold mbind at 1, go_bind at 1. rewrite (load_array _ _ _ _ _ Hl2 Hi).
    unfold mbind, go_bind. by rewrite (store_new _ _ _ _ _ Hl2) by (by eapply lookup_lt_Some).
  - apply Hbase, map_subseteq_spec. intros j c Hj. pose proof (proj1 (lookup_difference_Some _ _ _ _) Hj) as [Hj1 Hj0].
    rewrite Hkeep; [done|by eexists| |].
    + intros ->. destruct Hst as (_ & Hlb & _). destruct (array_is_Some _ _ _ Hlb). congruence.
    + intros Hsj. destruct (cases_stored _ _ _ _ _ _ _ _ Hst Hsj). congruence.
  - apply (view_at h3 b i (<[i := set_cases s' x]> l) (set_cases s' x)); [apply array_insert| |].
    { apply list_lookup_insert_eq. by eapply lookup_lt_Some. }
    assert (view h3 s' = Some (ins_ProblemCases (spec o) ++ [pcName])) as Hview.
    { eapply view_mono; [|apply (Hs' b); [exact (array_is_Some _ _ _ Hl)|done]]. apply map_subseteq_spec.
      intros j c [Hjb Hj]%lookup_delete_Some. unfold h3. by rewrite lookup_insert_ne. }
    destruct (without_cases (delete b h) x o) as (r & o' & <- & Hrest); [by destruct Hst as (_ & _ & _ & ?)|done|].
    refine (view_set_cases h3 x o' r s' _ _ Hview). apply Hrest. intros j Hjs [c Hj]. pose proof Hj as [Hjb Hjh]%lookup_delete_Some.
    pose proof (lookup_weaken _ _ _ _ Hjh Hs) as Hj1. rewrite Hkeep by (done || by eexists). congruence.
Qed.
End appending.

(** ** Witnesses: a case with labels, and an incident with room for a second case *)
Definition shared_ref : goResourceRef := mkGoResourceRef "shop" "Pod" "web-1" EmptyString None.
Definition meta_named (name : string) (labels : MapRef) : goObjectMeta :=
  mkGoObjectMeta name EmptyString "kubechan" labels None 0%Z None.
Definition case_struct : goProblemCase :=
  mkGoObject EmptyString (meta_named "crash-1" (Some 2%positive))
    (mkGoProblemCaseSpec shared_ref "CrashLoopBackOff" "high" (Some (mkSlice 3 0 1 1)) None)
    (mkGoProblemCaseStatus "open" (Some (4%positive, 0)) None None EmptyString EmptyString).
Definition incident_struct : goIncident :=
  mkGoObject EmptyString (meta_named "inc-1" None)
    (mkGoIncidentSpec shared_ref (Some (mkSlice 6 0 1 2)) EmptyString EmptyString None false)
    (mkGoIncidentStatus "open" None None 1 1 None).
Definition sample_memory : heap := list_to_map
  [(1%positive, OfProblemCase [case_struct]); (2%positive, OfMap [{["kubechan.io/detector" := "CrashLoopBackOff"]}]);
   (3%positive, OfString ["back-off"]); (4%positive, OfInt [5%Z]); (5%positive, OfIncident [incident_struct]);
   (6%positive, OfString ["crash-0"; EmptyString])].
Definition case_value : ProblemCase :=
  mkObject (mkObjectMeta EmptyString "crash-1" EmptyString "kubechan" {["kubechan.io/detector" := "CrashLoopBackOff"]} ∅ 0 [])
    (mkProblemCaseSpec (ref_to "shop" "Pod" "web-1") "CrashLoopBackOff" "high" ["back-off"] [])
    (mkProblemCaseStatus "open" (Some 5%Z) None None EmptyString EmptyString).
Definition incident_value : Incident :=
  mkObject (mkObjectMeta EmptyString "inc-1" EmptyString "kubechan" ∅ ∅ 0 [])
    (mkIncidentSpec (ref_to "shop" "Pod" "web-1") ["crash-0"] EmptyString EmptyString [] false)
    (mkIncidentStatus "open" None None 1 1 None).
Lemma label_patch_is_exact_witness :
  exists base h', label_incident (AM := plain_machinery) (Some (1%positive, 0)) "inc-1" sample_memory = Some (base, h') /\
    view h' base = Some (Some case_value) /\
    view h' (Some (1%positive, 0) : Ptr goProblemCase) = Some (Some (with_label case_value LabelIncident "inc-1")).
Proof.
  apply (label_patch_is_exact (AM := plain_machinery) (AL := plain_machinery_laws) sample_memory _ 1%positive 0 [case_struct] case_struct).
  - split_and!; vm_compute; reflexivity.
  - vm_compute. by eexists.
Defined.
Lemma append_patch_is_exact_witness :
  exists base h', append_case (AM := plain_machinery) S (Some (5%positive, 0)) "crash-1" sample_memory = Some (base, h') /\
    view h' base = Some (Some incident_value) /\
    view h' (Some (5%positive, 0) : Ptr goIncident) = Some (Some (set_members ["crash-0"; "crash-1"] incident_value)).
Proof.
  apply (append_patch_is_exact (AM := plain_machinery) (AL := plain_machinery_laws) S sample_memory _ 5%positive 0 [incident_struct] incident_struct).
  - split_and!; vm_compute; reflexivity.
  - vm_compute. by eexists.
Defined.
(** With a copy that shares the map, the base has the label as well and the patch
    is empty. *)
Example shallow_base_hides_the_label :
  match label_with (copy_pointer mret) (Some (1%positive, 0)) "inc-1" sample_memory with
  | Some (base, h') => view h' base = Some (Some (with_label case_value LabelIncident "inc-1"))
  | None => False
  end.
Proof. vm_compute. reflexivity. Qed.
