(* ===== verification/ProblemPath.v ===== *)
(** * The path of a problem through cluster-watcher

    The debounced report, the correlation reconciler and the resolver composed: a
    report that nothing suppresses becomes a case, the case becomes a member of an
    incident, and when its symptoms clear the case and, with its last active
    member, the incident are resolved. *)

From Stdlib Require Import Ascii.
From stdpp Require Import sorting.
From stdpp Require Import prelude gmap strings list.
From S2P Require Import Prelude GoBase Api Client Detectors Exclusion ProblemCases Watchers Resolver Correlation.

(** What the two reconcilers are asked for when a case changes. *)
Definition case_request (pc : ProblemCase) : Request := mkRequest (obj_namespace pc) (obj_name pc).

Section path.
Context {W : Type} `{!MetaReader W} `{!ObjectClient W ServiceSpec ServiceStatus} `{!ObjectClient W () PodStatus}
  `{!ObjectClient W DeploymentSpec DeploymentStatus} `{!ObjectClient W StatefulSetSpec ()} `{!ObjectClient W DaemonSetSpec ()}
  `{!ObjectClient W NodeSpec NodeStatus} `{!ObjectClient W ExclusionRuleSpec ExclusionRuleStatus}
  `{!ObjectClient W ProblemCaseSpec ProblemCaseStatus} `{!ObjectClient W IncidentSpec IncidentStatus}.
Context `{!ObjectClientLaws W ProblemCaseSpec ProblemCaseStatus} `{!ObjectClientLaws W IncidentSpec IncidentStatus}
  `{!ClientFrame W IncidentSpec IncidentStatus ProblemCaseSpec ProblemCaseStatus}
  `{!ClientFrame W ProblemCaseSpec ProblemCaseStatus IncidentSpec IncidentStatus}.
Context (digest16 : string -> string) (controlNamespace : string) (RecurrenceWindow : Duration).

(** An open case that belongs to an unresolved incident. *)
Record in_incident (pc : ProblemCase) (inc : Incident) (w : W) : Prop := {
  ii_case : is_stored pc w;
  ii_namespace : obj_namespace pc = controlNamespace;
  ii_open : pct_State (status pc) = ProblemCaseStateOpen;
  ii_label : mget (obj_labels pc) LabelIncident = obj_name inc;
  ii_named : obj_name inc <> EmptyString;
  ii_incident : is_stored inc w;
  ii_home : obj_namespace inc = controlNamespace;
  ii_member : obj_name pc ∈ ins_ProblemCases (spec inc);
  ii_unresolved : unresolved inc;
}.

Lemma run_job_reports tzdb t1 t2 t3 job (w : W) :
  (forall name, IsExcluded tzdb controlNamespace t1 (co_meta (job_Object job)) (job_Detector job) w <> Ok (true, name)) ->
  run_job tzdb controlNamespace t1 t2 t3 job w =
  (CreateOrUpdate t3 controlNamespace (job_Ref job) (job_Severity job) (job_Detector job) (job_Symptoms job) w).2.
Proof using Type. intros H. unfold run_job. destruct (IsExcluded _ _ _ _ _ _) as [[[] n]|e]; [by destruct (H n)|done..]. Qed.

(** A case in state open with the label of an incident that lists it. *)
Lemma joins_incident (pc : ProblemCase) (inc : Incident) (w : W) :
  kget controlNamespace (obj_name pc) w = Ok (with_label pc LabelIncident (obj_name inc)) -> obj_namespace pc = controlNamespace ->
  pct_State (status pc) = ProblemCaseStateOpen -> is_stored inc w -> obj_namespace inc = controlNamespace ->
  obj_name pc ∈ ins_ProblemCases (spec inc) -> unresolved inc -> in_incident (with_label pc LabelIncident (obj_name inc)) inc w.
Proof using All.
  intros Hg Hns Ho Hi Hh Hm Hu. split; try done; [rewrite <- Hns in Hg; exact Hg| |exact (law_named _ _ _ _ Hi)].
  unfold mget, obj_labels. cbn. by rewrite lookup_insert_eq.
Qed.


Context (dets : list (Detector W)).
Lemma Resolve_frame_incident now (pc : ProblemCase) (w w' : W) r :
  Resolve now pc w = (r, w') -> forall ns n, kget (S := IncidentSpec) (T := IncidentStatus) ns n w' = kget ns n w.
Proof using All.
  unfold Resolve, mbind, eff_bind, wrap. destruct (kpatch_status pc _ w) as [[o|e] w1] eqn:E; intros [= _ <-] ns n;
    by eapply (frame_patch_status (S := ProblemCaseSpec) (T := ProblemCaseStatus)).
Qed.
Lemma Resolver_cleared req clk now (pc : ProblemCase) w :
  kget (req_Namespace req) (req_Name req) w = Ok pc -> pct_State (status pc) = ProblemCaseStateOpen -> cleared dets pc clk w ->
  Resolver.Reconcile dets req clk now w = (_ ← Resolve now pc; mret 0%Z) w.
Proof using Type.
  intros Hg Ho Hc. unfold Resolver.Reconcile. rewrite Hg, decide_False by (intros E; by apply E). unfold cleared in Hc.
  destruct (fetchAffectedResource _ w) as [obj|e]; [|by rewrite Hc]. destruct Hc as (d & -> & ->). done.
Qed.
(** C4: When the symptoms of a case in an incident have cleared, the resolver
    resolves the case; the correlation that follows counts the members left and
    resolves the incident exactly when there is none. *)
Theorem cleared_problem_leaves_incident (pc : ProblemCase) (inc : Incident) clk now fuel ts r (w w1 w2 : W) :
  in_incident pc inc w -> cleared dets pc clk w ->
  Resolver.Reconcile dets (case_request pc) clk now w = (Ok 0%Z, w1) ->
  Correlation.Reconcile digest16 controlNamespace RecurrenceWindow fuel ts (case_request pc) w1 = Some (Ok r, w2) ->
  let others := filter (fun n => n <> obj_name pc /\ active_member controlNamespace w n) (ins_ProblemCases (spec inc)) in
  is_stored (ProblemCases.set_resolved now pc) w2 /\
  exists inc' : Incident, is_stored inc' w2 /\ obj_key inc' = obj_key inc /\ spec inc' = spec inc /\
    int_ActiveProblemCases (status inc') = Z.of_nat (length others) /\
    (~ unresolved inc' <-> others = []) /\ (others = [] -> int_ResolvedAt (status inc') = Some (tm_resolve ts)).
Proof using All.
  intros [Hpc Hns Hopen Hlab Hnamed Hinc Hhome Hmem Hun] Hc H1 H2 others.
  rewrite (Resolver_cleared (case_request pc) clk now pc w Hpc Hopen Hc) in H1. apply eff_bind_ok in H1 as ([] & w0 & Hres & [= <-]).
  pose proof (Resolve_frame_incident _ _ _ _ _ Hres) as Hfi. apply Resolve_outcome in Hres as (pc' & Hrw & Hpc' & _); [|done].
  specialize (Hpc' eq_refl). subst pc'. pose proof (rw_after _ _ _ _ Hrw) as Hst1.
  unfold is_stored in Hst1.
  change (obj_namespace (ProblemCases.set_resolved now pc)) with (obj_namespace pc) in Hst1.
  change (obj_name (ProblemCases.set_resolved now pc)) with (obj_name pc) in Hst1.
  assert (forall n, active_member controlNamespace w0 n <-> n <> obj_name pc /\ active_member controlNamespace w n) as Hact.
  { intros n. unfold active_member. destruct (decide (n = obj_name pc)) as [->|Hne].
    - rewrite <- Hns, Hst1. split; [|by intros [? _]]. by intros (x & [= <-] & Hx).
    - rewrite (rw_elsewhere _ _ _ _ Hrw) by (unfold obj_key; congruence). tauto. }
  unfold Correlation.Reconcile in H2. cbn [case_request req_Namespace req_Name] in H2. rewrite Hst1, decide_True in H2 by done.
  change (obj_labels (ProblemCases.set_resolved now pc)) with (obj_labels pc) in H2. rewrite Hlab, decide_False in H2 by done.
  injection H2 as H2. apply eff_bind_ok in H2 as ([] & w3 & H2 & [= _ <-]).
  assert (ins_ProblemCases (spec inc) <> []) as Hne by (intros E; rewrite E in Hmem; by apply elem_of_nil in Hmem).
  apply (maybe_resolve_effect _ _ _ inc w0 w3) in H2 as (inc' & Hrwi & Hspec & Hcount & _ & Hiff & Hat & Hpcs); [|by rewrite Hfi, <- Hhome|done|done].
  assert (filter (active_member controlNamespace w0) (ins_ProblemCases (spec inc)) = others) as Hothers by (apply list_filter_iff; exact Hact).
  rewrite Hothers in *. split; [unfold is_stored; cbn; by rewrite Hpcs|]. exists inc'.
  split_and!; [apply Hrwi|unfold obj_key, obj_namespace, obj_name; by rewrite (rw_meta _ _ _ _ Hrwi)|done..].
Qed.
End path.

(** ** Witnesses: a pod that waits, and is then gone *)
Definition waiting_job : Job := mkJob (PodObject pending_pod) web_pod "medium" "PendingTooLong" waiting.
Definition reported_cluster : MemCluster := run_job UTC_only "kubechan" 0 0 10 waiting_job empty_cluster.
Definition reported_case : ProblemCase :=
  match FindOpen "kubechan" web_pod "PendingTooLong" reported_cluster with Ok (Some pc) => pc | _ => first_case end.
Definition no_digest (s : string) : string := "0123456789abcdef".
Definition correlated (w : MemCluster) : option (res Result * MemCluster) :=
  Correlation.Reconcile no_digest "kubechan" (24 * Hour) 5 times (case_request reported_case) w.
Definition world_of (r : option (res Result * MemCluster)) : MemCluster := match r with Some (_, w) => w | None => empty_cluster end.
Definition joined_cluster : MemCluster := world_of (correlated reported_cluster).
Lemma outcome_of (r : option (res Result * MemCluster)) x : fst <$> r = Some x -> r = Some (x, world_of r).
Proof. destruct r as [[y w]|]; [|done]. by intros [= ->]. Qed.
Lemma reported_case_open : open_case "kubechan" (caseLabels web_pod "PendingTooLong") reported_case reported_cluster.
Proof. apply FindOpen_Some. vm_refl. Qed.
Definition joined_case : ProblemCase :=
  match kget (S := ProblemCaseSpec) (T := ProblemCaseStatus) "kubechan" (obj_name reported_case) joined_cluster with Ok pc => pc | _ => first_case end.
Definition joined_incident : Incident :=
  match kget (S := IncidentSpec) (T := IncidentStatus) "kubechan" (mget (obj_labels joined_case) LabelIncident) joined_cluster with
  | Ok inc => inc | Err _ => member_incident end.
Definition cleared_cluster : MemCluster := (Resolver.Reconcile gone_dets (case_request joined_case) (fun _ => 0%Z) 99 joined_cluster).2.
Definition resolved_cluster : MemCluster := world_of (correlated cleared_cluster).
Lemma cleared_problem_leaves_incident_witness :
  exists inc' : Incident, is_stored inc' resolved_cluster /\ obj_key inc' = obj_key joined_incident /\ ~ unresolved inc'.
Proof.
  destruct (cleared_problem_leaves_incident no_digest "kubechan" (24 * Hour)%Z gone_dets joined_case joined_incident (fun _ => 0%Z) 99%Z
    5 times 0%Z joined_cluster cleared_cluster resolved_cluster) as (_ & inc' & Hi & Hk & _ & _ & Hiff & _).
  - split; [unfold is_stored; vm_refl|vm_refl|vm_refl|vm_refl|by_decide|unfold is_stored; vm_refl|vm_refl|by_decide|].
    unfold unresolved. by_decide.
  - unfold cleared.
    assert (fetchAffectedResource (pcs_AffectedResource (spec joined_case)) joined_cluster = Err ErrNotFound) as -> by vm_refl. done.
  - assert ((Resolver.Reconcile gone_dets (case_request joined_case) (fun _ => 0%Z) 99%Z joined_cluster).1 = Ok 0%Z) as E by vm_refl.
    rewrite <- E. apply surjective_pairing.
  - apply outcome_of. vm_refl.
  - exists inc'. split_and!; [done|done|]. apply Hiff. vm_refl.
Defined.
