(* ===== verification/WatcherProcess.v ===== *)
(** * cluster-watcher as one process (main.go and the SetupWithManager functions)

    Which controllers [main] registers, what each of them watches and with which
    filter and mapper, and the process they make together with the debouncer and
    the polled thresholds: queues of requests, reconciles in any order, timers that
    fire in between, other writers of the cluster.  A reconcile and a report run
    without interruption. *)

From stdpp Require Import sorting.
From stdpp Require Import prelude gmap strings list relations.
From S2P Require Import Prelude GoBase Api Client WatcherConfig Debounce Detectors Exclusion ProblemCases Watchers Resolver RuleReconciler Correlation.

(** ** What the controllers watch *)
Inductive Kind :=
  | PodKind | ServiceKind | DeploymentKind | ReplicaSetKind | EndpointSliceKind | NodeKind | EventKind | ProblemCaseKind
  | ExclusionRuleKind.
#[export] Instance Kind_eq_dec : EqDecision Kind.
Proof. solve_decision. Defined.
Inductive Controller :=
  | PodController | DeploymentController | ServiceController | NodeController | EventController | ProblemCaseController
  | CorrelationController | ExclusionRuleController.
#[export] Instance Controller_eq_dec : EqDecision Controller.
Proof. solve_decision. Defined.

(** An informer tells of an object: a rule, an event with its involved kind, or an
    object of another kind. *)
Inductive Notice :=
  | RuleNotice (rule : KubechanExclusionRule)
  | EventNotice (m : ObjectMeta) (involvedKind : string)
  | ObjectNotice (k : Kind) (m : ObjectMeta).
Definition notice_kind (n : Notice) : Kind :=
  match n with RuleNotice _ => ExclusionRuleKind | EventNotice _ _ => EventKind | ObjectNotice k _ => k end.
Definition notice_meta (n : Notice) : ObjectMeta :=
  match n with RuleNotice rule => meta rule | EventNotice m _ => m | ObjectNotice _ m => m end.
Definition mapped (n : Notice) : MappedObject :=
  match n with RuleNotice rule => MappedRule rule | _ => MappedOther (notice_meta n) end.

Section setup.
Context {W : Type} `{!ObjectClient W () PodStatus} `{!ObjectClient W ServiceSpec ServiceStatus}
  `{!ObjectClient W DeploymentSpec DeploymentStatus}.

(** What a builder collects: the name given with [Named], by default that of the
    kind in lower case, [For], [WithEventFilter] and [Watches]. *)
Record Builder := mkBuilder {
  bd_Name : string;
  bd_Controller : Controller;
  bd_For : Kind;
  bd_Filter : Notice -> bool;
  bd_Watches : list (Kind * (Notice -> W -> list Request));
}.
Definition no_filter (n : Notice) : bool := true.
Definition PodReconciler_SetupWithManager : Builder :=
  mkBuilder "pod" PodController PodKind no_filter [(ExclusionRuleKind, fun n => ruleToPodsMapper (mapped n))].
Definition ServiceReconciler_SetupWithManager : Builder :=
  mkBuilder "service" ServiceController ServiceKind no_filter
    [(EndpointSliceKind, fun n _ => esToService (notice_meta n)); (ExclusionRuleKind, fun n => ruleToServicesMapper (mapped n))].
Definition DeploymentReconciler_SetupWithManager : Builder :=
  mkBuilder "deployment" DeploymentController DeploymentKind no_filter
    [(ReplicaSetKind, fun n _ => rsToDeployment (notice_meta n)); (ExclusionRuleKind, fun n => ruleToDeploymentsMapper (mapped n))].
Definition NodeReconciler_SetupWithManager : Builder := mkBuilder "node" NodeController NodeKind no_filter [].
(** The filter: an event of a relevant kind. *)
Definition event_filter (n : Notice) : bool :=
  match n with EventNotice _ kind => relevantEventKinds kind | _ => false end.
Definition EventReconciler_SetupWithManager : Builder := mkBuilder "event" EventController EventKind event_filter [].
Definition ProblemCaseReconciler_SetupWithManager : Builder := mkBuilder "problemcase" ProblemCaseController ProblemCaseKind no_filter [].
Definition CorrelationReconciler_SetupWithManager : Builder := mkBuilder "correlation" CorrelationController ProblemCaseKind no_filter [].
Definition ExclusionRuleReconciler_SetupWithManager : Builder :=
  mkBuilder "exclusion-rule" ExclusionRuleController ExclusionRuleKind no_filter [].
(** The controllers of [main], in its order. *)
Definition builders : list Builder :=
  [PodReconciler_SetupWithManager; DeploymentReconciler_SetupWithManager; ServiceReconciler_SetupWithManager;
   NodeReconciler_SetupWithManager; EventReconciler_SetupWithManager; ProblemCaseReconciler_SetupWithManager;
   CorrelationReconciler_SetupWithManager; ExclusionRuleReconciler_SetupWithManager].

(** The requests a notice leads to; the filter applies to every watch. *)
Definition requests_of (b : Builder) (n : Notice) (w : W) : list (Controller * Request) :=
  if bd_Filter b n then
    (fun req => (bd_Controller b, req)) <$>
      ((if decide (notice_kind n = bd_For b) then [mkRequest (om_Namespace (notice_meta n)) (om_Name (notice_meta n))] else []) ++
       concat ((fun x => if decide (notice_kind n = x.1) then x.2 n w else []) <$> bd_Watches b))
  else [].
Definition enqueued (n : Notice) (w : W) : list (Controller * Request) := concat ((fun b => requests_of b n w) <$> builders).
End setup.
Arguments Builder : clear implicits.

(** [corev1.Event], read by its own reconciler only. *)
Record EventSpec := mkEventSpec { ev_Reason : string; ev_InvolvedName : string }.
Definition Event := Object EventSpec ().
Definition EventReconcile {W} `{!ObjectClient W EventSpec ()} (req : Request) (w : W) : res Result :=
  match kget (S := EventSpec) (T := ()) (req_Namespace req) (req_Name req) w with
  | Ok _ => Ok 0%Z
  | Err e => if IsNotFound e then Ok 0%Z else Err (ErrWrap ("getting Event " +:+ NamespacedName req) e)
  end.

(** ** The process *)

(** The environment variables of [main]. *)
Record Env := mkEnv {
  DEBOUNCE_WINDOW_SECS : string;
  PENDING_THRESHOLD_SECS : string;
  UNAVAILABLE_THRESHOLD_SECS : string;
  INCIDENT_RECURRENCE_WINDOW_SECS : string;
  BACKEND_API_URL : string;
  CONTROL_NAMESPACE : string;
}.
Definition recurrenceWindow (env : Env) : Duration := dur_mul (envDuration (INCIDENT_RECURRENCE_WINDOW_SECS env) 86400) Second.
Definition controlNamespace (env : Env) : string := control_namespace (CONTROL_NAMESPACE env).
Definition wcfg (env : Env) : Config :=
  initial_config (DEBOUNCE_WINDOW_SECS env) (PENDING_THRESHOLD_SECS env) (UNAVAILABLE_THRESHOLD_SECS env).

Record Process (W : Type) := mkProcess {
  pr_cluster : W;
  pr_debouncer : Debouncer Job;
  pr_config : Config;
  pr_queue : list (Controller * Request);
  (** requests that come back after a delay *)
  pr_later : list (Controller * Request);
}.
Arguments mkProcess {_} _ _ _ _ _.
Arguments pr_cluster {_} _.
Arguments pr_debouncer {_} _.
Arguments pr_config {_} _.
Arguments pr_queue {_} _.
Arguments pr_later {_} _.

(** What one reconcile reads of its clocks. *)
Record Readings := mkReadings {
  rd_detectors : string -> Clock;
  rd_case : Clock;
  rd_resolve : Time;
  rd_correlate : ReconcileTimes;
  rd_window : Time;
  rd_incidents : nat -> Time;
  rd_matched : Time;
}.

(** A queue holds a request once. *)
Definition add_request (q : list (Controller * Request)) (x : Controller * Request) : list (Controller * Request) :=
  if decide (x ∈ q) then q else q ++ [x].
Definition comes_back (r : res Result) : bool := match r with Ok d => bool_decide (0 < d)%Z | Err _ => true end.

Section process.
Context {W : Type} `{!MetaReader W} `{!ObjectClient W ServiceSpec ServiceStatus} `{!ObjectClient W () PodStatus}
  `{!ObjectClient W DeploymentSpec DeploymentStatus} `{!ObjectClient W StatefulSetSpec ()} `{!ObjectClient W DaemonSetSpec ()}
  `{!ObjectClient W NodeSpec NodeStatus} `{!ObjectClient W EventSpec ()} `{!ObjectClient W EndpointSliceSpec ()}
  `{!ObjectClient W ExclusionRuleSpec ExclusionRuleStatus} `{!ObjectClient W ProblemCaseSpec ProblemCaseStatus}
  `{!ObjectClient W IncidentSpec IncidentStatus}.
Context (tzdb : TimeZoneDB) (digest16 : string -> string) (env : Env).

(** The reconcilers as [main] builds them; [None]: the walk to the root did not end. *)
Definition reconcile (c : Controller) (rd : Readings) (fuel : nat) (req : Request) (cfg : Config) (w : W) (deb : Debouncer Job)
    : option (res Result * W * Debouncer Job) :=
  let ns := controlNamespace env in
  let watched (r : res Result * Debouncer Job) := Some (r.1, w, r.2) in
  let alone (r : res Result * W) := Some (r, deb) in
  match c with
  | PodController => watched (PodReconcile ns (podDetectors cfg) req (DebounceWindow cfg) (rd_detectors rd) w deb)
  | DeploymentController => watched (DeploymentReconcile ns (deployDetectors cfg) req (DebounceWindow cfg) (rd_detectors rd) w deb)
  | ServiceController => watched (ServiceReconcile ns svcDetectors req (DebounceWindow cfg) (rd_detectors rd) w deb)
  | NodeController => alone (NodeReconcile req w, w)
  | EventController => alone (EventReconcile req w, w)
  | ProblemCaseController => alone (Resolver.Reconcile (allDetectors cfg) req (rd_case rd) (rd_resolve rd) w)
  | CorrelationController =>
      match Correlation.Reconcile digest16 ns (recurrenceWindow env) fuel (rd_correlate rd) req w with
      | Some r => alone r
      | None => None
      end
  | ExclusionRuleController => alone (RuleReconciler.Reconcile tzdb ns req (rd_window rd) (rd_incidents rd) (rd_matched rd) w)
  end.

(** After [main]: the first poll was made if there is a backend. *)
Definition start (first : http_outcome) (now : Time) (w : W) : Process W :=
  let cfg := if decide (BACKEND_API_URL env = EmptyString) then wcfg env else (Refresh first (wcfg env)).2 in
  mkProcess w (Debounce.New now) cfg [] [].

(** Other writers of the cluster delete cases, but neither create nor edit them. *)
Definition foreign (w w' : W) : Prop :=
  forall pc : ProblemCase, is_stored pc w' -> is_stored pc w.

Inductive action := Environment | NoticeArrives (n : Notice) | Internal.
Inductive process_step : action -> Process W -> Process W -> Prop :=
  | ps_environment w' p :
      foreign (pr_cluster p) w' ->
      process_step Environment p (mkProcess w' (pr_debouncer p) (pr_config p) (pr_queue p) (pr_later p))
  | ps_notice n p :
      process_step (NoticeArrives n) p (mkProcess (pr_cluster p) (pr_debouncer p) (pr_config p)
        (foldl add_request (pr_queue p) (enqueued n (pr_cluster p))) (pr_later p))
  | ps_reconcile c req rd fuel r w' deb' p :
      (c, req) ∈ pr_queue p -> reconcile c rd fuel req (pr_config p) (pr_cluster p) (pr_debouncer p) = Some (r, w', deb') ->
      process_step Internal p (mkProcess w' deb' (pr_config p) (filter (fun x => x <> (c, req)) (pr_queue p))
        (if comes_back r then (c, req) :: pr_later p else pr_later p))
  | ps_comes_back x p :
      x ∈ pr_later p ->
      process_step Internal p (mkProcess (pr_cluster p) (pr_debouncer p) (pr_config p) (add_request (pr_queue p) x)
        (filter (fun y => y <> x) (pr_later p)))
  | ps_time dt deb' p :
      step (EvAdvance dt) (pr_debouncer p) deb' ->
      process_step Internal p (mkProcess (pr_cluster p) deb' (pr_config p) (pr_queue p) (pr_later p))
  | ps_fire t deb' p :
      step (EvFire t) (pr_debouncer p) deb' \/ step (EvCallback t) (pr_debouncer p) deb' ->
      process_step Internal p (mkProcess (pr_cluster p) deb' (pr_config p) (pr_queue p) (pr_later p))
  | ps_report t tm t1 t2 t3 deb' p :
      step (EvCall t) (pr_debouncer p) deb' -> created (pr_debouncer p) !! t = Some tm ->
      process_step Internal p (mkProcess (run_job tzdb (controlNamespace env) t1 t2 t3 (t_fn tm) (pr_cluster p)) deb'
        (pr_config p) (pr_queue p) (pr_later p))
  | ps_poll out p :
      process_step Internal p (mkProcess (pr_cluster p) (pr_debouncer p) (Refresh out (pr_config p)).2 (pr_queue p) (pr_later p)).
Definition any_step (p p' : Process W) : Prop := exists a, process_step a p p'.
(** Without a notice: whatever else happens. *)
Definition unnoticed_step (p p' : Process W) : Prop := process_step Internal p p' \/ process_step Environment p p'.
End process.
