(* ===== verification/WatcherProofs.v ===== *)
(** * The invariants of cluster-watcher (services/cluster-watcher)

    What every reconcile and every report does to the problem cases, and hence what
    holds in every state the process of [WatcherProcess] reaches; and that nothing
    happens while nobody tells it anything. *)

From stdpp Require Import sorting.
From stdpp Require Import prelude gmap strings list relations.
From S2P Require Import Prelude GoBase Api Client WatcherConfig Debounce Detectors Exclusion ProblemCases Watchers Resolver RuleReconciler Correlation ProblemPath WatcherProcess.

(** The pairs of a detector and the kind of object that [main] wires. *)
Definition wirings : list (string * string) :=
  [("CrashLoopBackOff", "Pod"); ("ImagePullBackOff", "Pod"); ("PendingTooLong", "Pod"); ("DeploymentUnavailable", "Deployment");
   ("ServiceNoEndpoints", "Service")].
Definition wired_case (pc : ProblemCase) : Prop :=
  (pcs_Detector (spec pc), rr_Kind (pcs_AffectedResource (spec pc))) ∈ wirings.
Definition wired_job (job : Job) : Prop := (job_Detector job, rr_Kind (job_Ref job)) ∈ wirings.

Section cases.
Context {W : Type} `{!ObjectClient W ProblemCaseSpec ProblemCaseStatus} `{!ObjectClientLaws W ProblemCaseSpec ProblemCaseStatus}.
(** At most one open case per resource and detector, and each of a wired detector. *)
Record good_cases (ns : string) (w : W) : Prop := {
  gc_one : one_open_case ns w;
  gc_wired pc : is_stored pc w -> wired_case pc;
}.
Lemma good_same ns (w w' : W) : same_cases w w' -> good_cases ns w -> good_cases ns w'.
Proof using Type.
  intros Hs [H1 H2]. split.
  - intros ref det pc1 pc2 Ho1 Ho2. apply (open_case_ext _ _ _ w w') in Ho1; [|apply Hs].
    apply (open_case_ext _ _ _ w w') in Ho2; [|apply Hs]. by eapply H1.
  - intros pc Hp. apply H2. unfold is_stored in *. by rewrite <- Hs.
Qed.
Lemma good_edit ns (w w' : W) (pc pc' : ProblemCase) :
  is_stored pc w -> is_stored pc' w' -> obj_key pc' = obj_key pc ->
  (forall ref det, caseLabels ref det ⊆ obj_labels pc' -> caseLabels ref det ⊆ obj_labels pc) ->
  same_elsewhere (S := ProblemCaseSpec) (T := ProblemCaseStatus) (obj_key pc) w w' ->
  pcs_AffectedResource (spec pc') = pcs_AffectedResource (spec pc) -> pcs_Detector (spec pc') = pcs_Detector (spec pc) ->
  (pct_State (status pc') <> ProblemCaseStateResolved -> pct_State (status pc) <> ProblemCaseStateResolved) ->
  good_cases ns w -> good_cases ns w'.
Proof using Type.
  intros Hpc Hpc' Hk Hl He Ha Hd Hst [H1 H2]. split; [exact (one_open_case_update ns w w' pc pc' Hpc Hpc' Hk Hl He Hst H1)|].
  intros x Hx. destruct (decide (obj_key x = obj_key pc)) as [E|E].
  - assert (x = pc') as -> by (unfold is_stored, obj_key in *; congruence). unfold wired_case. rewrite Ha, Hd. by apply H2.
  - apply H2. unfold is_stored in *. by rewrite <- (He _ _ E).
Qed.
Lemma good_rewrite ns (w w' : W) (pc pc' : ProblemCase) :
  rewrites pc pc' w w' -> pcs_AffectedResource (spec pc') = pcs_AffectedResource (spec pc) ->
  pcs_Detector (spec pc') = pcs_Detector (spec pc) ->
  (pct_State (status pc') <> ProblemCaseStateResolved -> pct_State (status pc) <> ProblemCaseStateResolved) ->
  good_cases ns w -> good_cases ns w'.
Proof using Type.
  intros [Hb Ha Hm He]. apply good_edit; try done; unfold obj_key, obj_namespace, obj_name, obj_labels; by rewrite Hm.
Qed.
Lemma good_new ns (w w' : W) (pc : ProblemCase) ref det :
  (forall x, ~ open_case ns (caseLabels ref det) x w) -> (forall x : ProblemCase, kget (obj_namespace pc) (obj_name pc) w <> Ok x) ->
  obj_labels pc = caseLabels ref det -> is_stored pc w' ->
  same_elsewhere (S := ProblemCaseSpec) (T := ProblemCaseStatus) (obj_key pc) w w' -> wired_case pc ->
  good_cases ns w -> good_cases ns w'.
Proof using Type.
  intros Hnone Hfresh Hl Hst He Hw [H1 H2]. split; [by eapply one_open_case_add|].
  intros x Hx. destruct (decide (obj_key x = obj_key pc)) as [E|E].
  - assert (x = pc) as -> by (unfold is_stored, obj_key in *; congruence). done.
  - apply H2. unfold is_stored in *. by rewrite <- (He _ _ E).
Qed.

Lemma CreateOrUpdate_good now ns ref sev det symptoms (w : W) r w' :
  (det, rr_Kind ref) ∈ wirings -> CreateOrUpdate now ns ref sev det symptoms w = (r, w') ->
  good_cases ns w -> good_cases ns w'.
Proof using All.
  intros Hw H Hg. unfold CreateOrUpdate, mbind, eff_bind, reads in H.
  destruct (FindOpen ns ref det w) as [[pc|]|e] eqn:Ef; [| |by injection H as <- <-].
  - apply FindOpen_Some in Ef as Ho. apply patchLastSeen_outcome in H as (pc' & Hr & Hst & _ & Ha & Hd); [|apply Ho].
    eapply good_rewrite; [done|done|done|by rewrite Hst|done].
  - assert (Hnone : forall x, ~ open_case ns (caseLabels ref det) x w) by (intros x; by eapply FindOpen_None).
    apply createNew_outcome in H as [(pc' & Hfr & Hst & He & Hns & Hl & Hsp & _)|[_ Hs]]; [| |done].
    + eapply good_new; try done. unfold wired_case. by rewrite Hsp.
    + by apply (good_same ns w).
Qed.
Lemma Resolve_good now (pc : ProblemCase) ns (w : W) r w' :
  is_stored pc w -> Resolve now pc w = (r, w') -> good_cases ns w -> good_cases ns w'.
Proof using All.
  intros Hs H. apply Resolve_outcome in H as (pc' & Hrw & _ & Hor); [|done].
  eapply good_rewrite; [done|by destruct Hor as [-> | ->]..|destruct Hor as [-> | ->]; [done|by intros []]].
Qed.
End cases.

(** ** The reconcilers *)

(** Effects that leave the problem cases alone. *)
Section frames.
Context {W : Type} `{!ObjectClient W ProblemCaseSpec ProblemCaseStatus}.
Definition frames {A} (m : eff W A) : Prop := forall w, same_cases w (m w).2.
#[export] Instance same_cases_preorder : PreOrder (same_cases (W := W)).
Proof using Type. split; [by intros w ns n|]. intros w1 w2 w3 H1 H2 ns n. by rewrite H2, H1. Qed.
Lemma frames_ret {A} (a : A) : frames (mret a).
Proof using Type. by intros w. Qed.
Lemma frames_throw {A} e : frames (throw (A := A) e).
Proof using Type. by intros w. Qed.
Lemma frames_reads {A} (f : W -> res A) : frames (reads f).
Proof using Type. by intros w. Qed.
Lemma frames_bind {A B} (m : eff W A) (f : A -> eff W B) : frames m -> (forall a, frames (f a)) -> frames (m ≫= f).
Proof using Type.
  intros Hm Hf w. unfold mbind, eff_bind. specialize (Hm w). destruct (m w) as [[a|e] w1]; [|exact Hm].
  etrans; [exact Hm|apply Hf].
Qed.
Lemma frames_wrap {A} p (m : eff W A) : frames m -> frames (wrap p m).
Proof using Type. intros Hm w. unfold wrap. specialize (Hm w). by destruct (m w) as [[a|e] w1]. Qed.
Lemma frames_attempt {A} (m : eff W A) : frames m -> frames (attempt m).
Proof using Type. intros Hm w. unfold attempt. specialize (Hm w). by destruct (m w). Qed.

Context {S T : Type} `{!ObjectClient W S T} `{!ClientFrame W S T ProblemCaseSpec ProblemCaseStatus}.
Lemma frames_create (o : Object S T) : frames (kcreate o).
Proof using All. intros w ns n. destruct (kcreate o w) as [r w'] eqn:E. by eapply (frame_create (S := S) (T := T)). Qed.
Lemma frames_patch (b o : Object S T) : frames (kpatch b o).
Proof using All. intros w ns n. destruct (kpatch b o w) as [r w'] eqn:E. by eapply (frame_patch (S := S) (T := T)). Qed.
Lemma frames_patch_status (b o : Object S T) : frames (kpatch_status b o).
Proof using All. intros w ns n. destruct (kpatch_status b o w) as [r w'] eqn:E. by eapply (frame_patch_status (S := S) (T := T)). Qed.
End frames.
Ltac solve_frames :=
  repeat first
    [apply frames_ret|apply frames_throw|apply frames_reads|apply frames_create|apply frames_patch|apply frames_patch_status
    |apply frames_wrap|apply frames_attempt|apply frames_bind; [|intros ?]
    |match goal with |- frames (match ?x with _ => _ end) => destruct x end].

Section reconcilers.
Context {W : Type} `{!MetaReader W} `{!ObjectClient W ServiceSpec ServiceStatus} `{!ObjectClient W () PodStatus}
  `{!ObjectClient W DeploymentSpec DeploymentStatus} `{!ObjectClient W StatefulSetSpec ()} `{!ObjectClient W DaemonSetSpec ()}
  `{!ObjectClient W NodeSpec NodeStatus} `{!ObjectClient W EventSpec ()} `{!ObjectClient W EndpointSliceSpec ()}
  `{!ObjectClient W ExclusionRuleSpec ExclusionRuleStatus} `{!ObjectClient W ProblemCaseSpec ProblemCaseStatus}
  `{!ObjectClient W IncidentSpec IncidentStatus}.
Context `{!ObjectClientLaws W ProblemCaseSpec ProblemCaseStatus} `{!ObjectClientLaws W IncidentSpec IncidentStatus}
  `{!ClientFrame W ProblemCaseSpec ProblemCaseStatus IncidentSpec IncidentStatus}
  `{!ClientFrame W IncidentSpec IncidentStatus ProblemCaseSpec ProblemCaseStatus}
  `{!ClientFrame W ExclusionRuleSpec ExclusionRuleStatus ProblemCaseSpec ProblemCaseStatus}
  `{!ClientFrame W ExclusionRuleSpec ExclusionRuleStatus IncidentSpec IncidentStatus}.
Context (tzdb : TimeZoneDB) (digest16 : string -> string) (ns : string).
Implicit Types (w : W).

Lemma run_job_good t1 t2 t3 (job : Job) w :
  wired_job job -> good_cases ns w -> good_cases ns (run_job tzdb ns t1 t2 t3 job w).
Proof using All.
  intros Hj Hg. unfold run_job.
  match goal with |- context [if fst ?x then _ else _] => destruct x as [[] name] end; cbn [fst snd].
  - destruct (GetRule ns name w) as [[rule|]|e]; [|done..]. apply (good_same ns w); [|done].
    unfold PatchMatchedStatus. solve_frames.
  - destruct (CreateOrUpdate _ _ _ _ _ _ w) as [r w'] eqn:E. by eapply CreateOrUpdate_good.
Qed.
Lemma Resolver_good dets req clk now w : good_cases ns w -> good_cases ns (Resolver.Reconcile dets req clk now w).2.
Proof using All.
  intros Hg. unfold Resolver.Reconcile. destruct (kget (req_Namespace req) (req_Name req) w) as [pc|e] eqn:Eg.
  2: { by destruct (IsNotFound e). }
  case_decide; [done|]. apply kget_is_stored in Eg as (Hs & _).
  assert (good_cases ns ((_ ← Resolve now pc; mret 0%Z) w).2) as Hres.
  { unfold mbind, eff_bind. destruct (Resolve now pc w) as [[]] eqn:E; by eapply Resolve_good. }
  destruct (fetchAffectedResource _ w) as [obj|e]; [|by destruct (IsNotFound e)].
  destruct (findDetector _ _) as [d|]; [|done]. by destruct (Evaluate d clk obj w) as [[]|].
Qed.

(** A case that is labelled keeps its resource, detector and state. *)
Lemma label_good (pc : ProblemCase) v w r w' :
  is_stored pc w -> kpatch pc (with_label pc LabelIncident v) w = (r, w') -> good_cases ns w -> good_cases ns w'.
Proof using All.
  intros Hs Hp. destruct r as [o|e].
  - destruct (law_patch pc (with_label pc LabelIncident v) w o w' Hs eq_refl Hp) as (-> & Hst & Hf).
    apply (good_edit ns w w' pc (with_label pc LabelIncident v)); try done.
    intros ref det. unfold with_label, obj_labels. cbn [meta om_Labels]. intros Hsub. apply map_subseteq_spec. intros k x Hk.
    pose proof (lookup_weaken _ _ _ _ Hk Hsub) as Hl. rewrite lookup_insert in Hl. case_decide as E; [|exact Hl].
    exfalso. subst k. unfold caseLabels in Hk. by rewrite lookup_insert_ne, lookup_singleton_ne in Hk.
  - apply good_same. intros ns' n. by eapply (law_write_error pc (with_label pc LabelIncident v)); right; left.
Qed.
Lemma correlate_good window ts (pc : ProblemCase) root w :
  is_stored pc w -> good_cases ns w -> good_cases ns (correlate digest16 ns window ts pc root w).2.
Proof using All.
  intros Hs Hg. unfold correlate.
  assert (forall now, frames (createIncident digest16 window now ns root)) as Hcreate.
  { intros now. unfold createIncident. solve_frames. }
  assert (forall inc name, frames (addProblemCaseToIncident inc name)) as Hadd.
  { intros inc name. unfold addProblemCaseToIncident. solve_frames. }
  assert (forall A B (m : eff W A) (f : A -> eff W B) w, frames m -> is_stored pc w -> good_cases ns w ->
    (forall a w1, is_stored pc w1 -> good_cases ns w1 -> good_cases ns (f a w1).2) -> good_cases ns ((m ≫= f) w).2) as Hbind.
  { intros A B m f w0 Hm Hs0 Hg0 Hf. unfold mbind, eff_bind. specialize (Hm w0). destruct (m w0) as [[a|e] w1]; cbn in *.
    - apply Hf; [unfold is_stored; by rewrite Hm|by eapply good_same].
    - by eapply good_same. }
  apply Hbind; [apply frames_wrap, frames_reads|done|done|]. intros [found reopen] w1 Hs1 Hg1.
  apply Hbind; [|done|done|].
  { destruct found as [inc|]; [destruct reopen|]; [|apply frames_ret|apply frames_wrap, Hcreate]. unfold reopenIncident. solve_frames. }
  intros inc w2 Hs2 Hg2. apply Hbind; [apply frames_wrap, Hadd|done|done|]. intros [] w3 Hs3 Hg3.
  unfold mbind, eff_bind, wrap. destruct (kpatch pc _ w3) as [[o|e] w4] eqn:Ep; by eapply label_good.
Qed.
Lemma Correlation_good window fuel ts req w r w' :
  Correlation.Reconcile digest16 ns window fuel ts req w = Some (r, w') -> good_cases ns w -> good_cases ns w'.
Proof using All.
  intros H Hg. unfold Correlation.Reconcile in H. destruct (kget (req_Namespace req) (req_Name req) w) as [pc|e] eqn:Eg.
  2: { by injection H as _ <-. }
  apply kget_is_stored in Eg as (Hs & _). case_decide.
  - case_decide; [by injection H as _ <-|]. injection H as H. apply (f_equal snd) in H. cbn in H. subst w'.
    apply (good_same ns w); [|done]. apply frames_bind; [|intros; apply frames_ret]. intros w0. unfold maybeResolveIncident.
    destruct (kget _ _ w0) as [inc|]; [|done]. case_decide; [done|]. case_decide; [done|]. destruct (countActive _ _ w0); [|done].
    match goal with |- same_cases w0 (?m w0).2 => enough (frames m) as Hm by apply Hm end. solve_frames.
  - case_decide; [by injection H as _ <-|]. destruct (findRootResource _ _ w) as [[root|e]|]; [|by injection H as _ <-|done].
    injection H as H. apply (f_equal snd) in H. cbn in H. subst w'. by apply correlate_good.
Qed.
Lemma resolved_good P w w' : cases_resolved P w w' -> good_cases ns w -> good_cases ns w'.
Proof using All.
  intros Hres [H1 H2].
  assert (forall pc, is_stored pc w' -> is_stored pc w \/ exists pc0 t, is_stored pc0 w /\ pc = ProblemCases.set_resolved t pc0) as Hback.
  { intros pc Hp. destruct (Hres (obj_namespace pc) (obj_name pc)) as [E|(_ & pc0 & t & E0 & E)].
    - left. unfold is_stored in *. by rewrite <- E.
    - right. exists pc0, t. unfold is_stored in Hp. apply kget_is_stored in E0 as (Hs & _). split; [done|congruence]. }
  split.
  - assert (forall ls pc, open_case ns ls pc w' -> open_case ns ls pc w) as Hopen.
    { intros ls pc (Hp & Hsel & Hst). destruct (Hback pc Hp) as [?|(pc0 & t & _ & ->)]; [done|]. by destruct Hst. }
    intros ref det pc1 pc2 Ho1%Hopen Ho2%Hopen. by eapply H1.
  - intros pc Hp. destruct (Hback pc Hp) as [?|(pc0 & t & Hs & ->)]; [by apply H2|]. exact (H2 pc0 Hs).
Qed.
Lemma Rules_good req t_window t_inc t_last w :
  good_cases ns w -> good_cases ns (RuleReconciler.Reconcile tzdb ns req t_window t_inc t_last w).2.
Proof using All.
  intros Hg. destruct (kget (S := ExclusionRuleSpec) (T := ExclusionRuleStatus) (req_Namespace req) (req_Name req) w) as [rule|e] eqn:Er.
  2: { unfold RuleReconciler.Reconcile. rewrite Er. by destruct (IsNotFound e). }
  destruct (Reconcile_loop tzdb ns req t_window t_inc t_last rule w Er) as [Hno Hyes].
  destruct (decide (rule_applies tzdb rule t_window)) as [Ha|Ha]; [|by rewrite Hno].
  specialize (Hyes Ha). destruct (klist (S := IncidentSpec) (T := IncidentStatus) ns ∅ w) as [items|e] eqn:El; [|by rewrite Hyes].
  destruct Hyes as [Hc _]. apply (good_same ns (resolveMatching t_inc rule items w).2); [exact Hc|].
  destruct (resolveMatching t_inc rule items w) as [n w1] eqn:Em.
  assert (Forall (fun inc => is_stored inc w) items) as Hall.
  { apply Forall_forall. intros inc Hin. by destruct (law_list_sound _ _ _ _ _ El Hin). }
  destruct (resolveMatching_effect tzdb ns t_inc rule items w n w1 Hall (law_list_nodup _ _ _ _ El) Em) as [Hres _].
  by eapply resolved_good.
Qed.
End reconcilers.

(** ** The debounced reports *)
Definition wired_jobs (deb : Debouncer Job) : Prop := Forall (fun tm => wired_job (t_fn tm)) (created deb).
Lemma stopped_jobs (P : Job -> Prop) t (l : list (timer Job)) :
  Forall (fun tm => P (t_fn tm)) l -> Forall (fun tm => P (t_fn tm)) (Stop t l).
Proof.
  unfold Stop. intros H. apply Forall_alter; [done|]. intros tm _ Htm. by destruct (decide _).
Qed.
Lemma Debounce_jobs key (job : Job) win deb : wired_job job -> wired_jobs deb -> wired_jobs (Debounce key job win deb).
Proof.
  intros Hj H. unfold wired_jobs, Debounce. cbn. apply Forall_app. split; [|by constructor].
  destruct (timers deb !! key); [by apply stopped_jobs|done].
Qed.
Lemma Cancel_jobs key deb : wired_jobs deb -> wired_jobs (Cancel key deb).
Proof.
  intros H. unfold wired_jobs, Cancel. destruct (timers deb !! key); [|done]. cbn. by apply stopped_jobs.
Qed.
Lemma timer_jobs e (deb deb' : Debouncer Job) :
  step e deb deb' -> (forall key fn w, e <> EvDebounce key fn w) -> wired_jobs deb -> wired_jobs deb'.
Proof.
  intros Hs Hne H. unfold wired_jobs in *. destruct Hs as [key fn w d|key d|dt d|t tm d E|t tm d E|t tm d E]; try exact H.
  - by destruct (Hne key fn w).
  - by apply Cancel_jobs.
  - apply Forall_insert; [done|]. by apply (proj1 (Forall_lookup _ _) H _ _ E).
  - apply Forall_insert; [done|]. by apply (proj1 (Forall_lookup _ _) H _ _ E).
  - apply Forall_insert; [done|]. by apply (proj1 (Forall_lookup _ _) H _ _ E).
Qed.
Section watched.
Context {W : Type}.
Implicit Types (w : W) (deb : Debouncer Job).
Lemma reconcileWatched_jobs cns kind get (dets : list (Detector W)) req win clks w deb :
  Forall (fun d => (Name d, kind) ∈ wirings) dets -> wired_jobs deb ->
  wired_jobs (reconcileWatched cns kind get dets req win clks w deb).2.
Proof.
  intros Hd Hj. unfold reconcileWatched. case_decide; [done|]. destruct (get w) as [obj|e].
  - cbn [snd]. revert deb Hj. induction Hd as [|d dets Hw _ IH]; intros deb Hj; [done|]. cbn [evaluateAll]. apply IH.
    unfold evaluateOne. destruct (Evaluate d _ obj w) as [[|y ys]|e]; [by apply Cancel_jobs|by apply Debounce_jobs|done].
  - destruct (IsNotFound e); [|done]. cbn [snd]. unfold cancelAll. clear Hd. revert deb Hj.
    induction dets as [|d dets IH]; intros deb Hj; [done|]. cbn [foldl]. by apply IH, Cancel_jobs.
Qed.
End watched.

(** ** The process *)
Section system.
Context {W : Type} `{!MetaReader W} `{!ObjectClient W ServiceSpec ServiceStatus} `{!ObjectClient W () PodStatus}
  `{!ObjectClient W DeploymentSpec DeploymentStatus} `{!ObjectClient W StatefulSetSpec ()} `{!ObjectClient W DaemonSetSpec ()}
  `{!ObjectClient W NodeSpec NodeStatus} `{!ObjectClient W EventSpec ()} `{!ObjectClient W EndpointSliceSpec ()}
  `{!ObjectClient W ExclusionRuleSpec ExclusionRuleStatus} `{!ObjectClient W ProblemCaseSpec ProblemCaseStatus}
  `{!ObjectClient W IncidentSpec IncidentStatus}.
Context `{!ObjectClientLaws W ProblemCaseSpec ProblemCaseStatus} `{!ObjectClientLaws W IncidentSpec IncidentStatus}
  `{!ClientFrame W ProblemCaseSpec ProblemCaseStatus IncidentSpec IncidentStatus}
  `{!ClientFrame W IncidentSpec IncidentStatus ProblemCaseSpec ProblemCaseStatus}
  `{!ClientFrame W ExclusionRuleSpec ExclusionRuleStatus ProblemCaseSpec ProblemCaseStatus}
  `{!ClientFrame W ExclusionRuleSpec ExclusionRuleStatus IncidentSpec IncidentStatus}.
Context (tzdb : TimeZoneDB) (digest16 : string -> string) (env : Env).
Abbreviation ns := (controlNamespace env).
Implicit Types (p : Process W) (w : W).

Record process_ok p : Prop := {
  po_cases : good_cases ns (pr_cluster p);
  po_jobs : wired_jobs (pr_debouncer p);
  po_config : usable (pr_config p);
}.
Lemma reconcile_good c rd fuel req cfg w deb r w' deb' :
  reconcile tzdb digest16 env c rd fuel req cfg w deb = Some (r, w', deb') ->
  good_cases ns w -> wired_jobs deb -> good_cases ns w' /\ wired_jobs deb'.
Proof using All.
  intros H Hg Hj. destruct c; cbn [reconcile] in H.
  - injection H as _ <- <-. split; [done|]. apply reconcileWatched_jobs; [|done]. repeat constructor.
  - injection H as _ <- <-. split; [done|]. apply reconcileWatched_jobs; [|done]. repeat constructor.
  - injection H as _ <- <-. split; [done|]. apply reconcileWatched_jobs; [|done]. repeat constructor.
  - injection H as _ <- <-. done.
  - injection H as _ <- <-. done.
  - injection H as H <-. apply (f_equal snd) in H. cbn in H. subst w'. split; [|done]. by apply Resolver_good.
  - destruct (Correlation.Reconcile _ _ _ _ _ _ _) as [[r0 w0]|] eqn:E; [|done]. injection H as -> <- <-. split; [|done].
    by eapply Correlation_good.
  - injection H as H <-. apply (f_equal snd) in H. cbn in H. subst w'. split; [|done]. by apply Rules_good.
Qed.
Lemma step_ok a p p' : process_step tzdb digest16 env a p p' -> process_ok p -> process_ok p'.
Proof using All.
  intros Hs [Hg Hj Hc]. destruct Hs as [w' p Hf|n p|c req rd fuel r w' deb' p _ Hr|x p _|dt deb' p Hd|t deb' p Hd|t tm t1 t2 t3 deb' p Hd Ht|out p];
    split; cbn; try done.
  - destruct Hg as [H1 H2]. split; [|intros pc Hp; by apply H2, Hf].
    intros ref det pc1 pc2 (Hp1 & Hr1) (Hp2 & Hr2). apply (H1 ref det); (split; [by apply Hf|done]).
  - by eapply reconcile_good.
  - by eapply reconcile_good.
  - by eapply timer_jobs.
  - by destruct Hd as [Hd|Hd]; eapply timer_jobs.
  - apply (run_job_good tzdb digest16); [|done]. exact (proj1 (Forall_lookup _ _) Hj _ _ Ht).
  - by eapply timer_jobs.
  - by apply refresh_usable.
Qed.
Lemma start_ok first now w : good_cases ns w -> process_ok (start env first now w).
Proof using Type.
  intros Hg. assert (usable (wcfg env)) as Hu by (apply set_usable; apply wrap64_range).
  split; cbn; [done|by constructor|]. case_decide; [done|by apply refresh_usable].
Qed.


(** ** Nothing happens unless a notice comes *)
Definition quiet p : Prop :=
  pr_queue p = [] /\ pr_later p = [] /\ Forall (fun tm => t_stage tm = Stopped \/ t_stage tm = Done) (created (pr_debouncer p)).
Lemma quiet_step p p' :
  quiet p -> unnoticed_step tzdb digest16 env p p' -> quiet p' /\ foreign (pr_cluster p) (pr_cluster p').
Proof using Type.
  intros (Hq & Hl & Ht) Hs.
  assert (forall t tm g, created (pr_debouncer p) !! t = Some tm -> t_stage tm = g -> g <> Stopped -> g <> Done -> False) as Hidle.
  { intros t tm g Htm Hst Hn1 Hn2. destruct (proj1 (Forall_lookup _ _) Ht _ _ Htm); congruence. }
  destruct Hs as [Hs|Hs]; inversion Hs; subst; cbn in *.
  - rewrite Hq in *. by match goal with H : _ ∈ [] |- _ => apply elem_of_nil in H end.
  - rewrite Hl in *. by match goal with H : _ ∈ [] |- _ => apply elem_of_nil in H end.
  - match goal with H : step _ _ _ |- _ => inversion H; subst end. by split; [|intros pc Hp].
  - match goal with H : step _ _ _ \/ step _ _ _ |- _ => destruct H as [H|H]; inversion H; subst end; exfalso; by eapply Hidle.
  - match goal with H : step _ _ _ |- _ => inversion H; subst end. exfalso. by eapply Hidle.
  - by split; [|intros pc Hp].
  - by split.
Qed.
End system.

(** ** The wiring *)
Section wiring.
Context {W : Type} `{!ObjectClient W () PodStatus} `{!ObjectClient W ServiceSpec ServiceStatus}
  `{!ObjectClient W DeploymentSpec DeploymentStatus}.
(** controller-runtime refuses a second controller of the same name; two of them
    watch problem cases. *)
Lemma controller_names_differ : NoDup (bd_Name <$> builders (W := W)).
Proof using Type. by_decide. Qed.
(** A change of a case is looked at by the resolver and by the correlation, one of a
    watched object by its own reconciler. *)
Lemma problem_case_notice m (w : W) :
  enqueued (ObjectNotice ProblemCaseKind m) w =
    [(ProblemCaseController, mkRequest (om_Namespace m) (om_Name m)); (CorrelationController, mkRequest (om_Namespace m) (om_Name m))].
Proof using Type. done. Qed.
Lemma watched_notice k m (w : W) :
  k ∈ [PodKind; DeploymentKind; ServiceKind] ->
  snd <$> enqueued (ObjectNotice k m) w = [mkRequest (om_Namespace m) (om_Name m)].
Proof using Type.
  intros Hk. repeat (apply elem_of_cons in Hk as [->|Hk]; [done|]). by apply elem_of_nil in Hk.
Qed.
(** A changed rule is looked at itself, and sends every resource it may concern back
    to its reconciler. *)
Lemma rule_notice rule (w : W) :
  enqueued (RuleNotice rule) w =
    ((PodController,.) <$> ruleToPodsMapper (MappedRule rule) w) ++
    ((DeploymentController,.) <$> ruleToDeploymentsMapper (MappedRule rule) w) ++
    ((ServiceController,.) <$> ruleToServicesMapper (MappedRule rule) w) ++
    [(ExclusionRuleController, mkRequest (obj_namespace rule) (obj_name rule))].
Proof using Type. unfold enqueued, requests_of. cbn. by rewrite !app_nil_r. Qed.
(** Events reach their reconciler only for the relevant kinds, and no detector. *)
Lemma event_notice m kind (w : W) :
  enqueued (EventNotice m kind) w =
    if relevantEventKinds kind then [(EventController, mkRequest (om_Namespace m) (om_Name m))] else [].
Proof using Type. unfold enqueued, requests_of. cbn. by destruct (relevantEventKinds kind). Qed.
End wiring.

(** ** The recurrence window *)
(** A window of up to 292 years is kept, and is long enough to divide by. *)
Lemma recurrence_window_kept env (now : Time) :
  (envDuration (INCIDENT_RECURRENCE_WINDOW_SECS env) 86400 <= 9223372036)%Z ->
  recurrenceWindow env = (envDuration (INCIDENT_RECURRENCE_WINDOW_SECS env) 86400 * Second)%Z /\
  (Second <= recurrenceWindow env)%Z /\ is_Some (incidentBucket (recurrenceWindow env) now).
Proof.
  intros Hle. set (n := envDuration _ _) in *. assert (0 < n)%Z as Hpos.
  { unfold n, envDuration. case_decide; [done|]. destruct (parse_int _); [case_decide; lia|lia]. }
  assert (recurrenceWindow env = (n * Second)%Z) as Hw.
  { unfold recurrenceWindow, dur_mul. apply wrap64_id. unfold int64_range, Second. lia. }
  split_and!; [done|unfold Second in *; lia|]. unfold incidentBucket. unfold window. rewrite Hw. rewrite (decide_False (P := (n * Second = 0)%Z)) by (unfold Second; lia).
  rewrite Z.quot_mul by done.
  rewrite decide_False by lia. by eexists.
Qed.
(** Longer ones wrap around: this one, of 317 years, is negative, so that no incident
    is ever reopened; and one of them makes every creation of an incident panic. *)
Definition with_window (secs : string) : Env := mkEnv EmptyString EmptyString EmptyString secs EmptyString EmptyString.
Example recurrence_window_wraps :
  bool_decide (recurrenceWindow (with_window "9999999999") < 0)%Z = true /\
  incidentBucket (recurrenceWindow (with_window "20211507185753197")) 0 = None.
Proof. split; vm_compute; reflexivity. Qed.

(** ** A concrete run: the pending pod, noticed too late and too early *)
#[local] Instance no_events : ObjectClient MemCluster EventSpec () := mem_client (fun _ => ∅) (fun _ w => w).
Definition shop_env : Env := mkEnv EmptyString EmptyString EmptyString EmptyString EmptyString EmptyString.
Definition pod_only_cluster : MemCluster := set_Pods {[ obj_key pending_pod := pending_pod ]} empty_cluster.
Definition read_at (t : Time) : Readings :=
  mkReadings (fun _ _ => t) (fun _ => t) t (mkReconcileTimes t t t t) t (fun _ => t) t.
Definition notice_of_pod : Notice := ObjectNotice PodKind (meta pending_pod).
Definition pod_request : Controller * Request := (PodController, mkRequest "shop" "web").
Definition noticed (p : Process MemCluster) : Process MemCluster :=
  mkProcess (pr_cluster p) (pr_debouncer p) (pr_config p) (foldl add_request (pr_queue p) (enqueued notice_of_pod (pr_cluster p)))
    (pr_later p).
Definition reconciled (t : Time) (p : Process MemCluster) : Process MemCluster :=
  match reconcile UTC_only no_digest shop_env pod_request.1 (read_at t) 0 pod_request.2 (pr_config p) (pr_cluster p) (pr_debouncer p) with
  | Some (r, w', deb') =>
      mkProcess w' deb' (pr_config p) (filter (fun x => x <> pod_request) (pr_queue p))
        (if comes_back r then pod_request :: pr_later p else pr_later p)
  | None => p
  end.

Definition watcher_start : Process MemCluster := start shop_env (Answered 503 None) 0 pod_only_cluster.
(** At four minutes the pod is still below the threshold, at six it is above. *)
Definition seen_early : Process MemCluster := reconciled (240 * Second)%Z (noticed watcher_start).
Definition seen_late : Process MemCluster := reconciled (360 * Second)%Z (noticed watcher_start).
Definition with_debouncer (p : Process MemCluster) (deb : Debouncer Job) : Process MemCluster :=
  mkProcess (pr_cluster p) deb (pr_config p) (pr_queue p) (pr_later p).
Definition exec_on (es : list (event Job)) (deb : Debouncer Job) : Debouncer Job := default deb (exec es deb).
Definition time_passed (p : Process MemCluster) : Process MemCluster :=
  with_debouncer p (exec_on [EvAdvance (30 * Second)%Z] (pr_debouncer p)).
Definition fired (p : Process MemCluster) : Process MemCluster := with_debouncer p (exec_on [EvFire 0; EvCallback 0] (pr_debouncer p)).
Definition reported (p : Process MemCluster) : Process MemCluster :=
  mkProcess (match created (pr_debouncer p) !! 0 with
             | Some tm => run_job UTC_only "kubechan" 390 390 (390 * Second)%Z (t_fn tm) (pr_cluster p)
             | None => pr_cluster p
             end) (exec_on [EvCall 0] (pr_debouncer p)) (pr_config p) (pr_queue p) (pr_later p).
Definition watched_case : Process MemCluster := reported (fired (time_passed seen_late)).
Abbreviation shop_step := (any_step UTC_only no_digest shop_env).
Abbreviation shop_unnoticed := (unnoticed_step UTC_only no_digest shop_env).

Lemma exec_step_sound e (deb deb' : Debouncer Job) : exec_step e deb = Some deb' -> step e deb deb'.
Proof. intros H. by apply exec_step_iff. Qed.
Lemma noticed_step p : shop_step p (noticed p).
Proof. eexists. constructor. Qed.
Lemma reconciled_step t p :
  pod_request ∈ pr_queue p -> shop_step p (reconciled t p).
Proof.
  intros Hq. unfold reconciled. cbn -[PodReconcile]. exists Internal.
  eapply (ps_reconcile UTC_only no_digest shop_env PodController (mkRequest "shop" "web") (read_at t) 0); [exact Hq|reflexivity].
Qed.
Lemma timers_step e p deb' :
  exec_step e (pr_debouncer p) = Some deb' -> match e with EvAdvance _ | EvFire _ | EvCallback _ => True | _ => False end ->
  process_step UTC_only no_digest shop_env Internal p (with_debouncer p deb').
Proof.
  intros H%exec_step_sound He. destruct e; try done.
  - by eapply ps_time.
  - eapply ps_fire. by left.
  - eapply ps_fire. by right.
Qed.
Lemma timers_steps es : forall p,
  forallb (fun e => match e with EvAdvance _ | EvFire _ | EvCallback _ => true | _ => false end) es = true ->
  is_Some (exec es (pr_debouncer p)) -> rtc shop_step p (with_debouncer p (exec_on es (pr_debouncer p))).
Proof.
  induction es as [|e es IH]; intros p Hes [deb Hex]; [by destruct p|]. cbn in Hes, Hex. apply andb_true_iff in Hes as [He Hes].
  apply bind_Some in Hex as (d1 & H1 & H2).
  eapply rtc_l; [exists Internal; apply (timers_step e); [exact H1|by destruct e]|].
  assert (exec_on (e :: es) (pr_debouncer p) = exec_on es d1) as ->.
  { unfold exec_on. cbn. rewrite H1. cbn. by rewrite H2. }
  apply (IH (with_debouncer p d1)); [done|by exists deb].
Qed.
Lemma watched_case_reached : rtc shop_step watcher_start watched_case.
Proof.
  eapply rtc_l; [apply noticed_step|]. eapply rtc_l; [apply (reconciled_step (360 * Second)); by left|].
  etrans; [apply (timers_steps [EvAdvance (30 * Second)%Z]); [done|apply (bool_decide_unpack _); vm_compute; exact I]|].
  etrans; [apply (timers_steps [EvFire 0; EvCallback 0]); [done|apply (bool_decide_unpack _); vm_compute; exact I]|].
  apply rtc_once. exists Internal. unfold watched_case, reported.
  destruct (created (pr_debouncer (fired (time_passed seen_late))) !! 0) as [tm|] eqn:E; [|by vm_compute in E].
  eapply ps_report; [|exact E]. apply exec_step_sound. vm_refl.
Qed.

(** The pod, seen at four minutes, is pending for more than an hour; the detector
    would raise, but nobody asks it. *)
Definition an_hour_later : Process MemCluster := with_debouncer seen_early (exec_on [EvAdvance (60 * 60 * Second)%Z] (pr_debouncer seen_early)).
