(* ===== verification/Hub.v ===== *)
(** * The WebSocket hub and its events (services/backend-api/ws)

    hub.go keeps the set of connected clients and fans a message out to their
    buffered send channels; client.go creates a client per connection and drains
    its channel; events.go defines the messages.  A client is a pointer shared by
    the hub's map and the connection's two goroutines, so clients live in a heap
    and the hub holds references.  A Go run-time panic (closing a closed channel,
    sending on one) is the outcome [None].  The two
    goroutines of a connection are in [Connection]. *)

From Stdlib Require Import Ascii.
From stdpp Require Import sorting.
From stdpp Require Import prelude gmap strings list.
From S2P Require Import Prelude GoBase Json.

(** ** events.go *)
Definition EventProblemCaseCreated : string := "ProblemCase.Created".
Definition EventProblemCaseUpdated : string := "ProblemCase.Updated".
Definition EventProblemCaseResolved : string := "ProblemCase.Resolved".
Definition EventIncidentCreated : string := "Incident.Created".
Definition EventIncidentUpdated : string := "Incident.Updated".
Definition EventIncidentResolved : string := "Incident.Resolved".
Definition EventDiagnosticRunStateChanged : string := "DiagnosticRun.StateChanged".
Definition EventKubeChanStateUpdated : string := "KubeChanState.Updated".

Record ProblemCaseEvent := mkProblemCaseEvent {
  pe_Type : string; pe_Namespace : string; pe_Name : string;
  pe_Severity : string; pe_State : string; pe_Detector : string;
}.
Record IncidentEvent := mkIncidentEvent {
  ie_Type : string; ie_Namespace : string; ie_Name : string; ie_State : string;
  ie_RootResourceKind : string; ie_RootResourceName : string; ie_ActiveProblemCases : Z;
}.
Record DiagnosticRunEvent := mkDiagnosticRunEvent {
  de_Type : string; de_Namespace : string; de_Name : string; de_State : string; de_IncidentRef : string;
}.
Record KubeChanStateEvent := mkKubeChanStateEvent {
  ke_Type : string; ke_MoodLevel : Z; ke_OpenIncidentCount : Z; ke_PokeCount : Z;
}.
Inductive ws_event :=
  | PCEvent (e : ProblemCaseEvent)
  | IncEvent (e : IncidentEvent)
  | RunEvent (e : DiagnosticRunEvent)
  | StateEvent (e : KubeChanStateEvent).

Definition jint (z : Z) : json := JNum (itoa z).
(** The struct as an object, its fields in declaration order, with [omitempty]. *)
Definition event_json (e : ws_event) : json :=
  match e with
  | PCEvent e => JObj [("type", JStr (pe_Type e)); ("namespace", JStr (pe_Namespace e)); ("name", JStr (pe_Name e));
      ("severity", JStr (pe_Severity e)); ("state", JStr (pe_State e)); ("detector", JStr (pe_Detector e))]
  | IncEvent e => JObj [("type", JStr (ie_Type e)); ("namespace", JStr (ie_Namespace e)); ("name", JStr (ie_Name e));
      ("state", JStr (ie_State e)); ("rootResourceKind", JStr (ie_RootResourceKind e));
      ("rootResourceName", JStr (ie_RootResourceName e)); ("activeProblemCases", jint (ie_ActiveProblemCases e))]
  | RunEvent e => JObj ([("type", JStr (de_Type e)); ("namespace", JStr (de_Namespace e)); ("name", JStr (de_Name e));
      ("state", JStr (de_State e))] ++
      (if decide (de_IncidentRef e = EmptyString) then [] else [("incidentRef", JStr (de_IncidentRef e))]))
  | StateEvent e => JObj [("type", JStr (ke_Type e)); ("moodLevel", jint (ke_MoodLevel e));
      ("openIncidentCount", jint (ke_OpenIncidentCount e)); ("pokeCount", jint (ke_PokeCount e))]
  end.
(** [Marshal]: the text of the object. *)
Definition Marshal (e : ws_event) : string := json_text (event_json e).

(** ** hub.go and the channel of client.go *)
Definition sendBufSize : nat := 256.
Abbreviation ClientPtr := nat (only parsing).
(** The [send] channel: the buffered messages, oldest first, and whether it is closed. *)
Record Client := mkClient { cl_send : list string; cl_closed : bool }.
Record Hub := mkHub {
  hb_clients : gset ClientPtr;
  hb_heap : gmap ClientPtr Client;
}.
Definition NewHub : Hub := mkHub ∅ ∅.

Definition register (c : ClientPtr) (h : Hub) : Hub := mkHub ({[c]} ∪ hb_clients h) (hb_heap h).
(** [close(c.send)] panics on a closed channel. *)
Definition close_send (c : ClientPtr) (heap : gmap ClientPtr Client) : option (gmap ClientPtr Client) :=
  cl ← heap !! c;
  if cl_closed cl then None else Some (<[c := mkClient (cl_send cl) true]> heap).
Definition unregister (c : ClientPtr) (h : Hub) : option Hub :=
  if decide (c ∈ hb_clients h) then
    mkHub (hb_clients h ∖ {[c]}) <$> close_send c (hb_heap h)
  else Some h.
(** [select { case c.send <- msg: default: }]: a closed channel panics, a full one drops. *)
Definition offer (msg : string) (cl : Client) : option Client :=
  if cl_closed cl then None
  else if decide (length (cl_send cl) < sendBufSize) then Some (mkClient (cl_send cl ++ [msg]) false)
  else Some cl.
Definition Broadcast (msg : string) (h : Hub) : option Hub :=
  heap' ← set_fold (fun c acc => heap ← acc; cl ← heap !! c; cl' ← offer msg cl; Some (<[c := cl']> heap))
    (Some (hb_heap h)) (hb_clients h);
  Some (mkHub (hb_clients h) heap').

(** [ServeWS] after a successful upgrade: a new client with an empty channel. *)
Definition ServeWS (h : Hub) : ClientPtr * Hub :=
  let c := fresh (dom (hb_heap h)) in
  (c, register c (mkHub (hb_clients h) (<[c := mkClient [] false]> (hb_heap h)))).
(** One round of [writePump]: the message it takes from the channel, if any. *)
Definition writePump_receive (c : ClientPtr) (h : Hub) : option string * Hub :=
  match hb_heap h !! c with
  | Some (mkClient (m :: ms) closed) => (Some m, mkHub (hb_clients h) (<[c := mkClient ms closed]> (hb_heap h)))
  | _ => (None, h)
  end.

(** ** The hub over time

    What the connections and the handlers do to a hub, in any interleaving (the
    mutex and the channel make each of them atomic): a connection is accepted, a
    message is broadcast, a client's [readPump] ends and unregisters it, its
    [writePump] takes a message. *)
Inductive hub_op :=
  | OpServe
  | OpBroadcast (msg : string)
  | OpUnregister (c : ClientPtr)
  | OpReceive (c : ClientPtr).
Definition hub_step (o : hub_op) (h : Hub) : option (list (ClientPtr * string) * Hub) :=
  match o with
  | OpServe => Some ([], (ServeWS h).2)
  | OpBroadcast msg => h' ← Broadcast msg h; Some ([], h')
  | OpUnregister c => h' ← unregister c h; Some ([], h')
  | OpReceive c => let '(m, h') := writePump_receive c h in
      Some (match m with Some m => [(c, m)] | None => [] end, h')
  end.
(** The messages taken by each client, in order, and the final hub. *)
Fixpoint hub_run (os : list hub_op) (h : Hub) : option (list (ClientPtr * string) * Hub) :=
  match os with
  | [] => Some ([], h)
  | o :: os' =>
      '(out, h1) ← hub_step o h;
      '(out', h2) ← hub_run os' h1;
      Some (out ++ out', h2)
  end.

Definition queue (c : ClientPtr) (h : Hub) : list string :=
  match hb_heap h !! c with Some cl => cl_send cl | None => [] end.
Definition received (c : ClientPtr) (out : list (ClientPtr * string)) : list string :=
  snd <$> filter (fun cm => cm.1 = c) out.
Definition broadcasts (os : list hub_op) : list string :=
  omap (fun o => match o with OpBroadcast m => Some m | _ => None end) os.

#[global] Arguments broadcasts : simpl never.

(** The registered clients are those whose channel is open, and no channel holds
    more than its capacity. *)
Record hub_wf (h : Hub) : Prop := {
  wf_open c : c ∈ hb_clients h <-> exists ms, hb_heap h !! c = Some (mkClient ms false);
  wf_bound c cl : hb_heap h !! c = Some cl -> length (cl_send cl) <= sendBufSize;
}.

Lemma NewHub_wf : hub_wf NewHub.
Proof.
  split; simpl; [|done]. intros c. rewrite lookup_empty. split; [set_solver|by intros [? ?]].
Qed.

Lemma ServeWS_wf h : hub_wf h -> hub_wf (ServeWS h).2.
Proof.
  intros [Ho Hb]. split; simpl; intros c.
  - rewrite elem_of_union, elem_of_singleton, Ho. destruct (decide (c = fresh (dom (hb_heap h)))) as [->|Hne].
    + rewrite lookup_insert_eq. split; eauto.
    + rewrite lookup_insert_ne by done. split; [by intros [?|?]|by right].
  - intros cl [[<- <-]|[? ?]]%lookup_insert_Some; simpl; [lia|eauto].
Qed.

(** [Broadcast] on a well-formed hub offers the message to every registered client. *)
Lemma Broadcast_spec msg h :
  hub_wf h ->
  exists h', Broadcast msg h = Some h' /\ hb_clients h' = hb_clients h /\
    (forall c, hb_heap h' !! c =
      if decide (c ∈ hb_clients h) then hb_heap h !! c ≫= offer msg else hb_heap h !! c).
Proof.
  intros [Ho _]. unfold Broadcast.
  assert (Hfold : exists heap', set_fold (fun c acc => heap ← acc; cl ← heap !! c; cl' ← offer msg cl; Some (<[c := cl']> heap))
    (Some (hb_heap h)) (hb_clients h) = Some heap' /\
    forall c, heap' !! c = if decide (c ∈ hb_clients h) then hb_heap h !! c ≫= offer msg else hb_heap h !! c).
  { assert (Hsub : forall c, c ∈ hb_clients h -> exists ms, hb_heap h !! c = Some (mkClient ms false)) by (intros; by apply Ho).
    clear Ho. revert Hsub. generalize (hb_clients h). intros Y. revert Y. apply (set_fold_ind_L (fun r X => (forall c, c ∈ X -> exists ms, hb_heap h !! c = Some (mkClient ms false)) ->
      exists heap', r = Some heap' /\
      forall c, heap' !! c = if decide (c ∈ X) then hb_heap h !! c ≫= offer msg else hb_heap h !! c)).
    - intros _. eexists. split; [done|]. intros c. rewrite decide_False; [done|set_solver].
    - intros x X r Hx IH Hop. destruct IH as (heap' & -> & Hh); [set_solver|].
      destruct (Hop x) as [ms Hms]; [set_solver|]. simpl. rewrite Hh, decide_False, Hms by done. simpl.
      assert (exists cl', offer msg (mkClient ms false) = Some cl') as [cl' Hcl].
      { unfold offer. simpl. case_decide; eauto. }
      rewrite Hcl. simpl. eexists. split; [done|]. intros c. destruct (decide (c = x)) as [->|Hne].
      + rewrite lookup_insert_eq, decide_True by set_solver. by rewrite Hms.
      + rewrite lookup_insert_ne, Hh by done. destruct (decide (c ∈ X)), (decide (c ∈ {[x]} ∪ X)); set_solver. }
  destruct Hfold as (heap' & -> & Hh). by eexists.
Qed.

Lemma offer_open msg ms :
  offer msg (mkClient ms false) = Some (mkClient (if decide (length ms < sendBufSize) then ms ++ [msg] else ms) false).
Proof. unfold offer. simpl. by case_decide. Qed.
Lemma Broadcast_wf msg h h' : hub_wf h -> Broadcast msg h = Some h' -> hub_wf h'.
Proof.
  intros Hwf H. destruct (Broadcast_spec msg h Hwf) as (h2 & H2 & Hc & Hh). rewrite H in H2. simplify_eq.
  destruct Hwf as [Ho Hb]. split; intros c.
  - rewrite Hc, Hh. case_decide as Hin.
    + apply Ho in Hin as Hms. destruct Hms as [ms Hms]. rewrite Hms. simpl. rewrite offer_open. naive_solver.
    + by rewrite Ho.
  - intros cl. rewrite Hh. case_decide as Hin; [|by apply Hb].
    apply Ho in Hin as [ms Hms]. rewrite Hms. simpl. rewrite offer_open. intros [= <-]. simpl.
    pose proof (Hb _ _ Hms) as Hl. simpl in Hl. case_decide; [|done]. rewrite length_app. simpl. lia.
Qed.

Lemma unregister_spec c h :
  hub_wf h -> exists h', unregister c h = Some h' /\ hub_wf h' /\ c ∉ hb_clients h' /\
    (forall c', queue c' h' = queue c' h) /\ (forall c', c' <> c -> (c' ∈ hb_clients h' <-> c' ∈ hb_clients h)).
Proof.
  intros [Ho Hb]. unfold unregister. case_decide as Hin.
  - apply Ho in Hin as Hms. destruct Hms as [ms Hms]. unfold close_send. rewrite Hms. simpl.
    eexists. split; [done|]. split_and!; simpl.
    + split; simpl; intros c'.
      * rewrite elem_of_difference, elem_of_singleton, Ho. destruct (decide (c' = c)) as [->|Hne].
        -- rewrite lookup_insert_eq. naive_solver.
        -- rewrite lookup_insert_ne by done. naive_solver.
      * intros cl [[<- <-]|[? ?]]%lookup_insert_Some; simpl; [by apply (Hb c (mkClient ms false))|eauto].
    + set_solver.
    + intros c'. unfold queue. simpl. destruct (decide (c' = c)) as [->|Hne].
      * by rewrite lookup_insert_eq, Hms.
      * by rewrite lookup_insert_ne.
    + set_solver.
  - exists h. by split_and!.
Qed.

Lemma writePump_receive_spec c h m h' :
  hub_wf h -> writePump_receive c h = (m, h') ->
  hub_wf h' /\ hb_clients h' = hb_clients h /\ queue c h = option_list m ++ queue c h' /\
  forall c', c' <> c -> queue c' h' = queue c' h.
Proof.
  intros [Ho Hb]. unfold writePump_receive, queue.
  destruct (hb_heap h !! c) as [[[|x ms] cls]|] eqn:E; intros [= <- <-]; simpl; rewrite ?E;
    try by (split_and!; [split| | |]).
  rewrite lookup_insert_eq. split_and!; [split; simpl; intros c'| | |]; try done.
  - rewrite Ho. destruct (decide (c' = c)) as [->|Hne].
    + rewrite lookup_insert_eq, E. naive_solver.
    + by rewrite lookup_insert_ne.
  - intros cl [[<- <-]|[? ?]]%lookup_insert_Some; simpl; [|eauto]. apply Hb in E. simpl in E. lia.
  - intros c' Hne. by rewrite lookup_insert_ne.
Qed.

Lemma ServeWS_queue h c : queue c (ServeWS h).2 = queue c h.
Proof.
  unfold queue. simpl. destruct (decide (c = fresh (dom (hb_heap h)))) as [->|Hne].
  - rewrite lookup_insert_eq. pose proof (is_fresh (dom (hb_heap h))) as Hf.
    apply not_elem_of_dom in Hf. by rewrite Hf.
  - by rewrite lookup_insert_ne.
Qed.

(** One step never panics, keeps the hub well formed and what a client has
    received and has queued grows by what is broadcast, in order. *)
Lemma hub_step_spec o h :
  hub_wf h -> exists out h', hub_step o h = Some (out, h') /\ hub_wf h' /\
    forall c, exists kept, kept `sublist_of` broadcasts [o] /\
      received c out ++ queue c h' = queue c h ++ kept /\
      (c ∈ hb_clients h -> length (queue c h) < sendBufSize -> kept = broadcasts [o]) /\
      (c ∈ hb_clients h -> o <> OpUnregister c -> c ∈ hb_clients h').
Proof.
  intros Hwf. destruct o as [|msg|c0|c0]; unfold broadcasts; simpl.
  - eexists _, _. split; [done|]. split; [by apply ServeWS_wf|]. intros c. exists []. pose proof (ServeWS_queue h c) as Eq. simpl in Eq. rewrite Eq.
    unfold received. simpl. rewrite app_nil_r. split_and!; [done|done|done|]. set_solver.
  - destruct (Broadcast_spec msg h Hwf) as (h' & H & Hc & Hh). rewrite H. simpl. eexists _, _. split; [done|].
    split; [by eapply Broadcast_wf|]. intros c. unfold received, queue. simpl. rewrite Hh, Hc. case_decide as Hin.
    + destruct Hwf as [Ho _]. apply Ho in Hin as [ms Hms]. rewrite Hms. simpl. rewrite offer_open. simpl.
      case_decide; [exists [msg]|exists []]; rewrite ?app_nil_r; split_and!; try done; try lia.
      by apply sublist_nil_l.
    + exists []. rewrite app_nil_r. split_and!; try done. by apply sublist_nil_l.
  - destruct (unregister_spec c0 h Hwf) as (h' & H & Hwf' & Hout & Hq & Hc). rewrite H. simpl.
    eexists _, _. split; [done|]. split; [done|]. intros c. exists []. rewrite Hq, app_nil_r. unfold received. simpl.
    split_and!; try done. intros Hin Hne. apply Hc; [congruence|done].
  - destruct (writePump_receive c0 h) as [m h'] eqn:E.
    destruct (writePump_receive_spec _ _ _ _ Hwf E) as (Hwf' & Hc & Hq & Hoth).
    eexists _, _. split; [done|]. split; [done|]. intros c. exists []. rewrite app_nil_r, Hc. split_and!; try done.
    destruct (decide (c = c0)) as [->|Hne].
    + rewrite Hq. destruct m as [m|]; unfold received; [by rewrite filter_cons_True|done].
    + rewrite Hoth by done. destruct m as [m|]; unfold received; [|done]. by rewrite filter_cons_False.
Qed.

Lemma hub_run_spec os h :
  hub_wf h -> exists out h', hub_run os h = Some (out, h') /\ hub_wf h' /\
    forall c, exists kept, kept `sublist_of` broadcasts os /\
      received c out ++ queue c h' = queue c h ++ kept /\
      (c ∈ hb_clients h -> OpUnregister c ∉ os -> length (queue c h) + length (broadcasts os) <= sendBufSize ->
       kept = broadcasts os).
Proof.
  revert h. induction os as [|o os IH]; intros h Hwf; simpl.
  - eexists _, _. split; [done|]. split; [done|]. intros c. exists []. by rewrite app_nil_r.
  - destruct (hub_step_spec o h Hwf) as (out1 & h1 & H1 & Hwf1 & Hs1). rewrite H1. simpl.
    destruct (IH h1 Hwf1) as (out2 & h2 & H2 & Hwf2 & Hs2). rewrite H2. simpl.
    eexists _, _. split; [done|]. split; [done|]. intros c.
    destruct (Hs1 c) as (k1 & Hk1 & He1 & Hx1 & Hc1), (Hs2 c) as (k2 & Hk2 & He2 & Hx2).
    assert (Hb : broadcasts (o :: os) = broadcasts [o] ++ broadcasts os) by (unfold broadcasts; destruct o; done).
    assert (Hr : received c (out1 ++ out2) = received c out1 ++ received c out2).
    { unfold received. by rewrite filter_app, fmap_app. }
    exists (k1 ++ k2). rewrite Hb, Hr. split_and!.
    + by apply sublist_app.
    + rewrite <- app_assoc, He2, app_assoc, He1, app_assoc. done.
    + intros Hin Hno Hlen. rewrite not_elem_of_cons in Hno. destruct Hno as [Hno1 Hno2].
      rewrite length_app in Hlen.
      assert (k1 = broadcasts [o]) as ->.
      { destruct o as [|m|c0|c0]; simpl in *; try by apply sublist_nil_r in Hk1.
        apply Hx1; [done|]. lia. }
      f_equal. apply Hx2; [by apply Hc1, not_eq_sym|done|].
      apply (f_equal length) in He1. rewrite !length_app in He1. lia.
Qed.

(** C36: Whatever connects, disconnects, broadcasts and drains, in whatever order,
    the hub never panics on a closed channel and never holds more than 256
    messages for a client; each client is sent, in order and without duplicates,
    a subsequence of what is broadcast, and everything broadcast while it is
    connected and its backlog fits the buffer. *)
Theorem hub_delivers_in_order os1 os2 :
  exists out1 h1 out2 h2,
    hub_run os1 NewHub = Some (out1, h1) /\ hub_run os2 h1 = Some (out2, h2) /\ hub_wf h2 /\
    (forall c, received c (out1 ++ out2) ++ queue c h2 `sublist_of` broadcasts (os1 ++ os2)) /\
    (forall c, c ∈ hb_clients h1 -> OpUnregister c ∉ os2 ->
       length (queue c h1) + length (broadcasts os2) <= sendBufSize ->
       received c out2 ++ queue c h2 = queue c h1 ++ broadcasts os2).
Proof.
  destruct (hub_run_spec os1 NewHub NewHub_wf) as (out1 & h1 & H1 & Hwf1 & Hs1).
  destruct (hub_run_spec os2 h1 Hwf1) as (out2 & h2 & H2 & Hwf2 & Hs2).
  exists out1, h1, out2, h2. split_and!; try done.
  - intros c. destruct (Hs1 c) as (k1 & Hk1 & He1 & _), (Hs2 c) as (k2 & Hk2 & He2 & _).
    assert (queue c NewHub = []) as E0 by (unfold queue; simpl; by rewrite lookup_empty). rewrite E0 in He1. simpl in He1.
    unfold received in *. rewrite filter_app, fmap_app, <- app_assoc, He2, app_assoc, He1.
    unfold broadcasts. rewrite omap_app. by apply sublist_app.
  - intros c Hin Hno Hlen. destruct (Hs2 c) as (k2 & _ & He2 & Hx). rewrite He2. f_equal. by apply Hx.
Qed.
