(* ===== verification/Connection.v ===== *)
(** * A WebSocket connection (ws/client.go)

    The two goroutines of a client - [readPump], which ends the registration, and
    [writePump], which drains the send channel - as steps on the hub they share
    with the rest of the program and on a connection that either of them closes.
    Whether a read or a write succeeds is part of an event; on a closed connection
    none does, and no read does after the read deadline. *)

From Stdlib Require Import Ascii.
From stdpp Require Import sorting.
From stdpp Require Import prelude gmap strings list.
From S2P Require Import Prelude GoBase Hub.

Definition writeWait : Duration := (10 * Second)%Z.
Definition pongWait : Duration := (60 * Second)%Z.
Definition pingPeriod : Duration := (50 * Second)%Z.
(** What is written to the connection. *)
Inductive Frame := TextFrame (msg : string) | PingFrame | CloseFrame.
#[export] Instance Frame_eq_dec : EqDecision Frame.
Proof. solve_decision. Defined.
(** [readPump] reads; its deferred call has unregistered the client and is about to
    close the connection; it has returned. *)
Inductive ReadPump := Reading | Unregistered | Returned.
#[export] Instance ReadPump_eq_dec : EqDecision ReadPump.
Proof. solve_decision. Defined.
Record Connection := mkConnection {
  cn_hub : Hub;
  cn_frames : list Frame;
  cn_closed : bool;
  cn_deadline : Time;      (** of reads *)
  cn_reader : ReadPump;
  cn_writing : bool;       (** [writePump] runs *)
}.
Inductive conn_event :=
  | Elsewhere (o : hub_op)          (** another connection, or a broadcast *)
  | Pong (now : Time)               (** the pong handler *)
  | Reads (ok : bool) (now : Time)  (** [ReadMessage] returns *)
  | Closes                          (** the rest of the deferred call of [readPump] *)
  | Writes (ok : bool)              (** the case of the send channel *)
  | Pings (ok : bool).              (** the case of the ticker *)

(** The connection of a client that [ServeWS] has just registered. *)
Definition accepted (h : Hub) (now : Time) : ClientPtr * Connection :=
  let '(c, h') := ServeWS h in (c, mkConnection h' [] false (now + pongWait)%Z Reading true).

Section connection.
Variable c : ClientPtr.

(** Hub operations of other goroutines: these two belong to the pumps of [c]. *)
Definition foreign (o : hub_op) : bool :=
  match o with OpUnregister c' | OpReceive c' => bool_decide (c' <> c) | _ => true end.
Definition send_closed (h : Hub) : bool := match hb_heap h !! c with Some cl => cl_closed cl | None => false end.
(** What each event waits for. *)
Definition enabled (e : conn_event) (st : Connection) : bool :=
  match e with
  | Elsewhere o => foreign o
  | Pong now => bool_decide (cn_reader st = Reading) && negb (cn_closed st) && bool_decide (now < cn_deadline st)%Z
  | Reads _ _ => bool_decide (cn_reader st = Reading)
  | Closes => bool_decide (cn_reader st = Unregistered)
  | Writes _ => cn_writing st && (bool_decide (queue c (cn_hub st) <> []) || send_closed (cn_hub st))
  | Pings _ => cn_writing st
  end.
Definition with_hub (h : Hub) (st : Connection) : Connection :=
  mkConnection h (cn_frames st) (cn_closed st) (cn_deadline st) (cn_reader st) (cn_writing st).
(** [WriteMessage]: whether it succeeded. *)
Definition WriteMessage (ok : bool) (f : Frame) (st : Connection) : bool * Connection :=
  if ok && negb (cn_closed st)
  then (true, mkConnection (cn_hub st) (cn_frames st ++ [f]) (cn_closed st) (cn_deadline st) (cn_reader st) (cn_writing st))
  else (false, st).
(** What is deferred when a pump ends. *)
Definition end_writePump (st : Connection) : Connection :=
  mkConnection (cn_hub st) (cn_frames st) true (cn_deadline st) (cn_reader st) false.
Definition end_readPump (st : Connection) : option Connection :=
  h ← unregister c (cn_hub st); Some (mkConnection h (cn_frames st) (cn_closed st) (cn_deadline st) Unregistered (cn_writing st)).
Definition write_or_end (ok : bool) (f : Frame) (st : Connection) : Connection :=
  match WriteMessage ok f st with (true, st') => st' | (false, st') => end_writePump st' end.
(** A round of a pump or of the rest; [None] is a run-time panic. *)
Definition conn_step (e : conn_event) (st : Connection) : option Connection :=
  if negb (enabled e st) then Some st else
  match e with
  | Elsewhere o => '(_, h) ← hub_step o (cn_hub st); Some (with_hub h st)
  | Pong now => Some (mkConnection (cn_hub st) (cn_frames st) (cn_closed st) (now + pongWait)%Z (cn_reader st) (cn_writing st))
  | Reads ok now => if ok && negb (cn_closed st) && bool_decide (now < cn_deadline st)%Z then Some st else end_readPump st
  | Closes => Some (mkConnection (cn_hub st) (cn_frames st) true (cn_deadline st) Returned (cn_writing st))
  | Writes ok =>
      match writePump_receive c (cn_hub st) with
      | (Some msg, h) => Some (write_or_end ok (TextFrame msg) (with_hub h st))
      | (None, _) => Some (end_writePump (WriteMessage ok CloseFrame st).2)
      end
  | Pings ok => Some (write_or_end ok PingFrame st)
  end.
Fixpoint conn_run (es : list conn_event) (st : Connection) : option Connection :=
  match es with [] => Some st | e :: es' => st' ← conn_step e st; conn_run es' st' end.

(** ** What holds all along *)
Definition texts (fs : list Frame) : list string := omap (fun f => match f with TextFrame m => Some m | _ => None end) fs.
Definition offered_to (es : list conn_event) : list string :=
  omap (fun e => match e with Elsewhere (OpBroadcast m) => Some m | _ => None end) es.
Record conn_ok (st : Connection) : Prop := {
  ok_hub : hub_wf (cn_hub st);
  ok_client : is_Some (hb_heap (cn_hub st) !! c);
  ok_registered : cn_reader st = Reading <-> c ∈ hb_clients (cn_hub st);
  ok_closed : cn_reader st = Returned \/ cn_writing st = false -> cn_closed st = true;
  ok_bye : CloseFrame ∈ cn_frames st -> cn_writing st = false /\ cn_reader st <> Reading /\ queue c (cn_hub st) = [];
}.
Lemma texts_app fs gs : texts (fs ++ gs) = texts fs ++ texts gs.
Proof using Type. apply omap_app. Qed.
Lemma foreign_step o h : hub_wf h -> is_Some (hb_heap h !! c) -> foreign o = true ->
  exists out h', hub_step o h = Some (out, h') /\ hub_wf h' /\ is_Some (hb_heap h' !! c) /\ (c ∈ hb_clients h' <-> c ∈ hb_clients h) /\
    exists kept, kept `sublist_of` broadcasts [o] /\ queue c h' = queue c h ++ kept /\ (c ∉ hb_clients h -> kept = []).
Proof using Type.
  intros Hwf Hc Hf. destruct (hub_step_spec o h Hwf) as (out & h' & H & Hwf' & Hs). exists out, h'. split; [done|]. split; [done|].
  destruct (Hs c) as (kept & Hk & Hq & _). assert (Hfresh : c <> fresh (dom (hb_heap h))).
  { intros ->. apply (is_fresh (dom (hb_heap h))). by apply elem_of_dom. }
  destruct o as [|msg|c'|c']; cbn [foreign] in Hf.
  - injection H as <- <-. cbn [ServeWS snd register hb_heap hb_clients]. rewrite lookup_insert_ne by done. split; [done|].
    split; [set_solver|]. exists []. rewrite app_nil_r. split_and!; [apply sublist_nil_l|apply ServeWS_queue|done].
  - cbn [hub_step] in H. destruct (Broadcast_spec msg h Hwf) as (h2 & H2 & Hcl & Hh). rewrite H2 in H. injection H as <- <-.
    rewrite Hcl, Hh. case_decide as Hin.
    + apply (wf_open h Hwf) in Hin as Hms. destruct Hms as [ms Hms]. rewrite Hms. cbn [mbind option_bind]. rewrite offer_open. split; [by eexists|]. split; [done|].
      exists kept. split_and!; [done|exact Hq|done].
    + split; [done|]. split; [done|]. exists []. split; [apply sublist_nil_l|]. split; [|done]. unfold queue. rewrite Hh, decide_False by done.
      by rewrite app_nil_r.
  - apply bool_decide_eq_true in Hf. cbn [hub_step] in H. destruct (unregister_spec c' h Hwf) as (h2 & H2 & _ & _ & Hq2 & Hc2).
    rewrite H2 in H. injection H as <- <-. split; [|split; [by apply Hc2, not_eq_sym|]].
    + unfold unregister in H2. case_decide; [|by injection H2 as <-]. unfold close_send in H2. destruct (hb_heap h !! c') as [cl|]; [|done].
      cbn in H2. destruct (cl_closed cl); [done|]. injection H2 as <-. cbn. by rewrite lookup_insert_ne.
    + exists []. rewrite app_nil_r. split_and!; [apply sublist_nil_l|apply Hq2|done].
  - apply bool_decide_eq_true in Hf. cbn [hub_step] in H. destruct (writePump_receive c' h) as [m h2] eqn:E. injection H as <- <-.
    destruct (writePump_receive_spec _ _ _ _ Hwf E) as (_ & Hcl & _ & Hoth). split; [|split; [by rewrite Hcl|]].
    + unfold writePump_receive in E. destruct (hb_heap h !! c') as [[[|x ms] cls]|]; injection E as <- <-; [done| |done].
      cbn. by rewrite lookup_insert_ne.
    + exists []. rewrite app_nil_r. split_and!; [apply sublist_nil_l|by apply Hoth, not_eq_sym|done].
Qed.
Lemma registered_open h : hub_wf h -> is_Some (hb_heap h !! c) -> send_closed h = true <-> c ∉ hb_clients h.
Proof using Type.
  intros Hwf [[ms cls] Hc]. unfold send_closed. rewrite Hc, (wf_open h Hwf c), Hc. cbn. destruct cls; split; [|done|done|].
  - intros _ [ms' E]. by injection E.
  - intros H. destruct H. by exists ms.
Qed.
(** What was written is a part of what was broadcast, in order; nothing is missing
    while [writePump] runs, nor when it said goodbye. *)
Definition ordered (es : list conn_event) (st : Connection) : Prop :=
  exists kept, kept `sublist_of` offered_to es /\ texts (cn_frames st) `prefix_of` kept /\
    (cn_writing st = true \/ CloseFrame ∈ cn_frames st -> texts (cn_frames st) ++ queue c (cn_hub st) = kept).
Lemma offered_mono e es kept : kept `sublist_of` offered_to es -> kept `sublist_of` offered_to (es ++ [e]).
Proof using Type. intros Hk. unfold offered_to. rewrite omap_app. etrans; [exact Hk|]. by apply sublist_inserts_r. Qed.
Lemma ordered_mono es e st st' : ordered es st -> cn_frames st' = cn_frames st -> queue c (cn_hub st') = queue c (cn_hub st) ->
  (cn_writing st' = true -> cn_writing st = true) -> ordered (es ++ [e]) st'.
Proof using Type.
  intros (kept & Hk & Hp & Hq) Hf Hu Hw. exists kept. rewrite Hf, Hu. split_and!; [|done|intuition].
  by apply offered_mono.
Qed.
(** A frame that is not the goodbye. *)
Lemma write_or_end_ok ok f st : f <> CloseFrame -> conn_ok st -> cn_writing st = true -> conn_ok (write_or_end ok f st).
Proof using Type.
  intros Hf [Hh Hc Hr Hcl Hb] Hw. unfold write_or_end, WriteMessage. destruct (ok && negb (cn_closed st)); (split; cbn; [done|done|done| |]).
  - done.
  - intros [Hin|Hin%list_elem_of_singleton]%elem_of_app; [by apply Hb|done].
  - by intros.
  - intros Hin. destruct (Hb Hin) as (Hw' & _). congruence.
Qed.
Lemma writes_ok ok st es : conn_ok st -> ordered es st -> enabled (Writes ok) st = true -> exists st',
  match writePump_receive c (cn_hub st) with
  | (Some msg, h) => Some (write_or_end ok (TextFrame msg) (with_hub h st))
  | (None, _) => Some (end_writePump (WriteMessage ok CloseFrame st).2)
  end = Some st' /\ conn_ok st' /\ ordered (es ++ [Writes ok]) st'.
Proof using Type.
  intros Hok Ho He. pose proof Hok as [Hh Hc Hr Hcl Hb]. cbn [enabled] in He.
  apply andb_true_iff in He as [Hw He]. destruct (writePump_receive c (cn_hub st)) as [m h] eqn:E.
  destruct (writePump_receive_spec _ _ _ _ Hh E) as (Hh' & Hcl' & Hq & _).
  assert (is_Some (hb_heap h !! c)) as Hc'.
  { unfold writePump_receive in E. destruct Hc as [[[|x ms] cls] Hms]; rewrite Hms in E; injection E as <- <-; [by eexists|].
    cbn. rewrite lookup_insert_eq. by eexists. }
  assert (CloseFrame ∉ cn_frames st) as Hnc by (intros Hin; destruct (Hb Hin); congruence).
  destruct Ho as (kept & Hk & Hp & Hkq). apply (offered_mono (Writes ok)) in Hk.
  specialize (Hkq (or_introl Hw)). destruct m as [m|]; eexists; (split; [done|]).
  + split.
    { apply write_or_end_ok; [done| |done]. split; cbn; [done|done|by rewrite Hcl'|done|done]. }
    exists kept. split; [done|]. rewrite Hq in Hkq. unfold write_or_end, WriteMessage. cbn [cn_closed with_hub].
    destruct (ok && negb (cn_closed st)); cbn; [rewrite texts_app; cbn|].
    * rewrite <- app_assoc. cbn in Hkq. split; [|done]. rewrite <- Hkq. apply prefix_app. by exists (queue c h).
    * split; [done|]. by intros [?|?].
  + assert (queue c (cn_hub st) = []) as Hq0.
    { unfold writePump_receive in E. unfold queue. destruct Hc as [[[|x ms] cls] Hms]; rewrite Hms in E |- *; [done|discriminate E]. }
    rewrite Hq0, bool_decide_eq_false_2 in He by (intros Hx; by apply Hx). cbn in He.
    apply (registered_open _ Hh Hc) in He. rewrite <- Hr in He. split.
    * unfold WriteMessage. destruct (ok && negb (cn_closed st)); split; cbn; try done.
    * exists kept. split; [done|]. unfold WriteMessage. destruct (ok && negb (cn_closed st)); cbn; [rewrite texts_app; cbn; rewrite app_nil_r|]; (split; [done|]); done.
Qed.
Lemma conn_step_ok e st es : conn_ok st -> ordered es st -> exists st', conn_step e st = Some st' /\ conn_ok st' /\ ordered (es ++ [e]) st'.
Proof using Type.
  intros Hok Ho. pose proof Hok as [Hh Hc Hr Hcl Hb]. unfold conn_step. destruct (enabled e st) eqn:He; cbn [negb].
  2: { exists st. split_and!; [done|done|by eapply ordered_mono]. }
  destruct e as [o|now|ok now| |ok|ok]; cbn [enabled] in He.
  - destruct (foreign_step o _ Hh Hc He) as (out & h' & H & Hh' & Hc' & Hcl' & kept' & Hk' & Hq' & Hn'). rewrite H. cbn. eexists. split; [done|].
    split.
    + split; cbn; [done|done|by rewrite Hcl'|done|]. intros Hin. destruct (Hb Hin) as (Hw & Hrd & Hq). split_and!; [done|done|].
      rewrite Hq', Hq, Hn'; [done|]. by rewrite <- Hr.
    + destruct Ho as (kept & Hk & Hp & Hq). exists (kept ++ kept'). cbn [cn_frames cn_writing cn_hub with_hub]. split_and!.
      * unfold offered_to. rewrite omap_app. apply sublist_app; [done|]. by destruct o.
      * by apply prefix_app_r.
      * intros Hx. rewrite <- (Hq Hx), Hq'. apply app_assoc.
  - eexists. split; [done|]. split; [by split|]. by eapply ordered_mono.
  - case_match; [exists st; split_and!; [done|done|by eapply ordered_mono]|]. unfold end_readPump.
    destruct (unregister_spec c _ Hh) as (h' & Hu & Hh' & Hnot & Hq & _). rewrite Hu. cbn. eexists. split; [done|]. split.
    + split; cbn; [done| |by split|intros [?|?]; [done|by apply Hcl; right]|].
      * unfold unregister in Hu. case_decide; [|by injection Hu as <-]. unfold close_send in Hu. destruct Hc as [cl Hcl0]. rewrite Hcl0 in Hu.
        cbn in Hu. destruct (cl_closed cl); [done|]. injection Hu as <-. cbn. rewrite lookup_insert_eq. by eexists.
      * intros Hin. destruct (Hb Hin) as (Hw & _ & Hq0). by rewrite Hq.
    + eapply ordered_mono; [done|done|cbn; by rewrite Hq|done].
  - apply bool_decide_eq_true in He. eexists. split; [done|]. split.
    + split; cbn; [done|done| |done|]. { rewrite <- Hr, He. done. } intros Hin. by destruct (Hb Hin) as (? & _ & ?).
    + by eapply ordered_mono.
  - by apply writes_ok.
  - eexists. split; [done|]. split; [by apply write_or_end_ok|]. unfold write_or_end, WriteMessage.
    destruct Ho as (kept & Hk & Hp & Hkq). exists kept. assert (CloseFrame ∉ cn_frames st) as Hnc by (intros Hin; destruct (Hb Hin); congruence).
    split; [by apply offered_mono|].
    destruct (ok && negb (cn_closed st)); cbn; [rewrite texts_app; cbn; rewrite app_nil_r|]; (split; [done|]).
    + intros _. apply Hkq. by left.
    + by intros [?|?].
Qed.
Lemma conn_run_ok es0 es st : conn_ok st -> ordered es0 st -> exists st', conn_run es st = Some st' /\ conn_ok st' /\ ordered (es0 ++ es) st'.
Proof using Type.
  revert es0 st. induction es as [|e es IH]; intros es0 st Hok Ho; [exists st; by rewrite app_nil_r|]. cbn [conn_run].
  destruct (conn_step_ok e st es0 Hok Ho) as (st1 & -> & Hok1 & Ho1). cbn. replace (es0 ++ e :: es) with ((es0 ++ [e]) ++ es) by (by rewrite <- app_assoc). by apply IH.
Qed.
Lemma conn_run_app es1 es2 st : conn_run (es1 ++ es2) st = conn_run es1 st ≫= conn_run es2.
Proof using Type. revert st. induction es1 as [|e es1 IH]; intros st; [done|]. cbn. destruct (conn_step e st); [apply IH|done]. Qed.

(** A pump that has ended does not start again, and a closed connection stays so. *)
Definition reader_stage (r : ReadPump) : nat := match r with Reading => 0 | Unregistered => 1 | Returned => 2 end.
Record later (st st' : Connection) : Prop := {
  lt_closed : cn_closed st = true -> cn_closed st' = true;
  lt_reader : reader_stage (cn_reader st) <= reader_stage (cn_reader st');
  lt_writing : cn_writing st = false -> cn_writing st' = false;
}.
#[export] Instance later_preorder : PreOrder later.
Proof using Type. split; [by split|]. intros x y z [H1 H2 H3] [H4 H5 H6]. split; [auto|lia|auto]. Qed.
Lemma write_or_end_later ok f st : later st (write_or_end ok f st).
Proof using Type. unfold write_or_end, WriteMessage. destruct (ok && negb (cn_closed st)); by split. Qed.
Lemma conn_step_later e st st' : conn_step e st = Some st' -> later st st'.
Proof using Type.
  unfold conn_step. destruct (enabled e st) eqn:He; cbn [negb]; [|by intros [= <-]]. destruct e as [o|now|ok now| |ok|ok]; cbn [enabled] in He.
  - destruct (hub_step o (cn_hub st)) as [[out h]|]; [|done]. by intros [= <-].
  - by intros [= <-].
  - apply bool_decide_eq_true in He. case_match; [by intros [= <-]|]. unfold end_readPump. destruct (unregister _ _); [|done]. intros [= <-].
    split; cbn; [done|rewrite He; cbn; lia|done].
  - apply bool_decide_eq_true in He. intros [= <-]. split; cbn; [done|rewrite He; cbn; lia|done].
  - destruct (writePump_receive _ _) as [[m|] h]; intros [= <-]; [by etrans; [|apply write_or_end_later]|].
    unfold WriteMessage. destruct (ok && negb (cn_closed st)); by split.
  - intros [= <-]. apply write_or_end_later.
Qed.
Lemma conn_run_later es st st' : conn_run es st = Some st' -> later st st'.
Proof using Type.
  revert st. induction es as [|e es IH]; intros st; cbn; [by intros [= <-]|]. destruct (conn_step e st) as [st1|] eqn:E; [|done].
  intros H. etrans; [by eapply conn_step_later|by apply IH].
Qed.
(** What each step of the end does, whenever it is taken. *)
Lemma reads_fails ok now st st' : conn_step (Reads ok now) st = Some st' ->
  ok = false \/ cn_closed st = true \/ (cn_deadline st <= now)%Z -> cn_reader st' <> Reading.
Proof using Type.
  intros H Hf. unfold conn_step in H. cbn [enabled] in H. case_bool_decide as Hr; cbn [negb] in H; [|by injection H as <-].
  assert (ok && negb (cn_closed st) && bool_decide (now < cn_deadline st)%Z = false) as E.
  { destruct Hf as [->|[->|Hd]]; [done|by rewrite andb_false_r|]. rewrite bool_decide_eq_false_2 by lia. apply andb_false_r. }
  rewrite E in H. unfold end_readPump in H. destruct (unregister _ _); [|done]. by injection H as <-.
Qed.
Lemma closes_ends st st' : conn_step Closes st = Some st' -> cn_reader st <> Reading -> cn_reader st' = Returned.
Proof using Type.
  intros H Hr. unfold conn_step in H. cbn [enabled] in H. case_bool_decide as He; cbn [negb] in H; injection H as <-; [done|].
  by destruct (cn_reader st).
Qed.
Lemma writes_ends ok st st' : conn_ok st -> conn_step (Writes ok) st = Some st' -> cn_reader st = Returned -> cn_writing st' = false.
Proof using Type.
  intros [Hh Hc Hr Hcl _] H Hret. destruct (cn_writing st) eqn:Hw; [|by eapply lt_writing; [by eapply conn_step_later|]].
  assert (send_closed (cn_hub st) = true) as Hs by (apply registered_open; [done|done|]; rewrite <- Hr; by rewrite Hret).
  unfold conn_step in H. cbn [enabled] in H. rewrite Hw, Hs, orb_true_r in H. cbn [negb andb] in H.
  specialize (Hcl (or_introl Hret)). destruct (writePump_receive _ _) as [[m|] h]; injection H as <-; [|done].
  unfold write_or_end, WriteMessage. cbn [cn_closed with_hub]. by rewrite Hcl, andb_false_r.
Qed.
Lemma later_reader st st' : later st st' -> cn_reader st <> Reading -> cn_reader st' <> Reading.
Proof using Type. intros [_ Hl _] Hr E. rewrite E in Hl. cbn in Hl. destruct (cn_reader st); cbn in Hl; [done|lia|lia]. Qed.
Lemma later_returned st st' : later st st' -> cn_reader st = Returned -> cn_reader st' = Returned.
Proof using Type. intros [_ Hl _] E. rewrite E in Hl. destruct (cn_reader st'); cbn in Hl; [lia|lia|done]. Qed.
(** An event and what follows it. *)
Lemma conn_turn es0 e es st : conn_ok st -> ordered es0 st -> exists s1 s2, conn_step e st = Some s1 /\ conn_run es s1 = Some s2 /\
  conn_ok s1 /\ conn_ok s2 /\ ordered ((es0 ++ [e]) ++ es) s2 /\ later s1 s2.
Proof using Type.
  intros Hok Ho. destruct (conn_step_ok e st es0 Hok Ho) as (s1 & E1 & Hok1 & Ho1).
  destruct (conn_run_ok _ es s1 Hok1 Ho1) as (s2 & E2 & Hok2 & Ho2). exists s1, s2. split_and!; try done. by eapply conn_run_later.
Qed.
End connection.

Lemma accepted_ok h now c st : hub_wf h -> accepted h now = (c, st) -> conn_ok c st /\ ordered c [] st.
Proof.
  intros Hh. unfold accepted. destruct (ServeWS h) as [c' h'] eqn:E. intros [= -> <-].
  assert (hub_wf h') as Hh' by (pose proof (ServeWS_wf h Hh) as H; by rewrite E in H).
  assert (hb_heap h' !! c = Some (mkClient [] false)) as Hc by (injection E as <- <-; apply lookup_insert_eq).
  split.
  - split; cbn; [done|by rewrite Hc| |by intros [?|?]|by intros ?%elem_of_nil]. split; [|done]. intros _. apply (wf_open h' Hh'). by exists [].
  - exists []. split_and!; [done|done|]. intros _. cbn. unfold queue. by rewrite Hc.
Qed.


(** C38: When a read fails - because the peer is gone, because a failed write has
    closed the connection, or because no pong came before the deadline - both
    goroutines end and the client leaves the hub, as soon as each has had its turn,
    whatever happens in between. *)
Theorem failed_read_ends_both h start es c st0 st ok now es1 es2 ok2 es3 :
  hub_wf h -> accepted h start = (c, st0) -> conn_run c es st0 = Some st ->
  ok = false \/ cn_closed st = true \/ (cn_deadline st <= now)%Z ->
  exists st', conn_run c ([Reads ok now] ++ es1 ++ [Closes] ++ es2 ++ [Writes ok2] ++ es3) st = Some st' /\
    cn_reader st' = Returned /\ cn_writing st' = false /\ cn_closed st' = true /\ c ∉ hb_clients (cn_hub st').
Proof.
  intros Hh Ha Hes Hf. destruct (accepted_ok h start c st0 Hh Ha) as [Hok0 Ho0].
  destruct (conn_run_ok c [] es st0 Hok0 Ho0) as (st_ & Hrun & Hok & Ho). rewrite Hes in Hrun. injection Hrun as <-.
  destruct (conn_turn c _ (Reads ok now) es1 st Hok Ho) as (s1 & s2 & E1 & R1 & _ & Hok2 & Ho2 & L1).
  destruct (conn_turn c _ Closes es2 s2 Hok2 Ho2) as (s3 & s4 & E3 & R3 & _ & Hok4 & Ho4 & L3).
  destruct (conn_turn c _ (Writes ok2) es3 s4 Hok4 Ho4) as (s5 & s6 & E5 & R5 & _ & Hok6 & _ & L5). exists s6.
  assert (cn_reader s2 <> Reading) as H2 by (eapply later_reader; [exact L1|]; exact (reads_fails c _ _ _ _ E1 Hf)).
  assert (cn_reader s4 = Returned) as H4 by (eapply later_returned; [exact L3|]; exact (closes_ends c _ _ E3 H2)).
  assert (cn_reader s6 = Returned) as H6 by (eapply later_returned; [exact L5|]; eapply later_returned; [exact (conn_step_later c _ _ _ E5)|exact H4]).
  assert (cn_writing s6 = false) as Hw by (eapply lt_writing; [exact L5|]; exact (writes_ends c _ _ _ Hok4 E5 H4)).
  split_and!; [|done|done|by apply (ok_closed c s6 Hok6); left|rewrite <- (ok_registered c s6 Hok6); by rewrite H6].
  cbn [app conn_run]. rewrite E1. cbn [mbind option_bind]. rewrite conn_run_app, R1. cbn [mbind option_bind app conn_run]. rewrite E3.
  cbn [mbind option_bind]. rewrite conn_run_app, R3. cbn [mbind option_bind app conn_run]. rewrite E5. exact R5.
Qed.

(** ** Witnesses: a peer that leaves while a message waits *)
Definition farewell : list conn_event :=
  [Elsewhere (OpBroadcast "a"); Writes true; Elsewhere (OpBroadcast "b"); Pings true; Reads false Second; Writes true; Writes true].
Definition first_client : ClientPtr := (accepted NewHub 0).1.
Definition first_connection : Connection := (accepted NewHub 0).2.
Definition busy : list conn_event := [Elsewhere (OpBroadcast "a"); Writes true; Pong (10 * Second)%Z].
Lemma failed_read_ends_both_witness :
  exists st, conn_run first_client busy first_connection = Some st /\
  exists st', conn_run first_client ([Reads true (70 * Second)%Z] ++ [Elsewhere OpServe] ++ [Closes] ++ [Pings true] ++ [Writes true] ++ []) st = Some st' /\
    cn_reader st' = Returned /\ cn_writing st' = false /\ cn_closed st' = true /\ first_client ∉ hb_clients (cn_hub st').
Proof.
  destruct (conn_run first_client busy first_connection) as [st|] eqn:E; [|exfalso; revert E; vm_compute; discriminate].
  exists st. split; [done|].
  apply (failed_read_ends_both NewHub 0 busy first_client first_connection st true (70 * Second)%Z [Elsewhere OpServe] [Pings true] true []
    NewHub_wf eq_refl E).
  right. right. assert (cn_deadline <$> conn_run first_client busy first_connection = Some (70 * Second)%Z) as Hd by vm_refl.
  rewrite E in Hd. injection Hd as ->. done.
Defined.
