(* ===== verification/Mood.v ===== *)
(** * KubeChan's mood (services/backend-api/k8s and handler/kubechan.go)

    moodsyncer.go keeps the singleton KubeChanState: its mood follows the number
    of open incidents and the current streak of pokes.  handlers.go turns what the
    informers observe into hub events, and every incident event into a
    recomputation of the mood.  The state is the cluster behind the client and
    the hub, which a syncer may not have ([None]); the outcome [None] of a function
    is a run-time panic in the hub.  Times are whole seconds, the precision
    [metav1.Time] keeps. *)

From Stdlib Require Import Ascii.
From stdpp Require Import sorting.
From stdpp Require Import prelude gmap strings list.
From S2P Require Import Prelude GoBase Json Api Client Hub.

Definition moodSingletonName : string := "kubechan".
Definition pokeTTL : Duration := (8 * Second)%Z.

(** [computeMoodLevel] *)
Definition computeMoodLevel (openCount activePokeCount : Z) : Z :=
  if decide (3 <= openCount \/ 5 <= activePokeCount)%Z then MoodRage
  else if decide (1 <= openCount \/ 2 <= activePokeCount)%Z then MoodIrritated
  else MoodCalm.

(** [state.Status.PokeExpiresAt != nil && time.Now().After(state.Status.PokeExpiresAt.Time)] *)
Definition poke_expired (now : Time) (st : KubeChanState) : bool :=
  match kct_PokeExpiresAt (status st) with Some e => bool_decide (e < now)%Z | None => false end.
Definition effectivePokeCount (now : Time) (st : KubeChanState) : Z :=
  match kct_PokeExpiresAt (status st) with
  | None => 0%Z
  | Some _ => if poke_expired now st then 0%Z else kct_PokeCount (status st)
  end.

(** [broadcast]: nothing without a hub. *)
Definition broadcast (st : KubeChanState) (hub : option Hub) : option (option Hub) :=
  match hub with
  | None => Some None
  | Some h => Some <$> Broadcast (Marshal (StateEvent (mkKubeChanStateEvent EventKubeChanStateUpdated
      (kct_MoodLevel (status st)) (kct_OpenIncidentCount (status st)) (kct_PokeCount (status st))))) h
  end.

Section syncer.
Context {W : Type} `{!ObjectClient W KubeChanStateSpec KubeChanStateStatus} `{!ObjectClient W IncidentSpec IncidentStatus}.
Context (namespace : string).

(** [EnsureState] *)
Definition EnsureState : eff W () := fun w =>
  match kget (S := KubeChanStateSpec) (T := KubeChanStateStatus) namespace moodSingletonName w with
  | Ok _ => (Ok tt, w)
  | Err e =>
      if IsNotFound e then
        match kcreate (mkObject (new_meta moodSingletonName EmptyString namespace ∅) mkKubeChanStateSpec zeroKubeChanStateStatus) w with
        | (Ok _, w1) => (Ok tt, w1)
        | (Err e', w1) => (if IsAlreadyExists e' then Ok tt else Err e', w1)
        end
      else (Err e, w)
  end.

Definition countOpen (l : list Incident) : Z :=
  Z.of_nat (length (filter (fun inc => int_State (status inc) <> IncidentStateResolved) l)).

(** The status after the recomputation at [now]; [stamp] is the second clock reading. *)
Definition set_synced (now stamp : Time) (openCount : Z) (st : KubeChanState) : KubeChanState :=
  with_status st (mkKubeChanStateStatus
    (computeMoodLevel openCount (effectivePokeCount now st)) openCount
    (kct_PokeCount (status st)) (kct_PokeExpiresAt (status st)) (Some stamp)).

(** [SyncFromIncidents]: every failure is logged and ends it. *)
Definition SyncFromIncidents (now stamp : Time) (hub : option Hub) (w : W) : option (option Hub * W) :=
  match klist (S := IncidentSpec) (T := IncidentStatus) namespace ∅ w with
  | Err _ => Some (hub, w)
  | Ok l =>
      match kget (S := KubeChanStateSpec) (T := KubeChanStateStatus) namespace moodSingletonName w with
      | Err _ => Some (hub, w)
      | Ok st =>
          match kpatch_status st (set_synced now stamp (countOpen l) st) w with
          | (Err _, w1) => Some (hub, w1)
          | (Ok st', w1) => hub' ← broadcast st' hub; Some (hub', w1)
          end
      end
  end.

(** The status after a poke; [now] tests the expiry, [later] renews it, [stamp] is UpdatedAt. *)
Definition set_poked (now later stamp : Time) (st : KubeChanState) : KubeChanState :=
  let count := wrap64 ((if poke_expired now st then 0 else kct_PokeCount (status st)) + 1)%Z in
  with_status st (mkKubeChanStateStatus
    (computeMoodLevel (kct_OpenIncidentCount (status st)) count) (kct_OpenIncidentCount (status st))
    count (Some (later + pokeTTL)%Z) (Some stamp)).

Record PokeTimes := mkPokeTimes { pk_now : Time; pk_later : Time; pk_stamp : Time }.
(** [Poke] *)
Definition Poke (t : PokeTimes) (hub : option Hub) (w : W) : option (res KubeChanState * option Hub * W) :=
  match kget (S := KubeChanStateSpec) (T := KubeChanStateStatus) namespace moodSingletonName w with
  | Err e => Some (Err e, hub, w)
  | Ok st =>
      match kpatch_status st (set_poked (pk_now t) (pk_later t) (pk_stamp t) st) w with
      | (Err e, w1) => Some (Err e, hub, w1)
      | (Ok st', w1) => hub' ← broadcast st' hub; Some (Ok st', hub', w1)
      end
  end.

(** [GetMoodLevel] *)
Definition GetMoodLevel (w : W) : Z :=
  match kget (S := KubeChanStateSpec) (T := KubeChanStateStatus) namespace moodSingletonName w with
  | Ok st => kct_MoodLevel (status st)
  | Err _ => 0%Z
  end.
End syncer.

(** ** handler/kubechan.go

    The status code and the JSON body of a response. *)
Definition HttpResponse : Type := Z * json.
Definition StatusOK : Z := 200.
Definition StatusInternalServerError : Z := 500.
Definition KubeChan_GetState {W} `{!ObjectClient W KubeChanStateSpec KubeChanStateStatus} (namespace : string) (w : W) : HttpResponse :=
  (StatusOK, JObj [("moodLevel", jint (GetMoodLevel namespace w))]).
(** [errText] is [err.Error()]. *)
Definition KubeChan_Poke {W} `{!ObjectClient W KubeChanStateSpec KubeChanStateStatus} (namespace : string)
    (errText : goerr -> string) (t : PokeTimes) (hub : option Hub) (w : W) : option (HttpResponse * option Hub * W) :=
  '(r, hub', w') ← Poke namespace t hub w;
  Some (match r with
        | Ok st => (StatusOK, JObj [("moodLevel", jint (kct_MoodLevel (status st))); ("pokeCount", jint (kct_PokeCount (status st)))])
        | Err e => (StatusInternalServerError, JObj [("error", JStr (errText e))])
        end, hub', w').

(** ** handlers.go

    What an informer hands to a handler: an object of one of the watched kinds,
    or, for a deletion it learnt of late, a [cache.DeletedFinalStateUnknown]. *)
Inductive informer_obj :=
  | ObjProblemCase (pc : ProblemCase)
  | ObjIncident (inc : Incident)
  | ObjDiagnosticRun (dr : DiagnosticRun)
  | ObjDeletedFinalStateUnknown (key : string).

Definition problemCaseEvent (evType state : string) (pc : ProblemCase) : ws_event :=
  PCEvent (mkProblemCaseEvent evType (obj_namespace pc) (obj_name pc) (pcs_Severity (spec pc)) state (pcs_Detector (spec pc))).
Definition incidentEvent (evType : string) (inc : Incident) : ws_event :=
  IncEvent (mkIncidentEvent evType (obj_namespace inc) (obj_name inc) (int_State (status inc))
    (rr_Kind (ins_RootResource (spec inc))) (rr_Name (ins_RootResource (spec inc))) (int_ActiveProblemCases (status inc))).

(** What a handler does: the event it broadcasts and whether it starts [SyncFromIncidents]. *)
Record Reaction := mkReaction { rc_Event : option ws_event; rc_Sync : bool }.
Definition ignore : Reaction := mkReaction None false.

Definition problemCase_OnAdd (obj : informer_obj) : Reaction :=
  match obj with
  | ObjProblemCase pc => mkReaction (Some (problemCaseEvent EventProblemCaseCreated (pct_State (status pc)) pc)) false
  | _ => ignore
  end.
Definition problemCase_OnUpdate (newObj : informer_obj) : Reaction :=
  match newObj with
  | ObjProblemCase pc =>
      let evType := if decide (pct_State (status pc) = ProblemCaseStateResolved)
                    then EventProblemCaseResolved else EventProblemCaseUpdated in
      mkReaction (Some (problemCaseEvent evType (pct_State (status pc)) pc)) false
  | _ => ignore
  end.
Definition problemCase_OnDelete (obj : informer_obj) : Reaction :=
  match obj with
  | ObjProblemCase pc => mkReaction (Some (problemCaseEvent EventProblemCaseResolved "resolved" pc)) false
  | _ => ignore
  end.
(** [hasSyncer]: [h.moodSyncer != nil]. *)
Definition incident_OnAdd (hasSyncer : bool) (obj : informer_obj) : Reaction :=
  match obj with
  | ObjIncident inc => mkReaction (Some (incidentEvent EventIncidentCreated inc)) hasSyncer
  | _ => ignore
  end.
Definition incident_OnUpdate (hasSyncer : bool) (newObj : informer_obj) : Reaction :=
  match newObj with
  | ObjIncident inc =>
      let evType := if decide (int_State (status inc) = IncidentStateResolved)
                    then EventIncidentResolved else EventIncidentUpdated in
      mkReaction (Some (incidentEvent evType inc)) hasSyncer
  | _ => ignore
  end.
Definition incident_OnDelete (hasSyncer : bool) (obj : informer_obj) : Reaction :=
  match obj with
  | ObjIncident inc =>
      mkReaction (Some (IncEvent (mkIncidentEvent EventIncidentResolved (obj_namespace inc) (obj_name inc)
        "resolved" EmptyString EmptyString 0%Z))) hasSyncer
  | _ => ignore
  end.
Definition diagnosticRun_OnUpdate (newObj : informer_obj) : Reaction :=
  match newObj with
  | ObjDiagnosticRun dr =>
      mkReaction (Some (RunEvent (mkDiagnosticRunEvent EventDiagnosticRunStateChanged (obj_namespace dr) (obj_name dr)
        (drt_State (status dr)) (drs_IncidentRef (spec dr))))) false
  | _ => ignore
  end.

(** ** Properties *)
Definition hub_ok (hub : option Hub) : Prop := match hub with Some h => hub_wf h | None => True end.

Lemma broadcast_ok st hub : hub_ok hub -> exists hub', broadcast st hub = Some hub' /\ hub_ok hub'.
Proof.
  unfold broadcast. destruct hub as [h|]; simpl; [|by eauto]. intros Hwf.
  destruct (Broadcast_spec (Marshal (StateEvent (mkKubeChanStateEvent EventKubeChanStateUpdated
    (kct_MoodLevel (status st)) (kct_OpenIncidentCount (status st)) (kct_PokeCount (status st))))) h Hwf) as (h' & E & _).
  rewrite E. simpl. exists (Some h'). split; [done|]. by eapply Broadcast_wf.
Qed.

Lemma computeMoodLevel_rage o p : computeMoodLevel o p = MoodRage <-> (3 <= o \/ 5 <= p)%Z.
Proof. unfold computeMoodLevel. repeat case_decide; split; intros; (done || lia). Qed.
Lemma computeMoodLevel_calm o p : computeMoodLevel o p = MoodCalm <-> (o <= 0 /\ p <= 1)%Z.
Proof. unfold computeMoodLevel. repeat case_decide; split; intros; (done || lia). Qed.
Lemma computeMoodLevel_mono o o' p p' :
  (o <= o')%Z -> (p <= p')%Z -> (computeMoodLevel o p <= computeMoodLevel o' p')%Z.
Proof. unfold computeMoodLevel, MoodRage, MoodIrritated, MoodCalm. intros. repeat case_decide; lia. Qed.

(** The pokes of the current streak, the latest first: each poke continues the
    streak unless it comes more than [pokeTTL] after the one before. *)
Fixpoint streak (latest_first : list PokeTimes) : Z :=
  match latest_first with
  | [] => 0%Z
  | x :: ((y :: _) as rest) => if decide (pk_now x <= pk_later y + pokeTTL)%Z then (1 + streak rest)%Z else 1%Z
  | [_] => 1%Z
  end.
Lemma streak_bounds l : (0 <= streak l <= Z.of_nat (length l))%Z.
Proof.
  induction l as [|x [|y l] IH]; simpl in *; [lia|lia|]. case_decide; lia.
Qed.

Section proofs.
Context {W : Type} `{!ObjectClient W KubeChanStateSpec KubeChanStateStatus} `{!ObjectClient W IncidentSpec IncidentStatus}.
Context `{!ObjectClientLaws W KubeChanStateSpec KubeChanStateStatus}.
Context (namespace : string).

Lemma countOpen_nonneg l : (0 <= countOpen l)%Z.
Proof using Type. unfold countOpen. lia. Qed.
Definition the_state (w : W) : res KubeChanState := kget namespace moodSingletonName w.

Lemma rewrites_the_state (st st' : KubeChanState) (w w' : W) :
  the_state w = Ok st -> rewrites st st' w w' -> the_state w' = Ok st'.
Proof using All.
  intros (_ & Hns & Hn)%kget_is_stored [_ Ha Hm _]. unfold is_stored, the_state, obj_namespace, obj_name in *.
  by rewrite Hm, Hns, Hn in Ha.
Qed.


(** Every poke of the list, in order; stops at the first error or panic. *)
Fixpoint poke_all (ts : list PokeTimes) (hub : option Hub) (w : W) : option (option Hub * W) :=
  match ts with
  | [] => Some (hub, w)
  | t :: ts' =>
      match Poke namespace t hub w with
      | Some (Ok _, hub1, w1) => poke_all ts' hub1 w1
      | _ => None
      end
  end.
Lemma poke_all_app ts1 ts2 hub w :
  poke_all (ts1 ++ ts2) hub w = '(hub1, w1) ← poke_all ts1 hub w; poke_all ts2 hub1 w1.
Proof using Type.
  revert hub w. induction ts1 as [|t ts1 IH]; intros hub w; simpl; [done|].
  destruct (Poke namespace t hub w) as [[[[?|?] ?] ?]|]; simpl; [apply IH|done|done].
Qed.

(** One successful poke rewrites the state and broadcasts it. *)
Lemma Poke_ok t hub (w : W) st' hub' w' :
  Poke namespace t hub w = Some (Ok st', hub', w') ->
  exists st, the_state w = Ok st /\ st' = set_poked (pk_now t) (pk_later t) (pk_stamp t) st /\ rewrites st st' w w' /\
    the_state w' = Ok st' /\ broadcast st' hub = Some hub'.
Proof using All.
  unfold Poke. fold (the_state w). destruct (the_state w) as [st|e] eqn:Es; [|done].
  destruct (kget_is_stored _ _ _ _ Es) as [Hst _].
  destruct (kpatch_status st _ w) as [r w1] eqn:Ep.
  apply kpatch_status_outcome in Ep as (ob' & Hr & Ho); [|done|done].
  destruct r as [x|e]; [|done]. destruct Ho as [-> Ho].
  change (ob' = set_poked (pk_now t) (pk_later t) (pk_stamp t) st) in Ho. subst ob'.
  destruct (broadcast _ hub) as [h1|] eqn:Eb; simpl; [|done]. intros [= <- <- <-].
  exists st. split_and!; try done. by eapply rewrites_the_state.
Qed.

Lemma poke_all_state ts t hub (w : W) hub' w' st :
  the_state w = Ok st -> kct_PokeExpiresAt (status st) = None -> kct_PokeCount (status st) = 0%Z ->
  (Z.of_nat (length ts) + 1 < 2 ^ 63)%Z -> poke_all (ts ++ [t]) hub w = Some (hub', w') ->
  exists stamp, the_state w' = Ok (with_status st (mkKubeChanStateStatus
    (computeMoodLevel (kct_OpenIncidentCount (status st)) (streak (t :: reverse ts)))
    (kct_OpenIncidentCount (status st)) (streak (t :: reverse ts)) (Some (pk_later t + pokeTTL)%Z) (Some stamp))).
Proof using All.
  intros Hs He Hc. revert t hub' w'. induction ts as [|t0 ts IH] using rev_ind; intros t hub' w' Hlen Hrun.
  - simpl in Hrun. destruct (Poke namespace t hub w) as [[[[st'|?] ?] w1]|] eqn:E; try done. simplify_eq.
    apply Poke_ok in E as (st0 & Es & -> & _ & Hw & _). assert (st0 = st) as -> by congruence.
    exists (pk_stamp t). rewrite Hw. unfold set_poked, poke_expired. by rewrite He, Hc.
  - rewrite poke_all_app in Hrun. destruct (poke_all (ts ++ [t0]) hub w) as [[hub1 w1]|] eqn:E1; [|done].
    rewrite length_app in Hlen. simpl in Hlen.
    destruct (IH t0 hub1 w1) as (stamp1 & Hw1); [lia|done|]. simpl in Hrun.
    destruct (Poke namespace t hub1 w1) as [[[[st'|?] ?] w2]|] eqn:E; try done. simplify_eq.
    apply Poke_ok in E as (st0 & Es & -> & _ & Hw & _). rewrite Hw1 in Es. injection Es as <-.
    exists (pk_stamp t). rewrite Hw, reverse_snoc. unfold set_poked, poke_expired. simpl.
    assert (Hcount : (wrap64 ((if bool_decide (pk_later t0 + pokeTTL < pk_now t) then 0 else streak (t0 :: reverse ts)) + 1) =
      if decide (pk_now t <= pk_later t0 + pokeTTL) then 1 + streak (t0 :: reverse ts) else 1)%Z).
    { pose proof (streak_bounds (t0 :: reverse ts)) as Hb. cbn [length] in Hb. rewrite length_reverse in Hb.
      rewrite wrap64_id; [|unfold int64_range]; case_bool_decide; try case_decide; lia. }
    cbn [streak] in Hcount. by rewrite Hcount.
Qed.

(** Successful pokes of a fresh state count exactly the current streak - the
    pokes each of which came within eight seconds of the one before - and set the
    mood from the open incidents and that count; the streak expires eight seconds
    after the last poke. *)
Theorem poke_streak_spec ts t hub (w : W) hub' w' st :
  the_state w = Ok st -> kct_PokeExpiresAt (status st) = None -> kct_PokeCount (status st) = 0%Z ->
  (Z.of_nat (length ts) + 1 < 2 ^ 63)%Z -> poke_all (ts ++ [t]) hub w = Some (hub', w') ->
  exists st', the_state w' = Ok st' /\
    kct_PokeCount (status st') = streak (t :: reverse ts) /\
    kct_MoodLevel (status st') = computeMoodLevel (kct_OpenIncidentCount (status st)) (streak (t :: reverse ts)) /\
    kct_OpenIncidentCount (status st') = kct_OpenIncidentCount (status st) /\
    forall now, effectivePokeCount now st' = (if decide (now <= pk_later t + pokeTTL)%Z then streak (t :: reverse ts) else 0)%Z.
Proof using All.
  intros Hs He Hc Hlen Hrun. destruct (poke_all_state _ _ _ _ _ _ _ Hs He Hc Hlen Hrun) as [stamp Hw].
  eexists. split; [exact Hw|]. split_and!; try done. intros now. unfold effectivePokeCount, poke_expired.
  cbn [status with_status kct_PokeExpiresAt kct_PokeCount]. case_bool_decide; case_decide; (done || lia).
Qed.
End proofs.

(** ** Witnesses *)
Definition calm_state : KubeChanState :=
  mkObject (new_meta moodSingletonName EmptyString "kubechan" ∅) mkKubeChanStateSpec zeroKubeChanStateStatus.
Definition mood_cluster (st : KubeChanState) : MemCluster := set_States {[ obj_key st := st ]} empty_cluster.
Definition poke_at (s : Z) : PokeTimes := mkPokeTimes (s * Second) (s * Second) (s * Second).
Definition poked_state : KubeChanState := with_status calm_state
  (mkKubeChanStateStatus MoodIrritated 0 2 (Some (27 * Second)) (Some (19 * Second)))%Z.
Theorem poke_streak_spec_witness :
  exists st', the_state "kubechan" (mood_cluster poked_state) = Ok st' /\ kct_PokeCount (status st') = 2%Z.
Proof.
  destruct (poke_streak_spec "kubechan" [poke_at 0; poke_at 12] (poke_at 19) None (mood_cluster calm_state)
    None (mood_cluster poked_state) calm_state) as (st' & H & Hc & _); [vm_refl|reflexivity|reflexivity|reflexivity|vm_refl|].
  exists st'. split; [exact H|]. rewrite Hc. reflexivity.
Defined.
