(* ===== verification/Collector.v ===== *)
(** * The evidence and its catalogue (services/diagnostics-worker/collector)

    types.go declares the evidence a diagnostic run collects, catalog.go turns it
    into a list of atomic sources with stable identifiers, the only things a later
    analysis may cite.  Dynamic Go values ([any]) are an inductive type with one
    constructor per type the collectors put there or the code switches on; a Go
    map is a [gmap], whose iteration order is never relied upon.  The text of the
    first eight bytes of a SHA-256 sum is a parameter, [sum8]. *)

From Stdlib Require Import Ascii.
From stdpp Require Import sorting.
From stdpp Require Import prelude gmap strings list.
From S2P Require Import Prelude GoBase.

(** ** Dynamic values

    A pointer is seen only through its address text ([%v] of a [*int32]), a
    float through its text and its integer part. *)
Inductive any :=
  | ANil
  | ABool (b : bool)
  | AInt (z : Z)
  | AInt32 (z : Z)
  | AInt64 (z : Z)
  | AFloat64 (text : string) (whole : Z)
  | AStr (s : string)
  | APtr (address : string)
  | AStrSlice (l : list string)
  | AStrMap (m : gmap string string)
  | AStrMapMap (m : gmap string (gmap string string))
  | AMap (m : gmap string any)
  | ASlice (l : list any)
  | AMapSlice (l : list (gmap string any)).

(** The keys of a map with a value computed for each, in ascending order:
    [keys] collected, [sort.Strings(keys)]. *)
Definition sorted_pairs {A} (l : list (string * A)) : list (string * A) := sort_slice (key_less fst) l.
Definition go_bool (b : bool) : string := if b then "true" else "false".
Definition sprint_list (l : list string) : string := "[" +:+ join " " l +:+ "]".
Definition sprint_pairs (l : list (string * string)) : string :=
  "map[" +:+ join " " ((fun kv => kv.1 +:+ ":" +:+ kv.2) <$> sorted_pairs l) +:+ "]".
Definition sprint_str_map (m : gmap string string) : string := sprint_pairs (map_to_list m).
(** [fmt.Sprint] *)
Fixpoint sprint (v : any) : string :=
  match v with
  | ANil => "<nil>"
  | ABool b => go_bool b
  | AInt z | AInt32 z | AInt64 z => itoa z
  | AFloat64 text _ => text
  | AStr s => s
  | APtr address => address
  | AStrSlice l => sprint_list l
  | AStrMap m => sprint_str_map m
  | AStrMapMap m => sprint_pairs (map_fold (fun k x acc => (k, sprint_str_map x) :: acc) [] m)
  | AMap m => sprint_pairs (map_fold (fun k x acc => (k, sprint x) :: acc) [] m)
  | ASlice l => sprint_list (sprint <$> l)
  | AMapSlice l => sprint_list ((fun m => sprint_pairs (map_fold (fun k x acc => (k, sprint x) :: acc) [] m)) <$> l)
  end.

(** ** types.go *)
Record ResourceRef := mkRef {
  cr_Namespace : string;
  cr_Kind : string;
  cr_Name : string;
  cr_APIGroup : string;
}.
Record K8sEvent := mkK8sEvent {
  ev_Type : string;
  ev_Reason : string;
  ev_Message : string;
  ev_Count : Z;
  ev_FirstTime : Time;
  ev_LastTime : Time;
}.
Record ConfigMapRef := mkConfigMapRef {
  cm_Name : string;
  cm_Missing : bool;
  cm_Keys : list string;
  cm_Data : gmap string string;
  cm_MountPaths : list string;
}.
Record SecretRef := mkSecretRef { sr_Name : string; sr_Missing : bool }.
Record PodDependencies := mkPodDependencies {
  pd_ConfigMaps : list ConfigMapRef;
  pd_Secrets : list SecretRef;
}.
Record PodLogs := mkPodLogs {
  pl_PodName : string;
  pl_Phase : string;
  pl_Labels : gmap string string;
  pl_PVCNames : list string;
  pl_Logs : string;
  pl_Truncated : bool;
  pl_Error : string;
  pl_Events : list K8sEvent;
  pl_Dependencies : option PodDependencies;
  pl_Owners : list ResourceRef;
}.
Record PVCInfo := mkPVCInfo {
  pv_Name : string;
  pv_Phase : string;
  pv_StorageClass : string;
  pv_RequestedStorage : string;
  pv_Events : list K8sEvent;
}.
Record ProblemCaseEvidence := mkProblemCaseEvidence {
  pce_Name : string;
  pce_Detector : string;
  pce_Severity : string;
  pce_Symptoms : list string;
  pce_AffectedResource : ResourceRef;
  pce_Events : list K8sEvent;
  pce_Logs : string;
  pce_LogsTruncated : bool;
}.
Record EvidenceLogLine := mkEvidenceLogLine { ll_Number : Z; ll_Timestamp : option Time; ll_Text : string }.
Record EvidenceSource := mkEvidenceSource {
  es_ID : string;
  es_Type : string;
  es_Resource : ResourceRef;
  es_CollectedAt : Time;
  es_Path : string;
  es_Value : any;
  es_Line : option EvidenceLogLine;
  es_Event : option K8sEvent;
  es_Truncated : bool;
  es_Redacted : bool;
}.
(** A nil [Spec] map is [None]. *)
Record RelatedResourceEvidence := mkRelatedResourceEvidence {
  re_Resource : ResourceRef;
  re_DiscoveryOrigin : string;
  re_Events : list K8sEvent;
  re_Logs : string;
  re_Spec : option (gmap string any);
}.
Record Evidence := mkEvidence {
  ed_SchemaVersion : Z;
  ed_DiagnosticRunID : string;
  ed_IncidentID : string;
  ed_CollectedAt : Time;
  ed_RootResource : ResourceRef;
  ed_RootResourceEvents : list K8sEvent;
  ed_ProblemCases : list ProblemCaseEvidence;
  ed_WorkloadPodLogs : list PodLogs;
  ed_PVCInfos : list PVCInfo;
  ed_UserMessage : string;
  ed_RelatedResourceEvidence : list RelatedResourceEvidence;
  ed_Sources : list EvidenceSource;
}.

#[export] Instance ResourceRef_eq_dec : EqDecision ResourceRef.
Proof. solve_decision. Defined.

(** ** catalog.go *)
(** [escapeJSONPointer] *)
Definition escapeJSONPointer (value : string) : string :=
  replace_byte "/"%char "~1" (replace_byte "~"%char "~0" value).

Section catalog.
Context (sum8 : string -> string).

(** [sourceID] *)
Definition sourceID (kind : string) (ref : ResourceRef) (path value : string) : string :=
  kind +:+ ":" +:+ sum8 (join "|" [kind; cr_APIGroup ref; cr_Kind ref; cr_Namespace ref; cr_Name ref; path; value]).

(** [fieldSource] *)
Definition fieldSource (ref : ResourceRef) (path : string) (value : any) (at_ : Time) : EvidenceSource :=
  mkEvidenceSource (sourceID "field" ref path (sprint value)) "resource_field" ref at_ path value None None false false.

(** [eventSource] *)
Definition eventSource (ref : ResourceRef) (event : K8sEvent) (at_ : Time) : EvidenceSource :=
  let key := ev_Reason event +:+ "|" +:+ ev_Message event +:+ "|" +:+ format_rfc3339 (ev_FirstTime event) in
  mkEvidenceSource (sourceID "event" ref "/events" key) "event" ref at_ EmptyString ANil None (Some event) false false.

(** [logSources]: one source per line, numbered from 1. *)
Definition logSource (ref : ResourceRef) (container : string) (truncated : bool) (at_ : Time) (i : nat) (text : string) : EvidenceSource :=
  let path := "/logs/" +:+ escapeJSONPointer container +:+ "/current/" +:+ itoa (Z.of_nat i + 1) in
  mkEvidenceSource (sourceID "log" ref path text) "log_line" ref at_ path ANil
    (Some (mkEvidenceLogLine (Z.of_nat i + 1) None text)) None truncated false.
Definition logSources (ref : ResourceRef) (container logs : string) (truncated : bool) (at_ : Time) : list EvidenceSource :=
  if decide (trim_space logs = EmptyString) then []
  else imap (logSource ref container truncated at_) (split_on "010"%char (trim_right_newlines logs)).

(** [flattenFields]: what is appended to [out].  The sources of the keys of a
    map are concatenated in the order of the sorted keys. *)
Definition child (path key : string) : string := path +:+ "/" +:+ escapeJSONPointer key.
Definition item (path : string) (i : nat) : string := path +:+ "/" +:+ itoa (Z.of_nat i).
Fixpoint flattenFields (ref : ResourceRef) (at_ : Time) (value : any) (path : string) : list EvidenceSource :=
  let fields m := map_fold (fun k x acc => (k, fun p => flattenFields ref at_ x p) :: acc) [] m in
  let flattenMap m p := mjoin ((fun kf => kf.2 (child p kf.1)) <$> sorted_pairs (fields m)) in
  match value with
  | AMap m => flattenMap m path
  | ASlice l => mjoin (imap (fun i f => f (item path i)) ((fun x p => flattenFields ref at_ x p) <$> l))
  | AMapSlice l => mjoin (imap (fun i f => f (item path i)) ((fun m p => flattenMap m p) <$> l))
  | _ => if decide (path = EmptyString) then [] else [fieldSource ref path value at_]
  end.

(** [dedupeSources]: the first source of each identifier. *)
Fixpoint dedupe (seen : gset string) (sources : list EvidenceSource) : list EvidenceSource :=
  match sources with
  | [] => []
  | source :: sources' =>
      if decide (es_ID source ∈ seen) then dedupe seen sources'
      else source :: dedupe ({[es_ID source]} ∪ seen) sources'
  end.
Definition dedupeSources (sources : list EvidenceSource) : list EvidenceSource := dedupe ∅ sources.

(** ** BuildSourceCatalog, one definition per loop body *)
Definition eventSources (ref : ResourceRef) (at_ : Time) (events : list K8sEvent) : list EvidenceSource :=
  (fun e => eventSource ref e at_) <$> events.

Definition problemCaseSources (at_ : Time) (pc : ProblemCaseEvidence) : list EvidenceSource :=
  let ref := pce_AffectedResource pc in
  let prefix := "/problemCases/" +:+ escapeJSONPointer (pce_Name pc) in
  [fieldSource ref (prefix +:+ "/detector") (AStr (pce_Detector pc)) at_;
   fieldSource ref (prefix +:+ "/severity") (AStr (pce_Severity pc)) at_] ++
  imap (fun i symptom => fieldSource ref (prefix +:+ "/symptoms/" +:+ itoa (Z.of_nat i)) (AStr symptom) at_) (pce_Symptoms pc) ++
  eventSources ref at_ (pce_Events pc) ++
  logSources ref EmptyString (pce_Logs pc) (pce_LogsTruncated pc) at_.

Definition configMapSources (at_ : Time) (namespace : string) (cm : ConfigMapRef) : list EvidenceSource :=
  let cmRef := mkRef namespace "ConfigMap" (cm_Name cm) EmptyString in
  fieldSource cmRef "/exists" (ABool (negb (cm_Missing cm))) at_ ::
  ((fun kv => fieldSource cmRef ("/data/" +:+ escapeJSONPointer kv.1) (AStr kv.2) at_) <$> sorted_pairs (map_to_list (cm_Data cm))).
Definition secretSource (at_ : Time) (namespace : string) (secret : SecretRef) : EvidenceSource :=
  let secretRef := mkRef namespace "Secret" (sr_Name secret) EmptyString in
  mkEvidenceSource (sourceID "field" secretRef "/exists" (go_bool (negb (sr_Missing secret)))) "resource_field" secretRef at_
    "/exists" (ABool (negb (sr_Missing secret))) None None false true.
Definition podSources (at_ : Time) (namespace : string) (pod : PodLogs) : list EvidenceSource :=
  let ref := mkRef namespace "Pod" (pl_PodName pod) EmptyString in
  [fieldSource ref "/status/phase" (AStr (pl_Phase pod)) at_] ++
  eventSources ref at_ (pl_Events pod) ++
  logSources ref "default" (pl_Logs pod) (pl_Truncated pod) at_ ++
  match pl_Dependencies pod with
  | None => []
  | Some deps => mjoin (configMapSources at_ namespace <$> pd_ConfigMaps deps) ++ (secretSource at_ namespace <$> pd_Secrets deps)
  end.

Definition nonEmptyField (ref : ResourceRef) (path value : string) (at_ : Time) : list EvidenceSource :=
  if decide (value = EmptyString) then [] else [fieldSource ref path (AStr value) at_].
Definition pvcSources (at_ : Time) (namespace : string) (pvc : PVCInfo) : list EvidenceSource :=
  let ref := mkRef namespace "PersistentVolumeClaim" (pv_Name pvc) EmptyString in
  [fieldSource ref "/status/phase" (AStr (pv_Phase pvc)) at_] ++
  nonEmptyField ref "/spec/storageClassName" (pv_StorageClass pvc) at_ ++
  nonEmptyField ref "/spec/resources/requests/storage" (pv_RequestedStorage pvc) at_ ++
  eventSources ref at_ (pv_Events pvc).

(** A nil map has no keys to flatten. *)
Definition relatedSources (at_ : Time) (related : RelatedResourceEvidence) : list EvidenceSource :=
  flattenFields (re_Resource related) at_ (AMap (default ∅ (re_Spec related))) EmptyString ++
  eventSources (re_Resource related) at_ (re_Events related) ++
  logSources (re_Resource related) EmptyString (re_Logs related) false at_.

Definition allSources (ev : Evidence) : list EvidenceSource :=
  let at_ := ed_CollectedAt ev in
  let ns := cr_Namespace (ed_RootResource ev) in
  eventSources (ed_RootResource ev) at_ (ed_RootResourceEvents ev) ++
  mjoin (problemCaseSources at_ <$> ed_ProblemCases ev) ++
  mjoin (podSources at_ ns <$> ed_WorkloadPodLogs ev) ++
  mjoin (pvcSources at_ ns <$> ed_PVCInfos ev) ++
  mjoin (relatedSources at_ <$> ed_RelatedResourceEvidence ev).
(** [BuildSourceCatalog] *)
Definition BuildSourceCatalog (ev : Evidence) : list EvidenceSource := dedupeSources (allSources ev).
End catalog.

(** ** Maps folded into lists of pairs *)
Lemma fold_pairs {A B} (f : A -> B) (m : gmap string A) :
  map_fold (fun k x acc => (k, f x) :: acc) [] m = prod_map id f <$> map_to_list m.
Proof.
  rewrite map_fold_foldr. induction (map_to_list m) as [|[k x] l IH]; simpl; [done|]. by rewrite IH.
Qed.
Lemma elem_of_sorted_fold {A B} (f : A -> B) (m : gmap string A) k y :
  (k, y) ∈ sorted_pairs (map_fold (fun k x acc => (k, f x) :: acc) [] m) <-> exists x, m !! k = Some x /\ y = f x.
Proof.
  unfold sorted_pairs. rewrite elem_of_sort_slice, fold_pairs, list_elem_of_fmap. split.
  - intros ([k' x] & [= -> ->] & H%elem_of_map_to_list). eauto.
  - intros (x & H & ->). exists (k, x). split; [done|]. by apply elem_of_map_to_list.
Qed.

(** ** JSON pointers: what a path of the catalogue addresses *)
Inductive seg := SKey (key : string) | SItem (i : nat).
Definition seg_text (s : seg) : string :=
  match s with SKey k => escapeJSONPointer k | SItem i => itoa (Z.of_nat i) end.
Fixpoint pointer (segs : list seg) : string :=
  match segs with [] => EmptyString | s :: segs' => "/" +:+ seg_text s +:+ pointer segs' end.
Definition composite (v : any) : Prop :=
  match v with AMap _ | ASlice _ | AMapSlice _ => True | _ => False end.
(** The field [x] of [v] that is reached through maps and slices along [segs]. *)
Inductive addresses : list seg -> any -> any -> Prop :=
  | addr_leaf v : ~ composite v -> addresses [] v v
  | addr_key m k x segs y : m !! k = Some x -> addresses segs x y -> addresses (SKey k :: segs) (AMap m) y
  | addr_item l i x segs y : l !! i = Some x -> addresses segs x y -> addresses (SItem i :: segs) (ASlice l) y
  | addr_map_item l i m segs y : l !! i = Some m -> addresses segs (AMap m) y -> addresses (SItem i :: segs) (AMapSlice l) y.

Lemma escape_no_slash s : no_byte "/"%char (escapeJSONPointer s).
Proof. unfold escapeJSONPointer. apply no_byte_replace; [|done]. simpl. repeat split; discriminate. Qed.
Lemma seg_text_no_slash s : no_byte "/"%char (seg_text s).
Proof. destruct s; simpl; [apply escape_no_slash|]. apply itoa_no_byte. vm_compute. by left. Qed.

(** Undoing the escape, byte by byte. *)
Fixpoint unescape (s : string) : string :=
  match s with
  | String "~"%char (String "0"%char s') => String "~"%char (unescape s')
  | String "~"%char (String "1"%char s') => String "/"%char (unescape s')
  | String c s' => String c (unescape s')
  | EmptyString => EmptyString
  end.
Lemma unescape_escape s : unescape (escapeJSONPointer s) = s.
Proof.
  unfold escapeJSONPointer. induction s as [|c s IH]; [done|]. simpl.
  case_decide as Hc; [subst c; simpl; by f_equal|]. simpl. case_decide as Hs; [subst c; simpl; by f_equal|].
  simpl. destruct c as [[] [] [] [] [] [] [] []]; try (by f_equal); by destruct Hc.
Qed.
#[export] Instance escape_inj : Inj (=) (=) escapeJSONPointer.
Proof. intros a b E. by rewrite <- (unescape_escape a), <- (unescape_escape b), E. Qed.

Lemma app_slash_inj a b x y :
  no_byte "/"%char a -> no_byte "/"%char b ->
  (x = EmptyString \/ exists x', x = String "/"%char x') -> (y = EmptyString \/ exists y', y = String "/"%char y') ->
  a +:+ x = b +:+ y -> a = b /\ x = y.
Proof.
  revert b. induction a as [|c a IH]; intros [|d b] Ha Hb Hx Hy E; simpl in *.
  - done.
  - destruct Hx as [-> |[x' ->]]; [done|]. injection E as <- _. by destruct Hb.
  - destruct Hy as [-> |[y' ->]]; [done|]. injection E as -> _. by destruct Ha.
  - injection E as <- E. destruct (IH b) as [-> ->]; tauto || done.
Qed.
Lemma pointer_shape segs : pointer segs = EmptyString \/ exists p, pointer segs = String "/"%char p.
Proof. destruct segs; simpl; eauto. Qed.

Lemma pointer_cons_inj s1 s2 segs1 segs2 :
  pointer (s1 :: segs1) = pointer (s2 :: segs2) -> seg_text s1 = seg_text s2 /\ pointer segs1 = pointer segs2.
Proof.
  simpl. intros [= E]. apply app_slash_inj; auto using seg_text_no_slash, pointer_shape.
Qed.

(** Within one value a pointer addresses one field. *)
Lemma pointer_identifies segs1 segs2 v x1 x2 :
  addresses segs1 v x1 -> addresses segs2 v x2 -> pointer segs1 = pointer segs2 -> segs1 = segs2 /\ x1 = x2.
Proof.
  intros H1. revert segs2 x2.
  induction H1 as [v Hv|m k x segs y Hk H1 IH|l i x segs y Hi H1 IH|l i m segs y Hi H1 IH]; intros segs2 x2 H2 E;
    inversion H2 as [?|? k' x' ? ? Hk' H2'|? i' x' ? ? Hi' H2'|? i' m' ? ? Hi' H2']; subst; try done; try by destruct Hv.
  - apply pointer_cons_inj in E as [E1 E2]. simpl in E1. apply escape_inj in E1 as <-.
    rewrite Hk in Hk'. injection Hk' as <-. by destruct (IH _ _ H2' E2) as [-> ->].
  - apply pointer_cons_inj in E as [E1 E2]. simpl in E1. apply itoa_inj, Nat2Z.inj in E1 as <-.
    rewrite Hi in Hi'. injection Hi' as <-. by destruct (IH _ _ H2' E2) as [-> ->].
  - apply pointer_cons_inj in E as [E1 E2]. simpl in E1. apply itoa_inj, Nat2Z.inj in E1 as <-.
    rewrite Hi in Hi'. injection Hi' as <-. by destruct (IH _ _ H2' E2) as [-> ->].
Qed.

(** ** Induction on nested values *)
Fixpoint any_size (v : any) : nat :=
  match v with
  | AMap m => S (map_fold (fun _ x acc => any_size x + acc) 0 m)
  | ASlice l => S (sum_list_with any_size l)
  | AMapSlice l => S (sum_list_with (fun m => S (map_fold (fun _ x acc => any_size x + acc) 0 m)) l)
  | _ => 1
  end.
Lemma map_fold_size {A} (f : A -> nat) (m : gmap string A) k x :
  m !! k = Some x -> f x <= map_fold (fun _ x acc => f x + acc) 0 m.
Proof.
  intros H%elem_of_map_to_list. rewrite map_fold_foldr.
  induction (map_to_list m) as [|[k' x'] l IH]; [by apply not_elem_of_nil in H|].
  apply elem_of_cons in H as [[= -> ->]|H]; simpl; [lia|]. specialize (IH H). lia.
Qed.
Lemma sum_list_size {A} (f : A -> nat) l i x : l !! i = Some x -> f x <= sum_list_with f l.
Proof.
  revert i. induction l as [|y l IH]; intros [|i]; simpl; try done; [intros [= ->]; lia|].
  intros H%IH. lia.
Qed.

Section flatten.
Context (sum8 : string -> string) (ref : ResourceRef) (at_ : Time).

Lemma app_nonempty_r p a : p +:+ String "/"%char a <> EmptyString.
Proof. by destruct p. Qed.

(** What flattening a value under a path gives: one source per field. *)
Definition fields_of (v : any) (path : string) (s : EvidenceSource) : Prop :=
  exists segs x, addresses segs v x /\ (path +:+ pointer segs <> EmptyString) /\
    s = fieldSource sum8 ref (path +:+ pointer segs) x at_.

Lemma concat_imap_elem {A B} (g : nat -> A -> list B) (l : list A) y :
  y ∈ mjoin (imap g l) <-> exists i x, l !! i = Some x /\ y ∈ g i x.
Proof.
  rewrite list_elem_of_join. split.
  - intros (l' & Hy & Hl). apply elem_of_lookup_imap_1 in Hl as (i & x & -> & Hx). eauto.
  - intros (i & x & Hx & Hy). exists (g i x). split; [done|]. by eapply elem_of_lookup_imap_2.
Qed.
Lemma child_pointer path k segs : child path k +:+ pointer segs = path +:+ pointer (SKey k :: segs).
Proof. unfold child. simpl. by rewrite <- !string_app_assoc. Qed.
Lemma item_pointer path i segs : item path i +:+ pointer segs = path +:+ pointer (SItem i :: segs).
Proof. unfold item. simpl. by rewrite <- !string_app_assoc. Qed.
Lemma pointer_cons_nonempty path s segs : path +:+ pointer (s :: segs) <> EmptyString.
Proof. simpl. apply app_nonempty_r. Qed.

(** The branch of a map, for a function that is right on its values. *)
Lemma flatten_map_elem m path s :
  (forall k x p, m !! k = Some x -> s ∈ flattenFields sum8 ref at_ x p <-> fields_of x p s) ->
  s ∈ mjoin (M := list) ((fun kf : string * (string -> list EvidenceSource) => kf.2 (child path kf.1)) <$>
      sorted_pairs (map_fold (fun k x acc => (k, fun p => flattenFields sum8 ref at_ x p) :: acc) [] m)) <->
  fields_of (AMap m) path s.
Proof.
  intros IH. rewrite list_elem_of_join. split.
  - intros (l & Hs & Hl). apply list_elem_of_fmap in Hl as ([k f] & -> & Hf).
    apply elem_of_sorted_fold in Hf as (x & Hx & ->). simpl in Hs. apply (IH k x) in Hs as (segs & y & Ha & _ & ->); [|done].
    exists (SKey k :: segs), y. rewrite child_pointer. split; [by econstructor|]. split; [apply pointer_cons_nonempty|done].
  - intros (segs & y & Ha & _ & ->). inversion Ha as [? Hc|? k x segs' ? Hk Ha'| |]; subst; [by destruct Hc|].
    eexists. split; [|apply list_elem_of_fmap; eexists (k, _); split; [done|]; apply elem_of_sorted_fold; eauto].
    simpl. apply (IH k x); [done|]. exists segs', y. rewrite child_pointer. split; [done|].
    split; [apply pointer_cons_nonempty|done].
Qed.

Lemma flattenFields_elem v path s : s ∈ flattenFields sum8 ref at_ v path <-> fields_of v path s.
Proof.
  remember (any_size v) as n eqn:Hn. revert v path Hn.
  induction (lt_wf n) as [n _ IH]. intros v path ->.
  assert (Hleaf : ~ composite v -> flattenFields sum8 ref at_ v path =
    (if decide (path = EmptyString) then [] else [fieldSource sum8 ref path v at_]) -> s ∈ flattenFields sum8 ref at_ v path <-> fields_of v path s).
  { intros Hc ->. split.
    - case_decide; [by intros ?%not_elem_of_nil|]. intros ->%list_elem_of_singleton. exists [], v. simpl.
      rewrite string_app_nil_r. split_and!; [by constructor|done|done].
    - intros (segs & x & Ha & Hp & ->). inversion Ha; subst; simpl in Hc; try tauto. simpl in *.
      rewrite string_app_nil_r in *. case_decide; [done|]. by apply list_elem_of_singleton. }
  destruct v as [| | | | | | | | | | |m|l|l]; try by (apply Hleaf; [intros []|reflexivity]).
  - apply flatten_map_elem. intros k x p Hx. eapply IH; [|done]. simpl. pose proof (map_fold_size any_size m k x Hx). lia.
  - simpl. rewrite concat_imap_elem. split.
    + intros (i & f & Hf & Hs). rewrite list_lookup_fmap in Hf. apply fmap_Some in Hf as (x & Hx & ->).
      apply (IH (any_size x)) in Hs as (segs & y & Ha & _ & ->); [|simpl; pose proof (sum_list_size any_size l i x Hx); lia|done].
      exists (SItem i :: segs), y. rewrite item_pointer. split; [by econstructor|]. split; [apply pointer_cons_nonempty|done].
    + intros (segs & y & Ha & _ & ->). inversion Ha as [? Hc| |? i x segs' ? Hi Ha'|]; subst; [by destruct Hc|].
      exists i, (fun p => flattenFields sum8 ref at_ x p). rewrite list_lookup_fmap, Hi. split; [done|].
      apply (IH (any_size x)); [|done|].
      { simpl. pose proof (sum_list_size any_size l i x Hi). lia. }
      exists segs', y. rewrite item_pointer. split; [done|]. split; [apply pointer_cons_nonempty|done].
  - simpl. rewrite concat_imap_elem.
    assert (Hm : forall i m p, l !! i = Some m -> s ∈ flattenFields sum8 ref at_ (AMap m) p <-> fields_of (AMap m) p s).
    { intros i m p Hi. eapply IH; [|done]. simpl.
      pose proof (sum_list_size (fun m => S (map_fold (fun _ x acc => any_size x + acc) 0 m)) l i m Hi) as H.
      simpl in H. lia. }
    split.
    + intros (i & f & Hf & Hs). rewrite list_lookup_fmap in Hf. apply fmap_Some in Hf as (m & Hx & ->).
      apply (Hm i m) in Hs as (segs & y & Ha & _ & ->); [|done].
      exists (SItem i :: segs), y. rewrite item_pointer. split; [by econstructor|]. split; [apply pointer_cons_nonempty|done].
    + intros (segs & y & Ha & _ & ->). inversion Ha as [? Hc| | |? i m segs' ? Hi Ha']; subst; [by destruct Hc|].
      eexists i, _. rewrite list_lookup_fmap, Hi. split; [reflexivity|].
      apply (Hm i m); [done|]. exists segs', y. rewrite item_pointer. split; [done|]. split; [apply pointer_cons_nonempty|done].
Qed.

(** Flattening a resource's fields gives exactly one kind of source: for every
    value that is neither a map nor a slice, wherever it is nested in maps, slices
    and slices of maps, the source whose path is its JSON pointer; and within one
    value a pointer addresses one field, whatever bytes the keys hold. *)
Theorem flatten_addresses_every_field v :
  (forall s, s ∈ flattenFields sum8 ref at_ v EmptyString <->
     exists segs x, addresses segs v x /\ segs <> [] /\ s = fieldSource sum8 ref (pointer segs) x at_) /\
  (forall s1 s2, s1 ∈ flattenFields sum8 ref at_ v EmptyString -> s2 ∈ flattenFields sum8 ref at_ v EmptyString ->
     es_Path s1 = es_Path s2 -> s1 = s2).
Proof.
  assert (H : forall s, s ∈ flattenFields sum8 ref at_ v EmptyString <->
     exists segs x, addresses segs v x /\ segs <> [] /\ s = fieldSource sum8 ref (pointer segs) x at_).
  { intros s. rewrite flattenFields_elem. unfold fields_of. split; intros (segs & x & Ha & Hne & ->); exists segs, x.
    - split; [done|]. split; [|done]. by intros ->.
    - split; [done|]. split; [|done]. destruct segs; [done|]. apply (pointer_cons_nonempty EmptyString). }
  split; [exact H|]. intros s1 s2 (g1 & x1 & Ha1 & _ & ->)%H (g2 & x2 & Ha2 & _ & ->)%H Hp. simpl in Hp.
  by destruct (pointer_identifies _ _ _ _ _ Ha1 Ha2 Hp) as [-> ->].
Qed.
End flatten.

(** ** The catalogue *)
Section catalog_proofs.
Context (sum8 : string -> string).

Lemma dedupe_sublist seen l : dedupe seen l `sublist_of` l.
Proof.
  revert seen. induction l as [|s l IH]; intros seen; simpl; [done|].
  case_decide; [by apply sublist_cons|by apply sublist_skip].
Qed.
Lemma dedupe_fresh seen l s : s ∈ dedupe seen l -> es_ID s ∉ seen.
Proof.
  revert seen. induction l as [|x l IH]; intros seen; simpl; [by intros ?%not_elem_of_nil|].
  case_decide as Hx; [apply IH|]. intros [-> |Hs]%elem_of_cons; [done|]. apply IH in Hs. set_solver.
Qed.
Lemma dedupe_nodup seen l : NoDup (es_ID <$> dedupe seen l).
Proof.
  revert seen. induction l as [|x l IH]; intros seen; simpl; [constructor|].
  case_decide as Hx; [apply IH|]. simpl. constructor; [|apply IH].
  intros (s & Hid & Hs)%list_elem_of_fmap. apply dedupe_fresh in Hs. rewrite <- Hid in Hs. set_solver.
Qed.
Lemma dedupe_keeps_first seen l1 s l2 :
  es_ID s ∉ seen -> Forall (fun x => es_ID x <> es_ID s) l1 -> s ∈ dedupe seen (l1 ++ s :: l2).
Proof.
  revert seen. induction l1 as [|x l1 IH]; intros seen Hs Hl; simpl.
  - rewrite decide_False by done. by left.
  - inversion Hl; subst. case_decide; [by apply IH|]. right. apply IH; [set_solver|done].
Qed.

(** The catalogue lists a subsequence of the collected sources, no two with the
    same identifier, and for every source collected the first one collected under
    its identifier. *)
Theorem catalog_ids_unique ev :
  BuildSourceCatalog sum8 ev `sublist_of` allSources sum8 ev /\
  NoDup (es_ID <$> BuildSourceCatalog sum8 ev) /\
  forall s, s ∈ allSources sum8 ev -> exists l1 s1 l2,
    allSources sum8 ev = l1 ++ s1 :: l2 /\ es_ID s1 = es_ID s /\ Forall (fun x => es_ID x <> es_ID s) l1 /\
    s1 ∈ BuildSourceCatalog sum8 ev.
Proof.
  unfold BuildSourceCatalog, dedupeSources. split_and!; [apply dedupe_sublist|apply dedupe_nodup|].
  intros s Hs. destruct (split_first (fun x => es_ID x = es_ID s) (allSources sum8 ev) s) as (l1 & s1 & l2 & -> & Hid & Hl); [done|done|].
  exists l1, s1, l2. split_and!; try done. apply dedupe_keeps_first; [set_solver|]. by rewrite Hid.
Qed.

(** A Deployment as the collector describes it: [Spec.Replicas] is a [*int32]. *)
Definition deployment_ref : ResourceRef := mkRef "shop" "Deployment" "web" "apps".
Definition deployment_evidence (address : string) : Evidence :=
  mkEvidence 2 "run-1" "incident-1" 0 deployment_ref [] [] [] [] EmptyString
    [mkRelatedResourceEvidence deployment_ref "root" [] EmptyString (Some {[ "replicas" := APtr address ]})] [].

Lemma deployment_catalog address :
  BuildSourceCatalog sum8 (deployment_evidence address) = [fieldSource sum8 deployment_ref "/replicas" (APtr address) 0].
Proof. unfold BuildSourceCatalog, allSources, relatedSources, deployment_evidence. simpl. rewrite map_fold_singleton. reflexivity. Qed.

(** The identifier of a field whose value is a pointer is computed from the
    address, so it is not a function of the cluster: the same Deployment collected
    twice, its replica count at two addresses, gives catalogues with no identifier
    in common unless the digests of the two texts collide. *)
Theorem pointer_fields_change_ids a1 a2 :
  sum8 ("field|apps|Deployment|shop|web|/replicas|" +:+ a1) <> sum8 ("field|apps|Deployment|shop|web|/replicas|" +:+ a2) ->
  forall id, id ∈ es_ID <$> BuildSourceCatalog sum8 (deployment_evidence a1) ->
    id ∉ es_ID <$> BuildSourceCatalog sum8 (deployment_evidence a2).
Proof.
  intros Hne id. rewrite !deployment_catalog. simpl. intros ->%list_elem_of_singleton H%list_elem_of_singleton.
  apply Hne. unfold sourceID in H. simpl in H. injection H as H. exact H.
Qed.
End catalog_proofs.

Theorem pointer_fields_change_ids_witness :
  es_ID (fieldSource id deployment_ref "/replicas" (APtr "0xc000012340") 0) ∉
    es_ID <$> BuildSourceCatalog id (deployment_evidence "0xc000056780").
Proof.
  apply (pointer_fields_change_ids id "0xc000012340" "0xc000056780"); [discriminate|].
  rewrite deployment_catalog. by left.
Defined.
