(* ===== verification/GraphEngine.v ===== *)
(** * The investigation graph (services/diagnostics-worker/graphengine)

    engine.go turns one evidence snapshot into a bounded graph.  The builder's
    maps are [gmap]s; a loop that ranges over a Go map takes the order it visits
    from a [ranger], which may list the entries differently at every loop, so the
    theorems hold for every order Go may choose.  Every such loop of the engine
    that inserts nodes while it ranges inserts only nodes its own guard skips, so
    ranging over a snapshot is the same.  [sum8] is the hexadecimal text of the
    first eight bytes of a SHA-256 sum.  Counts and scores are small, so their
    sums are exact. *)

From Stdlib Require Import Ascii.
From stdpp Require Import sorting.
From stdpp Require Import prelude gmap strings list.
From S2P Require Import Prelude GoBase Collector.

(** ** The graph (collector/types.go) *)
Record GraphPolicy := mkGraphPolicy {
  gp_MaxObservedDepth : Z;
  gp_MaxInferredHops : Z;
  gp_MaxNodes : Z;
  gp_MaxEdges : Z;
  gp_MaxCandidatesPerGap : Z;
  gp_StrongThreshold : Z;
  gp_PossibleThreshold : Z;
}.
Record CandidateReason := mkCandidateReason { gr_Code : string; gr_Label : string; gr_SourceIDs : list string }.
Record GraphNode := mkGraphNode {
  gn_ID : string;
  gn_Type : string;
  gn_Resource : ResourceRef;
  gn_State : string;
  gn_Role : string;
  gn_Attributes : gmap string any;
  gn_SourceIDs : list string;
}.
Record GraphEdge := mkGraphEdge {
  ge_ID : string;
  ge_Type : string;
  ge_From : string;
  ge_To : string;
  ge_State : string;
  ge_Origin : string;
  ge_Strength : string;
  ge_Score : Z;
  ge_Reasons : list CandidateReason;
  ge_Attributes : gmap string any;
  ge_SourceIDs : list string;
}.
Record GraphCandidate := mkGraphCandidate {
  gc_ID : string;
  gc_SourceNodeID : string;
  gc_ReferenceNodeID : string;
  gc_CandidateNodeID : string;
  gc_Score : Z;
  gc_Strength : string;
  gc_Reasons : list CandidateReason;
}.
Record InvestigationGraph := mkInvestigationGraph {
  ig_SchemaVersion : Z;
  ig_EntryResourceID : string;
  ig_Policy : GraphPolicy;
  ig_Truncated : bool;
  ig_Nodes : list GraphNode;
  ig_Edges : list GraphEdge;
  ig_Candidates : list GraphCandidate;
}.

(** ** Values read from attributes *)
Definition aget (m : gmap string any) (k : string) : any := default ANil (m !! k).
(** [v, _ := raw.(map[string]any)] *)
Definition as_map (v : any) : gmap string any := match v with AMap m => m | _ => ∅ end.
Definition stringMap (value : any) : gmap string string :=
  match value with
  | AStrMap m => m
  | AMap m => sprint <$> m
  | _ => ∅
  end.
Definition anySlice (value : any) : list any :=
  match value with
  | ASlice l => l
  | AMapSlice l => AMap <$> l
  | _ => []
  end.
Definition mapValue (value : any) : gmap string any :=
  match value with
  | AMap m => m
  | AStrMap m => AStr <$> m
  | _ => ∅
  end.
Definition intValue (value : any) : Z :=
  match value with
  | AInt z | AInt32 z | AInt64 z => z
  | AFloat64 _ whole => whole
  | _ => atoi_value (sprint value)
  end.
Definition labelsMatch (selector labels : gmap string string) : bool :=
  negb (bool_decide (selector = ∅)) &&
  forallb (fun kv => bool_decide (mget labels kv.1 = kv.2)) (map_to_list selector).
Definition serviceHasPort (value target : any) : bool :=
  let wanted := sprint target in
  if existsb (fun raw => match raw with
       | AMap port => bool_decide (sprint (aget port "port") = wanted) || bool_decide (sprint (aget port "name") = wanted)
       | _ => false
       end) (anySlice value) then true
  else match parse_int wanted with
       | Some n => bool_decide (0 < n)%Z && bool_decide (length (anySlice value) = 0)
       | None => false
       end.

(** ** Identifiers *)
Definition apiGroup (ref : ResourceRef) : string :=
  if decide (cr_APIGroup ref <> EmptyString) then cr_APIGroup ref
  else if str_in (cr_Kind ref) ["Deployment"; "ReplicaSet"; "StatefulSet"; "DaemonSet"] then "apps"
  else if decide (cr_Kind ref = "HorizontalPodAutoscaler") then "autoscaling"
  else if decide (cr_Kind ref = "EndpointSlice") then "discovery.k8s.io"
  else if str_in (cr_Kind ref) ["Ingress"; "NetworkPolicy"] then "networking.k8s.io"
  else if str_in (cr_Kind ref) ["Job"; "CronJob"] then "batch"
  else "core".
Definition nodeID (kind : string) (ref : ResourceRef) : string :=
  join ":" [kind; apiGroup ref; cr_Kind ref; cr_Namespace ref; cr_Name ref].
Definition resourceKey (ref : ResourceRef) : string :=
  join "|" [apiGroup ref; to_lower (cr_Kind ref); cr_Namespace ref; cr_Name ref].
Definition sameResource (left right : ResourceRef) : bool :=
  equal_fold (cr_Kind left) (cr_Kind right) && bool_decide (cr_Namespace left = cr_Namespace right) &&
  bool_decide (cr_Name left = cr_Name right) && bool_decide (apiGroup left = apiGroup right).
Definition isWorkloadKind (kind : string) : bool :=
  str_in kind ["Deployment"; "StatefulSet"; "DaemonSet"; "Job"; "CronJob"].
Definition edgeState (missing : bool) : string := if missing then "broken" else "resolved".
Definition withState (node : GraphNode) (state : string) : GraphNode :=
  mkGraphNode (gn_ID node) (gn_Type node) (gn_Resource node) state (gn_Role node) (gn_Attributes node) (gn_SourceIDs node).
(** [withoutState]; a nil map has nothing to lose. *)
Definition withoutState (values : gmap string any) : gmap string any := delete "state" values.

Fixpoint dedupStrings (seen : gset string) (values : list string) : list string :=
  match values with
  | [] => []
  | v :: values' =>
      if decide (v <> EmptyString /\ v ∉ seen) then v :: dedupStrings ({[v]} ∪ seen) values' else dedupStrings seen values'
  end.
Definition sort_strings (l : list string) : list string := sort_slice str_lt l.
Definition uniqueSorted (values : list string) : list string := sort_strings (dedupStrings ∅ values).

(** ** SelectorInferenceScore *)
Definition selectorKeyWeight (key : string) : Z :=
  if str_in key ["app.kubernetes.io/instance"; "app.kubernetes.io/name"] then 4
  else if decide (key = "app") then 3
  else if str_in key ["component"; "app.kubernetes.io/component"] then 2
  else 1.
Definition matchedLabels (selector labels : gmap string string) : gmap string string :=
  filter (fun kv => labels !! kv.1 = Some kv.2) selector.
Definition conflictingLabels (selector labels : gmap string string) : gmap string (gmap string string) :=
  map_imap (fun key expected => actual ← labels !! key;
    if decide (actual = expected) then None else Some {[ "expected" := expected; "actual" := actual ]}) selector.
Definition weight_sum (m : gmap string string) : Z := map_fold (fun key _ acc => selectorKeyWeight key + acc)%Z 0%Z m.
Definition SelectorInferenceScore (selector labels : gmap string string)
    : Z * gmap string string * gmap string (gmap string string) :=
  let matched := matchedLabels selector labels in
  let conflicts := conflictingLabels selector labels in
  let matchedWeight := weight_sum matched in
  let totalWeight := weight_sum selector in
  if decide (totalWeight = 0 \/ matchedWeight = 0)%Z then (0%Z, matched, conflicts)
  else (Z.quot (matchedWeight * 100) totalWeight, matched, conflicts).

Definition systemIdentity (attributes : gmap string any) : string :=
  let labels := stringMap (aget attributes "labels") in
  match list_find (fun key => mget labels key <> EmptyString)
          ["kubechan.io/system"; "app.kubernetes.io/part-of"; "app.kubernetes.io/instance"] with
  | Some (_, key) => key +:+ "=" +:+ mget labels key
  | None => EmptyString
  end.

Definition DefaultPolicy : GraphPolicy := mkGraphPolicy 4 1 50 150 5 100 60.

(** ** The builder *)
Record builder := mkBuilder {
  gb_nodes : gmap string GraphNode;
  gb_edges : gmap string GraphEdge;
  gb_candidates : gmap string GraphCandidate;
}.
Definition set_nodes (f : gmap string GraphNode -> gmap string GraphNode) (b : builder) : builder :=
  mkBuilder (f (gb_nodes b)) (gb_edges b) (gb_candidates b).
Definition put_node (id : string) (n : GraphNode) : builder -> builder := set_nodes <[id := n]>.
Definition put_edge (e : GraphEdge) (b : builder) : builder :=
  mkBuilder (gb_nodes b) (<[ge_ID e := e]> (gb_edges b)) (gb_candidates b).
Definition put_candidate (c : GraphCandidate) (b : builder) : builder :=
  mkBuilder (gb_nodes b) (gb_edges b) (<[gc_ID c := c]> (gb_candidates b)).

(** The order in which a loop, named by its text label, visits a map. *)
Definition ranger : Type := string -> gmap string GraphNode -> list (string * GraphNode).
Definition ranger_ok (range : ranger) : Prop := forall label m, range label m ≡ₚ map_to_list m.

Section engine.
Context (sum8 : string -> string) (range : ranger) (ev : Evidence) (policy : GraphPolicy).

Definition stableID (prefix : string) (parts : list string) : string := prefix +:+ ":" +:+ sum8 (join "|" parts).

(** [b.sources], fixed once the constructor has filled it. *)
Definition sources : gmap string (list EvidenceSource) :=
  foldl (fun m source => let key := resourceKey (es_Resource source) in <[key := default [] (m !! key) ++ [source]]> m)
    ∅ (ed_Sources ev).
Definition sourceIDs (ref : ResourceRef) (pathContains : string) : list string :=
  uniqueSorted (es_ID <$> filter (fun source => pathContains = EmptyString \/ contains (es_Path source) pathContains = true)
    (default [] (sources !! resourceKey ref))).

Definition addResource (ref : ResourceRef) (role : string) (attributes : gmap string any) (b : builder) : string * builder :=
  let id := nodeID "resource" ref in
  let current := gb_nodes b !! id in
  let merged := withoutState attributes ∪ from_option gn_Attributes ∅ current in
  let state0 := match current with
    | Some c => if decide (gn_State c <> EmptyString) then gn_State c else "present"
    | None => "present"
    end in
  let role' := match current with
    | Some c => if decide (role = "context" \/ role = "dependency") then gn_Role c else role
    | None => role
    end in
  let state := match attributes !! "state" with Some raw => sprint raw | None => state0 end in
  (id, put_node id (mkGraphNode id "resource" ref state role' merged (sourceIDs ref EmptyString)) b).

Definition addDependency (ref : ResourceRef) (missing : bool) (b : builder) : string * builder :=
  if missing then
    let id := nodeID "reference" ref in
    (id, put_node id (mkGraphNode id "reference" ref "missing" "dependency" ∅ (sourceIDs ref "/exists")) b)
  else addResource ref "dependency" ∅ b.

Definition addEdge (kind from to state : string) (attributes : gmap string any) (ids : list string) (b : builder) : builder :=
  put_edge (mkGraphEdge (stableID "edge" [kind; from; to]) kind from to state "observed" EmptyString 0 [] attributes
    (uniqueSorted ids)) b.
Definition addInferredEdge (kind from to : string) (score : Z) (reasons : list CandidateReason)
    (attributes : gmap string any) (ids : list string) (b : builder) : builder :=
  let strength := if decide (gp_StrongThreshold policy <= score)%Z then "strong" else "possible" in
  put_edge (mkGraphEdge (stableID "edge" ["inferred"; kind; from; to]) kind from to "proposed" "inferred" strength score
    reasons attributes (uniqueSorted ids)) b.

(** *** The first loops of BuildWithPolicy *)
Definition relatedRole (related : RelatedResourceEvidence) : string :=
  if sameResource (re_Resource related) (ed_RootResource ev) then "entry"
  else if decide (re_DiscoveryOrigin related = "automatic") then "discovered" else "related".
Definition addRelated (b : builder) (related : RelatedResourceEvidence) : builder :=
  (addResource (re_Resource related) (relatedRole related) (default ∅ (re_Spec related)) b).2.

Definition ownerEdge (ref : ResourceRef) (podID : string) (b : builder) (owner : ResourceRef) : builder :=
  let ownerID := nodeID "resource" owner in
  match gb_nodes b !! ownerID with
  | Some _ => addEdge "owns" ownerID podID "resolved" ∅ (sourceIDs ref "/owners") b
  | None => b
  end.
Definition configMapEdge (ref : ResourceRef) (podID : string) (b : builder) (cm : ConfigMapRef) : builder :=
  let dep := mkRef (cr_Namespace ref) "ConfigMap" (cm_Name cm) EmptyString in
  let '(target, b) := addDependency dep (cm_Missing cm) b in
  addEdge "configured_by" podID target (edgeState (cm_Missing cm)) {[ "mountPaths" := AStrSlice (cm_MountPaths cm) ]}
    (sourceIDs dep "/exists") b.
Definition secretEdge (ref : ResourceRef) (podID : string) (b : builder) (secret : SecretRef) : builder :=
  let dep := mkRef (cr_Namespace ref) "Secret" (sr_Name secret) EmptyString in
  let '(target, b) := addDependency dep (sr_Missing secret) b in
  addEdge "uses_secret" podID target (edgeState (sr_Missing secret)) ∅ (sourceIDs dep "/exists") b.
Definition pvcEdge (ref : ResourceRef) (podID : string) (b : builder) (pvcName : string) : builder :=
  let pvcRef := mkRef (cr_Namespace ref) "PersistentVolumeClaim" pvcName EmptyString in
  addEdge "mounts" podID (nodeID "resource" pvcRef) "resolved" ∅ (sourceIDs pvcRef EmptyString) b.

Definition addPod (entry : string) (b : builder) (pod : PodLogs) : builder :=
  let ref := mkRef (cr_Namespace (ed_RootResource ev)) "Pod" (pl_PodName pod) EmptyString in
  let state := if str_in (pl_Phase pod) ["Running"; "Succeeded"] then "healthy" else "degraded" in
  let '(podID, b) := addResource ref "workload"
    (<["phase" := AStr (pl_Phase pod)]> (<["labels" := AStrMap (pl_Labels pod)]> {[ "state" := AStr state ]})) b in
  let b := foldl (ownerEdge ref podID) b (pl_Owners pod) in
  let b := if decide (length (pl_Owners pod) = 0 /\ isWorkloadKind (cr_Kind (ed_RootResource ev)) = true)
           then addEdge "owns" entry podID "resolved" ∅ [] b else b in
  let b := match pl_Dependencies pod with
           | None => b
           | Some deps => foldl (secretEdge ref podID) (foldl (configMapEdge ref podID) b (pd_ConfigMaps deps)) (pd_Secrets deps)
           end in
  foldl (pvcEdge ref podID) b (pl_PVCNames pod).

Definition addPVC (b : builder) (pvc : PVCInfo) : builder :=
  let ref := mkRef (cr_Namespace (ed_RootResource ev)) "PersistentVolumeClaim" (pv_Name pvc) EmptyString in
  let state := if decide (pv_Phase pvc = "Bound") then "healthy" else "degraded" in
  (addResource ref "dependency"
    (<["phase" := AStr (pv_Phase pvc)]> (<["storageClass" := AStr (pv_StorageClass pvc)]> {[ "state" := AStr state ]})) b).2.

(** *** connectServicesToPods *)
Definition selectedPod (selector : gmap string string) (namespace : string) (pod : GraphNode) : bool :=
  bool_decide (cr_Kind (gn_Resource pod) = "Pod") && bool_decide (cr_Namespace (gn_Resource pod) = namespace) &&
  labelsMatch selector (stringMap (aget (gn_Attributes pod) "labels")).

Record ranked := mkRanked {
  rk_id : string; rk_score : Z; rk_reasons : list CandidateReason;
  rk_attrs : gmap string any; rk_sources : list string;
}.
Definition ranked_less (x y : ranked) : bool :=
  if decide (rk_score x = rk_score y) then str_lt (rk_id x) (rk_id y) else bool_decide (rk_score y < rk_score x)%Z.

Definition templateLabels (workload : GraphNode) : gmap string string :=
  let labels := stringMap (aget (gn_Attributes workload) "templateLabels") in
  if decide (labels = ∅) then stringMap (aget (gn_Attributes workload) "labels") else labels.
Definition nat_text (n : nat) : string := itoa (Z.of_nat n).
(** The body of the loop over the workloads. *)
Definition rankWorkload (service : GraphNode) (selector : gmap string string) (workloadID : string) (workload : GraphNode)
    : option ranked :=
  if decide (gn_Type workload <> "resource" \/ cr_Namespace (gn_Resource workload) <> cr_Namespace (gn_Resource service) \/
             isWorkloadKind (cr_Kind (gn_Resource workload)) = false) then None else
  let '(score, matched, conflicts) := SelectorInferenceScore selector (templateLabels workload) in
  if decide ((score < gp_PossibleThreshold policy)%Z \/ size matched = 0) then None else
  let serviceSystem := systemIdentity (gn_Attributes service) in
  let workloadSystem := systemIdentity (gn_Attributes workload) in
  if decide (serviceSystem <> EmptyString /\ workloadSystem <> EmptyString /\ serviceSystem <> workloadSystem) then None else
  let both := uniqueSorted (sourceIDs (gn_Resource service) "/selector" ++ sourceIDs (gn_Resource workload) "/templateLabels") in
  let partial := mkCandidateReason "selector_partial_match"
    ("selector matches " +:+ nat_text (size matched) +:+ " label(s) with " +:+ nat_text (size conflicts) +:+ " conflict(s)") both in
  let renamed := bool_decide (mget (stringMap (aget (gn_Attributes service) "annotations")) "kubechan.io/renamed-from"
                              = cr_Name (gn_Resource workload)) in
  let same := bool_decide (serviceSystem <> EmptyString /\ serviceSystem = workloadSystem) in
  Some (mkRanked workloadID (score + (if renamed then 100 else 0) + (if same then 80 else 0))%Z
    ([partial] ++
     (if renamed then [mkCandidateReason "renamed_from"
        ("Service was renamed from workload name " +:+ cr_Name (gn_Resource workload)) (sourceIDs (gn_Resource service) "/annotations")] else []) ++
     (if same then [mkCandidateReason "same_system" "resources share application identity"
        (uniqueSorted (sourceIDs (gn_Resource service) "/labels" ++ sourceIDs (gn_Resource workload) "/labels"))] else []))
    (<["matchedLabels" := AStrMap matched]> (<["conflictingLabels" := AStrMapMap conflicts]> {[ "selector" := AStrMap selector ]}))
    both).
Definition inferServiceWorkloads (serviceID : string) (service : GraphNode) (selector : gmap string string) (b : builder) : builder :=
  let candidates := omap (fun idn => rankWorkload service selector idn.1 idn.2) (range ("infer " +:+ serviceID) (gb_nodes b)) in
  let kept := take (Z.to_nat (gp_MaxCandidatesPerGap policy)) (sort_slice ranked_less candidates) in
  foldl (fun b c => addInferredEdge "possible_selector_target" serviceID (rk_id c) (rk_score c) (rk_reasons c) (rk_attrs c) (rk_sources c) b)
    b kept.

Definition connectService (b : builder) (idn : string * GraphNode) : builder :=
  let '(serviceID, node) := idn in
  if decide (gn_Type node <> "resource" \/ cr_Kind (gn_Resource node) <> "Service") then b else
  let selector := stringMap (aget (gn_Attributes node) "selector") in
  if decide (selector = ∅) then b else
  let pods := filter (fun p => selectedPod selector (cr_Namespace (gn_Resource node)) p.2 = true)
                (range ("pods of " +:+ serviceID) (gb_nodes b)) in
  let b := foldl (fun b p => addEdge "selects" serviceID p.1 "resolved" {[ "selector" := AStrMap selector ]}
                    (sourceIDs (gn_Resource node) "/selector") b) b pods in
  match pods with
  | [] => inferServiceWorkloads serviceID node selector (put_node serviceID (withState node "degraded") b)
  | _ => b
  end.
Definition connectServicesToPods (b : builder) : builder := foldl connectService b (range "services" (gb_nodes b)).

(** *** connectWorkloadsToPods *)
Definition connectWorkload (b : builder) (idn : string * GraphNode) : builder :=
  let '(workloadID, workload) := idn in
  if negb (isWorkloadKind (cr_Kind (gn_Resource workload))) then b else
  let labels := stringMap (aget (gn_Attributes workload) "templateLabels") in
  if decide (labels = ∅) then b else
  foldl (fun b p =>
      if selectedPod labels (cr_Namespace (gn_Resource workload)) p.2 then
        addEdge "manages" workloadID p.1 "resolved" {[ "templateLabels" := AStrMap labels ]}
          (sourceIDs (gn_Resource workload) "/templateLabels") b
      else b) b (range ("pods of " +:+ workloadID) (gb_nodes b)).
Definition connectWorkloadsToPods (b : builder) : builder := foldl connectWorkload b (range "workloads" (gb_nodes b)).

(** *** connectIngressesToServices *)
Definition selectorMatchesWorkload (selector : gmap string string) (namespace : string) (b : builder) : bool :=
  negb (bool_decide (selector = ∅)) &&
  existsb (fun idn => selectedPod selector namespace idn.2) (map_to_list (gb_nodes b)).
(** The body of the loop over the services. *)
Definition rankService (sourceID referenceID : string) (ref : ResourceRef) (ingressPath : gmap string any)
    (b : builder) (idn : string * GraphNode) : builder :=
  let '(candidateID, node) := idn in
  if decide (gn_Type node <> "resource" \/ cr_Kind (gn_Resource node) <> "Service" \/
             cr_Namespace (gn_Resource node) <> cr_Namespace ref) then b else
  let renamed := bool_decide (mget (stringMap (aget (gn_Attributes node) "annotations")) "kubechan.io/renamed-from" = cr_Name ref) in
  let selects := selectorMatchesWorkload (stringMap (aget (gn_Attributes node) "selector")) (cr_Namespace (gn_Resource node)) b in
  let port := serviceHasPort (aget (gn_Attributes node) "ports") (aget ingressPath "backendPort") in
  let score := ((if renamed then 100 else 0) + (if selects then 40 else 0) + (if port then 20 else 0))%Z in
  let reasons :=
    (if renamed then [mkCandidateReason "renamed_from" ("Service was renamed from " +:+ cr_Name ref) (sourceIDs (gn_Resource node) "/annotations")] else []) ++
    (if selects then [mkCandidateReason "selects_workload" "Selector matches the reported workload" (sourceIDs (gn_Resource node) "/selector")] else []) ++
    (if port then [mkCandidateReason "matching_port" "Service exposes the referenced port" (sourceIDs (gn_Resource node) "/ports")] else []) in
  if decide (score < 40)%Z then b else
  let strength := if decide (100 <= score)%Z then "strong" else "possible" in
  put_candidate (mkGraphCandidate (stableID "candidate" [referenceID; candidateID]) sourceID referenceID candidateID
    score strength reasons) b.
(** [ref] is read from the reference node itself. *)
Definition rankServiceCandidates (label sourceID referenceID : string) (ingressPath : gmap string any) (b : builder) : builder :=
  match gb_nodes b !! referenceID with
  | Some refNode => foldl (rankService sourceID referenceID (gn_Resource refNode) ingressPath) b (range label (gb_nodes b))
  | None => foldl (rankService sourceID referenceID (mkRef EmptyString EmptyString EmptyString EmptyString) ingressPath) b
              (range label (gb_nodes b))
  end.

(** The text of a value that must be present: not empty and not ["<nil>"]. *)
Definition present (s : string) : bool := bool_decide (s <> EmptyString) && bool_decide (s <> "<nil>").
Definition routePath (ingressID : string) (node : GraphNode) (ruleIndex : nat) (b : builder) (ip : nat * any) : builder :=
  let '(pathIndex, rawPath) := ip in
  let path := as_map rawPath in
  let name := sprint (aget path "backendService") in
  if negb (present name) then b else
  let targetRef := mkRef (cr_Namespace (gn_Resource node)) "Service" name EmptyString in
  let found := bool_decide (is_Some (gb_nodes b !! nodeID "resource" targetRef)) in
  let targetID := nodeID (if found then "resource" else "reference") targetRef in
  let state := if found then "resolved" else "broken" in
  let b := if found then b
           else put_node targetID (mkGraphNode targetID "reference" targetRef "missing" "referenced" ∅ []) b in
  let pathPointer := "/rules/" +:+ nat_text ruleIndex +:+ "/paths/" +:+ nat_text pathIndex +:+ "/backendService" in
  let b := addEdge "routes_to" ingressID targetID state
    (<["path" := aget path "path"]> (<["port" := aget path "backendPort"]> {[ "fieldPath" := AStr pathPointer ]}))
    (sourceIDs (gn_Resource node) pathPointer) b in
  if found then b else rankServiceCandidates ("rank " +:+ ingressID +:+ pathPointer) ingressID targetID path b.
Definition indexed {A} (l : list A) : list (nat * A) := imap pair l.
Definition routeRule (ingressID : string) (node : GraphNode) (b : builder) (ir : nat * any) : builder :=
  let '(ruleIndex, rawRule) := ir in
  foldl (routePath ingressID node ruleIndex) b (indexed (anySlice (aget (as_map rawRule) "paths"))).
Definition connectIngress (b : builder) (idn : string * GraphNode) : builder :=
  let '(ingressID, node) := idn in
  if decide (gn_Type node <> "resource" \/ cr_Kind (gn_Resource node) <> "Ingress") then b else
  foldl (routeRule ingressID node) b (indexed (anySlice (aget (gn_Attributes node) "rules"))).
Definition connectIngressesToServices (b : builder) : builder := foldl connectIngress b (range "ingresses" (gb_nodes b)).

(** *** connectWorkloadDependencies *)
Definition dependencyEdgeType (kind : string) : string :=
  if decide (kind = "ConfigMap") then "configured_by"
  else if decide (kind = "Secret") then "uses_secret"
  else if decide (kind = "PersistentVolumeClaim") then "mounts" else "references".
(** [exists, ok := v.(bool); ok && !exists] *)
Definition known_absent (v : any) : bool := match v with ABool b => negb b | _ => false end.
Definition dependencyEdge (workloadID : string) (node : GraphNode) (b : builder) (ir : nat * any) : builder :=
  let '(index, raw) := ir in
  let dep := as_map raw in
  let kind := sprint (aget dep "kind") in
  let name := sprint (aget dep "name") in
  if decide (kind = EmptyString \/ present name = false) then b else
  let ref := mkRef (cr_Namespace (gn_Resource node)) kind name EmptyString in
  let ids := sourceIDs (gn_Resource node) ("/dependencies/" +:+ nat_text index) in
  let absent := known_absent (aget dep "exists") in
  let targetID := nodeID (if absent then "reference" else "resource") ref in
  let state := if absent then "broken" else "resolved" in
  let b := if absent then put_node targetID (mkGraphNode targetID "reference" ref "missing" "dependency" ∅ ids) b
           else match gb_nodes b !! targetID with
                | Some _ => b
                | None => put_node targetID (mkGraphNode targetID "resource" ref "present" "dependency" ∅ []) b
                end in
  addEdge (dependencyEdgeType kind) workloadID targetID state {[ "fieldPath" := aget dep "fieldPath" ]} ids b.
Definition connectDependencies (b : builder) (idn : string * GraphNode) : builder :=
  let '(workloadID, node) := idn in
  if negb (isWorkloadKind (cr_Kind (gn_Resource node))) then b else
  foldl (dependencyEdge workloadID node) b (indexed (anySlice (aget (gn_Attributes node) "dependencies"))).
Definition connectWorkloadDependencies (b : builder) : builder :=
  foldl connectDependencies b (range "dependencies" (gb_nodes b)).

(** *** connectAutoscalers, connectEndpointSlices, connectPVCStorageClasses *)
Definition scaleTarget (attributes : gmap string any) : gmap string any :=
  let target := mapValue (aget attributes "scaleTargetRef") in
  if decide (target = ∅) then mapValue (aget (mapValue (aget attributes "spec")) "scaleTargetRef") else target.
Definition connectAutoscaler (b : builder) (idn : string * GraphNode) : builder :=
  let '(scalerID, node) := idn in
  if negb (str_in (cr_Kind (gn_Resource node)) ["HorizontalPodAutoscaler"; "ScaledObject"]) then b else
  let target := scaleTarget (gn_Attributes node) in
  let kind := sprint (aget target "kind") in
  let name := sprint (aget target "name") in
  if negb (present kind && present name) then b else
  let ref := mkRef (cr_Namespace (gn_Resource node)) kind name "apps" in
  let found := bool_decide (is_Some (gb_nodes b !! nodeID "resource" ref)) in
  let targetID := nodeID (if found then "resource" else "reference") ref in
  let b := if found then b
           else put_node targetID (mkGraphNode targetID "reference" ref "missing" "referenced" ∅ []) b in
  addEdge "scales" scalerID targetID (if found then "resolved" else "broken") ∅ (sourceIDs (gn_Resource node) "scaleTargetRef") b.
Definition connectAutoscalers (b : builder) : builder := foldl connectAutoscaler b (range "autoscalers" (gb_nodes b)).

Definition connectEndpointSlice (b : builder) (idn : string * GraphNode) : builder :=
  let '(sliceID, node) := idn in
  if decide (cr_Kind (gn_Resource node) <> "EndpointSlice") then b else
  let serviceName := sprint (aget (gn_Attributes node) "serviceName") in
  if negb (present serviceName) then b else
  let serviceID := nodeID "resource" (mkRef (cr_Namespace (gn_Resource node)) "Service" serviceName EmptyString) in
  match gb_nodes b !! serviceID with
  | None => b
  | Some service =>
      let empty := bool_decide (intValue (aget (gn_Attributes node) "readyEndpoints") = 0%Z) in
      let b := if empty then put_node serviceID (withState service "degraded") b else b in
      addEdge "has_endpoints" serviceID sliceID (if empty then "empty" else "resolved")
        (<["readyEndpoints" := aget (gn_Attributes node) "readyEndpoints"]>
          {[ "notReadyEndpoints" := aget (gn_Attributes node) "notReadyEndpoints" ]})
        (sourceIDs (gn_Resource node) EmptyString) b
  end.
Definition connectEndpointSlices (b : builder) : builder := foldl connectEndpointSlice b (range "slices" (gb_nodes b)).

Definition connectPVC (b : builder) (idn : string * GraphNode) : builder :=
  let '(pvcID, node) := idn in
  if decide (cr_Kind (gn_Resource node) <> "PersistentVolumeClaim") then b else
  let name := sprint (aget (gn_Attributes node) "storageClass") in
  if negb (present name) then b else
  let ref := mkRef EmptyString "StorageClass" name "storage.k8s.io" in
  let absent := known_absent (aget (gn_Attributes node) "storageClassExists") in
  let targetID := nodeID (if absent then "reference" else "resource") ref in
  let b := if absent then put_node targetID (mkGraphNode targetID "reference" ref "missing" "dependency" ∅ []) b
           else (addResource ref "dependency" ∅ b).2 in
  addEdge "uses_storage_class" pvcID targetID (if absent then "broken" else "resolved") ∅
    (sourceIDs (gn_Resource node) "/storageClass") b.
Definition connectPVCStorageClasses (b : builder) : builder := foldl connectPVC b (range "pvcs" (gb_nodes b)).

(** *** bounded *)
Definition allSorted (b : builder) : list GraphNode * list GraphEdge :=
  (sort_slice (key_less gn_ID) ((map_to_list (gb_nodes b)).*2),
   sort_slice (key_less ge_ID) ((map_to_list (gb_edges b)).*2)).

Record traversalState := mkTraversalState { ts_id : string; ts_depth : Z; ts_inferredHops : Z }.
(** The edges of [adj[id]]: every edge is appended at both of its ends. *)
Definition adjacent (allEdges : list GraphEdge) (id : string) : list GraphEdge :=
  sort_slice (key_less ge_ID)
    (allEdges ≫= fun e => (if decide (ge_From e = id) then [e] else []) ++ (if decide (ge_To e = id) then [e] else [])).
Abbreviation Seen := (gmap string traversalState) (only parsing).
Definition full (seen : Seen) : bool := bool_decide (gp_MaxNodes policy <= Z.of_nat (size seen))%Z.
(** The loop over the edges at [current]: [continue] and [break] as in the code. *)
Fixpoint expand (current : traversalState) (edges : list GraphEdge) (seen : Seen) (queue : list traversalState)
    : Seen * list traversalState :=
  match edges with
  | [] => (seen, queue)
  | edge :: edges' =>
      let next := if decide (ge_To edge = ts_id current) then ge_From edge else ge_To edge in
      let depth := (ts_depth current + 1)%Z in
      let inferred := (if decide (ge_Origin edge = "inferred") then ts_inferredHops current + 1 else ts_inferredHops current)%Z in
      if decide (gp_MaxObservedDepth policy < depth \/ gp_MaxInferredHops policy < inferred)%Z then expand current edges' seen queue
      else match seen !! next with
           | Some _ => expand current edges' seen queue
           | None =>
               let state := mkTraversalState next depth inferred in
               let seen' := <[next := state]> seen in
               let queue' := queue ++ [state] in
               if full seen' then (seen', queue') else expand current edges' seen' queue'
           end
  end.
(** The breadth-first loop; [None] is out of fuel. *)
Fixpoint traverse (fuel : nat) (allEdges : list GraphEdge) (seen : Seen) (queue : list traversalState) : option Seen :=
  match queue with
  | [] => Some seen
  | current :: queue' =>
      if full seen then Some seen else
      match fuel with
      | O => None
      | S fuel' => let '(seen', queue'') := expand current (adjacent allEdges (ts_id current)) seen queue' in
          traverse fuel' allEdges seen' queue''
      end
  end.
Definition context_state (id : string) : traversalState := mkTraversalState id 0 0.
Fixpoint addRelatedNodes (allNodes : list GraphNode) (seen : Seen) : Seen :=
  match allNodes with
  | [] => seen
  | node :: rest =>
      if full seen then seen
      else addRelatedNodes rest (if decide (gn_Role node = "related") then <[gn_ID node := context_state (gn_ID node)]> seen else seen)
  end.
Fixpoint addEdgeContext (allEdges : list GraphEdge) (seen : Seen) : Seen :=
  match allEdges with
  | [] => seen
  | edge :: rest =>
      if full seen then seen else
      addEdgeContext rest
        match seen !! ge_From edge, seen !! ge_To edge with
        | Some _, None => <[ge_To edge := context_state (ge_To edge)]> seen
        | None, Some _ => <[ge_From edge := context_state (ge_From edge)]> seen
        | _, _ => seen
        end
  end.
Definition has (seen : Seen) (id : string) : bool := bool_decide (is_Some (seen !! id)).
Fixpoint keepEdges (allEdges : list GraphEdge) (seen : Seen) (edges : list GraphEdge) : list GraphEdge :=
  match allEdges with
  | [] => edges
  | edge :: rest =>
      if decide (gp_MaxEdges policy <= Z.of_nat (length edges))%Z then edges
      else keepEdges rest seen (if has seen (ge_From edge) && has seen (ge_To edge) then edges ++ [edge] else edges)
  end.
Definition bounded_fuel : nat := S (Z.to_nat (gp_MaxNodes policy)).
Definition bounded (entry : string) (b : builder) : option (list GraphNode * list GraphEdge * bool) :=
  let '(allNodes, allEdges) := allSorted b in
  let start := mkTraversalState entry 0 0 in
  seen0 ← traverse bounded_fuel allEdges {[ entry := start ]} [start];
  let seen := addEdgeContext allEdges (addRelatedNodes allNodes seen0) in
  let nodes := filter (fun node => has seen (gn_ID node) = true) allNodes in
  let edges := keepEdges allEdges seen [] in
  Some (nodes, edges, bool_decide (length nodes < length allNodes \/ length edges < length allEdges)).

(** *** BuildWithPolicy *)
Definition collect : string * builder :=
  let '(entry, b) := addResource (ed_RootResource ev) "entry" ∅ (mkBuilder ∅ ∅ ∅) in
  let b := foldl addRelated b (ed_RelatedResourceEvidence ev) in
  let b := foldl (addPod entry) b (ed_WorkloadPodLogs ev) in
  (entry, foldl addPVC b (ed_PVCInfos ev)).
Definition connect (b : builder) : builder :=
  connectPVCStorageClasses (connectEndpointSlices (connectAutoscalers (connectWorkloadDependencies
    (connectIngressesToServices (connectWorkloadsToPods (connectServicesToPods b)))))).
Definition BuildWithPolicy : option InvestigationGraph :=
  let '(entry, b0) := collect in
  let b := connect b0 in
  '(nodes, edges, truncated) ← bounded entry b;
  let allowed := list_to_set (gn_ID <$> nodes) : gset string in
  let candidates := sort_slice (key_less gc_ID)
    (filter (fun c => gc_SourceNodeID c ∈ allowed /\ gc_CandidateNodeID c ∈ allowed) ((map_to_list (gb_candidates b)).*2)) in
  Some (mkInvestigationGraph 2 entry policy truncated nodes edges candidates).
End engine.
Definition Build (sum8 : string -> string) (range : ranger) (ev : Evidence) : option InvestigationGraph :=
  BuildWithPolicy sum8 range ev DefaultPolicy.

(** ** Properties of [bounded] *)
Section bounded_proofs.
Context (policy : GraphPolicy).
Notation MaxN := (Z.to_nat (gp_MaxNodes policy)).

Lemma full_false (seen : gmap string traversalState) : full policy seen = false <-> size seen < MaxN.
Proof. unfold full. rewrite bool_decide_eq_false. lia. Qed.
Lemma full_true (seen : gmap string traversalState) : full policy seen = true <-> MaxN <= size seen.
Proof. unfold full. rewrite bool_decide_eq_true. lia. Qed.

(** Expanding the edges of a node marks exactly the nodes it enqueues, and stops
    at the node limit. *)
Lemma expand_spec current edges seen queue seen' queue' :
  size seen < MaxN -> expand policy current edges seen queue = (seen', queue') ->
  seen ⊆ seen' /\ size seen' <= MaxN /\ length queue' + size seen = length queue + size seen'.
Proof.
  revert seen queue. induction edges as [|e edges IH]; simpl; intros seen queue Hsz E.
  { injection E as <- <-. split_and!; [done|lia|lia]. }
  set (next := if decide (ge_To e = ts_id current) then ge_From e else ge_To e) in *.
  case_decide; [by eapply IH|]. destruct (seen !! next) as [st|] eqn:En; [by eapply IH|].
  match goal with H : context [full policy ?s] |- _ => set (seen1 := s) in * end.
  assert (Hs1 : size seen1 = S (size seen)) by (unfold seen1; by apply map_size_insert_None).
  assert (Hsub : seen ⊆ seen1) by (by apply insert_subseteq).
  destruct (full policy seen1) eqn:Ef.
  - injection E as <- <-. rewrite length_app. simpl. split_and!; [done|lia|lia].
  - apply full_false in Ef. destruct (IH _ _ Ef E) as (H1 & H2 & H3). rewrite length_app in H3. simpl in H3.
    split_and!; [by etrans|done|lia].
Qed.

(** The traversal ends within its fuel, keeps what was marked and respects the limit. *)
Lemma traverse_spec fuel allEdges seen queue :
  MaxN - size seen + length queue <= fuel ->
  exists seen', traverse policy fuel allEdges seen queue = Some seen' /\ seen ⊆ seen' /\
    size seen' <= Nat.max (size seen) MaxN.
Proof.
  revert seen queue. induction fuel as [|fuel IH]; intros seen queue Hf.
  - destruct queue; simpl in *; [|lia]. exists seen. split_and!; [done|done|lia].
  - destruct queue as [|current queue]; simpl; [exists seen; split_and!; [done|done|lia]|].
    destruct (full policy seen) eqn:Efull; [exists seen; split_and!; [done|done|lia]|]. apply full_false in Efull.
    destruct (expand policy current (adjacent allEdges (ts_id current)) seen queue) as [seen1 queue1] eqn:Ex.
    destruct (expand_spec _ _ _ _ _ _ Efull Ex) as (Hsub & Hsz & Hq). simpl in Hf.
    destruct (IH seen1 queue1) as (seen' & E & Hsub' & Hsz'); [lia|].
    exists seen'. split_and!; [done|by etrans|lia].
Qed.

Lemma map_size_insert_le (seen : gmap string traversalState) k x : size (<[k := x]> seen) <= S (size seen).
Proof.
  destruct (seen !! k) eqn:E; [rewrite map_size_insert_Some by done; lia|by rewrite map_size_insert_None].
Qed.
Lemma dom_insert_mono (seen : gmap string traversalState) k x : dom seen ⊆ dom (<[k := x]> seen).
Proof. set_solver. Qed.

Lemma addRelatedNodes_spec allNodes seen :
  dom seen ⊆ dom (addRelatedNodes policy allNodes seen) /\
  size (addRelatedNodes policy allNodes seen) <= Nat.max (size seen) MaxN.
Proof.
  revert seen. induction allNodes as [|n l IH]; intros seen; simpl; [split; [done|lia]|].
  destruct (full policy seen) eqn:E; [split; [done|lia]|]. apply full_false in E.
  case_decide; [|apply IH]. destruct (IH (<[gn_ID n := context_state (gn_ID n)]> seen)) as [H1 H2].
  pose proof (map_size_insert_le seen (gn_ID n) (context_state (gn_ID n))).
  split; [etrans; [apply dom_insert_mono|exact H1]|lia].
Qed.
Lemma addEdgeContext_spec allEdges seen :
  dom seen ⊆ dom (addEdgeContext policy allEdges seen) /\
  size (addEdgeContext policy allEdges seen) <= Nat.max (size seen) MaxN.
Proof.
  revert seen. induction allEdges as [|e l IH]; intros seen; simpl; [split; [done|lia]|].
  destruct (full policy seen) eqn:E; [split; [done|lia]|]. apply full_false in E.
  destruct (seen !! ge_From e), (seen !! ge_To e); try apply IH.
  - destruct (IH (<[ge_To e := context_state (ge_To e)]> seen)) as [H1 H2].
    pose proof (map_size_insert_le seen (ge_To e) (context_state (ge_To e))).
    split; [etrans; [apply dom_insert_mono|exact H1]|lia].
  - destruct (IH (<[ge_From e := context_state (ge_From e)]> seen)) as [H1 H2].
    pose proof (map_size_insert_le seen (ge_From e) (context_state (ge_From e))).
    split; [etrans; [apply dom_insert_mono|exact H1]|lia].
Qed.

Lemma has_true (seen : gmap string traversalState) id : has seen id = true <-> id ∈ dom seen.
Proof. unfold has. rewrite bool_decide_eq_true. by rewrite elem_of_dom. Qed.
Definition inside (seen : gmap string traversalState) (e : GraphEdge) : Prop := ge_From e ∈ dom seen /\ ge_To e ∈ dom seen.

(** The kept edges are the first of those inside, as many as fit. *)
Lemma keepEdges_spec allEdges seen edges :
  keepEdges policy allEdges seen edges =
    edges ++ take (Z.to_nat (gp_MaxEdges policy) - length edges) (filter (inside seen) allEdges).
Proof.
  revert edges. induction allEdges as [|e l IH]; intros edges; [by rewrite filter_nil, take_nil, app_nil_r|]. simpl keepEdges.
  case_decide as Hc.
  - replace (Z.to_nat (gp_MaxEdges policy) - length edges) with 0 by lia. by rewrite app_nil_r.
  - rewrite IH. destruct (has seen (ge_From e) && has seen (ge_To e)) eqn:E.
    + apply andb_true_iff in E as [E1%has_true E2%has_true]. rewrite filter_cons_True by done.
      rewrite length_app. simpl. rewrite <- app_assoc. f_equal.
      destruct (Z.to_nat (gp_MaxEdges policy) - length edges) as [|k] eqn:Ek; [lia|]. simpl. do 2 f_equal. lia.
    + rewrite filter_cons_False; [done|]. intros [H1%has_true H2%has_true]. by rewrite H1, H2 in E.
Qed.
End bounded_proofs.

(** ** The builder's maps stay keyed by identifier *)
Section build_proofs.
Context (sum8 : string -> string) (range : ranger) (ev : Evidence) (policy : GraphPolicy) (Hrange : ranger_ok range).

Record good (entry : string) (b : builder) : Prop := {
  good_nodes id n : gb_nodes b !! id = Some n -> gn_ID n = id;
  good_edges id e : gb_edges b !! id = Some e -> ge_ID e = id;
  good_entry : entry ∈ dom (gb_nodes b);
}.
Implicit Types (entry id : string) (b : builder).

Lemma foldl_inv {A} (I : builder -> Prop) (f : builder -> A -> builder) l b :
  (forall b x, x ∈ l -> I b -> I (f b x)) -> I b -> I (foldl f b l).
Proof.
  revert b. induction l as [|x l IH]; intros b Hf Hb; simpl; [done|].
  apply IH; [intros b' y Hy; apply Hf; by right|]. apply Hf; [by left|done].
Qed.
Lemma good_put_node entry id n b : gn_ID n = id -> good entry b -> good entry (put_node id n b).
Proof.
  intros Hid [Hn He Hen]. split; simpl; [|done|set_solver].
  intros id' n' [[<- <-]|[_ ?]]%lookup_insert_Some; eauto.
Qed.
Lemma good_put_edge entry e b : good entry b -> good entry (put_edge e b).
Proof. intros [Hn He Hen]. split; simpl; [done| |done]. intros id' e' [[<- <-]|[_ ?]]%lookup_insert_Some; eauto. Qed.
Lemma good_put_candidate entry c b : good entry b -> good entry (put_candidate c b).
Proof. by intros [Hn He Hen]. Qed.
Lemma range_good entry b label idn : good entry b -> idn ∈ range label (gb_nodes b) -> gn_ID idn.2 = idn.1.
Proof using Hrange.
  intros [Hn _ _] H. pose proof (Hrange label (gb_nodes b)) as Hp. rewrite Hp in H. destruct idn as [id n]. apply elem_of_map_to_list in H. by apply Hn.
Qed.
Hint Resolve good_put_node good_put_edge good_put_candidate : graph.

Lemma good_addResource entry ref role attrs b : good entry b -> good entry (addResource ev ref role attrs b).2.
Proof. intros. by apply good_put_node. Qed.
Lemma good_addDependency entry ref missing b : good entry b -> good entry (addDependency ev ref missing b).2.
Proof. intros. destruct missing; [by apply good_put_node|by apply good_addResource]. Qed.
Lemma good_addEdge entry kind from to state attrs ids b : good entry b -> good entry (addEdge sum8 kind from to state attrs ids b).
Proof. apply good_put_edge. Qed.
Hint Resolve good_addResource good_addDependency good_addEdge : graph.

Lemma good_ownerEdge entry ref podID b owner : good entry b -> good entry (ownerEdge sum8 ev ref podID b owner).
Proof. intros. unfold ownerEdge. case_match; auto with graph. Qed.
Lemma good_configMapEdge entry ref podID b cm : good entry b -> good entry (configMapEdge sum8 ev ref podID b cm).
Proof. intros. unfold configMapEdge. destruct (addDependency _ _ _ b) as [t b'] eqn:E. apply good_addEdge.
  change b' with ((t, b').2). rewrite <- E. auto with graph. Qed.
Lemma good_secretEdge entry ref podID b s : good entry b -> good entry (secretEdge sum8 ev ref podID b s).
Proof. intros. unfold secretEdge. destruct (addDependency _ _ _ b) as [t b'] eqn:E. apply good_addEdge.
  change b' with ((t, b').2). rewrite <- E. auto with graph. Qed.
Hint Resolve good_ownerEdge good_configMapEdge good_secretEdge : graph.

Lemma good_addPod entry b pod : good entry b -> good entry (addPod sum8 ev entry b pod).
Proof.
  intros H. unfold addPod. destruct (addResource ev _ "workload" _ b) as [podID b1] eqn:E.
  assert (good entry b1) as H1 by (change b1 with ((podID, b1).2); rewrite <- E; auto with graph).
  assert (good entry (foldl (ownerEdge sum8 ev (mkRef (cr_Namespace (ed_RootResource ev)) "Pod" (pl_PodName pod) EmptyString) podID) b1 (pl_Owners pod))) as H2
    by (apply foldl_inv; auto with graph).
  apply foldl_inv; [intros; by apply good_addEdge|].
  destruct (pl_Dependencies pod); [apply foldl_inv; [auto with graph|]; apply foldl_inv; [auto with graph|]|];
    (case_decide; auto with graph).
Qed.

Lemma good_inferServiceWorkloads entry id n sel b :
  good entry b -> good entry (inferServiceWorkloads sum8 range ev policy id n sel b).
Proof. intros. unfold inferServiceWorkloads. apply foldl_inv; [|done]. intros. by apply good_put_edge. Qed.
Lemma good_connectService entry b idn :
  gn_ID idn.2 = idn.1 -> good entry b -> good entry (connectService sum8 range ev policy b idn).
Proof.
  destruct idn as [id n]. simpl. intros Hid H. repeat case_decide; try done.
  match goal with |- context [filter ?P ?l] => set (pods := filter P l) end.
  match goal with |- context [foldl ?f b pods] => assert (good entry (foldl f b pods)) as Hfold by (apply foldl_inv; auto with graph) end.
  destruct pods; [|done]. apply good_inferServiceWorkloads. by apply good_put_node.
Qed.
Lemma good_connectWorkload entry b idn : good entry b -> good entry (connectWorkload sum8 range ev b idn).
Proof.
  destruct idn as [id n]. simpl. intros H. case_match; [done|]. case_decide; [done|].
  apply foldl_inv; [|done]. intros b' x _ Hb'. case_match; auto with graph.
Qed.
Lemma good_rankServiceCandidates entry label src refid path b :
  good entry b -> good entry (rankServiceCandidates sum8 range ev label src refid path b).
Proof.
  intros H. unfold rankServiceCandidates. case_match; (apply foldl_inv; [|done]); intros b' [cid cn] _ Hb'; simpl;
    case_decide; try done; case_decide; auto with graph.
Qed.
Lemma good_routePath entry id n ri b ip : good entry b -> good entry (routePath sum8 range ev id n ri b ip).
Proof.
  destruct ip as [pi raw]. simpl. intros H. case_match; [done|]. case_bool_decide.
  - auto with graph.
  - apply good_rankServiceCandidates. auto with graph.
Qed.
Lemma good_connectIngress entry b idn : good entry b -> good entry (connectIngress sum8 range ev b idn).
Proof.
  destruct idn as [id n]. simpl. intros H. case_decide; [done|]. apply foldl_inv; [|done].
  intros b' [ri raw] _ Hb'. simpl. apply foldl_inv; [|done]. intros. by apply good_routePath.
Qed.
Lemma good_connectDependencies entry b idn : good entry b -> good entry (connectDependencies sum8 ev b idn).
Proof.
  destruct idn as [id n]. simpl. intros H. case_match; [done|]. apply foldl_inv; [|done].
  intros b' [i raw] _ Hb'. simpl. case_decide; [done|]. case_match; [auto with graph|]. case_match; auto with graph.
Qed.
Lemma good_connectAutoscaler entry b idn : good entry b -> good entry (connectAutoscaler sum8 ev b idn).
Proof.
  destruct idn as [id n]. simpl. intros H. case_match; [done|]. case_match; [done|].
  case_bool_decide; auto with graph.
Qed.
Lemma good_connectEndpointSlice entry b idn : good entry b -> good entry (connectEndpointSlice sum8 ev b idn).
Proof.
  destruct idn as [id n]. simpl. intros H. case_decide; [done|]. case_match; [done|].
  destruct (gb_nodes b !! _) as [svc|] eqn:E; [|done].
  case_bool_decide; [|auto with graph]. apply good_addEdge, good_put_node; [|done]. simpl. by eapply good_nodes.
Qed.
Lemma good_connectPVC entry b idn : good entry b -> good entry (connectPVC sum8 ev b idn).
Proof.
  destruct idn as [id n]. simpl. intros H. case_decide; [done|]. case_match; [done|].
  apply good_addEdge. case_match; by apply good_put_node.
Qed.

Lemma good_collect : good (collect sum8 ev).1 (collect sum8 ev).2.
Proof.
  unfold collect. destruct (addResource ev (ed_RootResource ev) "entry" ∅ (mkBuilder ∅ ∅ ∅)) as [entry b] eqn:E.
  simpl. apply foldl_inv; [intros; by apply good_addResource|].
  apply foldl_inv; [intros; by apply good_addPod|].
  apply foldl_inv; [intros; by apply good_addResource|].
  unfold addResource in E. injection E as <- <-. split; simpl.
  - intros id n [[<- <-]|[_ H]]%lookup_insert_Some; [done|]. by rewrite lookup_empty in H.
  - intros id e H. by rewrite lookup_empty in H.
  - set_solver.
Qed.
Lemma good_connect entry b : good entry b -> good entry (connect sum8 range ev policy b).
Proof using Hrange.
  intros H. unfold connect, connectPVCStorageClasses, connectEndpointSlices, connectAutoscalers, connectWorkloadDependencies,
    connectIngressesToServices, connectWorkloadsToPods.
  assert (good entry (connectServicesToPods sum8 range ev policy b)) as H1.
  { unfold connectServicesToPods. apply foldl_inv; [|done]. intros b' idn Hin Hb'. apply good_connectService; [|done]. exact (range_good entry b _ idn H Hin). }
  apply foldl_inv; [intros; by apply good_connectPVC|].
  apply foldl_inv; [intros; by apply good_connectEndpointSlice|].
  apply foldl_inv; [intros; by apply good_connectAutoscaler|].
  apply foldl_inv; [intros; by apply good_connectDependencies|].
  apply foldl_inv; [intros; by apply good_connectIngress|].
  apply foldl_inv; [intros; by apply good_connectWorkload|]. done.
Qed.

(** All of a keyed map's values, sorted by identifier: strictly, without repetition. *)
Lemma sorted_values {A} (key : A -> string) (m : gmap string A) :
  (forall id x, m !! id = Some x -> key x = id) ->
  let l := sort_slice (key_less key) ((map_to_list m).*2) in
  StronglySorted (key_le key) l /\ NoDup (key <$> l) /\ forall x, x ∈ l <-> m !! key x = Some x.
Proof.
  intros Hk. simpl.
  assert (Hfst : key <$> (map_to_list m).*2 = (map_to_list m).*1).
  { rewrite <- list_fmap_compose. apply list_fmap_ext. intros i [id x] Hi.
    apply list_elem_of_lookup_2, elem_of_map_to_list, Hk in Hi. done. }
  split_and!; [apply sort_key_sorted| |].
  - rewrite (fmap_Permutation _ _ _ (sort_slice_perm _ _)), Hfst. apply NoDup_fst_map_to_list.
  - intros x. rewrite elem_of_sort_slice, list_elem_of_fmap. split.
    + intros ([id y] & -> & H%elem_of_map_to_list). simpl. by rewrite (Hk _ _ H).
    + intros H. exists (key x, x). split; [done|]. by apply elem_of_map_to_list.
Qed.

(** What [bounded] keeps of a keyed builder. *)
Lemma bounded_spec entry b :
  good entry b ->
  exists nodes edges truncated seen,
    bounded policy entry b = Some (nodes, edges, truncated) /\
    nodes = filter (fun n => has seen (gn_ID n) = true) (allSorted b).1 /\
    edges = take (Z.to_nat (gp_MaxEdges policy)) (filter (inside seen) (allSorted b).2) /\
    truncated = bool_decide (length nodes < length (allSorted b).1 \/ length edges < length (allSorted b).2) /\
    entry ∈ dom seen /\ size seen <= Nat.max 1 (Z.to_nat (gp_MaxNodes policy)).
Proof.
  intros _. unfold bounded. destruct (allSorted b) as [allNodes allEdges]. cbn [fst snd]. cbv zeta.
  set (start := mkTraversalState entry 0 0).
  destruct (traverse_spec policy (bounded_fuel policy) allEdges {[ entry := start ]} [start]) as (seen0 & -> & Hsub & Hsz).
  { rewrite map_size_singleton. unfold bounded_fuel. simpl. lia. }
  rewrite map_size_singleton in Hsz. cbn [mbind option_bind].
  destruct (addRelatedNodes_spec policy allNodes seen0) as [Hd1 Hs1].
  destruct (addEdgeContext_spec policy allEdges (addRelatedNodes policy allNodes seen0)) as [Hd2 Hs2].
  eexists _, _, _, (addEdgeContext policy allEdges (addRelatedNodes policy allNodes seen0)).
  split; [reflexivity|]. split; [done|]. split; [by rewrite keepEdges_spec, Nat.sub_0_r|]. split; [done|].
  split; [|lia]. apply Hd2, Hd1. apply elem_of_dom. exists start. eapply lookup_weaken; [apply lookup_singleton_eq|done].
Qed.

(** As many nodes are kept as have been marked, at most. *)
Lemma kept_nodes_bound (l : list GraphNode) (seen : gmap string traversalState) :
  NoDup (gn_ID <$> l) -> length (filter (fun n => has seen (gn_ID n) = true) l) <= size seen.
Proof.
  intros Hnd. set (kept := filter _ l).
  assert (NoDup (gn_ID <$> kept)) as Hk.
  { eapply sublist_NoDup; [exact Hnd|]. apply fmap_sublist, sublist_filter. }
  rewrite <- (length_fmap gn_ID kept), <- (size_list_to_set (C := gset string)) by done.
  rewrite <- size_dom. apply subseteq_size. intros id Hid. apply elem_of_list_to_set in Hid.
  apply list_elem_of_fmap in Hid as (n & -> & Hn). apply list_elem_of_filter in Hn as [Hh _]. by apply has_true.
Qed.

Lemma build_total : exists g, BuildWithPolicy sum8 range ev policy = Some g.
Proof using Hrange.
  pose proof good_collect as Hc. unfold BuildWithPolicy. destruct (collect sum8 ev) as [entry b0].
  destruct (bounded_spec entry (connect sum8 range ev policy b0)) as (nodes & edges & tr & seen & -> & _).
  - by apply good_connect.
  - by eexists.
Qed.

(** C7: Building the graph always ends with a graph, whatever order the maps are
    ranged over and whatever the policy: at most MaxNodes nodes (and always the
    entry), at most MaxEdges edges, both listed by ascending identifier without
    repetition and taken from the builder; a kept edge's ends are kept when they
    are nodes at all; a candidate's source and target are kept; and the graph
    says it is truncated exactly when some node or edge was left out. *)
Theorem build_is_bounded :
  let b := connect sum8 range ev policy (collect sum8 ev).2 in
  exists g, BuildWithPolicy sum8 range ev policy = Some g /\
    length (ig_Nodes g) <= Nat.max 1 (Z.to_nat (gp_MaxNodes policy)) /\
    length (ig_Edges g) <= Z.to_nat (gp_MaxEdges policy) /\
    StronglySorted (key_le gn_ID) (ig_Nodes g) /\ NoDup (gn_ID <$> ig_Nodes g) /\
    StronglySorted (key_le ge_ID) (ig_Edges g) /\ NoDup (ge_ID <$> ig_Edges g) /\
    ig_EntryResourceID g ∈ gn_ID <$> ig_Nodes g /\
    (forall n, n ∈ ig_Nodes g -> gb_nodes b !! gn_ID n = Some n) /\
    (forall e, e ∈ ig_Edges g -> gb_edges b !! ge_ID e = Some e /\
       (ge_From e ∈ dom (gb_nodes b) -> ge_From e ∈ gn_ID <$> ig_Nodes g) /\
       (ge_To e ∈ dom (gb_nodes b) -> ge_To e ∈ gn_ID <$> ig_Nodes g)) /\
    (forall c, c ∈ ig_Candidates g -> gc_SourceNodeID c ∈ gn_ID <$> ig_Nodes g /\ gc_CandidateNodeID c ∈ gn_ID <$> ig_Nodes g) /\
    (ig_Truncated g = false <->
       length (ig_Nodes g) = size (gb_nodes b) /\ length (ig_Edges g) = size (gb_edges b)).
Proof using Hrange.
  intros b. pose proof good_collect as Hc. unfold BuildWithPolicy. destruct (collect sum8 ev) as [entry b0] eqn:Ec.
  simpl in b, Hc. assert (good entry b) as Hb by (by apply good_connect).
  destruct (bounded_spec entry b Hb) as (nodes & edges & tr & seen & Hbd & Hn & He & Ht & Hent & Hsz).
  fold b. rewrite Hbd. simpl. eexists. split; [reflexivity|]. simpl.
  destruct (sorted_values gn_ID (gb_nodes b) (good_nodes _ _ Hb)) as (Hs1 & Hd1 & Hm1).
  destruct (sorted_values ge_ID (gb_edges b) (good_edges _ _ Hb)) as (Hs2 & Hd2 & Hm2).
  change (sort_slice (key_less gn_ID) ((map_to_list (gb_nodes b)).*2)) with (allSorted b).1 in *.
  change (sort_slice (key_less ge_ID) ((map_to_list (gb_edges b)).*2)) with (allSorted b).2 in *.
  assert (Hsubn : nodes `sublist_of` (allSorted b).1) by (subst nodes; apply sublist_filter).
  assert (Hsube : edges `sublist_of` (allSorted b).2).
  { subst edges. etrans; [apply sublist_take|apply sublist_filter]. }
  assert (Hkeep : forall id, id ∈ dom seen -> id ∈ dom (gb_nodes b) -> id ∈ gn_ID <$> nodes).
  { intros id Hid [n Hl]%elem_of_dom. apply list_elem_of_fmap. exists n. pose proof (good_nodes _ _ Hb _ _ Hl) as Hidn.
    split; [done|]. subst nodes. apply list_elem_of_filter. rewrite Hidn. split; [by apply has_true|].
    apply Hm1. by rewrite Hidn. }
  split_and!.
  - subst nodes. etrans; [by apply kept_nodes_bound|lia].
  - subst edges. rewrite length_take. lia.
  - by eapply StronglySorted_sublist.
  - eapply sublist_NoDup; [exact Hd1|]. by apply fmap_sublist.
  - by eapply StronglySorted_sublist.
  - eapply sublist_NoDup; [exact Hd2|]. by apply fmap_sublist.
  - apply Hkeep; [done|]. apply Hb.
  - intros n Hin. apply Hm1. by eapply sublist_subseteq.
  - intros e Hin. split; [apply Hm2; by eapply sublist_subseteq|].
    subst edges. apply elem_of_take in Hin as (i & Hi & _). apply list_elem_of_lookup_2, list_elem_of_filter in Hi as [[Hf Hto] _].
    split; by apply Hkeep.
  - intros c Hin. rewrite elem_of_sort_slice, list_elem_of_filter in Hin. destruct Hin as [[H1 H2] _].
    rewrite !elem_of_list_to_set in H1, H2. done.
  - assert (length (allSorted b).1 = size (gb_nodes b)) as L1.
    { unfold allSorted. simpl. rewrite length_sort_slice, length_fmap. by rewrite length_map_to_list. }
    assert (length (allSorted b).2 = size (gb_edges b)) as L2.
    { unfold allSorted. simpl. rewrite length_sort_slice, length_fmap. by rewrite length_map_to_list. }
    apply sublist_length in Hsubn, Hsube. rewrite Ht, bool_decide_eq_false. rewrite L1, L2 in *. lia.
Qed.
End build_proofs.

(** ** Selector scores *)
Lemma selectorKeyWeight_pos key : (1 <= selectorKeyWeight key)%Z.
Proof. unfold selectorKeyWeight. repeat case_match; lia. Qed.
Lemma weight_sum_insert (m : gmap string string) k v :
  m !! k = None -> weight_sum (<[k := v]> m) = (selectorKeyWeight k + weight_sum m)%Z.
Proof. intros H. unfold weight_sum. rewrite map_fold_insert_L; [done| |done]. intros. lia. Qed.
Lemma weight_sum_nonneg m : (0 <= weight_sum m)%Z.
Proof.
  induction m as [|k v m Hk IH] using map_ind; [done|]. rewrite weight_sum_insert by done.
  pose proof (selectorKeyWeight_pos k). lia.
Qed.
Lemma weight_sum_zero m : weight_sum m = 0%Z <-> m = ∅.
Proof.
  split; [|by intros ->]. destruct m as [|k v m Hk] using map_ind; [done|]. rewrite weight_sum_insert by done.
  pose proof (selectorKeyWeight_pos k). pose proof (weight_sum_nonneg m). lia.
Qed.
Lemma weight_sum_filter (P : string * string -> Prop) `{forall x, Decision (P x)} m :
  (weight_sum (filter P m) <= weight_sum m)%Z /\ (weight_sum (filter P m) = weight_sum m -> filter P m = m).
Proof.
  induction m as [|k v m Hk [IH1 IH2]] using map_ind; [by rewrite map_filter_empty|].
  pose proof (selectorKeyWeight_pos k). rewrite weight_sum_insert by done. destruct (decide (P (k, v))) as [HP|HP].
  - rewrite map_filter_insert_True by done. rewrite weight_sum_insert by (by rewrite map_lookup_filter_None; left).
    split; [lia|]. intros E. rewrite IH2; [done|lia].
  - rewrite map_filter_insert_False, delete_id by done. split; lia.
Qed.

Lemma conflictingLabels_lookup selector labels k :
  conflictingLabels selector labels !! k =
    (expected ← selector !! k; actual ← labels !! k;
     if decide (actual = expected) then None else Some {[ "expected" := expected; "actual" := actual ]}).
Proof. unfold conflictingLabels. by rewrite map_lookup_imap. Qed.

(** The score of a selector against labels lies between 0 and 100; it is 100
    exactly when there is something to select by and every pair is a label, 0
    exactly when no pair is, or too few to reach one per cent; the matched labels
    are the pairs the labels have, the conflicts record both values of the keys
    that differ, and the remaining keys of the selector are those the labels lack. *)
Theorem selector_score_spec selector labels score matched conflicts :
  SelectorInferenceScore selector labels = (score, matched, conflicts) ->
  (0 <= score <= 100)%Z /\
  (score = 100%Z <-> selector <> ∅ /\ selector ⊆ labels) /\
  (matched = ∅ -> score = 0%Z) /\ (score = 0%Z -> weight_sum matched * 100 < weight_sum selector \/ matched = ∅)%Z /\
  (forall k v, matched !! k = Some v <-> selector !! k = Some v /\ labels !! k = Some v) /\
  (forall k m, conflicts !! k = Some m <-> exists expected actual,
     selector !! k = Some expected /\ labels !! k = Some actual /\ actual <> expected /\
     m = {[ "expected" := expected; "actual" := actual ]}) /\
  dom selector = dom matched ∪ dom conflicts ∪ (dom selector ∖ dom labels).
Proof.
  intros E.
  assert (Em : matched = matchedLabels selector labels) by (unfold SelectorInferenceScore in E; case_decide; by simplify_eq).
  assert (Ec : conflicts = conflictingLabels selector labels) by (unfold SelectorInferenceScore in E; case_decide; by simplify_eq).
  assert (Es : score = if decide (weight_sum selector = 0 \/ weight_sum matched = 0)%Z then 0%Z
    else Z.quot (weight_sum matched * 100) (weight_sum selector)).
  { subst matched. unfold SelectorInferenceScore in E. by case_decide; simplify_eq. }
  clear E. destruct (weight_sum_filter (fun kv => labels !! kv.1 = Some kv.2) selector) as [Hle Heq].
  change (filter _ selector) with (matchedLabels selector labels) in Hle, Heq. rewrite <- Em in Hle, Heq.
  pose proof (weight_sum_nonneg matched) as Hm0. pose proof (weight_sum_nonneg selector) as Hs0.
  assert (Hmk : forall k v, matched !! k = Some v <-> selector !! k = Some v /\ labels !! k = Some v).
  { intros k v. subst matched. unfold matchedLabels. by rewrite map_lookup_filter_Some. }
  assert (Hck : forall k m, conflicts !! k = Some m <-> exists expected actual,
     selector !! k = Some expected /\ labels !! k = Some actual /\ actual <> expected /\
     m = {[ "expected" := expected; "actual" := actual ]}).
  { intros k m. subst conflicts. rewrite conflictingLabels_lookup. split.
    - intros (ex & Hex & (ac & Hac & H)%bind_Some)%bind_Some. case_decide; [done|]. injection H as <-. eauto 8.
    - intros (ex & ac & -> & -> & Hne & ->). simpl. by rewrite decide_False. }
  assert (Hall : weight_sum matched = weight_sum selector <-> selector ⊆ labels).
  { split.
    - intros H%Heq. apply map_subseteq_spec. intros k v Hk. rewrite <- H in Hk. by apply Hmk in Hk as [_ ?].
    - intros Hsub. f_equal. apply map_eq. intros k. destruct (selector !! k) as [v|] eqn:Ek.
      + apply Hmk. split; [done|]. by eapply lookup_weaken.
      + destruct (matched !! k) as [v|] eqn:Ek2; [|done]. apply Hmk in Ek2 as [? _]. congruence. }
  pose proof (weight_sum_zero selector) as Hz1. pose proof (weight_sum_zero matched) as Hz2.
  split_and!; try done.
  - subst score. case_decide; [lia|]. apply Z.quot_pos; lia.
  - subst score. case_decide; [lia|]. apply Z.quot_le_upper_bound; lia.
  - rewrite <- Hall, Es. case_decide as Hd.
    + split; [done|]. intros [Hne Hw]. exfalso. destruct Hd; [by apply Hne, Hz1|]. apply Hne, Hz1. lia.
    + split.
      * intros H. split; [intros Hse; apply Hd; left; by apply Hz1|].
        assert (100 <= (weight_sum matched * 100) ÷ weight_sum selector)%Z as H2 by lia.
        pose proof (Z.mul_quot_le (weight_sum matched * 100) (weight_sum selector) ltac:(lia) ltac:(lia)). nia.
      * intros [_ ->]. rewrite Z.mul_comm. apply Z.quot_mul. lia.
  - intros ->. rewrite Es. rewrite decide_True; [done|]. right. done.
  - rewrite Es. case_decide as Hd; [|].
    + intros _. right. apply Hz2. lia.
    + intros H. left. apply Z.quot_small_iff in H; lia.
  - apply set_eq. intros k. rewrite !elem_of_union, elem_of_difference, !elem_of_dom. split.
    + intros [v Hv]. destruct (labels !! k) as [a|] eqn:Ea.
      * destruct (decide (a = v)) as [-> |Hne].
        -- left. left. exists v. by apply Hmk.
        -- left. right. eexists. apply Hck. by exists v, a.
      * right. split; [by exists v|]. by intros [? ?].
    + intros [[[v Hv]|[m Hm]]|[? _]]; [apply Hmk in Hv as [? _]; eauto| |done].
      apply Hck in Hm as (ex & _ & ? & _). eauto.
Qed.

(** ** What the engine does not guarantee *)
Definition plain_node (id : string) : GraphNode :=
  mkGraphNode id "resource" (mkRef "shop" "ConfigMap" id EmptyString) "present" "dependency" ∅ [].
Definition plain_edge (id from to : string) : GraphEdge :=
  mkGraphEdge id "references" from to "resolved" "observed" EmptyString 0 [] ∅ [].
Definition keyed_nodes (l : list GraphNode) : gmap string GraphNode := list_to_map ((fun n => (gn_ID n, n)) <$> l).
Definition keyed_edges (l : list GraphEdge) : gmap string GraphEdge := list_to_map ((fun e => (ge_ID e, e)) <$> l).
(** A chain a - b - c - d - e - f - g - h whose edges are numbered along it. *)
Definition chain_builder : builder :=
  mkBuilder (keyed_nodes (plain_node <$> ["a"; "b"; "c"; "d"; "e"; "f"; "g"; "h"]))
    (keyed_edges [plain_edge "1" "a" "b"; plain_edge "2" "b" "c"; plain_edge "3" "c" "d"; plain_edge "4" "d" "e";
                  plain_edge "5" "e" "f"; plain_edge "6" "f" "g"; plain_edge "7" "g" "h"]) ∅.

Definition chain_marked : option (list string) :=
  (fun seen : gmap string traversalState => sort_strings ((map_to_list seen).*1)) <$> traverse DefaultPolicy (bounded_fuel DefaultPolicy) (allSorted chain_builder).2
      {[ "a" := mkTraversalState "a" 0 0 ]} [mkTraversalState "a" 0 0].
Definition chain_kept : option (list string * bool) :=
  (fun r : list GraphNode * list GraphEdge * bool => (gn_ID <$> r.1.1, r.2)) <$> bounded DefaultPolicy "a" chain_builder.

(** The depth limit does not hold: the pass that keeps the context of explicit
    resources walks on along any edges it meets in identifier order. In a chain of
    eight nodes the traversal from one end marks the five within MaxObservedDepth =
    4, and the graph keeps all eight, the last one seven edges away. *)
Theorem depth_limit_is_exceeded :
  gp_MaxObservedDepth DefaultPolicy = 4%Z /\
  chain_marked = Some ["a"; "b"; "c"; "d"; "e"] /\
  chain_kept = Some (["a"; "b"; "c"; "d"; "e"; "f"; "g"; "h"], false).
Proof. split; [reflexivity|]. split; vm_refl. Qed.

(** The graph's edges with an end that is no node of the graph. *)
Definition dangling (g : InvestigationGraph) : list (string * string) :=
  (fun e => (ge_Type e, ge_To e)) <$>
    filter (fun e => ge_From e ∉ gn_ID <$> ig_Nodes g \/ ge_To e ∉ gn_ID <$> ig_Nodes g) (ig_Edges g).
Definition ascending : ranger := fun _ m => map_to_list m.
Lemma ascending_ok : ranger_ok ascending.
Proof. by intros label m. Qed.
(** A Job with one pod that mounts a claim whose description could not be collected. *)
Definition claim_evidence : Evidence :=
  mkEvidence 2 EmptyString EmptyString 0 (mkRef "s" "Job" "j" EmptyString) [] []
    [mkPodLogs "p" "Pending" ∅ ["c"] EmptyString false EmptyString [] None []] [] EmptyString [] [].

(** The graph can hold an edge to nothing: a pod's claim gets a "mounts" edge
    whether or not the claim is among the collected ones, and only collected
    claims get a node. Nothing marks the graph as truncated. *)
Theorem uncollected_claim_dangles :
  (fun g => (dangling g, length (ig_Nodes g), ig_Truncated g)) <$> Build id ascending claim_evidence =
    Some ([("mounts", "resource:core:PersistentVolumeClaim:s:c")], 2, false).
Proof. vm_refl. Qed.

Definition descending : ranger := fun _ m => reverse (map_to_list m).
Lemma descending_ok : ranger_ok descending.
Proof. intros label m. unfold descending. apply reverse_Permutation. Qed.
(** Two Jobs that need the same missing Secret, each with the source that says so. *)
Definition needy_job (name : string) : RelatedResourceEvidence :=
  mkRelatedResourceEvidence (mkRef "s" "Job" name EmptyString) "explicit" [] EmptyString
    (Some {[ "dependencies" := AMapSlice [<["kind" := AStr "Secret"]> (<["name" := AStr "k"]> {[ "exists" := ABool false ]})] ]}).
Definition needy_source (name : string) : EvidenceSource :=
  mkEvidenceSource name "resource_field" (mkRef "s" "Job" name EmptyString) 0 "/dependencies/0/name" ANil None None false false.
Definition shared_secret_evidence : Evidence :=
  mkEvidence 2 EmptyString EmptyString 0 (mkRef "s" "Job" "a" EmptyString) [] [] [] [] EmptyString
    [needy_job "a"; needy_job "b"] [needy_source "a"; needy_source "b"].
Definition cited (g : InvestigationGraph) : list (string * list string) :=
  (fun n => (gn_ID n, gn_SourceIDs n)) <$> ig_Nodes g.

(** The graph is not a function of the evidence: when two workloads lack the
    same Secret, the reference node cites the sources of whichever of them the
    runtime happened to visit last. The same evidence, ranged over in two orders
    Go may choose, gives two different graphs. *)
Theorem map_order_changes_graph :
  ranger_ok ascending /\ ranger_ok descending /\
  cited <$> Build id ascending shared_secret_evidence =
    Some [("reference:core:Secret:s:k", ["b"]); ("resource:batch:Job:s:a", ["a"]); ("resource:batch:Job:s:b", ["b"])] /\
  cited <$> Build id descending shared_secret_evidence =
    Some [("reference:core:Secret:s:k", ["a"]); ("resource:batch:Job:s:a", ["a"]); ("resource:batch:Job:s:b", ["b"])].
Proof. split; [apply ascending_ok|]. split; [apply descending_ok|]. split; vm_refl. Qed.

Theorem build_is_bounded_witness :
  exists g, BuildWithPolicy id descending shared_secret_evidence DefaultPolicy = Some g /\
    length (ig_Nodes g) <= Nat.max 1 (Z.to_nat (gp_MaxNodes DefaultPolicy)).
Proof.
  destruct (build_is_bounded id descending shared_secret_evidence DefaultPolicy descending_ok) as (g & H & Hl & _).
  exists g. split; assumption.
Defined.
Definition gateway_selector : gmap string string := <["app" := "gateway"]> {[ "track" := "canary" ]}.
Definition gateway_labels : gmap string string := <["app" := "gateway"]> {[ "track" := "stable" ]}.
Theorem selector_score_spec_witness : exists matched conflicts,
  SelectorInferenceScore gateway_selector gateway_labels = (75%Z, matched, conflicts) /\ (0 <= 75 <= 100)%Z.
Proof.
  assert ((SelectorInferenceScore gateway_selector gateway_labels).1.1 = 75%Z) as Hs by vm_refl.
  destruct (SelectorInferenceScore gateway_selector gateway_labels) as [[score matched] conflicts] eqn:E.
  simpl in Hs. subst score. exists matched, conflicts. split; [reflexivity|].
  exact (proj1 (selector_score_spec _ _ _ _ _ E)).
Defined.
