(* ===== verification/Handlers.v ===== *)
(** * REST handlers (services/backend-api/handler)

    incidents.go, manual_incident.go, problemcases.go, exclusion_rules.go and
    helpers.go: the handlers over the Kubernetes client and the table of owners.
    A handler is a function of what the router and the middleware hand it - path
    and query parameters, the caller, the outcome of decoding the body - and of
    the world; it returns a status code with a value or an error text.  The SQL
    driver is a parameter: [OwnersDB] has one operation per statement the
    handlers run, and [OwnersDBLaws] says what the statements mean. *)

From Stdlib Require Import Ascii.
From stdpp Require Import sorting.
From stdpp Require Import prelude gmap strings list.
From S2P Require Import Prelude GoBase Json Api Client.

(** ** helpers.go *)
Inductive Response (A : Type) :=
  | Body (code : Z) (value : A)
  | Failure (code : Z) (msg : string).
Arguments Body {_} _ _.
Arguments Failure {_} _ _.
Definition StatusOK : Z := 200.
Definition StatusCreated : Z := 201.
Definition StatusAccepted : Z := 202.
Definition StatusNoContent : Z := 204.
Definition StatusBadRequest : Z := 400.
Definition StatusForbidden : Z := 403.
Definition StatusNotFound : Z := 404.
Definition StatusInternalServerError : Z := 500.

(** [namespacedName] *)
Definition namespacedName (id defaultNamespace : string) : string * string :=
  match cut_on "/"%char id with
  | Some (namespace, name) => (namespace, name)
  | None => (defaultNamespace, id)
  end.

(** [UserFromCtx]: empty strings without an authenticated user. *)
Record Caller := mkCaller { cl_UserID : string; cl_Role : string }.

(** ** The tables

    [QueryRow(...).Scan]: a row, [sql.ErrNoRows], or another error. *)
Inductive RowResult (A : Type) := Row (a : A) | NoRows | RowError.
Arguments Row {_} _.
Arguments NoRows {_}.
Arguments RowError {_}.
Record OwnerRow := mkOwnerRow { ow_IncidentID : string; ow_Username : string; ow_OwnerID : string }.
Record AnalysisRequest := mkAnalysisRequest {
  ar_ID : string; ar_IncidentID : string; ar_DiagnosticRunID : string; ar_RequestedAt : Time; ar_TriggeredBy : string;
}.
Class OwnersDB (W : Type) := {
  (** the rows of [manual_incident_owners] joined with [users] that could be read *)
  owner_rows : W -> res (list OwnerRow);
  (** [SELECT mio.owner_id, u.username ... WHERE mio.incident_id = ?] *)
  owner_with_name : string -> W -> RowResult (string * string);
  (** [SELECT owner_id FROM manual_incident_owners WHERE incident_id = ?] *)
  owner_id : string -> W -> RowResult string;
  (** [INSERT INTO manual_incident_owners(incident_id, namespace, owner_id)] *)
  insert_owner : string -> string -> string -> eff W ();
  (** [INSERT INTO analysis_requests(..., 'pending', 'manual', ?)] *)
  insert_request : AnalysisRequest -> eff W ();
}.
#[export] Hint Mode OwnersDB ! : typeclass_instances.
(** What the statements mean: there is a table of owners by incident name. *)
Class OwnersDBLaws (W : Type) `{!OwnersDB W} (owners : W -> gmap string string) := {
  law_owner_rows (w : W) rows r : owner_rows w = Ok rows -> r ∈ rows -> owners w !! ow_IncidentID r = Some (ow_OwnerID r);
  law_owner_with_name name (w : W) o u : owner_with_name name w = Row (o, u) -> owners w !! name = Some o;
  law_owner_id name (w : W) o : owner_id name w = Row o -> owners w !! name = Some o;
  law_owner_id_none name (w : W) : owner_id name w = NoRows -> owners w !! name = None;
  law_insert_owner name ns o (w w' : W) : insert_owner name ns o w = (Ok tt, w') -> owners w' = <[name := o]> (owners w);
  law_insert_owner_error name ns o (w w' : W) e : insert_owner name ns o w = (Err e, w') -> owners w' = owners w;
  law_insert_request r (w : W) x w' : insert_request r w = (x, w') -> owners w' = owners w;
}.

(** Statements on the tables do not touch the cluster. *)
Class OwnersDBFrame (W S T : Type) `{!OwnersDB W} `{!ObjectClient W S T} := {
  frame_insert_owner name ns o (w : W) r w' ns' n :
    insert_owner name ns o w = (r, w') -> kget (S := S) (T := T) ns' n w' = kget ns' n w;
  frame_insert_request q (w : W) r w' ns' n :
    insert_request q w = (r, w') -> kget (S := S) (T := T) ns' n w' = kget ns' n w;
}.

(** ** incidents.go *)
Section incidents.
Context {W : Type} `{!ObjectClient W IncidentSpec IncidentStatus} `{!OwnersDB W}.
Context (errText : goerr -> string) (DefaultNamespace : string) (hasDB : bool).

Record incidentView := mkIncidentView { iv_Incident : Incident; iv_OwnerUsername : string }.
Definition or_namespace (ns : string) : string := if decide (ns = EmptyString) then DefaultNamespace else ns.

(** The ownership maps: a later row of an incident overwrites an earlier one. *)
Definition owner_maps (w : W) : gmap string string * gmap string string :=
  if hasDB then
    match owner_rows w with
    | Ok rows => foldl (fun m r => (<[ow_IncidentID r := ow_Username r]> m.1, <[ow_IncidentID r := ow_OwnerID r]> m.2)) (∅, ∅) rows
    | Err _ => (∅, ∅)
    end
  else (∅, ∅).
Definition view_of (maps : gmap string string * gmap string string) (caller : Caller) (inc : Incident) : option incidentView :=
  if decide (ins_Source (spec inc) = "manual") then
    if decide (cl_Role caller <> "admin" /\ mget maps.2 (obj_name inc) <> cl_UserID caller) then None
    else Some (mkIncidentView inc (mget maps.1 (obj_name inc)))
  else Some (mkIncidentView inc EmptyString).
(** [Incidents.List] *)
Definition Incidents_List (namespace state : string) (caller : Caller) (w : W) : Response (list incidentView) :=
  match klist (S := IncidentSpec) (T := IncidentStatus) (or_namespace namespace) ∅ w with
  | Err e => Failure StatusInternalServerError (errText e)
  | Ok items =>
      let items := if decide (state = EmptyString) then items
                   else filter (fun inc : Incident => int_State (status inc) = state) items in
      Body StatusOK (omap (view_of (owner_maps w) caller) items)
  end.

(** The object a handler is about, or the status and text it fails with. *)
Definition lookup_incident (id : string) (w : W) : Incident + (Z * string) :=
  let '(ns, name) := namespacedName id DefaultNamespace in
  match kget (S := IncidentSpec) (T := IncidentStatus) ns name w with
  | Ok inc => inl inc
  | Err e => inr (if IsNotFound e then (StatusNotFound, "incident not found")
                  else (StatusInternalServerError, errText e))
  end.
(** [Incidents.Get] *)
Definition Incidents_Get (id : string) (caller : Caller) (w : W) : Response incidentView :=
  match lookup_incident id w with
  | inr (code, msg) => Failure code msg
  | inl inc =>
      if decide (ins_Source (spec inc) = "manual" /\ hasDB = true) then
        let '(ownerID, ownerUsername) :=
          match owner_with_name (namespacedName id DefaultNamespace).2 w with
          | Row (o, u) => (o, u)
          | _ => (EmptyString, EmptyString)
          end in
        if decide (cl_Role caller <> "admin" /\ ownerID <> cl_UserID caller) then Failure StatusForbidden "incident not found"
        else Body StatusOK (mkIncidentView inc ownerUsername)
      else Body StatusOK (mkIncidentView inc EmptyString)
  end.

(** [checkManualIncidentAccess] *)
Definition checkManualIncidentAccess (caller : Caller) (incName : string) (w : W) : bool :=
  if negb hasDB then true
  else if decide (cl_Role caller = "admin") then true
  else match owner_id incName w with
       | NoRows => true
       | RowError => false
       | Row ownerID => bool_decide (ownerID = cl_UserID caller)
       end.
Definition forbidden {A} : Response A := Failure StatusForbidden "incident not found".

Definition set_false_positive (inc : Incident) : Incident :=
  let s := spec inc in
  with_spec inc (mkIncidentSpec (ins_RootResource s) (ins_ProblemCases s) (ins_Source s) (ins_UserMessage s)
    (ins_RelatedResources s) true).
Definition set_resolved_at (now : Time) (inc : Incident) : Incident :=
  let t := status inc in
  with_status inc (mkIncidentStatus IncidentStateResolved (int_OpenedAt t) (Some now) (int_ActiveProblemCases t)
    (int_OccurrenceCount t) (int_LastOccurrenceAt t)).
(** The status update the two handlers end with. *)
Definition resolve_status (now : Time) (inc : Incident) (w : W) : Response Incident * W :=
  if decide (int_State (status inc) = IncidentStateResolved) then (Body StatusOK inc, w) else
  match kupdate_status (set_resolved_at now inc) w with
  | (Ok inc', w1) => (Body StatusOK inc', w1)
  | (Err e, w1) => (Failure StatusInternalServerError (errText e), w1)
  end.

(** [Incidents.MarkFalsePositive] *)
Definition MarkFalsePositive (id : string) (caller : Caller) (now : Time) (w : W) : Response Incident * W :=
  match lookup_incident id w with
  | inr (code, msg) => (Failure code msg, w)
  | inl inc =>
      if decide (ins_Source (spec inc) <> "manual") then
        (Failure StatusBadRequest "only manual incidents can be marked as false positive", w)
      else if negb (checkManualIncidentAccess caller (namespacedName id DefaultNamespace).2 w) then (forbidden, w)
      else
        match kpatch inc (set_false_positive inc) w with
        | (Err e, w1) => (Failure StatusInternalServerError (errText e), w1)
        | (Ok inc1, w1) => resolve_status now inc1 w1
        end
  end.

(** [Incidents.Resolve] *)
Definition Incidents_Resolve (id : string) (caller : Caller) (now : Time) (w : W) : Response Incident * W :=
  match lookup_incident id w with
  | inr (code, msg) => (Failure code msg, w)
  | inl inc =>
      if decide (ins_Source (spec inc) = "manual" /\
                 checkManualIncidentAccess caller (namespacedName id DefaultNamespace).2 w = false) then (forbidden, w)
      else resolve_status now inc w
  end.
End incidents.

(** ** manual_incident.go *)
Section manual_incident.
Context {W : Type} `{!ObjectClient W IncidentSpec IncidentStatus} `{!ObjectClient W DiagnosticRunSpec DiagnosticRunStatus}
  `{!OwnersDB W}.
Context (errText : goerr -> string) (DefaultNamespace : string).

Record relatedResourceIn := mkRelatedResourceIn {
  ri_Kind : string; ri_Name : string; ri_Namespace : string; ri_APIGroup : string; ri_EvidenceSlices : list string;
}.
Record manualIncidentRequest := mkManualIncidentRequest {
  mi_Namespace : string; mi_ResourceKind : string; mi_ResourceName : string; mi_UserMessage : string;
  mi_RelatedResources : list relatedResourceIn;
}.
Record manualIncidentResponse := mkManualIncidentResponse {
  mr_IncidentID : string; mr_DiagnosticRunID : string; mr_AnalysisRequestID : string;
}.

Definition invalid_request (req : manualIncidentRequest) : option string :=
  if decide (mi_ResourceKind req = EmptyString) then Some "resourceKind is required"
  else if decide (mi_ResourceName req = EmptyString) then Some "resourceName is required"
  else if decide (trim_space (mi_UserMessage req) = EmptyString) then Some "userMessage is required"
  else if decide (String.length (trim_space (mi_UserMessage req)) < 10)%nat then Some "userMessage must be at least 10 characters"
  else None.
Definition related_ref (rootNS : string) (r : relatedResourceIn) : option ResourceRef :=
  if decide (ri_Kind r = EmptyString \/ ri_Name r = EmptyString) then None
  else Some (mkResourceRef (if decide (ri_Namespace r = EmptyString) then rootNS else ri_Namespace r)
               (ri_Kind r) (ri_Name r) (ri_APIGroup r) (ri_EvidenceSlices r)).
Definition manual_spec (req : manualIncidentRequest) : IncidentSpec :=
  let rootNS := or_namespace DefaultNamespace (mi_Namespace req) in
  mkIncidentSpec (ref_to rootNS (mi_ResourceKind req) (mi_ResourceName req)) [] "manual" (mi_UserMessage req)
    (omap (related_ref rootNS) (mi_RelatedResources req)) false.
Definition set_manual_open (now : Time) (inc : Incident) : Incident :=
  let t := status inc in
  with_status inc (mkIncidentStatus IncidentStateOpen (Some now) (int_ResolvedAt t) (int_ActiveProblemCases t)
    (int_OccurrenceCount t) (int_LastOccurrenceAt t)).
Definition set_pending (dr : DiagnosticRun) : DiagnosticRun :=
  let t := status dr in
  with_status dr (mkDiagnosticRunStatus DiagnosticRunStatePending (drt_CollectedAt t) (drt_CollectorVersion t)
    (drt_EvidenceRef t) (drt_CollectionErrors t) (drt_RedactionSummary t) (drt_LogTruncationInfo t)
    (drt_AnalysisState t) (drt_AnalysisResultRef t)).
Definition new_run (incName : string) (now : Time) : DiagnosticRun :=
  mkObject (new_meta EmptyString ("dr-" +:+ incName +:+ "-") DefaultNamespace ∅)
    (mkDiagnosticRunSpec incName EmptyString (Some now)) zeroDiagnosticRunStatus.
Definition failed_with {A} (what : string) (e : goerr) : Response A :=
  Failure StatusInternalServerError (what +:+ ": " +:+ errText e).

(** The rows written once both objects exist; [requested] and [reqID] are the
    clock reading and the fresh identifier of the request. *)
Definition record_rows (caller : Caller) (reqID : string) (requested : Time) (incName drName : string) (w : W)
    : Response manualIncidentResponse * W :=
  match insert_request (mkAnalysisRequest reqID incName drName requested (cl_UserID caller)) w with
  | (Err e, w1) => (failed_with "inserting analysis request" e, w1)
  | (Ok _, w1) =>
      let answer := Body StatusCreated (mkManualIncidentResponse (DefaultNamespace +:+ "/" +:+ incName) drName reqID) in
      if decide (cl_UserID caller = EmptyString) then (answer, w1)
      else
        match insert_owner incName DefaultNamespace (cl_UserID caller) w1 with
        | (Err e, w2) => (failed_with "recording incident owner" e, w2)
        | (Ok _, w2) => (answer, w2)
        end
  end.
(** [ManualIncident.Create] *)
Definition ManualIncident_Create (body : option manualIncidentRequest) (caller : Caller) (reqID : string)
    (now requested : Time) (w : W) : Response manualIncidentResponse * W :=
  match body with
  | None => (Failure StatusBadRequest "invalid JSON body", w)
  | Some req =>
      match invalid_request req with
      | Some msg => (Failure StatusBadRequest msg, w)
      | None =>
          match kcreate (mkObject (new_meta EmptyString "manual-" DefaultNamespace ∅) (manual_spec req) zeroIncidentStatus) w with
          | (Err e, w1) => (failed_with "creating incident" e, w1)
          | (Ok inc, w1) =>
              let w2 := (kpatch_status inc (set_manual_open now inc) w1).2 in
              match kcreate (new_run (obj_name inc) now) w2 with
              | (Err e, w3) => (failed_with "creating diagnostic run" e, w3)
              | (Ok dr, w3) =>
                  match kpatch_status dr (set_pending dr) w3 with
                  | (Err e, w4) => (failed_with "patching diagnostic run status" e, w4)
                  | (Ok dr', w4) => record_rows caller reqID requested (obj_name inc) (obj_name dr') w4
                  end
              end
          end
      end
  end.
End manual_incident.

(** ** problemcases.go *)
Section problemcases.
Context {W : Type} `{!ObjectClient W ProblemCaseSpec ProblemCaseStatus}.
Context (errText : goerr -> string) (DefaultNamespace : string).

(** [ProblemCases.List] *)
Definition ProblemCases_List (namespace severity state : string) (w : W) : Response (list ProblemCase) :=
  match klist (S := ProblemCaseSpec) (T := ProblemCaseStatus) (or_namespace DefaultNamespace namespace) ∅ w with
  | Err e => Failure StatusInternalServerError (errText e)
  | Ok items => Body StatusOK (filter (fun pc : ProblemCase =>
      (severity = EmptyString \/ pcs_Severity (spec pc) = severity) /\ (state = EmptyString \/ pct_State (status pc) = state)) items)
  end.
(** [ProblemCases.Get] *)
Definition ProblemCases_Get (id : string) (w : W) : Response ProblemCase :=
  let '(ns, name) := namespacedName id DefaultNamespace in
  match kget (S := ProblemCaseSpec) (T := ProblemCaseStatus) ns name w with
  | Ok pc => Body StatusOK pc
  | Err e => if IsNotFound e then Failure StatusNotFound "problemcase not found" else Failure StatusInternalServerError (errText e)
  end.
End problemcases.

(** ** exclusion_rules.go *)
Section exclusion_rules.
Context {W : Type} `{!ObjectClient W ExclusionRuleSpec ExclusionRuleStatus}.
Context (errText : goerr -> string) (DefaultNamespace : string).

Record exclusionRuleResponse := mkExclusionRuleResponse {
  err_Name : string; err_Spec : ExclusionRuleSpec; err_Status : ExclusionRuleStatus;
}.
Definition rule_response (rule : KubechanExclusionRule) : exclusionRuleResponse :=
  mkExclusionRuleResponse (obj_name rule) (spec rule) (status rule).
(** [ExclusionRules.List] *)
Definition ExclusionRules_List (w : W) : Response (list exclusionRuleResponse) :=
  match klist (S := ExclusionRuleSpec) (T := ExclusionRuleStatus) DefaultNamespace ∅ w with
  | Err e => Failure StatusInternalServerError ("listing exclusion rules: " +:+ errText e)
  | Ok items => Body StatusOK (rule_response <$> items)
  end.

Definition set_enabled (enabled : bool) (s : ExclusionRuleSpec) : ExclusionRuleSpec :=
  mkExclusionRuleSpec (ers_Description s) enabled (ers_Namespace s) (ers_Detectors s) (ers_TargetResources s)
    (ers_Selector s) (ers_TimeWindow s).
(** [createExclusionRuleRequest]; [None] is a body that does not decode. *)
Record createExclusionRuleRequest := mkCreateExclusionRuleRequest { crr_Name : string; crr_Spec : ExclusionRuleSpec }.
(** [ExclusionRules.Create] *)
Definition ExclusionRules_Create (body : option createExclusionRuleRequest) (w : W) : Response exclusionRuleResponse * W :=
  match body with
  | None => (Failure StatusBadRequest "invalid JSON body", w)
  | Some req =>
      let s := crr_Spec req in
      if decide (trim_space (ers_Description s) = EmptyString) then (Failure StatusBadRequest "spec.description is required", w)
      else if decide (ers_TargetResources s = [] /\ ers_Selector s = None) then
        (Failure StatusBadRequest "at least one of spec.targetResources or spec.selector must be set", w)
      else if decide (trim_space (crr_Name req) = EmptyString) then (Failure StatusBadRequest "name is required", w)
      else
        match kcreate (mkObject (new_meta (crr_Name req) EmptyString DefaultNamespace ∅) (set_enabled true s)
                         (mkExclusionRuleStatus None 0)) w with
        | (Err e, w1) => (Failure StatusInternalServerError ("creating exclusion rule: " +:+ errText e), w1)
        | (Ok rule, w1) => (Body StatusCreated (rule_response rule), w1)
        end
  end.

(** [ExclusionRules.SetEnabled] *)
Definition ExclusionRules_SetEnabled (name : string) (body : option bool) (w : W) : Response exclusionRuleResponse * W :=
  match body with
  | None => (Failure StatusBadRequest "invalid JSON body", w)
  | Some enabled =>
      match kget (S := ExclusionRuleSpec) (T := ExclusionRuleStatus) DefaultNamespace name w with
      | Err _ => (Failure StatusNotFound "exclusion rule not found", w)
      | Ok rule =>
          match kpatch rule (with_spec rule (set_enabled enabled (spec rule))) w with
          | (Err e, w1) => (Failure StatusInternalServerError ("patching exclusion rule: " +:+ errText e), w1)
          | (Ok rule', w1) => (Body StatusOK (rule_response rule'), w1)
          end
      end
  end.

(** [ExclusionRules.Delete] *)
Definition ExclusionRules_Delete (name : string) (w : W) : Response () * W :=
  match kget (S := ExclusionRuleSpec) (T := ExclusionRuleStatus) DefaultNamespace name w with
  | Err _ => (Failure StatusNotFound "exclusion rule not found", w)
  | Ok rule =>
      match kdelete rule w with
      | (Err e, w1) => (Failure StatusInternalServerError ("deleting exclusion rule: " +:+ errText e), w1)
      | (Ok _, w1) => (Body StatusNoContent (), w1)
      end
  end.
End exclusion_rules.

(** ** Manual incidents are private *)
Section privacy.
Context {W : Type} `{!ObjectClient W IncidentSpec IncidentStatus} `{!ObjectClientLaws W IncidentSpec IncidentStatus}.
Context `{!OwnersDB W} (owners : W -> gmap string string) `{!OwnersDBLaws W owners}.
Context (errText : goerr -> string) (DefaultNamespace : string).
Implicit Types (inc : Incident) (w : W) (caller : Caller).

Definition is_manual inc : Prop := ins_Source (spec inc) = "manual".
Definition owned_by caller inc w : Prop := owners w !! obj_name inc = Some (cl_UserID caller).
(** A signed-in user who is no administrator. *)
Definition viewer caller : Prop := cl_Role caller <> "admin" /\ cl_UserID caller <> EmptyString.

(** Whatever the rows, the identifier map holds owners only. *)
Lemma owner_maps_sound hasDB name o w : (owner_maps hasDB w).2 !! name = Some o -> owners w !! name = Some o.
Proof using All.
  unfold owner_maps. destruct hasDB; [|done]. destruct (owner_rows w) as [rows|] eqn:E; [|done].
  pose proof (fun r => law_owner_rows w rows r E) as Hr. clear E.
  induction rows as [|r rows IH] using rev_ind; [done|]. rewrite foldl_snoc. cbn [snd].
  rewrite lookup_insert_Some. intros [[<- <-]|[_ H]].
  - apply Hr. rewrite elem_of_app, list_elem_of_singleton. by right.
  - apply IH; [|done]. intros r' Hin. apply Hr. rewrite elem_of_app. by left.
Qed.

Lemma view_of_private hasDB caller inc v w :
  viewer caller -> view_of (owner_maps hasDB w) caller inc = Some v -> is_manual inc ->
  iv_Incident v = inc /\ owned_by caller inc w.
Proof using All.
  intros [Hrole Hid] Hv Hm. unfold view_of in Hv. rewrite decide_True in Hv by done. case_decide as Hd; [done|].
  injection Hv as <-. split; [done|]. unfold owned_by. apply (owner_maps_sound hasDB). unfold mget in Hd.
  destruct ((owner_maps hasDB w).2 !! obj_name inc) as [o|] eqn:E; cbn in Hd.
  - f_equal. destruct (decide (o = cl_UserID caller)); [done|]. by destruct Hd.
  - destruct Hd. split; [done|]. by intros E'; apply Hid.
Qed.

Lemma list_private hasDB ns st caller w code views v :
  viewer caller -> Incidents_List errText DefaultNamespace hasDB ns st caller w = Body code views -> v ∈ views ->
  is_manual (iv_Incident v) -> owned_by caller (iv_Incident v) w.
Proof using All.
  intros Hc Hl Hv Hm. unfold Incidents_List in Hl. destruct (klist _ _ w) as [items|]; [|done].
  injection Hl as <- <-. apply list_elem_of_omap in Hv as (inc & _ & Hv).
  destruct (decide (is_manual inc)) as [Hi|Hi]; [|unfold view_of in Hv; rewrite decide_False in Hv by done; by injection Hv as <-].
  by destruct (view_of_private _ _ _ _ _ Hc Hv Hi) as [-> ?].
Qed.

Lemma lookup_incident_stored id w inc :
  lookup_incident errText DefaultNamespace id w = inl inc ->
  is_stored inc w /\ obj_name inc = (namespacedName id DefaultNamespace).2.
Proof using All.
  unfold lookup_incident. destruct (namespacedName id DefaultNamespace) as [ns n].
  destruct (kget ns n w) as [o|] eqn:E; [|done]. intros [= ->]. apply kget_is_stored in E. naive_solver.
Qed.

Lemma get_private id caller w code v :
  viewer caller -> Incidents_Get errText DefaultNamespace true id caller w = Body code v ->
  is_manual (iv_Incident v) -> owned_by caller (iv_Incident v) w.
Proof using All.
  intros [Hrole Hid] Hg Hm. unfold Incidents_Get in Hg.
  destruct (lookup_incident errText DefaultNamespace id w) as [inc|[]] eqn:E; [|done].
  apply lookup_incident_stored in E as [_ E]. case_decide as Hd; [|injection Hg as <- <-; by destruct Hd].
  destruct (owner_with_name _ w) as [[o u]| |] eqn:Eo; case_decide as Ha; try done.
  - injection Hg as <- <-. unfold owned_by. cbn. rewrite E. apply law_owner_with_name in Eo. rewrite Eo. f_equal.
    destruct (decide (o = cl_UserID caller)); [done|]. by destruct Ha.
  - destruct Ha. split; [done|]. by intros E'; apply Hid.
  - destruct Ha. split; [done|]. by intros E'; apply Hid.
Qed.

(** An incident of somebody else passes no check. *)
Lemma access_denied caller name w o :
  cl_Role caller <> "admin" -> owners w !! name = Some o -> o <> cl_UserID caller ->
  checkManualIncidentAccess true caller name w = false.
Proof using All.
  intros Hr Ho Hne. unfold checkManualIncidentAccess. cbn. rewrite decide_False by done.
  destruct (owner_id name w) as [o'| |] eqn:E; [| |done].
  - apply law_owner_id in E. rewrite Ho in E. injection E as <-. by apply bool_decide_eq_false.
  - apply law_owner_id_none in E. by rewrite Ho in E.
Qed.

(** Reads of every key but one are as before. *)
Definition touches_only (key : string * string) (w w' : W) : Prop :=
  same_elsewhere (S := IncidentSpec) (T := IncidentStatus) key w w'.
Lemma resolve_status_touches now inc w : touches_only (obj_key inc) w (resolve_status errText now inc w).2.
Proof using All.
  unfold resolve_status. case_decide; [done|].
  destruct (kupdate_status (set_resolved_at now inc) w) as [[inc'|e] w1] eqn:E; cbn; intros ns n Hne.
  - apply law_update_status in E as (_ & _ & _ & _ & Hsame). by apply Hsame.
  - by apply (law_write_error inc (set_resolved_at now inc) w e w1); auto.
Qed.
Lemma touches_only_trans key w1 w2 w3 : touches_only key w1 w2 -> touches_only key w2 w3 -> touches_only key w1 w3.
Proof using Type. intros H1 H2 ns n Hne. rewrite H2, H1; done. Qed.
Lemma mark_touches now inc w w1 inc1 :
  is_stored inc w -> kpatch inc (set_false_positive inc) w = (Ok inc1, w1) ->
  touches_only (obj_key inc) w (resolve_status errText now inc1 w1).2.
Proof using All.
  intros Hs Hp. destruct (kpatch_outcome inc (set_false_positive inc) _ _ _ Hs eq_refl Hp) as (x & Hrw & <- & E).
  eapply touches_only_trans; [apply Hrw|]. assert (obj_key inc = obj_key inc1) as -> by by rewrite E. apply resolve_status_touches.
Qed.
Lemma untouched inc key w w' : is_stored inc w -> obj_key inc <> key -> touches_only key w w' -> is_stored inc w'.
Proof using Type. intros Hs Hne Ht. unfold is_stored. by rewrite Ht. Qed.
(** Two stored incidents of one key are one. *)
Lemma stored_unique inc inc' w : is_stored inc w -> is_stored inc' w -> obj_key inc = obj_key inc' -> inc = inc'.
Proof using Type. unfold is_stored. intros H1 H2 [= E1 E2]. rewrite E1, E2, H2 in H1. by injection H1. Qed.

Section writes.
Context (id : string) (caller : Caller) (now : Time) (w : W) (inc : Incident) (o : string).
Context (Hviewer : viewer caller) (Hstored : is_stored inc w) (Hmanual : is_manual inc).
Context (Howner : owners w !! obj_name inc = Some o) (Hother : o <> cl_UserID caller).

(** The incident found under the identifier is another one, or the check fails. *)
Lemma found_is_other inc' :
  lookup_incident errText DefaultNamespace id w = inl inc' ->
  obj_key inc <> obj_key inc' \/
  (inc' = inc /\ checkManualIncidentAccess true caller (namespacedName id DefaultNamespace).2 w = false).
Proof using All.
  intros [Hs Hn]%lookup_incident_stored. destruct (decide (obj_key inc = obj_key inc')) as [E|E]; [right|by left].
  rewrite (stored_unique _ _ _ Hstored Hs E) in *. split; [done|]. rewrite <- Hn.
  destruct Hviewer. by eapply access_denied.
Qed.
Lemma resolve_private : is_stored inc (Incidents_Resolve errText DefaultNamespace true id caller now w).2.
Proof using All.
  unfold Incidents_Resolve. destruct (lookup_incident errText DefaultNamespace id w) as [inc'|[]] eqn:E; [|done].
  destruct (found_is_other _ E) as [Hk|[-> Ha]].
  - case_decide; [done|]. eapply untouched; [done|done|apply resolve_status_touches].
  - by rewrite decide_True.
Qed.
Lemma mark_private : is_stored inc (MarkFalsePositive errText DefaultNamespace true id caller now w).2.
Proof using All.
  unfold MarkFalsePositive. destruct (lookup_incident errText DefaultNamespace id w) as [inc'|[]] eqn:E; [|done].
  case_decide; [done|]. destruct (found_is_other _ E) as [Hk|[-> ->]]; [|done].
  destruct (checkManualIncidentAccess true caller _ w); [|done]. cbn [negb].
  apply lookup_incident_stored in E as [Hs _].
  destruct (kpatch inc' (set_false_positive inc') w) as [[inc1|e] w1] eqn:Ep; cbn [snd].
  - eapply untouched; [done|done|by eapply mark_touches].
  - eapply untouched; [done|done|]. intros ns n _. eapply law_write_error. right; left. exact Ep.
Qed.
End writes.

End privacy.

(** ** Reporting a manual incident *)
Section reporting.
Context {W : Type} `{!ObjectClient W IncidentSpec IncidentStatus} `{!ObjectClientLaws W IncidentSpec IncidentStatus}.
Context `{!ObjectClient W DiagnosticRunSpec DiagnosticRunStatus} `{!ObjectClientLaws W DiagnosticRunSpec DiagnosticRunStatus}.
Context `{!ClientFrame W DiagnosticRunSpec DiagnosticRunStatus IncidentSpec IncidentStatus}.
Context `{!OwnersDB W} (owners : W -> gmap string string) `{!OwnersDBLaws W owners}.
Context `{!OwnersDBFrame W IncidentSpec IncidentStatus} `{!OwnersDBFrame W DiagnosticRunSpec DiagnosticRunStatus}.
Context (errText : goerr -> string) (DefaultNamespace : string).
Implicit Types (inc : Incident) (dr : DiagnosticRun) (w : W) (caller : Caller).

(** What is stored, as far as reads tell. *)
Definition reads_agree (w w' : W) : Prop :=
  (forall ns n, kget (S := IncidentSpec) (T := IncidentStatus) ns n w' = kget ns n w) /\
  (forall ns n, kget (S := DiagnosticRunSpec) (T := DiagnosticRunStatus) ns n w' = kget ns n w).

Lemma record_rows_ok caller reqID requested incName drName w code resp w' :
  record_rows errText DefaultNamespace caller reqID requested incName drName w = (Body code resp, w') ->
  code = StatusCreated /\
  resp = mkManualIncidentResponse (DefaultNamespace +:+ "/" +:+ incName) drName reqID /\
  reads_agree w w' /\ (cl_UserID caller <> EmptyString -> owners w' !! incName = Some (cl_UserID caller)).
Proof using All.
  unfold record_rows. destruct (insert_request _ w) as [[[]|e] w1] eqn:E1; [|done].
  assert (reads_agree w w1) as [H1 H2] by (split; intros; eapply frame_insert_request; exact E1).
  case_decide as Hid.
  - intros [= <- <- <-]. by split_and!.
  - destruct (insert_owner _ _ _ w1) as [[[]|e] w2] eqn:E2; [|done]. intros [= <- <- <-].
    split_and!; [done|done| |].
    + split; intros ns n; [rewrite <- H1|rewrite <- H2]; eapply frame_insert_owner; exact E2.
    + intros _. apply law_insert_owner in E2 as ->. by rewrite lookup_insert_eq.
Qed.

(** The created incident, after a status patch whose failure is ignored. *)
Lemma created_incident s now w inc w1 :
  kcreate (mkObject (new_meta EmptyString "manual-" DefaultNamespace ∅) s zeroIncidentStatus) w = (Ok inc, w1) ->
  exists inc', is_stored inc' (kpatch_status inc (set_manual_open now inc) w1).2 /\
    meta inc' = meta inc /\ spec inc' = s /\ obj_namespace inc = DefaultNamespace /\
    (forall x : Incident, kget DefaultNamespace (obj_name inc) w <> Ok x).
Proof using All.
  intros (Hns & _ & Hs & _ & Hnew & Hst & _)%law_create. cbn in Hns, Hs.
  destruct (kpatch_status inc _ w1) as [r w2] eqn:E.
  destruct (kpatch_status_outcome inc (set_manual_open now inc) w1 r w2 Hst eq_refl E) as (inc' & [_ Ha Hm _] & Hr).
  exists inc'. rewrite Hns in Hnew. cbn. split_and!; [done|done| |done|done].
  destruct r; [destruct Hr as [_ ->]|rewrite Hr]; done.
Qed.
(** The created run, once its status is written. *)
Lemma created_run incName now w dr w1 dr' w2 :
  kcreate (new_run DefaultNamespace incName now) w = (Ok dr, w1) ->
  kpatch_status dr (set_pending dr) w1 = (Ok dr', w2) ->
  is_stored dr' w2 /\ obj_namespace dr' = DefaultNamespace /\ drt_State (status dr') = DiagnosticRunStatePending /\
  spec dr' = mkDiagnosticRunSpec incName EmptyString (Some now) /\
  (forall ns n, kget (S := IncidentSpec) (T := IncidentStatus) ns n w2 = kget ns n w).
Proof using All.
  intros Hc Hp. pose proof (law_create _ _ _ _ Hc) as (Hns & _ & Hs & _ & _ & Hst & _). cbn in Hns, Hs.
  destruct (kpatch_status_outcome dr (set_pending dr) _ _ _ Hst eq_refl Hp) as (x & [_ Ha _ _] & -> & ->).
  split_and!; [done|done|done|done|]. intros ns n.
  erewrite frame_patch_status by exact Hp. by eapply frame_create.
Qed.

Lemma invalid_request_none req :
  invalid_request req = None <->
  mi_ResourceKind req <> EmptyString /\ mi_ResourceName req <> EmptyString /\
  (10 <= String.length (trim_space (mi_UserMessage req)))%nat.
Proof using Type.
  unfold invalid_request. repeat case_decide; split; try done; try naive_solver lia.
  intros (_ & _ & H'). match goal with E : trim_space _ = _ |- _ => rewrite E in H' end. cbn in H'. lia.
Qed.

(** When reporting a manual incident succeeds, the request was complete, and a
    fresh incident with the reported resource and message is stored, found under
    the identifier that is answered, together with a pending diagnostic run for it
    and, for a signed-in caller, the caller as its owner. *)
Theorem manual_create_ok body caller reqID now requested w code resp w' :
  no_byte "/"%char DefaultNamespace ->
  ManualIncident_Create errText DefaultNamespace body caller reqID now requested w = (Body code resp, w') ->
  exists req inc dr, body = Some req /\ code = StatusCreated /\
    (mi_ResourceKind req <> EmptyString /\ mi_ResourceName req <> EmptyString /\
     10 <= String.length (trim_space (mi_UserMessage req)))%nat /\
    lookup_incident errText DefaultNamespace (mr_IncidentID resp) w' = inl inc /\
    is_stored inc w' /\ spec inc = manual_spec DefaultNamespace req /\
    (forall x : Incident, kget DefaultNamespace (obj_name inc) w <> Ok x) /\
    is_stored dr w' /\ obj_namespace dr = DefaultNamespace /\ obj_name dr = mr_DiagnosticRunID resp /\
    drs_IncidentRef (spec dr) = obj_name inc /\ drt_State (status dr) = DiagnosticRunStatePending /\
    (cl_UserID caller <> EmptyString -> owners w' !! obj_name inc = Some (cl_UserID caller)).
Proof using All.
  intros Hslash Hc. unfold ManualIncident_Create in Hc. destruct body as [req|]; [|done].
  destruct (invalid_request req) eqn:Hv; [done|]. apply invalid_request_none in Hv as (Hv1 & Hv2 & Hv3).
  destruct (kcreate _ w) as [[inc|] w1] eqn:E1; [|done]. cbv zeta in Hc.
  destruct (created_incident _ now _ _ _ E1) as (inc' & Hst & Hm & Hs & Hns & Hnew).
  destruct (kcreate (new_run _ _ _) _) as [[dr|] w3] eqn:E3; [|done].
  destruct (kpatch_status dr _ w3) as [[dr'|] w4] eqn:E4; [|done].
  destruct (created_run _ _ _ _ _ _ _ E3 E4) as (Hdr & Hdns & Hds & Hdspec & Hframe).
  apply record_rows_ok in Hc as (-> & -> & [Hi Hd] & Ho).
  assert (obj_name inc' = obj_name inc /\ obj_namespace inc' = DefaultNamespace) as [Hn Hns'].
  { unfold obj_name, obj_namespace in *. by rewrite Hm. }
  assert (is_stored inc' w') as Hst' by (unfold is_stored; rewrite Hi, Hframe; exact Hst).
  exists req, inc', dr'. rewrite Hdspec, Hn. split_and!; try done.
  - unfold lookup_incident, namespacedName. cbn [mr_IncidentID].
    change ("/" +:+ obj_name inc) with (String "/"%char (obj_name inc)). rewrite cut_on_app by done.
    unfold is_stored in Hst'. rewrite Hn, Hns' in Hst'. by rewrite Hst'.
  - unfold is_stored. by rewrite Hd.
Qed.
End reporting.

(** ** A world for the theorems: a cluster and two tables

    [aw_broken] makes every insert fail, as a database that went away does. *)
Record ApiWorld := mkApiWorld {
  aw_cluster : MemCluster;
  aw_owners : gmap string string;
  aw_requests : list AnalysisRequest;
  aw_broken : bool;
}.
Definition on_cluster (f : MemCluster -> MemCluster) (w : ApiWorld) : ApiWorld :=
  mkApiWorld (f (aw_cluster w)) (aw_owners w) (aw_requests w) (aw_broken w).
#[export] Instance aw_Incidents_client : ObjectClient ApiWorld IncidentSpec IncidentStatus :=
  mem_client (fun w => mc_Incidents (aw_cluster w)) (fun m => on_cluster (set_Incidents m)).
#[export] Instance aw_DiagnosticRuns_client : ObjectClient ApiWorld DiagnosticRunSpec DiagnosticRunStatus :=
  mem_client (fun w => mc_DiagnosticRuns (aw_cluster w)) (fun m => on_cluster (set_DiagnosticRuns m)).
#[export] Instance aw_Incidents_laws : ObjectClientLaws ApiWorld IncidentSpec IncidentStatus.
Proof. by apply mem_client_laws. Qed.
#[export] Instance aw_DiagnosticRuns_laws : ObjectClientLaws ApiWorld DiagnosticRunSpec DiagnosticRunStatus.
Proof. by apply mem_client_laws. Qed.
#[export] Instance aw_frame : ClientFrame ApiWorld DiagnosticRunSpec DiagnosticRunStatus IncidentSpec IncidentStatus.
Proof. by apply mem_client_frame. Qed.

Definition insert_into (f : ApiWorld -> ApiWorld) : eff ApiWorld () := fun w =>
  if aw_broken w then (Err (ErrOther "database is locked"), w) else (Ok tt, f w).
#[export] Instance aw_tables : OwnersDB ApiWorld := {
  owner_rows w := Ok ((fun r => mkOwnerRow r.1 ("user " +:+ r.2) r.2) <$> map_to_list (aw_owners w));
  owner_with_name name w := match aw_owners w !! name with Some o => Row (o, "user " +:+ o) | None => NoRows end;
  owner_id name w := match aw_owners w !! name with Some o => Row o | None => NoRows end;
  insert_owner name ns o :=
    insert_into (fun w => mkApiWorld (aw_cluster w) (<[name := o]> (aw_owners w)) (aw_requests w) (aw_broken w));
  insert_request r :=
    insert_into (fun w => mkApiWorld (aw_cluster w) (aw_owners w) (r :: aw_requests w) (aw_broken w));
}.
Lemma insert_into_inv f w r w' : insert_into f w = (r, w') -> (r = Ok tt /\ w' = f w) \/ (w' = w /\ exists e, r = Err e).
Proof. unfold insert_into. destruct (aw_broken w); intros [= <- <-]; eauto. Qed.
#[export] Instance aw_tables_laws : OwnersDBLaws ApiWorld aw_owners.
Proof.
  split; cbn.
  - intros w rows r [= <-] ([n o] & -> & Hin)%list_elem_of_fmap. by apply elem_of_map_to_list in Hin.
  - intros name w o u. destruct (aw_owners w !! name); naive_solver.
  - intros name w o. destruct (aw_owners w !! name); naive_solver.
  - intros name w. by destruct (aw_owners w !! name).
  - intros name ns o w w' [[_ ->]|[_ [e [=]]]]%insert_into_inv. done.
  - intros name ns o w w' e [[[=] _]|[-> _]]%insert_into_inv. done.
  - intros q w x w' [[_ ->]|[-> _]]%insert_into_inv; done.
Qed.
Section frames.
Context {S T : Type} (sget : MemCluster -> gmap (string * string) (Object S T))
  (sput : gmap (string * string) (Object S T) -> MemCluster -> MemCluster).
Definition aw_client : ObjectClient ApiWorld S T := mem_client (fun w => sget (aw_cluster w)) (fun m => on_cluster (sput m)).
Lemma aw_tables_frame : @OwnersDBFrame ApiWorld S T aw_tables aw_client.
Proof.
  split; cbn.
  - intros name ns o w r w' ns' n [[_ ->]|[-> _]]%insert_into_inv; done.
  - intros q w r w' ns' n [[_ ->]|[-> _]]%insert_into_inv; done.
Qed.
End frames.
#[export] Instance aw_Incidents_frame : OwnersDBFrame ApiWorld IncidentSpec IncidentStatus.
Proof. apply (aw_tables_frame mc_Incidents set_Incidents). Qed.
#[export] Instance aw_DiagnosticRuns_frame : OwnersDBFrame ApiWorld DiagnosticRunSpec DiagnosticRunStatus.
Proof. apply (aw_tables_frame mc_DiagnosticRuns set_DiagnosticRuns). Qed.

Definition no_text (e : goerr) : string := "error".
Definition a_report : manualIncidentRequest :=
  mkManualIncidentRequest "shop" "Deployment" "cart" "checkout is slow today" [mkRelatedResourceIn "Service" "db" EmptyString EmptyString []].
Definition alice : Caller := mkCaller "alice" "viewer".
Definition bob : Caller := mkCaller "bob" "viewer".
(** Alice reports an incident in a new world. *)
Definition reported (broken : bool) : Response manualIncidentResponse * ApiWorld :=
  ManualIncident_Create no_text "kubechan" (Some a_report) alice "req-1" 5 6 (mkApiWorld empty_cluster ∅ [] broken).

Lemma manual_create_ok_witness :
  exists w', reported false = (Body StatusCreated (mkManualIncidentResponse "kubechan/manual-x0" "dr-manual-x0-x0" "req-1"), w') /\
  exists req inc dr, Some a_report = Some req /\ StatusCreated = StatusCreated /\
    (mi_ResourceKind req <> EmptyString /\ mi_ResourceName req <> EmptyString /\
     10 <= String.length (trim_space (mi_UserMessage req)))%nat /\
    lookup_incident no_text "kubechan" "kubechan/manual-x0" w' = inl inc /\
    is_stored inc w' /\ spec inc = manual_spec "kubechan" req /\
    (forall x : Incident, kget "kubechan" (obj_name inc) (mkApiWorld empty_cluster ∅ [] false) <> Ok x) /\
    is_stored dr w' /\ obj_namespace dr = "kubechan" /\ obj_name dr = "dr-manual-x0-x0" /\
    drs_IncidentRef (spec dr) = obj_name inc /\ drt_State (status dr) = DiagnosticRunStatePending /\
    ("alice" <> EmptyString -> aw_owners w' !! obj_name inc = Some "alice").
Proof.
  destruct (reported false) as [r w'] eqn:E.
  assert (r = Body StatusCreated (mkManualIncidentResponse "kubechan/manual-x0" "dr-manual-x0-x0" "req-1")) as ->.
  { transitivity (reported false).1; [by rewrite E|vm_refl]. }
  exists w'. split; [reflexivity|]. unfold reported in E.
  apply (fun H => manual_create_ok aw_owners no_text "kubechan" (Some a_report) alice "req-1" 5 6 (mkApiWorld empty_cluster ∅ [] false)
    StatusCreated (mkManualIncidentResponse "kubechan/manual-x0" "dr-manual-x0-x0" "req-1") w' H E).
  clear. by cbn.
Defined.

(** A world with one manual incident, Alice's. *)
Definition alices_incident : Incident :=
  mkObject (new_meta "m" EmptyString "k" ∅) (manual_spec "k" a_report) zeroIncidentStatus.
Definition alices_world : ApiWorld :=
  mkApiWorld (set_Incidents {[ ("k", "m") := alices_incident ]} empty_cluster) {[ "m" := "alice" ]} [] false.

(** A success whose value has a property. *)
Definition answers {A} (P : A -> bool) (r : Response A) : bool :=
  match r with Body code a => bool_decide (code = StatusOK) && P a | Failure _ _ => false end.
(** When the tables cannot be written while Alice reports an incident, she gets
    an error but the incident exists without an owner: Bob may not read it, and
    may resolve it and mark it as false positive all the same, because the check
    of the writing handlers takes a missing row for an automatic incident. *)
Theorem unowned_manual_incident_is_open_to_all :
  let w := (reported true).2 in
  (reported true).1 = Failure StatusInternalServerError "inserting analysis request: error" /\
  Incidents_Get no_text "kubechan" true "manual-x0" bob w = Failure StatusForbidden "incident not found" /\
  Incidents_Get no_text "kubechan" true "manual-x0" alice w = Failure StatusForbidden "incident not found" /\
  answers (fun inc => bool_decide (int_State (status inc) = IncidentStateResolved))
    (Incidents_Resolve no_text "kubechan" true "manual-x0" bob 7 w).1 = true /\
  answers (fun inc => ins_FalsePositive (spec inc)) (MarkFalsePositive no_text "kubechan" true "manual-x0" bob 7 w).1 = true.
Proof. cbv zeta. split_and!; vm_refl. Qed.
