(* ===== verification/EvidenceKinds.v ===== *)
(** * The kinds an evidence collection reads (services/diagnostics-worker)

    diagnosticrun_reconciler.go reads more of the built-in kinds than the
    watchers of [Api] do: pod specifications with their volumes and environment,
    routes, scale targets, claims.  Here are records of the fields it reads, and
    the reads themselves as a class, [EvidenceReader].  Outside src/ are the
    Kubernetes client, its log and discovery endpoints and the parsing of group
    versions; a collection only reads, so a read is a function of the world. *)

From stdpp Require Import sorting.
From stdpp Require Import prelude gmap strings list.
From S2P Require Import Prelude GoBase Api Collector.

(** A Go pointer that is stored in a dynamic value: only its [%v] text, an
    address that differs from run to run, is seen there. *)
Record Pointer (A : Type) := mkPtr { ptr_text : string; ptr_value : A }.
Arguments mkPtr {_} _ _.
Arguments ptr_text {_} _.
Arguments ptr_value {_} _.

(** ** Pod specifications (core/v1)

    A reference to another object is its name; [None] is a nil pointer. *)
Record ProjectedSource := mkProjectedSource { ps_ConfigMap : option string; ps_Secret : option string }.
Record Volume := mkVolume {
  vo_Name : string;
  vo_ConfigMap : option string;
  vo_Secret : option string;
  vo_PersistentVolumeClaim : option string;
  vo_Projected : option (list ProjectedSource);
}.
Record EnvFromSource := mkEnvFromSource { ef_ConfigMapRef : option string; ef_SecretRef : option string }.
Record EnvVarSource := mkEnvVarSource { es_ConfigMapKeyRef : option string; es_SecretKeyRef : option string }.
Record VolumeMount := mkVolumeMount { vm_Name : string; vm_MountPath : string }.
Record Container := mkContainer {
  ct_EnvFrom : list EnvFromSource;
  ct_Env : list (option EnvVarSource);   (** [ValueFrom] of each variable *)
  ct_VolumeMounts : list VolumeMount;
}.
Record PodSpec := mkPodSpec {
  pos_Volumes : list Volume;
  pos_InitContainers : list Container;
  pos_Containers : list Container;
}.
Definition CorePod := Object PodSpec PodStatus.

(** ** Workloads (apps/v1, batch/v1, autoscaling/v2) *)
Record WorkloadCondition := mkWorkloadCondition { wc_Type : string; wc_Status : string; wc_Reason : string; wc_Message : string }.
Record AppDeploymentSpec := mkAppDeploymentSpec {
  ad_Replicas : option (Pointer Z);
  ad_Selector : option (gmap string string);   (** [Selector.MatchLabels]; a nil [Selector] is [None] *)
  ad_TemplateLabels : gmap string string;
  ad_Template : PodSpec;
}.
Record AppDeploymentStatus := mkAppDeploymentStatus {
  ads_AvailableReplicas : Z; ads_ReadyReplicas : Z; ads_Conditions : list WorkloadCondition;
}.
Definition AppDeployment := Object AppDeploymentSpec AppDeploymentStatus.
Record AppStatefulSetSpec := mkAppStatefulSetSpec {
  as_Replicas : option (Pointer Z); as_TemplateLabels : gmap string string; as_Template : PodSpec;
}.
Record AppStatefulSetStatus := mkAppStatefulSetStatus { ass_ReadyReplicas : Z; ass_CurrentReplicas : Z }.
Definition AppStatefulSet := Object AppStatefulSetSpec AppStatefulSetStatus.
Record AppDaemonSetSpec := mkAppDaemonSetSpec { ds_TemplateLabels : gmap string string; ds_Template : PodSpec }.
Record AppDaemonSetStatus := mkAppDaemonSetStatus {
  dss_DesiredNumberScheduled : Z; dss_NumberReady : Z; dss_NumberUnavailable : Z;
}.
Definition AppDaemonSet := Object AppDaemonSetSpec AppDaemonSetStatus.
Record CronJobSpec := mkCronJobSpec { cj_Schedule : string; cj_Suspend : option (Pointer bool) }.
(** The times are the addresses of the strings the collector allocates for them. *)
Record CronJobStatus := mkCronJobStatus {
  cjs_Active : Z; cjs_LastScheduleTime : option (Pointer Time); cjs_LastSuccessfulTime : option (Pointer Time);
}.
Definition CronJob := Object CronJobSpec CronJobStatus.
Record JobSpec := mkJobSpec { jb_Completions : option (Pointer Z) }.
Record JobStatus := mkJobStatus {
  jbs_Succeeded : Z; jbs_Failed : Z; jbs_Active : Z;
  jbs_StartTime : option (Pointer Time); jbs_CompletionTime : option (Pointer Time);
}.
Definition Job := Object JobSpec JobStatus.
Record ScaleTargetRef := mkScaleTargetRef { st_APIVersion : string; st_Kind : string; st_Name : string }.
Record AutoscalerSpec := mkAutoscalerSpec {
  hs_ScaleTargetRef : ScaleTargetRef; hs_MinReplicas : option (Pointer Z); hs_MaxReplicas : Z;
}.
Record AutoscalerStatus := mkAutoscalerStatus { hss_CurrentReplicas : Z; hss_DesiredReplicas : Z }.
Definition HorizontalPodAutoscaler := Object AutoscalerSpec AutoscalerStatus.

(** ** Routing (core/v1, networking/v1, discovery/v1) *)
Record ServicePort := mkServicePort { sp_Name : string; sp_Port : Z; sp_TargetPort : string; sp_Protocol : string }.
Record CoreServiceSpec := mkCoreServiceSpec {
  cs_Type : string; cs_Selector : gmap string string; cs_Ports : list ServicePort; cs_ClusterIP : string;
}.
Definition CoreService := Object CoreServiceSpec ().
Record IngressServiceBackend := mkIngressServiceBackend { ib_Name : string; ib_Port : Z }.
Record HTTPIngressPath := mkHTTPIngressPath {
  ip_Path : string;
  ip_PathType : option string;
  ip_Service : option IngressServiceBackend;   (** nil when the backend is a resource *)
}.
(** A rule with its [HTTP.Paths]; a nil [HTTP] is [None]. *)
Record IngressRule := mkIngressRule { ir_Host : string; ir_HTTP : option (list HTTPIngressPath) }.
Record IngressSpec := mkIngressSpec { ig_ClassName : option (Pointer string); ig_Rules : list IngressRule }.
Definition Ingress := Object IngressSpec ().
Record CoreEndpoint := mkCoreEndpoint { ce_Ready : option bool; ce_Addresses : list string }.
Record CoreSliceSpec := mkCoreSliceSpec { sl_AddressType : string; sl_Endpoints : list CoreEndpoint }.
Definition CoreEndpointSlice := Object CoreSliceSpec ().
Definition LabelServiceName : string := "kubernetes.io/service-name".

(** ** Configuration and storage (core/v1) *)
Record ConfigMapData := mkConfigMapData { cd_Data : gmap string string }.
Definition ConfigMap := Object ConfigMapData ().
Record SecretData := mkSecretData { sd_Type : string; sd_Data : gmap string string }.
Definition Secret := Object SecretData ().
Record ClaimSpec := mkClaimSpec {
  pc_StorageClassName : option string;
  pc_AccessModes : list string;
  pc_RequestedStorage : option string;   (** the text of the requested quantity *)
}.
Record ClaimStatus := mkClaimStatus { pcs_Phase : string; pcs_Capacity : option string }.
Definition PersistentVolumeClaim := Object ClaimSpec ClaimStatus.

(** ** Events (core/v1) *)
Record CoreEvent := mkCoreEvent {
  co_InvolvedKind : string; co_InvolvedName : string;
  co_Type : string; co_Reason : string; co_Message : string; co_Count : Z;
  co_FirstTimestamp : Time; co_LastTimestamp : Time;
}.

(** ** The reads of a collection *)
Record APIResource := mkAPIResource { ar_Name : string; ar_Kind : string }.
Record APIResourceList := mkAPIResourceList { al_GroupVersion : string; al_Resources : list APIResource }.
Record GroupVersionResource := mkGVR { gvr_Group : string; gvr_Version : string; gvr_Resource : string }.

Class EvidenceReader (W : Type) := {
  (** [List] in a namespace *)
  list_Deployments : string -> W -> res (list AppDeployment);
  list_StatefulSets : string -> W -> res (list AppStatefulSet);
  list_DaemonSets : string -> W -> res (list AppDaemonSet);
  list_Services : string -> W -> res (list CoreService);
  list_Ingresses : string -> W -> res (list Ingress);
  list_HPAs : string -> W -> res (list HorizontalPodAutoscaler);
  list_EndpointSlices : string -> W -> res (list CoreEndpointSlice);
  list_Pods : string -> W -> res (list CorePod);
  list_Events : string -> W -> res (list CoreEvent);
  (** [Get] by namespace and name *)
  get_Ingress : string -> string -> W -> res Ingress;
  get_Service : string -> string -> W -> res CoreService;
  get_ConfigMap : string -> string -> W -> res ConfigMap;
  get_Secret : string -> string -> W -> res Secret;
  get_Deployment : string -> string -> W -> res AppDeployment;
  get_StatefulSet : string -> string -> W -> res AppStatefulSet;
  get_DaemonSet : string -> string -> W -> res AppDaemonSet;
  get_CronJob : string -> string -> W -> res CronJob;
  get_Job : string -> string -> W -> res Job;
  get_Claim : string -> string -> W -> res PersistentVolumeClaim;
  get_HPA : string -> string -> W -> res HorizontalPodAutoscaler;
  get_EndpointSlice : string -> string -> W -> res CoreEndpointSlice;
  (** [Get] of a StorageClass, which has no namespace: the error only *)
  get_StorageClass : string -> W -> res ();
  (** [ctrl.GetConfig] and a clientset from it *)
  rest_config : W -> res ();
  core_clientset : W -> res ();
  discovery_client : W -> res ();
  dynamic_client : W -> res ();
  (** [GetLogs] of a pod: the last lines of its current or previous container *)
  pod_logs : string -> string -> bool -> Z -> W -> res string;
  (** [ServerPreferredNamespacedResources], whose error is ignored, and [schema.ParseGroupVersion] *)
  preferred_resources : W -> list APIResourceList;
  parse_group_version : string -> res (string * string);
  (** the dynamic client's [Get]: the object as a map *)
  dynamic_get : GroupVersionResource -> string -> string -> W -> res (gmap string any);
}.
#[export] Hint Mode EvidenceReader ! : typeclass_instances.

(** ** A cluster at rest, as lists of objects *)
Record Snapshot := mkSnapshot {
  sh_Deployments : list AppDeployment;
  sh_StatefulSets : list AppStatefulSet;
  sh_DaemonSets : list AppDaemonSet;
  sh_Services : list CoreService;
  sh_Ingresses : list Ingress;
  sh_HPAs : list HorizontalPodAutoscaler;
  sh_EndpointSlices : list CoreEndpointSlice;
  sh_Pods : list CorePod;
  sh_Events : list CoreEvent;
  sh_ConfigMaps : list ConfigMap;
  sh_Secrets : list Secret;
  sh_Claims : list PersistentVolumeClaim;
  sh_Logs : gmap (string * string) string;
}.
Definition empty_snapshot : Snapshot := mkSnapshot [] [] [] [] [] [] [] [] [] [] [] [] ∅.
Definition in_namespace {S T} (ns : string) (l : list (Object S T)) : res (list (Object S T)) :=
  Ok (filter (fun o => obj_namespace o = ns) l).
Definition find_object {S T} (ns n : string) (l : list (Object S T)) : res (Object S T) :=
  match filter (fun o => obj_namespace o = ns /\ obj_name o = n) l with o :: _ => Ok o | [] => Err ErrNotFound end.
(** Events are listed whatever their namespace; there are no jobs, no storage
    classes and no custom resources. *)
#[export] Instance snapshot_reader : EvidenceReader Snapshot := {|
  list_Deployments ns w := in_namespace ns (sh_Deployments w);
  list_StatefulSets ns w := in_namespace ns (sh_StatefulSets w);
  list_DaemonSets ns w := in_namespace ns (sh_DaemonSets w);
  list_Services ns w := in_namespace ns (sh_Services w);
  list_Ingresses ns w := in_namespace ns (sh_Ingresses w);
  list_HPAs ns w := in_namespace ns (sh_HPAs w);
  list_EndpointSlices ns w := in_namespace ns (sh_EndpointSlices w);
  list_Pods ns w := in_namespace ns (sh_Pods w);
  list_Events ns w := Ok (sh_Events w);
  get_Ingress ns n w := find_object ns n (sh_Ingresses w);
  get_Service ns n w := find_object ns n (sh_Services w);
  get_ConfigMap ns n w := find_object ns n (sh_ConfigMaps w);
  get_Secret ns n w := find_object ns n (sh_Secrets w);
  get_Deployment ns n w := find_object ns n (sh_Deployments w);
  get_StatefulSet ns n w := find_object ns n (sh_StatefulSets w);
  get_DaemonSet ns n w := find_object ns n (sh_DaemonSets w);
  get_CronJob ns n w := Err ErrNotFound;
  get_Job ns n w := Err ErrNotFound;
  get_Claim ns n w := find_object ns n (sh_Claims w);
  get_HPA ns n w := find_object ns n (sh_HPAs w);
  get_EndpointSlice ns n w := find_object ns n (sh_EndpointSlices w);
  get_StorageClass n w := Err ErrNotFound;
  rest_config w := Ok tt;
  core_clientset w := Ok tt;
  discovery_client w := Ok tt;
  dynamic_client w := Ok tt;
  pod_logs ns n previous tail w := match sh_Logs w !! (ns, n) with Some s => Ok s | None => Err ErrNotFound end;
  preferred_resources w := [];
  parse_group_version s := Ok (s, EmptyString);
  dynamic_get gvr ns n w := Err ErrNotFound;
|}.

(** The reads of a part of a larger world. *)
Definition reader_on {W V} (part : W -> V) (R : EvidenceReader V) : EvidenceReader W := {|
  list_Deployments ns w := list_Deployments ns (part w); list_StatefulSets ns w := list_StatefulSets ns (part w);
  list_DaemonSets ns w := list_DaemonSets ns (part w); list_Services ns w := list_Services ns (part w);
  list_Ingresses ns w := list_Ingresses ns (part w); list_HPAs ns w := list_HPAs ns (part w);
  list_EndpointSlices ns w := list_EndpointSlices ns (part w); list_Pods ns w := list_Pods ns (part w);
  list_Events ns w := list_Events ns (part w);
  get_Ingress ns n w := get_Ingress ns n (part w); get_Service ns n w := get_Service ns n (part w);
  get_ConfigMap ns n w := get_ConfigMap ns n (part w); get_Secret ns n w := get_Secret ns n (part w);
  get_Deployment ns n w := get_Deployment ns n (part w); get_StatefulSet ns n w := get_StatefulSet ns n (part w);
  get_DaemonSet ns n w := get_DaemonSet ns n (part w); get_CronJob ns n w := get_CronJob ns n (part w);
  get_Job ns n w := get_Job ns n (part w); get_Claim ns n w := get_Claim ns n (part w);
  get_HPA ns n w := get_HPA ns n (part w); get_EndpointSlice ns n w := get_EndpointSlice ns n (part w);
  get_StorageClass n w := get_StorageClass n (part w);
  rest_config w := rest_config (part w); core_clientset w := core_clientset (part w);
  discovery_client w := discovery_client (part w); dynamic_client w := dynamic_client (part w);
  pod_logs ns n previous tail w := pod_logs ns n previous tail (part w);
  preferred_resources w := preferred_resources (part w); parse_group_version := parse_group_version (W := V);
  dynamic_get gvr ns n w := dynamic_get gvr ns n (part w);
|}.
