(* ===== verification/Tables.v ===== *)
(** * The tables of backend-api (db/migrations/*.sql)

    Rows as records, the seven tables the handlers use, and how a statement
    runs.  The database driver and SQLite are parameters: a statement either
    reports an error, and then has changed nothing, or is carried out on the
    tables; a query finds its rows in an order nobody promises ([sql_scan]).
    What a statement does is the function of the tables that its text says, given
    where it is used.  Columns that no code reads ([updated_at], the
    [source] of evidence and results, and the like) are left out. *)

From Stdlib Require Import Ascii.
From stdpp Require Import sorting.
From stdpp Require Import prelude gmap strings list.
From S2P Require Import Prelude GoBase Api Client Handlers.

Record EvidenceRow := mkEvidenceRow {
  er_DiagnosticRunID : string; er_ProblemCaseID : string; er_IncidentID : option string;
  er_CollectedAt : string; er_CollectorVersion : string; er_LogTruncated : Z; er_Payload : string; er_PayloadBytes : Z;
  er_RedactionSummary : option string; er_LogTruncationInfo : option string; er_CollectionErrors : option string;
  er_CreatedAt : string;
}.
Record ResultRow := mkResultRow {
  an_IncidentID : option string; an_DiagnosticRunID : string; an_Model : string; an_ModelRuntime : string;
  an_Status : string; an_LikelyRootCause : option string; an_Confidence : option string; an_Payload : string;
  an_Prompt : option string; an_NeedsMoreInfo : Z; an_SuggestedResources : option string;
  an_UserRating : option string; an_CreatedAt : string;
}.
Record RequestRow := mkRequestRow {
  rq_IncidentID : option string; rq_DiagnosticRunID : string; rq_RequestedAt : string; rq_Status : string;
  rq_DispatchedAt : option string; rq_CompletedAt : option string; rq_Source : string; rq_TriggeredBy : option string;
}.
Record UserRow := mkUserRow { us_Username : string; us_PasswordHash : string; us_Role : string; us_CreatedAt : string }.
Record OwnerEntry := mkOwnerEntry { oe_Namespace : string; oe_OwnerID : string }.
Record LLMRow := mkLLMRow { ll_Provider : string; ll_Credentials : string }.
(** Every table by its primary key. *)
Record Tables := mkTables {
  tb_evidence : gmap string EvidenceRow;
  tb_results : gmap string ResultRow;
  tb_requests : gmap string RequestRow;
  tb_users : gmap string UserRow;
  tb_owners : gmap string OwnerEntry;
  tb_llm : gmap string LLMRow;
  tb_settings : gmap string string;
}.
Definition set_evidence (m : gmap string EvidenceRow) (t : Tables) : Tables :=
  mkTables m (tb_results t) (tb_requests t) (tb_users t) (tb_owners t) (tb_llm t) (tb_settings t).
Definition set_results (m : gmap string ResultRow) (t : Tables) : Tables :=
  mkTables (tb_evidence t) m (tb_requests t) (tb_users t) (tb_owners t) (tb_llm t) (tb_settings t).
Definition set_requests (m : gmap string RequestRow) (t : Tables) : Tables :=
  mkTables (tb_evidence t) (tb_results t) m (tb_users t) (tb_owners t) (tb_llm t) (tb_settings t).
Definition set_users (m : gmap string UserRow) (t : Tables) : Tables :=
  mkTables (tb_evidence t) (tb_results t) (tb_requests t) m (tb_owners t) (tb_llm t) (tb_settings t).
Definition set_owners (m : gmap string OwnerEntry) (t : Tables) : Tables :=
  mkTables (tb_evidence t) (tb_results t) (tb_requests t) (tb_users t) m (tb_llm t) (tb_settings t).
Definition set_llm (m : gmap string LLMRow) (t : Tables) : Tables :=
  mkTables (tb_evidence t) (tb_results t) (tb_requests t) (tb_users t) (tb_owners t) m (tb_settings t).
Definition set_settings (m : gmap string string) (t : Tables) : Tables :=
  mkTables (tb_evidence t) (tb_results t) (tb_requests t) (tb_users t) (tb_owners t) (tb_llm t) m.
Definition empty_tables : Tables := mkTables ∅ ∅ ∅ ∅ ∅ ∅ ∅.

(** [INSERT], refused when the primary key is taken; [UPDATE ... WHERE] and
    [DELETE ... WHERE] by a condition on the columns, and the number of rows
    that satisfy it. *)
Definition insert_row {A} (key : string) (x : A) (m : gmap string A) : option (gmap string A) :=
  match m !! key with Some _ => None | None => Some (<[key := x]> m) end.
Definition update_rows {A} (p : A -> bool) (f : A -> A) (m : gmap string A) : gmap string A := (fun x => if p x then f x else x) <$> m.
Definition delete_rows {A} (p : A -> bool) (m : gmap string A) : gmap string A := filter (fun kx : string * A => p kx.2 = false) m.
Definition count_rows {A} (p : A -> bool) (m : gmap string A) : Z := Z.of_nat (size (filter (fun kx : string * A => p kx.2 = true) m)).
(** The rows of a table with a condition, with their keys. *)
Definition rows_where {A} (p : A -> bool) (m : gmap string A) : list (string * A) := filter (fun kx : string * A => p kx.2 = true) (map_to_list m).

(** [REFERENCES users(id)] on a column that may be null. *)
Definition user_ref (foreign_keys : bool) (user : option string) (t : Tables) : bool :=
  negb foreign_keys || match user with None => true | Some u => bool_decide (is_Some (tb_users t !! u)) end.

(** ** Running statements

    [datetime('now')] and its kin, as text; the tables compare it as text. *)
Definition sqlite_datetime (t : Time) : string := format_date t +:+ " " +:+ format_clock t.
Class SqlDB (W : Type) := {
  tables : W -> Tables;
  put_tables : Tables -> W -> W;
  (** the error the statement with this label ends with, if any *)
  sql_fault : string -> W -> option goerr;
  (** the order in which a query with this label finds its rows *)
  sql_scan : forall A : Type, string -> W -> list A -> list A;
  (** the clock of the database *)
  sql_clock : W -> Time;
  (** whether the connection that runs the statement enforces foreign keys *)
  sql_foreign_keys : string -> W -> bool;
}.
#[export] Hint Mode SqlDB ! : typeclass_instances.
Class SqlDBLaws (W : Type) `{!SqlDB W} := {
  law_tables_put t (w : W) : tables (put_tables t w) = t;
  law_sql_scan A label (w : W) (l : list A) : sql_scan A label w l ≡ₚ l;
}.
(** The tables and the cluster are apart. *)
Class SqlFrame (W S T : Type) `{!SqlDB W} `{!ObjectClient W S T} := {
  frame_put_tables t (w : W) ns n : kget (S := S) (T := T) ns n (put_tables t w) = kget ns n w;
  frame_tables_create (o : Object S T) (w : W) r w' : kcreate o w = (r, w') -> tables w' = tables w;
  frame_tables_patch (b o : Object S T) (w : W) r w' : kpatch b o w = (r, w') -> tables w' = tables w;
  frame_tables_patch_status (b o : Object S T) (w : W) r w' : kpatch_status b o w = (r, w') -> tables w' = tables w;
}.

Definition constraint_failed (label : string) : goerr := ErrOther ("constraint failed: " +:+ label).
Section statements.
Context {W : Type} `{!SqlDB W}.

(** [ExecContext]: the number of rows affected.  [None] is a violated constraint;
    a statement is told whether foreign keys are among them. *)
Definition exec (label : string) (f : bool -> Tables -> option (Tables * Z)) : eff W Z := fun w =>
  match sql_fault label w with
  | Some e => (Err e, w)
  | None => match f (sql_foreign_keys label w) (tables w) with
            | None => (Err (constraint_failed label), w)
            | Some (t, n) => (Ok n, put_tables t w)
            end
  end.
(** [QueryContext], and [QueryRowContext(...).Scan], [Ok None] being [sql.ErrNoRows]. *)
Definition query {A} (label : string) (f : Tables -> list A) (w : W) : res (list A) :=
  match sql_fault label w with
  | Some e => Err e
  | None => Ok (sql_scan A label w (f (tables w)))
  end.
Definition query_row {A} (label : string) (f : Tables -> list A) (w : W) : res (option A) :=
  match query label f w with Err e => Err e | Ok l => Ok (head l) end.
(** [ORDER BY column DESC LIMIT 1] *)
Definition latest_first {A} (column : A -> string) (l : list A) : list A := sort_slice (fun x y => str_lt (column y) (column x)) l.
Definition query_latest {A} (label : string) (column : A -> string) (f : Tables -> list A) (w : W) : res (option A) :=
  match query label f w with Err e => Err e | Ok l => Ok (head (latest_first column l)) end.
(** A result without error, or what it leaves in the variable scanned into. *)
Definition scanned {A} (r : res (option A)) : option A := match r with Ok o => o | Err _ => None end.

Definition db_now (w : W) : string := sqlite_datetime (sql_clock w).

Lemma exec_tables `{!SqlDBLaws W} label f w r w' :
  exec label f w = (r, w') ->
  match r with
  | Ok n => f (sql_foreign_keys label w) (tables w) = Some (tables w', n)
  | Err _ => w' = w
  end.
Proof using Type.
  unfold exec. destruct (sql_fault label w); [by intros [= <- <-]|].
  destruct (f _ (tables w)) as [[t n]|]; intros [= <- <-]; [by rewrite law_tables_put|done].
Qed.
Lemma exec_works `{!SqlDBLaws W} label f w t n :
  sql_fault label w = None -> f (sql_foreign_keys label w) (tables w) = Some (t, n) -> exec label f w = (Ok n, put_tables t w).
Proof using Type. unfold exec. by intros -> ->. Qed.
Lemma exec_frame {S T} `{!ObjectClient W S T} `{!SqlFrame W S T} label f w r w' ns n :
  exec label f w = (r, w') -> kget (S := S) (T := T) ns n w' = kget ns n w.
Proof using Type.
  unfold exec. destruct (sql_fault label w); [by intros [= _ <-]|].
  destruct (f _ (tables w)) as [[t k]|]; intros [= _ <-]; [apply frame_put_tables|done].
Qed.
Lemma query_elem `{!SqlDBLaws W} {A} label (f : Tables -> list A) w l x :
  query label f w = Ok l -> x ∈ l <-> x ∈ f (tables w).
Proof using Type. unfold query. destruct (sql_fault label w); [done|]. intros [= <-]. by rewrite law_sql_scan. Qed.
Lemma query_row_some `{!SqlDBLaws W} {A} label (f : Tables -> list A) w x :
  query_row label f w = Ok (Some x) -> x ∈ f (tables w).
Proof using Type.
  unfold query_row. destruct (query label f w) as [l|] eqn:E; [|done]. intros [= H].
  apply (query_elem _ _ _ _ x) in E. apply E. apply head_Some_elem_of. done.
Qed.
End statements.

(** ** Lemmas on rows *)
Lemma insert_row_some {A} key (x : A) m m' : insert_row key x m = Some m' <-> m !! key = None /\ m' = <[key := x]> m.
Proof. unfold insert_row. destruct (m !! key) eqn:E; naive_solver. Qed.
Lemma lookup_update_rows {A} (p : A -> bool) f (m : gmap string A) k :
  update_rows p f m !! k = (fun x => if p x then f x else x) <$> m !! k.
Proof. unfold update_rows. by rewrite lookup_fmap. Qed.
Lemma lookup_delete_rows {A} (p : A -> bool) (m : gmap string A) k x :
  delete_rows p m !! k = Some x <-> m !! k = Some x /\ p x = false.
Proof. unfold delete_rows. by rewrite map_lookup_filter_Some. Qed.
Lemma elem_of_rows_where {A} (p : A -> bool) (m : gmap string A) k x :
  (k, x) ∈ rows_where p m <-> m !! k = Some x /\ p x = true.
Proof. unfold rows_where. rewrite list_elem_of_filter, elem_of_map_to_list. naive_solver. Qed.

(** ** The tables behind [OwnersDB]

    incidents.go and manual_incident.go run their statements on these tables. *)
Section owners.
Context {W : Type} `{!SqlDB W}.

(** [manual_incident_owners mio JOIN users u ON u.id = mio.owner_id] *)
Definition owners_joined (t : Tables) : list (string * OwnerEntry * UserRow) :=
  omap (fun ko : string * OwnerEntry => u ← tb_users t !! oe_OwnerID ko.2; Some (ko, u)) (map_to_list (tb_owners t)).
Definition insert_request_row (id : string) (row : RequestRow) (foreign_keys : bool) (t : Tables) : option (Tables * Z) :=
  if user_ref foreign_keys (rq_TriggeredBy row) t
  then m ← insert_row id row (tb_requests t); Some (set_requests m t, 1%Z) else None.
Definition insert_owner_row (incident ns owner : string) (foreign_keys : bool) (t : Tables) : option (Tables * Z) :=
  if user_ref foreign_keys (Some owner) t
  then m ← insert_row incident (mkOwnerEntry ns owner) (tb_owners t); Some (set_owners m t, 1%Z) else None.
Definition done_with (m : eff W Z) : eff W () := fun w => match m w with (Ok _, w') => (Ok tt, w') | (Err e, w') => (Err e, w') end.
Definition row_result {A} (r : res (option A)) : RowResult A :=
  match r with Ok (Some a) => Row a | Ok None => NoRows | Err _ => RowError end.

#[export] Instance owners_tables : OwnersDB W := {
  owner_rows w :=
    match query "owners" owners_joined w with
    | Ok l => Ok ((fun x => mkOwnerRow x.1.1 (us_Username x.2) (oe_OwnerID x.1.2)) <$> l)
    | Err e => Err e
    end;
  owner_with_name name w := row_result (query_row "owner with name" (fun t =>
    (fun x => (oe_OwnerID x.1.2, us_Username x.2)) <$> filter (fun x => x.1.1 = name) (owners_joined t)) w);
  owner_id name w := row_result (query_row "owner" (fun t => option_list (oe_OwnerID <$> tb_owners t !! name)) w);
  insert_owner name ns o := done_with (exec "insert owner" (insert_owner_row name ns o));
  insert_request r := done_with (exec "insert manual request" (insert_request_row (ar_ID r)
    (mkRequestRow (Some (ar_IncidentID r)) (ar_DiagnosticRunID r) (format_rfc3339 (ar_RequestedAt r)) "pending" None None "manual"
       (Some (ar_TriggeredBy r)))));
}.

Definition owners_of (w : W) : gmap string string := oe_OwnerID <$> tb_owners (tables w).
Lemma done_with_exec `{!SqlDBLaws W} label f w r w' :
  done_with (exec label f) w = (r, w') ->
  (exists n, r = Ok tt /\ f (sql_foreign_keys label w) (tables w) = Some (tables w', n)) \/ (exists e, r = Err e /\ w' = w).
Proof using Type.
  unfold done_with. destruct (exec label f w) as [[n|e] w1] eqn:E; intros [= <- <-]; apply exec_tables in E; eauto.
Qed.
Lemma owners_joined_elem t k o u : (k, o, u) ∈ owners_joined t -> tb_owners t !! k = Some o.
Proof using Type.
  unfold owners_joined. rewrite list_elem_of_omap. intros ([k' o'] & H & E). apply elem_of_map_to_list in H.
  cbn in E. destruct (tb_users t !! oe_OwnerID o'); [|done]. by injection E as <- <- <-.
Qed.
Lemma row_result_row {A} (r : res (option A)) a : row_result r = Row a -> r = Ok (Some a).
Proof using Type. destruct r as [[]|]; by intros [= ->]. Qed.
#[export] Instance owners_tables_laws `{!SqlDBLaws W} : OwnersDBLaws W owners_of.
Proof using Type.
  unfold owners_of. split; cbn.
  - intros w rows r E Hr. destruct (query "owners" owners_joined w) as [l|] eqn:Eq; [|done]. injection E as <-.
    apply list_elem_of_fmap in Hr as ([[k o] u] & -> & H). cbn. rewrite (query_elem _ _ _ _ _ Eq) in H.
    apply owners_joined_elem in H. by rewrite lookup_fmap, H.
  - intros name w o u E%row_result_row%query_row_some. apply list_elem_of_fmap in E as ([[k o'] u'] & [= -> ->] & H).
    apply list_elem_of_filter in H as [Hk H]. cbn in Hk. subst k. apply owners_joined_elem in H. by rewrite lookup_fmap, H.
  - intros name w o E%row_result_row%query_row_some. rewrite lookup_fmap.
    destruct (tb_owners (tables w) !! name); cbn in E; [|by apply elem_of_nil in E]. by apply list_elem_of_singleton in E as ->.
  - intros name w E. unfold query_row in E. destruct (query "owner" _ w) as [l|] eqn:Eq; [|done].
    destruct l as [|x l]; [|done]. rewrite lookup_fmap. destruct (tb_owners (tables w) !! name) as [o|] eqn:Eo; [|done].
    pose proof (query_elem _ _ _ _ (oe_OwnerID o) Eq) as [_ H]. rewrite Eo in H. cbn in H.
    exfalso. eapply not_elem_of_nil. apply H. apply list_elem_of_here.
  - intros name ns o w w' [(n & _ & H)|(e & ? & _)]%done_with_exec; [|done]. unfold insert_owner_row in H.
    destruct (user_ref _ _ _); [|done]. destruct (insert_row _ _ _) as [m|] eqn:E; [|done]. apply insert_row_some in E as [_ ->].
    injection H as <- _. cbn. by rewrite fmap_insert.
  - intros name ns o w w' e [(n & ? & _)|(e' & _ & ->)]%done_with_exec; done.
  - intros r w x w' [(n & _ & H)|(e & _ & ->)]%done_with_exec; [|done]. unfold insert_request_row in H.
    destruct (user_ref _ _ _); [|done]. destruct (insert_row _ _ _); [|done]. by injection H as <- _.
Qed.
#[export] Instance owners_tables_frame {S T} `{!ObjectClient W S T} `{!SqlFrame W S T} : OwnersDBFrame W S T.
Proof using Type.
  split; cbn; unfold done_with; [intros name ns o w r w' ns' n|intros q w r w' ns' n];
    destruct (exec _ _ w) as [[] w1] eqn:E; intros [= _ <-]; by eapply exec_frame.
Qed.
End owners.
