(* ===== verification/Analysis.v ===== *)
(** * Analysis requests (handler/internal.go, analysis.go, augment.go)

    From a request for an analysis to its result: [Analyze] and [Augment] create
    a diagnostic run and a request row, [ReceiveEvidence] stores what the worker
    collected and spawns [dispatchAnalysis], which asks the llm-gateway and stores
    its answer.  A handler takes the decoded body ([None] if decoding failed), the
    caller, clock readings and fresh identifiers; the goroutine that
    [ReceiveEvidence] starts is part of its result.  Parsing and printing of JSON
    values that are passed through are parameters, as is the gateway. *)

From Stdlib Require Import Ascii.
From stdpp Require Import sorting.
From stdpp Require Import prelude gmap strings list.
From S2P Require Import Prelude GoBase Json Api Client Hub Mood Handlers Tables.

(** The hub, as the interface the handlers hold it by. *)
Class Broadcaster (W : Type) := { hub_broadcast : string -> W -> W }.
#[export] Hint Mode Broadcaster ! : typeclass_instances.
Class BroadcasterFrame (W S T : Type) `{!Broadcaster W} `{!SqlDB W} `{!ObjectClient W S T} := {
  frame_broadcast msg (w : W) ns n : kget (S := S) (T := T) ns n (hub_broadcast msg w) = kget ns n w;
  frame_broadcast_tables msg (w : W) : tables (hub_broadcast msg w) = tables w;
}.
(** [httpClient.Post]: the status code and the body of the answer. *)
Class LLMGateway (W : Type) := { llm_post : string -> string -> eff W (Z * string) }.
#[export] Hint Mode LLMGateway ! : typeclass_instances.
(** Others may act while the gateway is asked; it answers without touching the tables. *)
Class LLMGatewayFrame (W S T : Type) `{!LLMGateway W} `{!SqlDB W} `{!ObjectClient W S T} := {
  frame_llm url body (w : W) r w' ns n : llm_post url body w = (r, w') -> kget (S := S) (T := T) ns n w' = kget ns n w;
  frame_llm_tables url body (w : W) r w' : llm_post url body w = (r, w') -> tables w' = tables w;
}.

(** ** The evidence a worker posts *)
Record redactionSummary := mkRedactionSummaryIn { ri_PatternsApplied : Z; ri_RedactedFields : option (list string) }.
Record evidenceRequest := mkEvidenceRequest {
  vr_DiagnosticRunID : string; vr_ProblemCaseID : string; vr_IncidentID : string; vr_CollectedAt : Time;
  vr_CollectorVersion : string; vr_Payload : string; vr_PayloadBytes : Z; vr_LogTruncated : bool;
  vr_RedactionSummary : option redactionSummary; vr_LogTruncationInfo : option LogTruncationInfo;
  vr_CollectionErrors : option (list string);
}.
(** [json.Marshal] of a slice of strings, [None] being nil, and of the two pointers. *)
Definition strings_json (l : option (list string)) : json := match l with Some l => JArr (JStr <$> l) | None => JNull end.
Definition redaction_json (r : option redactionSummary) : json :=
  match r with
  | None => JNull
  | Some r => JObj [("patternsApplied", jint (ri_PatternsApplied r)); ("redactedFields", strings_json (ri_RedactedFields r))]
  end.
Definition truncation_json (i : option LogTruncationInfo) : json :=
  match i with
  | None => JNull
  | Some i => JObj [("truncated", JBool (lti_Truncated i)); ("originalBytes", jint (lti_OriginalBytes i)); ("truncatedBytes", jint (lti_TruncatedBytes i))]
  end.
(** [nullStr], [nullBytes] *)
Definition nullStr (s : string) : option string := if decide (s = EmptyString) then None else Some s.
Definition nullBytes (b : string) : option string := if decide (b = EmptyString \/ b = "null") then None else Some b.
Definition int_of_bool (b : bool) : Z := if b then 1 else 0.

(** The row of the evidence. *)
Definition evidence_row (req : evidenceRequest) (created : string) : EvidenceRow :=
  mkEvidenceRow (vr_DiagnosticRunID req) (vr_ProblemCaseID req) (nullStr (vr_IncidentID req)) (format_rfc3339 (vr_CollectedAt req))
    (vr_CollectorVersion req) (int_of_bool (vr_LogTruncated req)) (vr_Payload req) (vr_PayloadBytes req)
    (nullBytes (json_text (redaction_json (vr_RedactionSummary req)))) (nullBytes (json_text (truncation_json (vr_LogTruncationInfo req))))
    (nullBytes (json_text (strings_json (vr_CollectionErrors req)))) created.
Definition insert_evidence_row (id : string) (row : EvidenceRow) (foreign_keys : bool) (t : Tables) : option (Tables * Z) :=
  m ← insert_row id row (tb_evidence t); Some (set_evidence m t, 1%Z).
(** [WHERE diagnostic_run_id = ? AND status IN ('pending', 'dispatched')] *)
Definition waiting (run : string) (r : RequestRow) : bool := bool_decide (rq_DiagnosticRunID r = run) && str_in (rq_Status r) ["pending"; "dispatched"].
Definition set_in_progress (now : string) (r : RequestRow) : RequestRow :=
  mkRequestRow (rq_IncidentID r) (rq_DiagnosticRunID r) (rq_RequestedAt r) "in_progress" (Some now) (rq_CompletedAt r) (rq_Source r) (rq_TriggeredBy r).
Definition start_requests (run now : string) (foreign_keys : bool) (t : Tables) : option (Tables * Z) :=
  Some (set_requests (update_rows (waiting run) (set_in_progress now) (tb_requests t)) t, count_rows (waiting run) (tb_requests t)).
(** [SET status = ?, completed_at = ? WHERE diagnostic_run_id = ?] *)
Definition of_run (run : string) (r : RequestRow) : bool := bool_decide (rq_DiagnosticRunID r = run).
Definition set_settled (state now : string) (r : RequestRow) : RequestRow :=
  mkRequestRow (rq_IncidentID r) (rq_DiagnosticRunID r) (rq_RequestedAt r) state (rq_DispatchedAt r) (Some now) (rq_Source r) (rq_TriggeredBy r).
Definition settle_requests (run state now : string) (foreign_keys : bool) (t : Tables) : option (Tables * Z) :=
  Some (set_requests (update_rows (of_run run) (set_settled state now) (tb_requests t)) t, count_rows (of_run run) (tb_requests t)).
Definition insert_result_row (id : string) (row : ResultRow) (foreign_keys : bool) (t : Tables) : option (Tables * Z) :=
  m ← insert_row id row (tb_results t); Some (set_results m t, 1%Z).

(** ** What is sent to the llm-gateway and what comes back

    A value decoded into [any] is a [json]; [Confidence] is the text of the
    number, [lr_SuggestExclusionRule] the value that is encoded again. *)
Record llmAnalyzeRequest := mkLlmAnalyzeRequest {
  lq_EvidenceID : string; lq_DiagnosticRunID : string; lq_IncidentID : string; lq_IncidentSource : string;
  lq_ReanalysisCount : Z; lq_MoodLevel : Z; lq_UserMessage : string; lq_Provider : string;
  lq_Credentials : option (gmap string json); lq_PersonaEnabled : bool; lq_Payload : option (gmap string json);
}.
Record suggestedResource := mkSuggestedResource { sg_Kind : string; sg_APIGroup : string; sg_Reason : string }.
Record llmAnalyzeResponse := mkLlmAnalyzeResponse {
  lr_Model : string; lr_LikelyRootCause : string; lr_Confidence : string; lr_NeedsMoreInfo : bool;
  lr_SuggestedResources : option (list suggestedResource); lr_SuggestExclusionRule : option json; lr_Prompt : string;
  lr_Rest : json;   (** the fields that are only stored again *)
}.
Definition suggested_json (s : suggestedResource) : json :=
  JObj ([("kind", JStr (sg_Kind s))] ++ (if decide (sg_APIGroup s = EmptyString) then [] else [("apiGroup", JStr (sg_APIGroup s))]) ++
        [("reason", JStr (sg_Reason s))]).
Definition suggestions_json (l : option (list suggestedResource)) : json :=
  match l with Some l => JArr (suggested_json <$> l) | None => JNull end.
(** A JSON value as [map[string]any]: [null] is the nil map, of two equal keys the
    later counts, anything but an object is an error. *)
Definition as_map (v : json) : option (option (gmap string json)) :=
  match v with
  | JNull => Some None
  | JObj fields => Some (Some (foldl (fun m kv => <[kv.1 := kv.2]> m) ∅ fields))
  | _ => None
  end.
Definition as_string (v : option json) : string := match v with Some (JStr s) => s | _ => EmptyString end.

(** [dr.Status.AnalysisState = state], and the reference when there is one. *)
Definition set_analysis_state (state resultRef : string) (dr : DiagnosticRun) : DiagnosticRun :=
  let t := status dr in
  with_status dr (mkDiagnosticRunStatus (drt_State t) (drt_CollectedAt t) (drt_CollectorVersion t) (drt_EvidenceRef t)
    (drt_CollectionErrors t) (drt_RedactionSummary t) (drt_LogTruncationInfo t) state
    (if decide (resultRef = EmptyString) then drt_AnalysisResultRef t else resultRef)).
(** The patch of [ReceiveEvidence]. *)
Definition set_received (req : evidenceRequest) (evidenceID : string) (now : Time) (dispatching : bool) (dr : DiagnosticRun) : DiagnosticRun :=
  let t := status dr in
  with_status dr (mkDiagnosticRunStatus DiagnosticRunStateCompleted (Some now) (vr_CollectorVersion req) evidenceID
    (match default [] (vr_CollectionErrors req) with [] => drt_CollectionErrors t | errs => errs end)
    (match vr_RedactionSummary req with
     | None => drt_RedactionSummary t
     | Some r => Some (mkRedactionSummary (ri_PatternsApplied r) (default [] (ri_RedactedFields r))) end)
    (match vr_LogTruncationInfo req with None => drt_LogTruncationInfo t | info => info end)
    (if dispatching then DiagnosticRunAnalysisStateInProgress else drt_AnalysisState t) (drt_AnalysisResultRef t)).

(** ** internal.go *)
Section internal.
Context {W : Type} `{!ObjectClient W DiagnosticRunSpec DiagnosticRunStatus} `{!ObjectClient W IncidentSpec IncidentStatus}
  `{!ObjectClient W KubeChanStateSpec KubeChanStateStatus} `{!SqlDB W} `{!Broadcaster W} `{!LLMGateway W}.
Context (errText : goerr -> string) (DefaultNamespace LLMGatewayURL : string) (hasHub : bool) (MoodSyncer : option string)
  (PersonaAllowed : bool).
Context (parse_json : string -> option json) (marshal_request : llmAnalyzeRequest -> res string)
  (decode_response : string -> option llmAnalyzeResponse) (marshal_response : llmAnalyzeResponse -> string).

Definition get_run (name : string) (w : W) : res DiagnosticRun := kget DefaultNamespace name w.
(** [if h.Hub != nil { h.Hub.Broadcast(msg) }] *)
Definition tell (msg : json) (w : W) : W := if hasHub then hub_broadcast (json_text msg) w else w.
Definition run_message (type run : string) : json := JObj [("diagnosticRunId", JStr run); ("type", JStr type)].
Definition configured : bool := negb (bool_decide (LLMGatewayURL = EmptyString)).

(** [ReceiveEvidence]: the answer, and the evidence to analyse once it is given. *)
Definition patch_received (req : evidenceRequest) (evidenceID : string) (now : Time) (w : W) : W :=
  match get_run (vr_DiagnosticRunID req) w with
  | Ok dr => (kpatch_status dr (set_received req evidenceID now configured dr) w).2
  | Err _ => w
  end.
Definition ReceiveEvidence (body : option evidenceRequest) (evidenceID : string) (dispatched now : Time) (w : W)
    : Response string * W * option (string * evidenceRequest) :=
  match body with
  | None => (Failure StatusBadRequest "invalid JSON body", w, None)
  | Some req =>
      let run := vr_DiagnosticRunID req in
      if decide (run = EmptyString) then (Failure StatusBadRequest "diagnosticRunId is required", w, None) else
      match exec "insert evidence" (insert_evidence_row evidenceID (evidence_row req (db_now w))) w with
      | (Err e, w1) => (Failure StatusInternalServerError ("inserting evidence: " +:+ errText e), w1, None)
      | (Ok _, w1) =>
          let w2 := if configured then (exec "start requests" (start_requests run (format_rfc3339 dispatched)) w1).2 else w1 in
          let w3 := patch_received req evidenceID now w2 in
          if configured then (Body StatusCreated evidenceID, tell (run_message "Analysis.InProgress" run) w3, Some (evidenceID, req))
          else (Body StatusCreated evidenceID, w3, None)
      end
  end.

(** [patchAnalysisState] *)
Definition patch_run_state (run state resultRef : string) (w : W) : W :=
  match get_run run w with
  | Ok dr => (kpatch_status dr (set_analysis_state state resultRef dr) w).2
  | Err _ => w
  end.
Definition patchAnalysisState (run state resultRef : string) (now : Time) (w : W) : W :=
  let w1 := (exec "settle requests" (settle_requests run state (format_rfc3339 now)) w).2 in
  let w2 := patch_run_state run state resultRef w1 in
  if decide (state = DiagnosticRunAnalysisStateFailed) then tell (run_message "Analysis.Failed" run) w2 else w2.

(** What [dispatchAnalysis] looks up for its request. *)
Definition prior_count (incident : string) (w : W) : Z :=
  if decide (incident = EmptyString) then 0%Z else
  match query "prior results" (fun t => rows_where (fun r => bool_decide (an_IncidentID r = Some incident)) (tb_results t)) w with
  | Ok l => Z.of_nat (length l)
  | Err _ => 0%Z
  end.
Definition incident_source (incident : string) (w : W) : string :=
  if decide (incident = EmptyString) then "auto" else
  match kget (S := IncidentSpec) (T := IncidentStatus) DefaultNamespace incident w with
  | Ok inc => if decide (ins_Source (spec inc) = EmptyString) then "auto" else ins_Source (spec inc)
  | Err _ => "auto"
  end.
Definition triggered_by (run : string) (w : W) : string :=
  match scanned (query_row "triggered by" (fun t => rows_where (of_run run) (tb_requests t)) w) with
  | Some (_, r) => default EmptyString (rq_TriggeredBy r)
  | None => EmptyString
  end.
Definition llm_choice (user : string) (w : W) : string * option (gmap string json) :=
  if decide (user = EmptyString) then (EmptyString, None) else
  match scanned (query_row "llm settings" (fun t => option_list (tb_llm t !! user)) w) with
  | Some r => (ll_Provider r, v ← parse_json (ll_Credentials r); m ← as_map v; m)
  | None => (EmptyString, None)
  end.
Definition persona_enabled (w : W) : bool :=
  if PersonaAllowed then
    match scanned (query_row "persona" (fun t => option_list (tb_settings t !! "persona.enabled")) w) with
    | Some val => match parse_json val with Some (JBool b) => b | _ => false end
    | None => false
    end
  else false.
Definition analyze_request (evidenceID : string) (req : evidenceRequest) (payload : option (gmap string json)) (w : W) : llmAnalyzeRequest :=
  let choice := llm_choice (triggered_by (vr_DiagnosticRunID req) w) w in
  mkLlmAnalyzeRequest evidenceID (vr_DiagnosticRunID req) (vr_IncidentID req) (incident_source (vr_IncidentID req) w)
    (prior_count (vr_IncidentID req) w) (match MoodSyncer with Some ns => GetMoodLevel ns w | None => 0%Z end)
    (as_string (m ← payload; m !! "userMessage")) choice.1 choice.2 (persona_enabled w) payload.
Definition result_row (req : evidenceRequest) (provider : string) (result : llmAnalyzeResponse) (created : string) : ResultRow :=
  mkResultRow (nullStr (vr_IncidentID req)) (vr_DiagnosticRunID req) (lr_Model result)
    (if decide (provider = EmptyString) then "bedrock" else provider) "completed" (Some (lr_LikelyRootCause result))
    (Some (lr_Confidence result)) (marshal_response result) (nullStr (lr_Prompt result)) (int_of_bool (lr_NeedsMoreInfo result))
    (nullBytes (json_text (suggestions_json (lr_SuggestedResources result)))) None created.
Definition completed_message (req : evidenceRequest) (analysisID : string) (result : llmAnalyzeResponse) : json :=
  JObj [("analysisId", JStr analysisID); ("confidence", JNum (lr_Confidence result)); ("diagnosticRunId", JStr (vr_DiagnosticRunID req));
        ("incidentId", JStr (vr_IncidentID req)); ("needsMoreInfo", JBool (lr_NeedsMoreInfo result));
        ("rootCause", JStr (lr_LikelyRootCause result)); ("suggestExclusionRule", default JNull (lr_SuggestExclusionRule result));
        ("suggestedResources", suggestions_json (lr_SuggestedResources result)); ("type", JStr "Analysis.Completed")].

(** The gateway's answer, [None] when the call, the status or the decoding fails. *)
Definition ask_gateway (body : string) (w : W) : option llmAnalyzeResponse * W :=
  match llm_post (LLMGatewayURL +:+ "/analyze") body w with
  | (Ok (code, text), w1) => (if decide (code = StatusOK) then decode_response text else None, w1)
  | (Err _, w1) => (None, w1)
  end.
Definition store_result (req : evidenceRequest) (provider analysisID : string) (result : llmAnalyzeResponse) (now : Time) (w : W) : W :=
  let run := vr_DiagnosticRunID req in
  match exec "insert result" (insert_result_row analysisID (result_row req provider result (db_now w))) w with
  | (Err _, w1) => patchAnalysisState run DiagnosticRunAnalysisStateFailed EmptyString now w1
  | (Ok _, w1) =>
      tell (completed_message req analysisID result) (patchAnalysisState run DiagnosticRunAnalysisStateCompleted analysisID now w1)
  end.
(** [dispatchAnalysis] *)
Definition dispatchAnalysis (evidenceID analysisID : string) (req : evidenceRequest) (now : Time) (w : W) : W :=
  let failed := patchAnalysisState (vr_DiagnosticRunID req) DiagnosticRunAnalysisStateFailed EmptyString now in
  match v ← parse_json (vr_Payload req); as_map v with
  | None => failed w
  | Some payload =>
      let request := analyze_request evidenceID req payload w in
      match marshal_request request with
      | Err _ => w
      | Ok body =>
          match ask_gateway body w with
          | (None, w1) => failed w1
          | (Some result, w1) => store_result req (lq_Provider request) analysisID result now w1
          end
      end
  end.
End internal.

(** ** analysis.go and augment.go *)
Section analysis.
Context {W : Type} `{!ObjectClient W DiagnosticRunSpec DiagnosticRunStatus} `{!ObjectClient W IncidentSpec IncidentStatus}
  `{!ObjectClient W ProblemCaseSpec ProblemCaseStatus} `{!SqlDB W}.
Context (errText : goerr -> string) (DefaultNamespace : string).

(** [latestActiveProblemCase] *)
Definition seen_after (pc latest : ProblemCase) : bool :=
  match pct_LastSeen (status pc), pct_LastSeen (status latest) with
  | None, _ => false
  | Some _, None => true
  | Some t, Some t' => bool_decide (t' < t)%Z
  end.
Definition prefer (ns : string) (w : W) (latest : option ProblemCase) (name : string) : option ProblemCase :=
  match kget (S := ProblemCaseSpec) (T := ProblemCaseStatus) ns name w with
  | Err _ => latest
  | Ok pc =>
      if decide (pct_State (status pc) = ProblemCaseStateResolved) then latest
      else match latest with
           | None => Some pc
           | Some l => if seen_after pc l then Some pc else latest
           end
  end.
Definition latest_case (inc : Incident) (w : W) : option ProblemCase :=
  foldl (prefer (obj_namespace inc) w) None (ins_ProblemCases (spec inc)).
Definition latestActiveProblemCase (inc : Incident) (w : W) : string :=
  match latest_case inc w with Some pc => obj_name pc | None => EmptyString end.

Record analyzeResponse := mkAnalyzeResponse { ay_DiagnosticRunID : string; ay_AnalysisRequestID : string }.
Definition requested_run (ns name problemCaseRef : string) (now : Time) : DiagnosticRun :=
  mkObject (new_meta EmptyString ("dr-" +:+ name +:+ "-") ns ∅) (mkDiagnosticRunSpec name problemCaseRef (Some now)) zeroDiagnosticRunStatus.
Definition pending_row (incident run requestedAt user : string) : RequestRow :=
  mkRequestRow (Some incident) run requestedAt "pending" None None "auto" (Some user).
(** The end of both handlers: a run, its status, and the request row. *)
Definition request_analysis (ns name problemCaseRef : string) (caller : Caller) (reqID : string) (now requested : Time) (w : W)
    : Response analyzeResponse * W :=
  match kcreate (requested_run ns name problemCaseRef now) w with
  | (Err e, w1) => (Failure StatusInternalServerError ("creating DiagnosticRun: " +:+ errText e), w1)
  | (Ok dr, w1) =>
      match kpatch_status dr (set_pending dr) w1 with
      | (Err e, w2) => (Failure StatusInternalServerError ("patching DiagnosticRun status: " +:+ errText e), w2)
      | (Ok dr', w2) =>
          match exec "insert request" (insert_request_row reqID (pending_row name (obj_name dr') (format_rfc3339 requested) (cl_UserID caller))) w2 with
          | (Err e, w3) => (Failure StatusInternalServerError ("inserting analysis_request: " +:+ errText e), w3)
          | (Ok _, w3) => (Body StatusAccepted (mkAnalyzeResponse (obj_name dr') reqID), w3)
          end
      end
  end.
(** The check at the start of [Analyze]. *)
Definition may_analyze (caller : Caller) (inc : Incident) (name : string) (w : W) : bool :=
  if decide (ins_Source (spec inc) = "manual" /\ cl_Role caller <> "admin")
  then match owner_id name w with Row o => bool_decide (o = cl_UserID caller) | _ => false end
  else true.
Definition Analyze (id : string) (caller : Caller) (reqID : string) (now requested : Time) (w : W) : Response analyzeResponse * W :=
  let '(ns, name) := namespacedName id DefaultNamespace in
  match kget (S := IncidentSpec) (T := IncidentStatus) ns name w with
  | Err _ => (Failure StatusNotFound "incident not found", w)
  | Ok inc =>
      if may_analyze caller inc name w
      then request_analysis ns name (latestActiveProblemCase inc w) caller reqID now requested w
      else (forbidden, w)
  end.

(** [Augment] *)
Definition in_key (r : relatedResourceIn) : string * string * string := (ri_Kind r, ri_Namespace r, ri_Name r).
Definition ref_in_key (r : ResourceRef) : string * string * string := (rr_Kind r, rr_Namespace r, rr_Name r).
Definition in_ref (r : relatedResourceIn) : ResourceRef :=
  mkResourceRef (ri_Namespace r) (ri_Kind r) (ri_Name r) (ri_APIGroup r) (ri_EvidenceSlices r).
Definition merge_resource (st : gset (string * string * string) * list ResourceRef) (r : relatedResourceIn) :=
  if decide (in_key r ∈ st.1) then st else ({[in_key r]} ∪ st.1, st.2 ++ [in_ref r]).
Definition merge_resources (old : list ResourceRef) (new : list relatedResourceIn) : list ResourceRef :=
  (foldl merge_resource (list_to_set (ref_in_key <$> old), old) new).2.
Definition set_related (l : list ResourceRef) (inc : Incident) : Incident :=
  let s := spec inc in
  with_spec inc (mkIncidentSpec (ins_RootResource s) (ins_ProblemCases s) (ins_Source s) (ins_UserMessage s) l (ins_FalsePositive s)).
Definition Augment (body : option (list relatedResourceIn)) (id : string) (caller : Caller) (reqID : string) (now requested : Time) (w : W)
    : Response analyzeResponse * W :=
  let '(ns, name) := namespacedName id DefaultNamespace in
  match body with
  | None => (Failure StatusBadRequest "invalid JSON body", w)
  | Some [] => (Failure StatusBadRequest "relatedResources must not be empty", w)
  | Some resources =>
      match kget (S := IncidentSpec) (T := IncidentStatus) ns name w with
      | Err _ => (Failure StatusNotFound "incident not found", w)
      | Ok inc =>
          match kpatch inc (set_related (merge_resources (ins_RelatedResources (spec inc)) resources) inc) w with
          | (Err e, w1) => (Failure StatusInternalServerError ("patching incident: " +:+ errText e), w1)
          | (Ok inc1, w1) => request_analysis ns name (latestActiveProblemCase inc1 w1) caller reqID now requested w1
          end
      end
  end.
End analysis.
