(* ===== verification/RunHandlers.v ===== *)
(** * Runs, results and their retention (handler/analysis.go, diagnosticruns.go,
    startup/recovery.go, db/pruner.go)

    The handlers that read and delete the rows of diagnostic runs and analysis
    results, the recovery at start-up and the retention pruner, on the tables of
    [Tables].  [json_extract] and the conversion of a column to a float are given
    for the JSON values the program stores; parsing JSON and floats are
    parameters. *)

From Stdlib Require Import Ascii.
From stdpp Require Import sorting.
From stdpp Require Import prelude gmap strings list.
From S2P Require Import Prelude GoBase Json Api Client Hub Mood Handlers Tables Analysis.

(** ** Views of rows *)
Record ResultView := mkResultView {
  rv_ID : string; rv_IncidentID : string; rv_DiagnosticRunID : string; rv_Model : string; rv_Status : string;
  rv_LikelyRootCause : string; rv_Confidence : string; rv_Payload : option json; rv_UserRating : string; rv_CreatedAt : string;
}.
Record EvidenceView := mkEvidenceView {
  vw_ID : string; vw_DiagnosticRunID : string; vw_IncidentID : option string; vw_CollectedAt : string;
  vw_CollectorVersion : string; vw_Payload : option json; vw_CreatedAt : string;
}.
Record RatingView := mkRatingView {
  rg_ID : string; rg_IncidentID : string; rg_LikelyRootCause : string; rg_Confidence : string; rg_UserRating : string;
}.

Section handlers.
Context {W : Type} `{!ObjectClient W DiagnosticRunSpec DiagnosticRunStatus} `{!SqlDB W}.
Context (errText : goerr -> string) (DefaultNamespace : string).
Context (parse_json : string -> option json) (parse_float : string -> option string).

(** [json_extract(payload, '$.a.b')]: SQL null for a missing value and for [null]. *)
Fixpoint extract (path : list string) (v : json) : option json :=
  match path with
  | [] => match v with JNull => None | _ => Some v end
  | k :: path' => m ← as_map v; m ← m; x ← m !! k; extract path' x
  end.
Definition json_extract (path : list string) (payload : string) : option json := v ← parse_json payload; extract path v.
(** [Scan] of a number column into a [NullFloat64]. *)
Definition float_column (v : json) : res string :=
  match v with
  | JNum lit => Ok lit
  | JBool b => Ok (itoa (int_of_bool b))
  | JStr s => match parse_float s with Some f => Ok f | None => Err (ErrOther "sql: Scan error") end
  | _ => Err (ErrOther "sql: Scan error")
  end.
(** [COALESCE(json_extract(payload, '$.assessment.confidence'), confidence)] *)
Definition confidence_of (r : ResultRow) : res (option string) :=
  match json_extract ["assessment"; "confidence"] (an_Payload r) with
  | Some v => match float_column v with Ok f => Ok (Some f) | Err e => Err e end
  | None => Ok (an_Confidence r)
  end.
Definition result_view (x : string * ResultRow) : res ResultView :=
  let '(id, r) := x in
  match confidence_of r with
  | Err e => Err e
  | Ok c => Ok (mkResultView id (default EmptyString (an_IncidentID r)) (an_DiagnosticRunID r) (an_Model r) (an_Status r)
      (default EmptyString (an_LikelyRootCause r)) (default "0" c) (parse_json (an_Payload r)) (default EmptyString (an_UserRating r))
      (an_CreatedAt r))
  end.
(** The answer to a [QueryRow] that is shown as it is. *)
Definition show {A B} (missing : string) (view : A -> res B) (row : res (option A)) : Response B :=
  match row with
  | Err e => Failure StatusInternalServerError (errText e)
  | Ok None => Failure StatusNotFound missing
  | Ok (Some a) => match view a with Ok b => Body StatusOK b | Err e => Failure StatusInternalServerError (errText e) end
  end.

(** [Analysis.GetAnalysisResult], [Analysis.GetEvidence] *)
Definition Analysis_GetAnalysisResult (id : string) (w : W) : Response ResultView :=
  show "analysis result not found" result_view (query_row "result" (fun t => option_list (pair id <$> tb_results t !! id)) w).
Definition evidence_view (with_incident : bool) (x : string * EvidenceRow) : res EvidenceView :=
  let '(id, r) := x in
  Ok (mkEvidenceView id (er_DiagnosticRunID r) (if with_incident then Some (default EmptyString (er_IncidentID r)) else None)
        (er_CollectedAt r) (er_CollectorVersion r) (parse_json (er_Payload r)) (er_CreatedAt r)).
Definition Analysis_GetEvidence (id : string) (w : W) : Response EvidenceView :=
  show "no evidence found" (evidence_view false) (query_latest "incident evidence" (fun x => er_CreatedAt x.2)
    (fun t => rows_where (fun r => bool_decide (er_IncidentID r = Some (namespacedName id DefaultNamespace).2)) (tb_evidence t)) w).

(** [RateAnalysisResult] *)
Definition set_rating (rating : string) (r : ResultRow) : ResultRow :=
  mkResultRow (an_IncidentID r) (an_DiagnosticRunID r) (an_Model r) (an_ModelRuntime r) (an_Status r) (an_LikelyRootCause r)
    (an_Confidence r) (an_Payload r) (an_Prompt r) (an_NeedsMoreInfo r) (an_SuggestedResources r) (Some rating) (an_CreatedAt r).
Definition rate_result (id rating : string) (foreign_keys : bool) (t : Tables) : option (Tables * Z) :=
  match tb_results t !! id with
  | None => Some (t, 0%Z)
  | Some r => if str_in rating ["up"; "down"] then Some (set_results (<[id := set_rating rating r]> (tb_results t)) t, 1%Z) else None
  end.
Definition rating_view (x : string * ResultRow) : RatingView :=
  let '(id, r) := x in
  mkRatingView id (default EmptyString (an_IncidentID r)) (default EmptyString (an_LikelyRootCause r)) (default "0" (an_Confidence r))
    (default EmptyString (an_UserRating r)).
Definition RateAnalysisResult (body : option string) (id : string) (w : W) : Response RatingView * W :=
  match body with
  | None => (Failure StatusBadRequest "invalid JSON body", w)
  | Some rating =>
      if decide (rating <> "up" /\ rating <> "down") then (Failure StatusBadRequest "rating must be 'up' or 'down'", w) else
      match exec "rate" (rate_result id rating) w with
      | (Err e, w1) => (Failure StatusInternalServerError (errText e), w1)
      | (Ok n, w1) =>
          if decide (n = 0)%Z then (Failure StatusNotFound "analysis result not found", w1)
          else (Body StatusOK (match scanned (query_row "rated result" (fun t => option_list (pair id <$> tb_results t !! id)) w1) with
                               | Some x => rating_view x
                               | None => mkRatingView EmptyString EmptyString EmptyString "0" EmptyString end), w1)
      end
  end.

(** ** diagnosticruns.go *)
Record RunView := mkRunView { ru_DiagnosticRun : DiagnosticRun; ru_TriggeredBy : option (string * string) }.
Definition attribution (name : string) (w : W) : option (string * string) :=
  match scanned (query_row "attribution" (fun t => rows_where (of_run name) (tb_requests t)) w) with
  | Some (_, r) =>
      match rq_TriggeredBy r with
      | Some user => if decide (user = EmptyString) then None
                     else Some (user, match tb_users (tables w) !! user with Some u => us_Username u | None => EmptyString end)
      | None => None
      end
  | None => None
  end.
Definition DiagnosticRuns_Get (id : string) (w : W) : Response RunView :=
  let '(ns, name) := namespacedName id DefaultNamespace in
  match kget (S := DiagnosticRunSpec) (T := DiagnosticRunStatus) ns name w with
  | Err e => if IsNotFound e then Failure StatusNotFound "diagnosticrun not found" else Failure StatusInternalServerError (errText e)
  | Ok dr => Body StatusOK (mkRunView dr (attribution name w))
  end.

Record runSummary := mkRunSummary {
  su_DiagnosticRunID : string; su_IncidentID : string; su_ProblemCaseRef : string; su_RequestedAt : string; su_Status : string;
  su_AnalysisResultID : option string; su_LikelyRootCause : option string; su_Confidence : option string; su_Model : option string;
  su_AnalysisCreatedAt : option string; su_NeedsMoreInfo : option bool; su_SuggestedResources : option string;
  su_SuggestFalsePositive : bool; su_SuggestExclusionRule : option json;
}.
(** [LEFT JOIN analysis_results]: the result of a run stored last. *)
Definition result_of_run (run : string) (w : W) : option (string * ResultRow) :=
  head (latest_first (fun x => an_CreatedAt x.2)
    (sql_scan _ "run result" w (rows_where (fun r => bool_decide (an_DiagnosticRunID r = run)) (tb_results (tables w))))).
(** The state of the run, where it tells, instead of the status of the row. *)
Definition overlay_status (dr : DiagnosticRun) (row : string) : string :=
  if str_in (drt_AnalysisState (status dr))
       [DiagnosticRunAnalysisStateInProgress; DiagnosticRunAnalysisStateCompleted; DiagnosticRunAnalysisStateFailed]
  then drt_AnalysisState (status dr) else row.
Definition summary (w : W) (r : RequestRow) : res runSummary :=
  let run := rq_DiagnosticRunID r in
  let result := result_of_run run w in
  let dr := match kget (S := DiagnosticRunSpec) (T := DiagnosticRunStatus) DefaultNamespace run w with Ok dr => Some dr | Err _ => None end in
  match match result with Some (_, x) => confidence_of x | None => Ok None end with
  | Err e => Err e
  | Ok confidence =>
      let field (path : list string) := '(_, x) ← result; json_extract path (an_Payload x) in
      Ok (mkRunSummary run (default EmptyString (rq_IncidentID r)) (match dr with Some d => drs_ProblemCaseRef (spec d) | None => EmptyString end)
        (rq_RequestedAt r) (match dr with Some d => overlay_status d (rq_Status r) | None => rq_Status r end)
        (fst <$> result) ('(_, x) ← result; an_LikelyRootCause x) confidence (an_Model ∘ snd <$> result) (an_CreatedAt ∘ snd <$> result)
        ((fun x => negb (bool_decide (an_NeedsMoreInfo x.2 = 0%Z))) <$> result)
        ('(_, x) ← result; s ← an_SuggestedResources x; if decide (s = EmptyString) then None else Some s)
        (match field ["suggestFalsePositive"] with Some (JBool b) => b | _ => false end)
        (match field ["suggestExclusionRule"] with Some (JStr s) => (if decide (s = EmptyString \/ s = "null") then None else Some (JStr s)) | v => v end))
  end.
Fixpoint summaries (w : W) (l : list RequestRow) : res (list runSummary) :=
  match l with
  | [] => Ok []
  | r :: l' => match summary w r with
               | Err e => Err e
               | Ok s => match summaries w l' with Err e => Err e | Ok l => Ok (s :: l) end
               end
  end.
Definition DiagnosticRuns_List (incidentID : string) (w : W) : Response (list runSummary) :=
  match query "runs" (fun t => rows_where (fun r => bool_decide (incidentID = EmptyString) || bool_decide (rq_IncidentID r = Some incidentID)) (tb_requests t)) w with
  | Err e => Failure StatusInternalServerError (errText e)
  | Ok rows =>
      match summaries w (take 100 (latest_first rq_RequestedAt rows.*2)) with
      | Err e => Failure StatusInternalServerError (errText e)
      | Ok l => Body StatusOK l
      end
  end.
Definition DiagnosticRuns_GetEvidence (id : string) (w : W) : Response EvidenceView :=
  show "no evidence found for this diagnostic run" (evidence_view true) (query_latest "run evidence" (fun x => er_CreatedAt x.2)
    (fun t => rows_where (fun r => bool_decide (er_DiagnosticRunID r = id)) (tb_evidence t)) w).
Definition DiagnosticRuns_GetAnalysisResult (id : string) (w : W) : Response ResultView :=
  show "no analysis result found for this diagnostic run" result_view (query_latest "latest result" (fun x => an_CreatedAt x.2)
    (fun t => rows_where (fun r => bool_decide (an_DiagnosticRunID r = id)) (tb_results t)) w).

(** ** Deleting runs, in a transaction *)
Definition run_statements : list (string * (string -> Tables -> Tables)) :=
  [("delete results", fun run t => set_results (delete_rows (fun r => bool_decide (an_DiagnosticRunID r = run)) (tb_results t)) t);
   ("delete requests", fun run t => set_requests (delete_rows (of_run run) (tb_requests t)) t);
   ("delete evidence", fun run t => set_evidence (delete_rows (fun r => bool_decide (er_DiagnosticRunID r = run)) (tb_evidence t)) t)].
Definition deleteRunFromDB (w : W) (r : res Tables) (runID : string) : res Tables :=
  foldl (fun r stmt => match r with
    | Err e => Err e
    | Ok t => match sql_fault stmt.1 w with Some e => Err e | None => Ok (stmt.2 runID t) end
    end) r run_statements.
(** [BeginTx], the statements, [Commit]; [Rollback] otherwise. *)
Definition in_transaction (body : W -> res Tables -> res Tables) (w : W) : res () * W :=
  match sql_fault "begin" w with
  | Some e => (Err e, w)
  | None =>
      match body w (Ok (tables w)) with
      | Err e => (Err e, w)
      | Ok t => match sql_fault "commit" w with Some e => (Err e, w) | None => (Ok tt, put_tables t w) end
      end
  end.
Definition DiagnosticRuns_Delete (id : string) (w : W) : Response () * W :=
  match in_transaction (fun w r => deleteRunFromDB w r id) w with
  | (Err e, w1) => (Failure StatusInternalServerError (errText e), w1)
  | (Ok _, w1) => (Body StatusNoContent tt, w1)
  end.
Definition bulk_usage : string :=
  "body must be {" +:+ dquote +:+ "ids" +:+ dquote +:+ ":[" +:+ dquote +:+ "..." +:+ dquote +:+ "]}".
Definition BulkDelete (body : option (list string)) (w : W) : Response Z * W :=
  match body with
  | None | Some [] => (Failure StatusBadRequest bulk_usage, w)
  | Some ids =>
      match in_transaction (fun w r => foldl (deleteRunFromDB w) r ids) w with
      | (Err e, w1) => (Failure StatusInternalServerError (errText e), w1)
      | (Ok _, w1) => (Body StatusOK (Z.of_nat (length ids)), w1)
      end
  end.
End handlers.

(** ** startup/recovery.go *)
Section recovery.
Context {W : Type} `{!SqlDB W}.

(** [UPDATE ... WHERE id = ? AND status = 'pending'] *)
Definition set_dispatched (now : string) (r : RequestRow) : RequestRow :=
  mkRequestRow (rq_IncidentID r) (rq_DiagnosticRunID r) (rq_RequestedAt r) "dispatched" (Some now) (rq_CompletedAt r) (rq_Source r) (rq_TriggeredBy r).
Definition is_pending (r : RequestRow) : bool := bool_decide (rq_Status r = "pending").
Definition recover_request (id now : string) (foreign_keys : bool) (t : Tables) : option (Tables * Z) :=
  match tb_requests t !! id with
  | Some r => if is_pending r then Some (set_requests (<[id := set_dispatched now r]> (tb_requests t)) t, 1%Z) else Some (t, 0%Z)
  | None => Some (t, 0%Z)
  end.
Definition recover_one (now : string) (w : W) (id : string) : W := (exec "recover" (recover_request id now) w).2.
Definition RecoverPendingRequests (now : Time) (w : W) : res () * W :=
  match query "pending requests" (fun t => rows_where is_pending (tb_requests t)) w with
  | Err e => (Err e, w)
  | Ok rows => (Ok tt, foldl (recover_one (format_rfc3339 now)) w rows.*1)
  end.
End recovery.

(** ** db/pruner.go

    [datetime('now', '-n days')]: null, which no comparison holds of, outside the
    years SQLite computes with. *)
Definition first_instant : Z := (-62167219200 * Second)%Z.
Definition last_instant : Z := (253402300799 * Second)%Z.
Definition days_ago (days : Z) (now : Time) : option string :=
  let t := (now - days * (24 * Hour))%Z in
  if decide (first_instant <= t <= last_instant)%Z then Some (sqlite_datetime t) else None.
Definition before (text : string) (cutoff : option string) : bool :=
  match cutoff with Some c => str_lt text c | None => false end.

Section pruner.
Context {W : Type} `{!SqlDB W}.

Definition readSettingInt (key : string) (fallback : Z) (w : W) : Z :=
  match scanned (query_row "setting" (fun t => option_list (tb_settings t !! key)) w) with
  | Some raw => match parse_int raw with Some n => if decide (n <= 0)%Z then fallback else n | None => fallback end
  | None => fallback
  end.
Definition old_evidence (cutoff : option string) (r : EvidenceRow) : bool := before (er_CreatedAt r) cutoff.
Definition old_result (cutoff : option string) (r : ResultRow) : bool := before (an_CreatedAt r) cutoff.
Definition old_request (cutoff : option string) (r : RequestRow) : bool :=
  match rq_CompletedAt r with Some c => before c cutoff | None => false end.
Definition prune_evidence (cutoff : option string) (foreign_keys : bool) (t : Tables) : option (Tables * Z) :=
  Some (set_evidence (delete_rows (old_evidence cutoff) (tb_evidence t)) t, count_rows (old_evidence cutoff) (tb_evidence t)).
Definition prune_results (cutoff : option string) (foreign_keys : bool) (t : Tables) : option (Tables * Z) :=
  Some (set_results (delete_rows (old_result cutoff) (tb_results t)) t, count_rows (old_result cutoff) (tb_results t)).
Definition prune_requests (cutoff : option string) (foreign_keys : bool) (t : Tables) : option (Tables * Z) :=
  Some (set_requests (delete_rows (old_request cutoff) (tb_requests t)) t, count_rows (old_request cutoff) (tb_requests t)).
Definition prune (w : W) : W :=
  let evidenceDays := readSettingInt "evidence.retention_days" 7 w in
  let analysisDays := readSettingInt "analysis.retention_days" 30 w in
  let w1 := (exec "prune evidence" (prune_evidence (days_ago evidenceDays (sql_clock w))) w).2 in
  let w2 := (exec "prune results" (prune_results (days_ago analysisDays (sql_clock w1))) w1).2 in
  (exec "prune requests" (prune_requests (days_ago analysisDays (sql_clock w2))) w2).2.
End pruner.
