(* ===== verification/MemBackend.v ===== *)
(** * A concrete backend

    An in-memory cluster with its Secrets, the objects the worker reads, the tables,
    the messages broadcast, the evidence waiting to be analysed and what the gateway answers,
    with statements that never fail: a world that satisfies every law of the classes the
    backend is written against, for the witnesses. *)

From stdpp Require Import sorting.
From stdpp Require Import prelude gmap strings list.
From S2P Require Import Prelude GoBase Json Api Client Handlers Tables Analysis EvidenceKinds.

Record MemBackend := mkMemBackend {
  mb_cluster : MemCluster;
  mb_snapshot : Snapshot;
  mb_tables : Tables;
  mb_sent : list string;
  mb_jobs : list (string * evidenceRequest);
  mb_answer : res (Z * string);
  mb_secrets : gmap (string * string) (gmap string string);
}.
Definition mb_set_cluster (f : MemCluster -> MemCluster) (w : MemBackend) : MemBackend :=
  mkMemBackend (f (mb_cluster w)) (mb_snapshot w) (mb_tables w) (mb_sent w) (mb_jobs w) (mb_answer w) (mb_secrets w).
Definition mb_set_tables (t : Tables) (w : MemBackend) : MemBackend :=
  mkMemBackend (mb_cluster w) (mb_snapshot w) t (mb_sent w) (mb_jobs w) (mb_answer w) (mb_secrets w).
Definition mb_send (msg : string) (w : MemBackend) : MemBackend :=
  mkMemBackend (mb_cluster w) (mb_snapshot w) (mb_tables w) (mb_sent w ++ [msg]) (mb_jobs w) (mb_answer w) (mb_secrets w).
Definition mb_spawn (job : string * evidenceRequest) (w : MemBackend) : MemBackend :=
  mkMemBackend (mb_cluster w) (mb_snapshot w) (mb_tables w) (mb_sent w) (mb_jobs w ++ [job]) (mb_answer w) (mb_secrets w).

Definition mb_set_secrets (m : gmap (string * string) (gmap string string)) (w : MemBackend) : MemBackend :=
  mkMemBackend (mb_cluster w) (mb_snapshot w) (mb_tables w) (mb_sent w) (mb_jobs w) (mb_answer w) m.

#[export] Instance mb_Incidents_client : ObjectClient MemBackend IncidentSpec IncidentStatus :=
  mem_client (fun w => mc_Incidents (mb_cluster w)) (fun m => mb_set_cluster (set_Incidents m)).
#[export] Instance mb_ProblemCases_client : ObjectClient MemBackend ProblemCaseSpec ProblemCaseStatus :=
  mem_client (fun w => mc_ProblemCases (mb_cluster w)) (fun m => mb_set_cluster (set_ProblemCases m)).
#[export] Instance mb_DiagnosticRuns_client : ObjectClient MemBackend DiagnosticRunSpec DiagnosticRunStatus :=
  mem_client (fun w => mc_DiagnosticRuns (mb_cluster w)) (fun m => mb_set_cluster (set_DiagnosticRuns m)).
#[export] Instance mb_States_client : ObjectClient MemBackend KubeChanStateSpec KubeChanStateStatus :=
  mem_client (fun w => mc_States (mb_cluster w)) (fun m => mb_set_cluster (set_States m)).
#[export] Instance mb_Incidents_laws : ObjectClientLaws MemBackend IncidentSpec IncidentStatus.
Proof. by apply mem_client_laws. Qed.
#[export] Instance mb_ProblemCases_laws : ObjectClientLaws MemBackend ProblemCaseSpec ProblemCaseStatus.
Proof. by apply mem_client_laws. Qed.
#[export] Instance mb_DiagnosticRuns_laws : ObjectClientLaws MemBackend DiagnosticRunSpec DiagnosticRunStatus.
Proof. by apply mem_client_laws. Qed.
#[export] Instance mb_Runs_Incidents_frame : ClientFrame MemBackend DiagnosticRunSpec DiagnosticRunStatus IncidentSpec IncidentStatus.
Proof. by apply mem_client_frame. Qed.
#[export] Instance mb_reader : EvidenceReader MemBackend := reader_on mb_snapshot snapshot_reader.

#[export] Instance mb_sql : SqlDB MemBackend := {
  tables := mb_tables;
  put_tables := mb_set_tables;
  sql_fault label w := None;
  sql_scan A label w l := l;
  sql_clock w := (1767361530 * Second)%Z;
  sql_foreign_keys label w := true;
}.
#[export] Instance mb_sql_laws : SqlDBLaws MemBackend.
Proof. by split. Qed.
(** Objects are stored apart from the tables. *)
Section frames.
Context {S T : Type} (sget : MemBackend -> gmap (string * string) (Object S T)) (sput : gmap (string * string) (Object S T) -> MemBackend -> MemBackend).
Context (Hget : forall f w, sget (mb_set_tables f w) = sget w) (Hsend : forall m w, sget (mb_send m w) = sget w)
  (Hput : forall m w, mb_tables (sput m w) = mb_tables w).
Lemma mb_write_tables f k w r w' : mem_write sget sput f k w = (r, w') -> mb_tables w' = mb_tables w.
Proof using Hput. unfold mem_write. destruct (mem_objs sget w !! k); intros [= _ <-]; [apply Hput|done]. Qed.
Lemma mb_sql_frame : @SqlFrame MemBackend S T mb_sql (mem_client sget sput).
Proof using Hget Hput.
  split; cbn.
  - intros t w ns n. unfold mem_get, mem_objs. by rewrite Hget.
  - intros o w r w'. unfold mem_create. destruct (mem_objs sget w !! _); intros [= _ <-]; [done|apply Hput].
  - intros b o w r w'. apply mb_write_tables.
  - intros b o w r w'. apply mb_write_tables.
Qed.
#[local] Instance mb_broadcaster : Broadcaster MemBackend := { hub_broadcast := mb_send }.
Lemma mb_broadcast_frame : @BroadcasterFrame MemBackend S T mb_broadcaster mb_sql (mem_client sget sput).
Proof using Hsend. split; [|done]. intros msg w ns n. cbn. unfold mem_get, mem_objs. by rewrite Hsend. Qed.
End frames.
#[export] Instance mb_hub : Broadcaster MemBackend := { hub_broadcast := mb_send }.
#[export] Instance mb_Incidents_frame : SqlFrame MemBackend IncidentSpec IncidentStatus.
Proof. by apply mb_sql_frame. Qed.
#[export] Instance mb_DiagnosticRuns_frame : SqlFrame MemBackend DiagnosticRunSpec DiagnosticRunStatus.
Proof. by apply mb_sql_frame. Qed.
#[export] Instance mb_hub_frame : BroadcasterFrame MemBackend DiagnosticRunSpec DiagnosticRunStatus.
Proof. by apply mb_broadcast_frame. Qed.
#[export] Instance mb_gateway : LLMGateway MemBackend := { llm_post url body w := (mb_answer w, w) }.
#[export] Instance mb_gateway_frame : LLMGatewayFrame MemBackend DiagnosticRunSpec DiagnosticRunStatus.
Proof. split; [by intros url body w r w' ns n [= _ <-]|by intros url body w r w' [= _ <-]]. Qed.

(** The JSON functions of the witnesses: the empty object for every text. *)
Definition no_fields (text : string) : option json := Some (JObj []).
Definition some_text (r : llmAnalyzeRequest) : res string := Ok "{}".
Definition an_answer : llmAnalyzeResponse := mkLlmAnalyzeResponse "qwen3-32b" "a missing ConfigMap" "0.9" false None None EmptyString JNull.
Definition decoded (text : string) : option llmAnalyzeResponse := Some an_answer.
Definition encoded (r : llmAnalyzeResponse) : string := "{}".
Definition err_text (e : goerr) : string := "error".

(** A pending request for the run [dr-1] of a manual incident of [alice]. *)
Definition a_caller : Caller := mkCaller "alice" "viewer".
Definition a_request : RequestRow := mkRequestRow (Some "inc-1") "dr-1" "2026-01-02T13:45:00Z" "pending" None None "auto" (Some "alice").
Definition two_users : gmap string UserRow :=
  {[ "alice" := mkUserRow "alice" "h1" "viewer" "2026-01-01 00:00:00"; "bob" := mkUserRow "bob" "h2" "viewer" "2026-01-01 00:00:00" ]}.
Definition request_tables : Tables :=
  mkTables ∅ ∅ {[ "q-1" := a_request ]} two_users {[ "inc-1" := mkOwnerEntry "kubechan" "alice" ]} ∅ ∅.
Definition manual_inc : Incident :=
  mkObject (new_meta "inc-1" EmptyString "kubechan" ∅)
    (mkIncidentSpec (ref_to "shop" "Deployment" "root") [] "manual" "the shop is down" [] false) zeroIncidentStatus.
Definition pending_dr : DiagnosticRun :=
  mkObject (new_meta "dr-1" EmptyString "kubechan" ∅) (mkDiagnosticRunSpec "inc-1" EmptyString None)
    (mkDiagnosticRunStatus DiagnosticRunStatePending None EmptyString EmptyString [] None None EmptyString EmptyString).
Definition backend_of (answer : res (Z * string)) : MemBackend :=
  mkMemBackend (set_DiagnosticRuns {[ ("kubechan", "dr-1") := pending_dr ]} (set_Incidents {[ ("kubechan", "inc-1") := manual_inc ]} empty_cluster))
    empty_snapshot request_tables [] [] answer ∅.
Definition an_evidence : evidenceRequest :=
  mkEvidenceRequest "dr-1" EmptyString "inc-1" (1767361530 * Second)%Z "v1" "{}" 2 false None None None.
