(* ===== verification/RequestLifecycle.v ===== *)
(** * The life of an analysis request

    Every statement any handler, goroutine or start-up task runs on the table of
    requests is one of a few kinds ([statement]); handlers interleave statement
    by statement, so a property of all sequences of statements is a property of
    all interleavings.  Then what one dispatch, one recovery and one deletion
    leave behind. *)

From Stdlib Require Import Ascii.
From stdpp Require Import sorting.
From stdpp Require Import prelude gmap strings list.
From S2P Require Import Prelude GoBase Json Api Client Hub Mood Handlers Tables Analysis RunHandlers MemBackend.

(** ** Statements on requests *)
Definition status_rank (s : string) : nat :=
  if decide (s = "pending") then 0 else if decide (s = "dispatched") then 1 else if decide (s = "in_progress") then 2 else 3.
Definition settled (s : string) : Prop := s = "completed" \/ s = "failed".
Definition fresh_request (r : RequestRow) : Prop := rq_Status r = "pending" /\ rq_DispatchedAt r = None /\ rq_CompletedAt r = None.
(** [settles] tells the runs whose requests a statement may settle. *)
Inductive statement (settles : string -> Prop) : Tables -> Tables -> Prop :=
  | st_insert id r fk t t' n : fresh_request r -> insert_request_row id r fk t = Some (t', n) -> statement settles t t'
  | st_start run now fk t t' n : start_requests run now fk t = Some (t', n) -> statement settles t t'
  | st_settle run state now fk t t' n :
      settles run -> settled state -> settle_requests run state now fk t = Some (t', n) -> statement settles t t'
  | st_recover id now fk t t' n : recover_request id now fk t = Some (t', n) -> statement settles t t'
  | st_delete p t : statement settles t (set_requests (delete_rows p (tb_requests t)) t)
  | st_other t t' : tb_requests t' = tb_requests t -> statement settles t t'.

(** What a request row may become while it is not deleted. *)
Record forward (r r' : RequestRow) : Prop := {
  fw_rank : status_rank (rq_Status r) <= status_rank (rq_Status r');
  fw_incident : rq_IncidentID r' = rq_IncidentID r;
  fw_run : rq_DiagnosticRunID r' = rq_DiagnosticRunID r;
  fw_requested : rq_RequestedAt r' = rq_RequestedAt r;
  fw_source : rq_Source r' = rq_Source r;
  fw_user : rq_TriggeredBy r' = rq_TriggeredBy r;
}.
#[export] Instance forward_preorder : PreOrder forward.
Proof. split; [by intros r; split|]. intros a b c [] []. split; first lia; congruence. Qed.
(** A row as the code leaves it: a known status, with the time stamps that go with it. *)
Definition row_ok (r : RequestRow) : Prop :=
  match status_rank (rq_Status r) with
  | 0 => rq_DispatchedAt r = None /\ rq_CompletedAt r = None
  | 1 | 2 => is_Some (rq_DispatchedAt r) /\ rq_CompletedAt r = None
  | _ => settled (rq_Status r) /\ is_Some (rq_CompletedAt r)
  end.
Definition requests_ok (t : Tables) : Prop := map_Forall (fun _ r => row_ok r) (tb_requests t).

Lemma waiting_rank run r : waiting run r = true -> status_rank (rq_Status r) <= 1 /\ rq_DiagnosticRunID r = run.
Proof.
  unfold waiting, str_in. rewrite andb_true_iff, !bool_decide_eq_true. intros [Hr H]. split; [|done].
  rewrite !elem_of_cons, elem_of_nil in H. unfold status_rank. destruct H as [->|[->|[]]]; vm_compute; lia.
Qed.
Lemma settled_rank s : settled s -> status_rank s = 3.
Proof. by intros [->| ->]. Qed.

(** One row under one statement. *)
Definition unsettled (r : RequestRow) : Prop := status_rank (rq_Status r) < 3.
Lemma statement_row P t t' id r' :
  statement P t t' -> tb_requests t' !! id = Some r' ->
  (tb_requests t !! id = None /\ fresh_request r') \/
  (exists r, tb_requests t !! id = Some r /\ forward r r' /\ (row_ok r -> row_ok r') /\
     (~ P (rq_DiagnosticRunID r) -> unsettled r -> unsettled r')).
Proof.
  intros Hst Hr. destruct Hst as [i row fk t t' n Hf H|run now fk t t' n H|run state now fk t t' n HP Hs H|i now fk t t' n H|p t|t t' E].
  - unfold insert_request_row in H. destruct (user_ref _ _ _); [|done].
    destruct (insert_row _ _ _) as [m|] eqn:E; [|done]. apply insert_row_some in E as [Hn ->]. injection H as <- _. cbn in Hr.
    apply lookup_insert_Some in Hr as [[-> <-]|[_ Hr]]; [by left|right; by exists r'].
  - injection H as <- _. cbn in Hr. rewrite lookup_update_rows in Hr. destruct (tb_requests t !! id) as [r|]; [|done].
    injection Hr as <-. right. exists r. split; [done|]. destruct (waiting run r) eqn:Hw; [|done].
    apply waiting_rank in Hw as [Hw _]. split; [split; try done; change (status_rank (rq_Status r) <= 2); lia|]. unfold row_ok. cbn.
    split; [destruct (status_rank (rq_Status r)) as [|[|]]; [by intros [_ ?]|by intros [_ ?]|lia]|].
    intros _ _. unfold unsettled. cbn. vm_compute. lia.
  - injection H as <- _. cbn in Hr. rewrite lookup_update_rows in Hr. destruct (tb_requests t !! id) as [r|]; [|done].
    injection Hr as <-. right. exists r. split; [done|]. destruct (of_run run r) eqn:Hrun; [|done]. split_and!.
    + split; cbn; try done. rewrite (settled_rank state) by done. unfold status_rank. repeat case_decide; lia.
    + intros _. unfold row_ok. cbn. rewrite (settled_rank state) by done. eauto.
    + apply bool_decide_eq_true in Hrun as ->. done.
  - unfold recover_request in H. destruct (tb_requests t !! i) as [r|] eqn:E; [|injection H as <- _; right; by exists r'].
    destruct (is_pending r) eqn:Hp; injection H as <- _; [|right; by exists r']. cbn in Hr.
    apply lookup_insert_Some in Hr as [[-> <-]|[_ Hr]]; [right; exists r|right; by exists r'].
    apply bool_decide_eq_true in Hp. split; [done|]. split; [split; cbn; try done; rewrite Hp; vm_compute; lia|].
    unfold row_ok. cbn. rewrite Hp. cbn. split; [intros [_ ?]; by split; [eexists|]|].
    intros _ _. unfold unsettled. cbn. vm_compute. lia.
  - right. exists r'. apply lookup_delete_rows in Hr as [Hr _]. done.
  - right. exists r'. by rewrite <- E.
Qed.
Lemma fresh_row_ok r : fresh_request r -> row_ok r.
Proof. intros (H & ? & ?). unfold row_ok. by rewrite H. Qed.
Lemma statement_ok P t t' : statement P t t' -> requests_ok t -> requests_ok t'.
Proof.
  intros Hst Hok id r' Hr. destruct (statement_row _ _ _ _ _ Hst Hr) as [[_ Hf]|(r & Hr0 & _ & H & _)]; [by apply fresh_row_ok|].
  apply H. by eapply Hok.
Qed.

(** A step that does not delete the request [id]. *)
Definition keeping (id : string) (t t' : Tables) : Prop :=
  statement (fun _ => True) t t' /\ (is_Some (tb_requests t !! id) -> is_Some (tb_requests t' !! id)).
Lemma keeping_forward id t t' r :
  rtc (keeping id) t t' -> tb_requests t !! id = Some r -> exists r', tb_requests t' !! id = Some r' /\ forward r r'.
Proof.
  intros Hs. revert r. induction Hs as [t|t t1 t' [Hst Hk] _ IH]; intros r Hr; [by exists r|].
  destruct (Hk ltac:(eauto)) as [r1 Hr1]. destruct (IH r1 Hr1) as (r' & Hr' & Hf).
  destruct (statement_row _ _ _ _ _ Hst Hr1) as [[Hn _]|(r0 & Hr0 & Hf0 & _)]; [by rewrite Hn in Hr|].
  assert (r0 = r) as -> by congruence. exists r'. split; [done|by etrans].
Qed.
(** No request of the run is settled. *)
Definition all_unsettled (run : string) (t : Tables) : Prop :=
  map_Forall (fun _ r => rq_DiagnosticRunID r = run -> unsettled r) (tb_requests t).
Lemma statements_unsettled P run t t' : ~ P run -> rtc (statement P) t t' -> all_unsettled run t -> all_unsettled run t'.
Proof.
  intros HP H. induction H as [t|t t1 t' Hst _ IH]; [done|]. intros Hu. apply IH. intros id r Hr Hrun.
  destruct (statement_row _ _ _ _ _ Hst Hr) as [[_ [Hs _]]|(r0 & Hr0 & Hf & _ & Hk)];
    [unfold unsettled; rewrite Hs; vm_compute; lia|].
  assert (rq_DiagnosticRunID r0 = run) as Hrun0 by (rewrite <- Hrun; symmetry; apply Hf).
  apply Hk; [by rewrite Hrun0|by eapply Hu].
Qed.

(** ** The operations of backend-api on requests *)
Section operations.
Context {W : Type} `{!ObjectClient W DiagnosticRunSpec DiagnosticRunStatus} `{!ObjectClient W IncidentSpec IncidentStatus}
  `{!ObjectClient W KubeChanStateSpec KubeChanStateStatus} `{!ObjectClient W ProblemCaseSpec ProblemCaseStatus}
  `{!SqlDB W} `{!SqlDBLaws W} `{!Broadcaster W} `{!LLMGateway W}
  `{!SqlFrame W DiagnosticRunSpec DiagnosticRunStatus} `{!SqlFrame W IncidentSpec IncidentStatus}
  `{!BroadcasterFrame W DiagnosticRunSpec DiagnosticRunStatus} `{!LLMGatewayFrame W DiagnosticRunSpec DiagnosticRunStatus}.
Context (errText : goerr -> string) (DefaultNamespace LLMGatewayURL : string) (hasHub : bool) (MoodSyncer : option string)
  (PersonaAllowed : bool).
Context (parse_json : string -> option json) (marshal_request : llmAnalyzeRequest -> res string)
  (decode_response : string -> option llmAnalyzeResponse) (marshal_response : llmAnalyzeResponse -> string).

Inductive operation :=
  | Receive (body : option evidenceRequest) (evidenceID : string) (dispatched now : Time)
  | Dispatch (evidenceID analysisID : string) (req : evidenceRequest) (now : Time)
  | AnalyzeOp (id : string) (caller : Caller) (reqID : string) (now requested : Time)
  | AugmentOp (body : option (list relatedResourceIn)) (id : string) (caller : Caller) (reqID : string) (now requested : Time)
  | CreateManual (body : option manualIncidentRequest) (caller : Caller) (reqID : string) (now requested : Time)
  | Rate (body : option string) (id : string)
  | DeleteRun (id : string)
  | DeleteRuns (body : option (list string))
  | Recover (now : Time)
  | Prune.
Definition perform (o : operation) (w : W) : W :=
  match o with
  | Receive body evidenceID dispatched now =>
      (ReceiveEvidence errText DefaultNamespace LLMGatewayURL hasHub body evidenceID dispatched now w).1.2
  | Dispatch evidenceID analysisID req now =>
      dispatchAnalysis DefaultNamespace LLMGatewayURL hasHub MoodSyncer PersonaAllowed parse_json marshal_request decode_response
        marshal_response evidenceID analysisID req now w
  | AnalyzeOp id caller reqID now requested => (Analyze errText DefaultNamespace id caller reqID now requested w).2
  | AugmentOp body id caller reqID now requested => (Augment errText DefaultNamespace body id caller reqID now requested w).2
  | CreateManual body caller reqID now requested => (ManualIncident_Create errText DefaultNamespace body caller reqID now requested w).2
  | Rate body id => (RateAnalysisResult errText body id w).2
  | DeleteRun id => (DiagnosticRuns_Delete errText id w).2
  | DeleteRuns body => (BulkDelete errText body w).2
  | Recover now => (RecoverPendingRequests now w).2
  | Prune => prune w
  end.

(** The runs a dispatch is for. *)
Definition dispatches (o : operation) (run : string) : Prop :=
  match o with Dispatch _ _ req _ => vr_DiagnosticRunID req = run | _ => False end.
Section issues.
Context (P : string -> Prop).
Definition issues (w w' : W) : Prop := rtc (statement P) (tables w) (tables w').
#[local] Instance issues_preorder : PreOrder issues.
Proof using Type. split; [intros w; apply rtc_refl|]. intros a b c H1 H2. unfold issues in *. by etrans. Qed.
Lemma issues_refl w : issues w w.
Proof using Type. reflexivity. Qed.
#[local] Hint Resolve issues_refl : core.
Lemma issues_exec label f w r w' :
  exec label f w = (r, w') -> (forall fk t t' n, f fk t = Some (t', n) -> statement P t t') -> issues w w'.
Proof using All.
  intros E Hf. apply exec_tables in E. destruct r as [n|e]; [apply rtc_once; by eapply Hf|by rewrite E].
Qed.
Lemma issues_snd label f w : (forall fk t t' n, f fk t = Some (t', n) -> statement P t t') -> issues w (exec label f w).2.
Proof using All. intros Hf. destruct (exec label f w) as [r w'] eqn:E. by eapply issues_exec. Qed.
Lemma issues_same w w' : tables w' = tables w -> issues w w'.
Proof using Type. unfold issues. by intros ->. Qed.
Lemma issues_run_patch f dr w r w' : kpatch_status (S := DiagnosticRunSpec) (T := DiagnosticRunStatus) dr f w = (r, w') -> issues w w'.
Proof using All. intros E. exact (issues_same _ _ (frame_tables_patch_status _ _ _ _ _ E)). Qed.
Lemma issues_tell msg w : issues w (tell hasHub msg w).
Proof using All. unfold tell. destruct hasHub; [|done]. apply issues_same, (frame_broadcast_tables (S := DiagnosticRunSpec) (T := DiagnosticRunStatus)). Qed.

Lemma issues_settle run state ref now w : P run -> settled state ->
  issues w (patchAnalysisState DefaultNamespace hasHub run state ref now w).
Proof using All.
  intros HP Hs. unfold patchAnalysisState. cbv zeta. set (w1 := (exec _ _ w).2).
  trans w1; [apply issues_snd; intros; by eapply st_settle|]. trans (patch_run_state DefaultNamespace run state ref w1).
  - unfold patch_run_state. destruct (get_run _ _ w1) as [dr|]; [|done].
    destruct (kpatch_status dr _ w1) as [r w2] eqn:E. by eapply issues_run_patch.
  - case_decide; [apply issues_tell|done].
Qed.
Lemma insert_evidence_statement id row fk t t' n : insert_evidence_row id row fk t = Some (t', n) -> statement P t t'.
Proof using Type. unfold insert_evidence_row. destruct (insert_row _ _ _); [|done]. intros [= <- _]. by apply st_other. Qed.
Lemma insert_result_statement id row fk t t' n : insert_result_row id row fk t = Some (t', n) -> statement P t t'.
Proof using Type. unfold insert_result_row. destruct (insert_row _ _ _); [|done]. intros [= <- _]. by apply st_other. Qed.
Lemma insert_owner_statement i ns o fk t t' n : insert_owner_row i ns o fk t = Some (t', n) -> statement P t t'.
Proof using Type.
  unfold insert_owner_row. destruct (user_ref _ _ _); [|done]. destruct (insert_row _ _ _); [|done]. intros [= <- _]. by apply st_other.
Qed.

Lemma issues_receive body evidenceID dispatched now w : issues w (perform (Receive body evidenceID dispatched now) w).
Proof using All.
  cbn. unfold ReceiveEvidence. destruct body as [req|]; [|done]. cbv zeta. case_decide; [done|].
  destruct (exec "insert evidence" _ w) as [[n|e] w1] eqn:E; cbn [fst snd]; [|by eapply issues_exec; [|by apply insert_evidence_statement]].
  trans w1; [by eapply issues_exec; [|by apply insert_evidence_statement]|].
  set (w2 := if configured LLMGatewayURL then _ else w1). assert (issues w1 w2) as H2.
  { unfold w2. destruct (configured LLMGatewayURL); [|done]. apply issues_snd. intros. by eapply st_start. }
  trans w2; [done|]. assert (issues w2 (patch_received DefaultNamespace LLMGatewayURL req evidenceID now w2)) as H3.
  { unfold patch_received. destruct (get_run _ _ w2) as [dr|]; [|done]. destruct (kpatch_status dr _ w2) eqn:Ep. by eapply issues_run_patch. }
  destruct (configured LLMGatewayURL); cbn [fst snd]; [|done]. etrans; [done|apply issues_tell].
Qed.
Lemma issues_store req provider analysisID result now w : P (vr_DiagnosticRunID req) ->
  issues w (store_result DefaultNamespace hasHub marshal_response req provider analysisID result now w).
Proof using All.
  intros HP. unfold store_result. cbv zeta. destruct (exec "insert result" _ w) as [[n|e] w1] eqn:E;
    (trans w1; [by eapply issues_exec; [|by apply insert_result_statement]|]).
  - etrans; [|apply issues_tell]. apply issues_settle; [done|by left].
  - apply issues_settle; [done|by right].
Qed.
Lemma issues_dispatch evidenceID analysisID req now w : P (vr_DiagnosticRunID req) -> issues w (perform (Dispatch evidenceID analysisID req now) w).
Proof using All.
  intros HP. cbn. unfold dispatchAnalysis. cbv zeta. destruct (v ← _; as_map v) as [payload|]; [|by apply issues_settle; [|right]].
  destruct (marshal_request _) as [text|]; [|done]. unfold ask_gateway.
  destruct (llm_post _ text w) as [[[code answer]|e] w1] eqn:E; (trans w1; [apply issues_same; by eapply (frame_llm_tables (S := DiagnosticRunSpec) (T := DiagnosticRunStatus))|]).
  - destruct (if decide (code = StatusOK) then _ else _); [by apply issues_store|by apply issues_settle; [|right]].
  - by apply issues_settle; [|right].
Qed.
Lemma issues_request ns name ref caller reqID now requested w :
  issues w (request_analysis errText ns name ref caller reqID now requested w).2.
Proof using All.
  unfold request_analysis. destruct (kcreate _ w) as [[dr|e] w1] eqn:E1; cbn [snd]; (trans w1; [exact (issues_same _ _ (frame_tables_create _ _ _ _ E1))|]); [|done].
  destruct (kpatch_status dr _ w1) as [[dr'|e] w2] eqn:E2; cbn [snd]; (trans w2; [by eapply issues_run_patch|]); [|done].
  destruct (exec _ _ w2) as [[n|e] w3] eqn:E3; cbn [snd]; (eapply issues_exec; [exact E3|]); intros; (eapply st_insert; [|eassumption]); done.
Qed.
Lemma issues_done_with label f w r w' :
  done_with (exec label f) w = (r, w') -> (forall fk t t' n, f fk t = Some (t', n) -> statement P t t') -> issues w w'.
Proof using All.
  unfold done_with. destruct (exec label f w) as [[n|e] w1] eqn:E; intros [= _ <-]; by eapply issues_exec.
Qed.
Lemma issues_manual body caller reqID now requested w : issues w (perform (CreateManual body caller reqID now requested) w).
Proof using All.
  cbn. unfold ManualIncident_Create. destruct body as [req|]; [|done]. destruct (invalid_request req); [done|].
  destruct (kcreate _ w) as [[inc|e] w1] eqn:E1; cbn [snd]; (trans w1; [exact (issues_same _ _ (frame_tables_create _ _ _ _ E1))|]); [|done].
  cbv zeta. destruct (kpatch_status inc _ w1) as [r2 w2] eqn:E2. cbn [snd]. trans w2; [exact (issues_same _ _ (frame_tables_patch_status _ _ _ _ _ E2))|].
  destruct (kcreate _ w2) as [[dr|e] w3] eqn:E3; cbn [snd]; (trans w3; [exact (issues_same _ _ (frame_tables_create _ _ _ _ E3))|]); [|done].
  destruct (kpatch_status dr _ w3) as [[dr'|e] w4] eqn:E4; cbn [snd]; (trans w4; [by eapply issues_run_patch|]); [|done].
  unfold record_rows. destruct (insert_request _ w4) as [[[]|e] w5] eqn:E5; cbn [snd];
    (trans w5; [eapply issues_done_with; [exact E5|]; intros; (eapply st_insert; [|eassumption]); done|]); [|done].
  case_decide; [done|]. destruct (insert_owner _ _ _ w5) as [[[]|e] w6] eqn:E6; cbn [snd];
    by eapply issues_done_with; [exact E6|apply insert_owner_statement].
Qed.
Lemma issues_analyze id caller reqID now requested w : issues w (perform (AnalyzeOp id caller reqID now requested) w).
Proof using All.
  cbn. unfold Analyze. destruct (namespacedName id DefaultNamespace) as [ns name]. destruct (kget ns name w); [|done].
  destruct (may_analyze _ _ _ w); [apply issues_request|done].
Qed.
Lemma issues_augment body id caller reqID now requested w : issues w (perform (AugmentOp body id caller reqID now requested) w).
Proof using All.
  cbn. unfold Augment. destruct (namespacedName id DefaultNamespace) as [ns name]. destruct body as [[|r l]|]; [done| |done].
  destruct (kget ns name w) as [inc|]; [|done].
  destruct (kpatch inc _ w) as [[inc1|e] w1] eqn:E; (trans w1; [exact (issues_same _ _ (frame_tables_patch _ _ _ _ _ E))|]); [|done].
  apply issues_request.
Qed.
Lemma issues_rate body id w : issues w (perform (Rate body id) w).
Proof using All.
  cbn. unfold RateAnalysisResult. destruct body as [rating|]; [|done]. case_decide; [done|].
  assert (issues w (exec "rate" (rate_result id rating) w).2) as Hx.
  { apply issues_snd. intros fk t t' n. unfold rate_result. destruct (tb_results t !! id); [|by intros [= <- _]; apply st_other].
    destruct (str_in _ _); [|done]. intros [= <- _]. by apply st_other. }
  destruct (exec "rate" _ w) as [[n|e] w1]; [|done]. by case_decide.
Qed.

(** Deleting runs, on the tables. *)
Definition delete_run (id : string) (t : Tables) : Tables := foldl (fun t stmt => stmt.2 id t) t run_statements.
Lemma deleteRunFromDB_ok (w : W) r id t' : deleteRunFromDB w r id = Ok t' -> exists t, r = Ok t /\ t' = delete_run id t.
Proof using Type.
  unfold deleteRunFromDB, delete_run, run_statements. cbn. destruct r as [t|e]; [|done].
  destruct (sql_fault _ w); [done|]. destruct (sql_fault _ w); [done|]. destruct (sql_fault _ w); [done|].
  intros [= <-]. by exists t.
Qed.
Lemma delete_runs_ok (w : W) ids r t' : foldl (deleteRunFromDB w) r ids = Ok t' -> exists t, r = Ok t /\ t' = foldl (flip delete_run) t ids.
Proof using Type.
  revert r. induction ids as [|id ids IH]; intros r; cbn; [intros ->; by exists t'|].
  intros (t1 & H1 & ->)%IH. apply deleteRunFromDB_ok in H1 as (t & -> & ->). by exists t.
Qed.
Lemma in_transaction_outcome (body : W -> res Tables -> res Tables) (w : W) r w' : in_transaction body w = (r, w') ->
  match r with
  | Ok _ => exists t, body w (Ok (tables w)) = Ok t /\ tables w' = t
  | Err _ => w' = w
  end.
Proof using SqlDBLaws0.
  unfold in_transaction. destruct (sql_fault "begin" w); [by intros [= <- <-]|].
  destruct (body w (Ok (tables w))) as [t|]; [|by intros [= <- <-]].
  destruct (sql_fault "commit" w); intros [= <- <-]; [done|]. exists t. by rewrite law_tables_put.
Qed.
Lemma delete_run_statements id t : rtc (statement P) t (delete_run id t).
Proof using Type.
  unfold delete_run, run_statements. cbn [foldl snd].
  etrans; [apply rtc_once, st_other; reflexivity|]. etrans; [apply rtc_once, st_delete|]. apply rtc_once, st_other. reflexivity.
Qed.
Lemma delete_runs_statements ids t : rtc (statement P) t (foldl (flip delete_run) t ids).
Proof using Type. revert t. induction ids as [|id ids IH]; intros t; cbn; [done|]. etrans; [apply delete_run_statements|apply IH]. Qed.
Lemma issues_delete_run id w : issues w (perform (DeleteRun id) w).
Proof using All.
  cbn. unfold DiagnosticRuns_Delete. destruct (in_transaction _ w) as [r w'] eqn:E. pose proof (in_transaction_outcome _ _ _ _ E) as H.
  destruct r; cbn [snd]; [|by rewrite H]. destruct H as (t & Ht & Hw). apply deleteRunFromDB_ok in Ht as (t0 & [= <-] & ->).
  unfold issues. rewrite Hw. apply delete_run_statements.
Qed.
Lemma issues_delete_runs body w : issues w (perform (DeleteRuns body) w).
Proof using All.
  cbn. unfold BulkDelete. destruct body as [[|id ids]|]; [done| |done].
  destruct (in_transaction _ w) as [r w'] eqn:E. pose proof (in_transaction_outcome _ _ _ _ E) as H.
  destruct r; cbn [snd]; [|by rewrite H]. destruct H as (t & Ht & Hw). apply delete_runs_ok in Ht as (t0 & [= <-] & ->).
  unfold issues. rewrite Hw. apply delete_runs_statements.
Qed.
Lemma issues_recover now w : issues w (perform (Recover now) w).
Proof using All.
  cbn. unfold RecoverPendingRequests. destruct (query _ _ w) as [rows|]; cbn [snd]; [|done].
  generalize (rows.*1) as ids. intros ids. revert w. induction ids as [|id ids IH]; intros w; cbn [foldl]; [done|].
  etrans; [|apply IH]. apply issues_snd. intros. by eapply st_recover.
Qed.
Lemma issues_prune w : issues w (perform Prune w).
Proof using All.
  cbn. unfold prune. cbv zeta.
  etrans; [apply issues_snd|etrans; [apply issues_snd|apply issues_snd]]; intros fk t t' n [= <- _];
    [by apply st_other|by apply st_other|apply st_delete].
Qed.
Lemma perform_issues o w : (forall run, dispatches o run -> P run) -> issues w (perform o w).
Proof using All.
  intros HP. destruct o; eauto using issues_receive, issues_dispatch, issues_analyze, issues_augment, issues_manual, issues_rate,
    issues_delete_run, issues_delete_runs, issues_recover, issues_prune.
  apply issues_dispatch. by apply HP.
Qed.
End issues.

(** C10: Whatever the operations of backend-api do, each does it in statements
    under which, interleaved in any way, the table of requests stays sound - a
    known status with the time stamps that go with it - and a request that is not
    deleted keeps its incident, run, time, source and user and never goes back
    from in progress to dispatched or pending, nor from completed or failed to any
    of them. *)
Theorem requests_only_move_forward :
  (forall o w, rtc (statement (fun _ => True)) (tables w) (tables (perform o w))) /\
  (forall P t t', rtc (statement P) t t' -> requests_ok t -> requests_ok t') /\
  (forall id t t' r, rtc (keeping id) t t' -> tb_requests t !! id = Some r ->
     exists r', tb_requests t' !! id = Some r' /\ forward r r').
Proof using All.
  split_and!; [intros o w; by apply perform_issues| |apply keeping_forward].
  intros P t t' H. induction H as [|t t1 t' Hst _ IH]; [done|]. intros Hok. apply IH. by eapply statement_ok.
Qed.

Fixpoint perform_all (os : list operation) (w : W) : W :=
  match os with [] => w | o :: os' => perform_all os' (perform o w) end.
(** Only a dispatch for its run settles a request.  When the process ends
    after the evidence of a run was received and before its dispatch has ended,
    the requests of the run stay unsettled for good: no later operation but
    another dispatch for that run, so none of a restart, settles them. *)
Theorem lost_dispatch_is_never_settled run os w :
  all_unsettled run (tables w) -> Forall (fun o => ~ dispatches o run) os -> all_unsettled run (tables (perform_all os w)).
Proof using All.
  intros Hu H. revert w Hu. induction H as [|o os Ho _ IH]; intros w Hu; [done|]. cbn. apply IH.
  eapply statements_unsettled; [exact Ho|apply perform_issues; by intros ?|done].
Qed.
End operations.

(** ** At a concrete backend *)
Definition up : MemBackend := backend_of (Ok (StatusOK, "{}")).
Definition perform_up : operation -> MemBackend -> MemBackend :=
  perform err_text "kubechan" "http://gateway" true (Some "kubechan") true no_fields some_text decoded encoded.

Lemma requests_only_move_forward_witness :
  exists r', tb_requests (tables (perform_up (Recover 0) up)) !! "q-1" = Some r' /\ forward a_request r'.
Proof.
  apply (requests_only_move_forward err_text "kubechan" "http://gateway" true (Some "kubechan") true no_fields some_text decoded encoded)
    with (t := tables up); [|reflexivity].
  apply rtc_once. split; [|by eexists]. by apply (st_recover _ "q-1" (format_rfc3339 0) true _ _ 1).
Defined.
Lemma lost_dispatch_is_never_settled_witness :
  all_unsettled "dr-1" (tables (perform_all err_text "kubechan" "http://gateway" true (Some "kubechan") true no_fields some_text decoded encoded
    [Receive (Some an_evidence) "e-1" 0 0; Recover 0; Prune] up)).
Proof.
  apply (lost_dispatch_is_never_settled err_text "kubechan" "http://gateway" true (Some "kubechan") true no_fields some_text decoded encoded).
  - apply map_Forall_singleton. intros _. unfold unsettled. vm_compute. lia.
  - repeat constructor; by intros ?.
Defined.
