(* ===== verification/Dispatch.v ===== *)
(** * What one analysis leaves behind

    The outcome of [dispatchAnalysis] on the rows and on the DiagnosticRun, of
    [RecoverPendingRequests] after a crash, of deleting runs, and the case an
    analysis is requested for. *)

From Stdlib Require Import Ascii.
From stdpp Require Import sorting.
From stdpp Require Import prelude gmap strings list.
From S2P Require Import Prelude GoBase Json Api Client Hub Mood Handlers Tables Analysis RunHandlers MemBackend RequestLifecycle.

Section dispatch.
Context {W : Type} `{!ObjectClient W DiagnosticRunSpec DiagnosticRunStatus} `{!ObjectClient W IncidentSpec IncidentStatus}
  `{!ObjectClient W KubeChanStateSpec KubeChanStateStatus} `{!ObjectClientLaws W DiagnosticRunSpec DiagnosticRunStatus}
  `{!SqlDB W} `{!SqlDBLaws W} `{!Broadcaster W} `{!LLMGateway W}
  `{!SqlFrame W DiagnosticRunSpec DiagnosticRunStatus}
  `{!BroadcasterFrame W DiagnosticRunSpec DiagnosticRunStatus} `{!LLMGatewayFrame W DiagnosticRunSpec DiagnosticRunStatus}.
Context (DefaultNamespace LLMGatewayURL : string) (hasHub : bool) (MoodSyncer : option string) (PersonaAllowed : bool).
Context (parse_json : string -> option json) (marshal_request : llmAnalyzeRequest -> res string)
  (decode_response : string -> option llmAnalyzeResponse) (marshal_response : llmAnalyzeResponse -> string).
Implicit Types (w : W) (req : evidenceRequest).
Abbreviation dispatch :=
  (dispatchAnalysis DefaultNamespace LLMGatewayURL hasHub MoodSyncer PersonaAllowed parse_json marshal_request decode_response
     marshal_response) (only parsing).
Abbreviation the_request evidenceID req payload w :=
  (analyze_request DefaultNamespace MoodSyncer PersonaAllowed parse_json evidenceID req payload w) (only parsing).
Abbreviation patch_state := (patchAnalysisState DefaultNamespace hasHub) (only parsing).

(** The requests of a run, settled. *)
Definition settle_run (run state : string) (now : Time) (t : Tables) : Tables :=
  set_requests (update_rows (of_run run) (set_settled state (format_rfc3339 now)) (tb_requests t)) t.
Definition run_reads (w w' : W) : Prop := forall ns n, kget (S := DiagnosticRunSpec) (T := DiagnosticRunStatus) ns n w' = kget ns n w.

Lemma tell_reads msg w : run_reads w (tell hasHub msg w).
Proof using BroadcasterFrame0. intros ns n. unfold tell. destruct hasHub; [apply frame_broadcast|done]. Qed.
Lemma tell_tables msg w : tables (tell hasHub msg w) = tables w.
Proof using BroadcasterFrame0.
  unfold tell. destruct hasHub; [|done]. apply (frame_broadcast_tables (S := DiagnosticRunSpec) (T := DiagnosticRunStatus)).
Qed.

(** The statement succeeds whenever it is run. *)
Definition never_fails (label : string) : Prop := forall w, sql_fault label w = None.
Lemma patch_state_tables run state ref now w :
  never_fails "settle requests" -> tables (patch_state run state ref now w) = settle_run run state now (tables w).
Proof using All.
  intros Hn. unfold patchAnalysisState. cbv zeta. erewrite exec_works by (apply Hn || reflexivity). cbn [snd].
  set (w1 := put_tables _ w). assert (tables (patch_run_state DefaultNamespace run state ref w1) = tables w1) as E.
  { unfold patch_run_state. destruct (get_run _ run w1) as [dr|]; [|done]. destruct (kpatch_status dr _ w1) as [r w2] eqn:E.
    exact (frame_tables_patch_status _ _ _ _ _ E). }
  assert (tables w1 = settle_run run state now (tables w)) as E1 by apply law_tables_put.
  case_decide; [rewrite tell_tables|]; congruence.
Qed.
(** The stored run of the request, when writing its status works. *)
Lemma patch_state_run run state ref now w dr :
  patches_succeed (W := W) (S := DiagnosticRunSpec) (T := DiagnosticRunStatus) ->
  get_run DefaultNamespace run w = Ok dr ->
  get_run DefaultNamespace run (patch_state run state ref now w) = Ok (set_analysis_state state ref dr).
Proof using All.
  intros Hp Hg. unfold patchAnalysisState. cbv zeta. destruct (exec "settle requests" _ w) as [r w1] eqn:E. cbn [snd].
  assert (get_run DefaultNamespace run w1 = Ok dr) as Hg1.
  { unfold get_run. erewrite (exec_frame (S := DiagnosticRunSpec) (T := DiagnosticRunStatus)) by exact E. exact Hg. }
  assert (get_run DefaultNamespace run (patch_run_state DefaultNamespace run state ref w1) = Ok (set_analysis_state state ref dr)) as H.
  { unfold patch_run_state. rewrite Hg1. destruct (kget_is_stored _ _ _ _ Hg1) as (Hs & Hns & Hn).
    destruct (Hp dr (set_analysis_state state ref dr) w1 Hs eq_refl) as [x Hx].
    destruct (kpatch_status dr _ w1) as [r1 w2] eqn:E2. cbn in Hx |- *.
    destruct (kpatch_status_outcome dr (set_analysis_state state ref dr) _ _ _ Hs eq_refl E2) as (dr' & [_ Ha _ _] & Hr). rewrite Hx in Hr. destruct Hr as [_ ->].
    unfold is_stored in Ha. unfold get_run. rewrite <- Hns, <- Hn. exact Ha. }
  case_decide; [|exact H]. unfold get_run. rewrite tell_reads. exact H.
Qed.

(** The gateway answered with a result and it could be stored. *)
Definition analysed (evidenceID analysisID : string) req w (row : ResultRow) : Prop :=
  exists v payload body text w1 result,
    parse_json (vr_Payload req) = Some v /\ as_map v = Some payload /\
    marshal_request (the_request evidenceID req payload w) = Ok body /\
    llm_post (LLMGatewayURL +:+ "/analyze") body w = (Ok (StatusOK, text), w1) /\ decode_response text = Some result /\
    sql_fault "insert result" w1 = None /\ tb_results (tables w) !! analysisID = None /\
    row = result_row marshal_response req (lq_Provider (the_request evidenceID req payload w)) result (db_now w1).
Definition final_analysis_state (outcome : option ResultRow) : string :=
  match outcome with Some _ => DiagnosticRunAnalysisStateCompleted | None => DiagnosticRunAnalysisStateFailed end.
Definition add_result (analysisID : string) (outcome : option ResultRow) (t : Tables) : Tables :=
  match outcome with Some row => set_results (<[analysisID := row]> (tb_results t)) t | None => t end.
(** What is left once the gateway has been asked, in the world [w1]. *)
Record dispatched (analysisID : string) req now (outcome : option ResultRow) w w' : Prop := {
  ds_tables : tables w' = settle_run (vr_DiagnosticRunID req) (final_analysis_state outcome) now (add_result analysisID outcome (tables w));
  ds_run dr : patches_succeed (W := W) (S := DiagnosticRunSpec) (T := DiagnosticRunStatus) ->
    get_run DefaultNamespace (vr_DiagnosticRunID req) w = Ok dr ->
    get_run DefaultNamespace (vr_DiagnosticRunID req) w' =
      Ok (set_analysis_state (final_analysis_state outcome) (match outcome with Some _ => analysisID | None => EmptyString end) dr);
}.
Lemma failed_dispatch analysisID req now w w1 :
  never_fails "settle requests" -> tables w1 = tables w -> run_reads w w1 ->
  dispatched analysisID req now None w
    (patch_state (vr_DiagnosticRunID req) DiagnosticRunAnalysisStateFailed EmptyString now w1).
Proof using All.
  intros Hn Ht Hr. split; [by rewrite patch_state_tables, Ht|]. intros dr Hp Hg. apply patch_state_run; [done|].
  unfold get_run in *. by rewrite Hr.
Qed.
Lemma store_dispatch req provider analysisID result now w w1 :
  never_fails "settle requests" -> tables w1 = tables w -> run_reads w w1 ->
  let row := result_row marshal_response req provider result (db_now w1) in
  let stored := sql_fault "insert result" w1 = None /\ tb_results (tables w) !! analysisID = None in
  exists outcome, (forall r, outcome = Some r <-> stored /\ r = row) /\
    dispatched analysisID req now outcome w
      (store_result DefaultNamespace hasHub marshal_response req provider analysisID result now w1).
Proof using All.
  intros Hn Ht Hr row stored. unfold store_result. cbv zeta. unfold exec, insert_result_row, insert_row. rewrite Ht.
  destruct (sql_fault "insert result" w1) as [e|] eqn:Ef; cbn [option_bind].
  - exists None. split; [by intros r; split; [|intros [[] _]]|]. by apply failed_dispatch.
  - destruct (tb_results (tables w) !! analysisID) as [x|] eqn:Ex; cbn [mbind option_bind].
    + exists None. split; [by intros r; split; [|intros [[] _]]|]. by apply failed_dispatch.
    + exists (Some row). split; [intros r; split; [by intros [= <-]|by intros [_ ->]]|]. split.
      * rewrite tell_tables, patch_state_tables by done. by rewrite law_tables_put.
      * intros dr Hp Hg. unfold get_run. rewrite tell_reads. apply patch_state_run; [done|]. unfold get_run in *.
        by rewrite frame_put_tables, Hr.
Qed.

Lemma dispatch_outcome evidenceID analysisID req now w :
  (forall r, exists text, marshal_request r = Ok text) -> never_fails "settle requests" ->
  exists outcome, dispatched analysisID req now outcome w (dispatch evidenceID analysisID req now w) /\
    (forall row, outcome = Some row <-> analysed evidenceID analysisID req w row).
Proof using All.
  intros Hm Hn. unfold dispatchAnalysis. cbv zeta.
  assert (Hfail : forall w1, tables w1 = tables w -> run_reads w w1 -> (forall row, ~ analysed evidenceID analysisID req w row) ->
    exists outcome, dispatched analysisID req now outcome w (patch_state (vr_DiagnosticRunID req) DiagnosticRunAnalysisStateFailed EmptyString now w1) /\
    (forall row, outcome = Some row <-> analysed evidenceID analysisID req w row)).
  { intros w1 Ht Hr Hno. exists None. split; [by apply failed_dispatch|]. intros row. split; [done|]. by intros H%Hno. }
  destruct (parse_json (vr_Payload req)) as [v|] eqn:Ev; cbn [mbind option_bind];
    [|apply Hfail; [done|done|by intros row (? & ? & ? & ? & ? & ? & ? & _); simplify_eq]].
  destruct (as_map v) as [payload|] eqn:Ep; [|apply Hfail; [done|done|intros row (? & ? & ? & ? & ? & ? & ? & ? & _); simplify_eq]].
  destruct (Hm (the_request evidenceID req payload w)) as [body Eb]. rewrite Eb. unfold ask_gateway.
  destruct (llm_post _ body w) as [o w1] eqn:Eg.
  assert (tables w1 = tables w) as Ht by exact (frame_llm_tables (S := DiagnosticRunSpec) (T := DiagnosticRunStatus) _ _ _ _ _ Eg).
  assert (run_reads w w1) as Hr by (intros ns n; exact (frame_llm _ _ _ _ _ _ _ Eg)).
  assert (Hg : forall row, analysed evidenceID analysisID req w row -> exists text result, o = Ok (StatusOK, text) /\
    decode_response text = Some result /\ (sql_fault "insert result" w1 = None /\ tb_results (tables w) !! analysisID = None) /\
    row = result_row marshal_response req (lq_Provider (the_request evidenceID req payload w)) result (db_now w1)).
  { intros row (v' & p' & b' & text & w1' & result & ? & ? & ? & E & ? & ? & ? & ->).
    assert (v' = v /\ p' = payload) as [-> ->] by (split; congruence). assert (b' = body) as -> by congruence.
    rewrite Eg in E. injection E as -> <-. by exists text, result. }
  destruct o as [[code text]|e]; [|apply Hfail; [done|done|by intros row (? & ? & ? & _)%Hg]].
  case_decide as Hc; [|apply Hfail; [done|done|by intros row (? & ? & [= -> _] & _)%Hg]]. subst code.
  destruct (decode_response text) as [result|] eqn:Ed;
    [|apply Hfail; [done|done|intros row (? & ? & [= <-] & ? & _)%Hg; simplify_eq]].
  destruct (store_dispatch req (lq_Provider (the_request evidenceID req payload w)) analysisID result now w w1 Hn Ht Hr)
    as (outcome & Ho & Hd). exists outcome. split; [exact Hd|]. intros row. rewrite Ho. split.
  - intros [[Hs Hf] ->]. exists v, payload, body, text, w1, result. by split_and!.
  - intros (text' & result' & [= <-] & ? & ? & ->)%Hg. simplify_eq. done.
Qed.

End dispatch.

(** ** After a restart *)
Section recovery.
Context {W : Type} `{!SqlDB W} `{!SqlDBLaws W}.

Definition recovered (now : Time) (t : Tables) : Tables :=
  set_requests (update_rows is_pending (set_dispatched (format_rfc3339 now)) (tb_requests t)) t.
Lemma recover_one_tables now (w : W) id :
  never_fails (W := W) "recover" ->
  tables (recover_one now w id) = set_requests (alter (fun r => if is_pending r then set_dispatched now r else r) id (tb_requests (tables w))) (tables w).
Proof using All.
  intros Hn. unfold recover_one, exec. rewrite Hn. unfold recover_request.
  destruct (tb_requests (tables w) !! id) as [r|] eqn:E.
  - destruct (is_pending r) eqn:Hp; cbn [snd]; rewrite law_tables_put.
    + f_equal. apply map_eq. intros k. destruct (decide (k = id)) as [->|Hne];
        [by rewrite lookup_insert_eq, lookup_alter_eq, E; cbn; rewrite Hp|by rewrite lookup_insert_ne, lookup_alter_ne].
    + destruct (tables w); cbn in *. unfold set_requests; cbn. f_equal. apply map_eq. intros k.
      destruct (decide (k = id)) as [->|Hne]; [by rewrite lookup_alter_eq, E; cbn; rewrite Hp|by rewrite lookup_alter_ne].
  - cbn [snd]. rewrite law_tables_put. destruct (tables w); cbn in *. unfold set_requests; cbn. f_equal. apply map_eq. intros k.
    destruct (decide (k = id)) as [->|Hne]; [by rewrite lookup_alter_eq, E|by rewrite lookup_alter_ne].
Qed.
Lemma recover_all_tables now ids (w : W) :
  never_fails (W := W) "recover" ->
  exists m, tables (foldl (recover_one now) w ids) = set_requests m (tables w) /\
    forall k, m !! k = (fun r => if is_pending r && bool_decide (k ∈ ids) then set_dispatched now r else r) <$> tb_requests (tables w) !! k.
Proof using All.
  intros Hn. revert w. induction ids as [|id ids IH]; intros w; cbn [foldl].
  - exists (tb_requests (tables w)). split; [by destruct (tables w)|]. intros k. destruct (tb_requests (tables w) !! k) as [r|]; [|done].
    cbn. rewrite bool_decide_eq_false_2 by (intros H; by apply elem_of_nil in H). by rewrite andb_false_r.
  - destruct (IH (recover_one now w id)) as (m & -> & Hm). exists m. rewrite recover_one_tables in * by done.
    split; [done|]. intros k. rewrite Hm. cbn. destruct (decide (k = id)) as [->|Hne].
    + rewrite lookup_alter_eq. destruct (tb_requests (tables w) !! id) as [r|]; [|done]. cbn. f_equal.
      rewrite (bool_decide_eq_true_2 (id ∈ id :: ids)) by (by apply list_elem_of_here). rewrite andb_true_r.
      destruct (is_pending r) eqn:Hp; [by destruct (is_pending (set_dispatched now r)) eqn:Hp'|by rewrite Hp].
    + rewrite lookup_alter_ne by done. destruct (tb_requests (tables w) !! k) as [r|]; [|done]. cbn. f_equal.
      by rewrite (bool_decide_ext (k ∈ id :: ids) (k ∈ ids)) by (rewrite elem_of_cons; naive_solver).
Qed.

(** A recovery that reads the pending requests marks exactly them as dispatched,
    and touches nothing else: requests in progress are left as they are. *)
Theorem recovery_spec now (w w' : W) :
  never_fails (W := W) "recover" -> RecoverPendingRequests now w = (Ok tt, w') -> tables w' = recovered now (tables w).
Proof using All.
  intros Hn. unfold RecoverPendingRequests. destruct (query _ _ w) as [rows|] eqn:Eq; [|done]. intros [= <-].
  destruct (recover_all_tables (format_rfc3339 now) rows.*1 w Hn) as (m & -> & Hm). unfold recovered. f_equal.
  apply map_eq. intros k. rewrite Hm, lookup_update_rows. destruct (tb_requests (tables w) !! k) as [r|] eqn:Er; [|done]. cbn. f_equal.
  destruct (is_pending r) eqn:Hp; [|done]. rewrite bool_decide_eq_true_2; [done|]. apply list_elem_of_fmap. exists (k, r).
  split; [done|]. apply (query_elem _ _ _ _ (k, r) Eq). by apply elem_of_rows_where.
Qed.
End recovery.

(** ** Deleting runs *)
(** The tables without the rows of some runs. *)
Definition without_runs (runs : gset string) (t : Tables) : Tables :=
  set_evidence (filter (fun kr : string * EvidenceRow => er_DiagnosticRunID kr.2 ∉ runs) (tb_evidence t))
    (set_requests (filter (fun kr : string * RequestRow => rq_DiagnosticRunID kr.2 ∉ runs) (tb_requests t))
      (set_results (filter (fun kr : string * ResultRow => an_DiagnosticRunID kr.2 ∉ runs) (tb_results t)) t)).
Lemma delete_rows_filter {A} (run : A -> string) id (m : gmap string A) :
  delete_rows (fun r => bool_decide (run r = id)) m = filter (fun kr : string * A => run kr.2 ∉ ({[id]} : gset string)) m.
Proof. unfold delete_rows. apply map_filter_ext. intros i x _. cbn. rewrite bool_decide_eq_false. set_solver. Qed.
Lemma delete_run_without id t : delete_run id t = without_runs {[id]} t.
Proof. unfold delete_run, run_statements, without_runs, of_run. cbn. by rewrite !delete_rows_filter. Qed.
Lemma filter_runs {A} (run : A -> string) (x y : gset string) (m : gmap string A) :
  filter (fun kr : string * A => run kr.2 ∉ y) (filter (fun kr : string * A => run kr.2 ∉ x) m) =
  filter (fun kr : string * A => run kr.2 ∉ x ∪ y) m.
Proof. rewrite map_filter_filter. apply map_filter_ext. intros i r _. cbn. set_solver. Qed.
Lemma without_runs_union x y t : without_runs y (without_runs x t) = without_runs (x ∪ y) t.
Proof. unfold without_runs. cbn. by rewrite !filter_runs. Qed.
Lemma delete_runs_without ids t : foldl (flip delete_run) t ids = without_runs (list_to_set ids) t.
Proof.
  revert t. induction ids as [|id ids IH]; intros t.
  - destruct t. unfold without_runs. cbn. unfold set_evidence, set_requests, set_results. cbn.
    f_equal; symmetry; apply map_filter_id; intros; set_solver.
  - change (foldl (flip delete_run) (delete_run id t) ids = without_runs ({[id]} ∪ list_to_set ids) t).
    by rewrite IH, delete_run_without, without_runs_union.
Qed.

Section deleting.
Context {W : Type} `{!SqlDB W} `{!SqlDBLaws W}.
Context (errText : goerr -> string).

(** C33: Deleting runs, one or many, removes their results, requests and evidence
    and nothing else, or reports a failure and removes nothing. *)
Theorem delete_runs_atomic (w : W) :
  (forall id resp w', DiagnosticRuns_Delete errText id w = (resp, w') ->
     (resp = Body StatusNoContent tt /\ tables w' = without_runs {[id]} (tables w)) \/
     (exists code msg, resp = Failure code msg /\ w' = w)) /\
  (forall body resp w', BulkDelete errText body w = (resp, w') ->
     (exists ids, body = Some ids /\ resp = Body StatusOK (Z.of_nat (length ids)) /\ tables w' = without_runs (list_to_set ids) (tables w)) \/
     (exists code msg, resp = Failure code msg /\ w' = w)).
Proof using All.
  split.
  - intros id resp w'. unfold DiagnosticRuns_Delete. destruct (in_transaction _ w) as [r w1] eqn:E.
    pose proof (in_transaction_outcome _ _ _ _ E) as H. destruct r as [[]|e]; intros [= <- <-]; [left|right; eauto].
    destruct H as (t & Ht & ->). apply deleteRunFromDB_ok in Ht as (t0 & [= <-] & ->). by rewrite delete_run_without.
  - intros body resp w'. unfold BulkDelete. destruct body as [[|id ids]|]; [intros [= <- <-]; right; eauto| |intros [= <- <-]; right; eauto].
    destruct (in_transaction _ w) as [r w1] eqn:E.
    pose proof (in_transaction_outcome _ _ _ _ E) as H. destruct r as [[]|e]; intros [= <- <-]; [left|right; eauto].
    destruct H as (t & Ht & ->). apply delete_runs_ok in Ht as (t0 & [= <-] & ->). rewrite delete_runs_without. eauto.
Qed.
End deleting.

(** ** The case an analysis is for *)
Section latest.
Context {W : Type} `{!ObjectClient W ProblemCaseSpec ProblemCaseStatus}.
Implicit Types (inc : Incident) (pc : ProblemCase) (w : W).

(** A member of the incident that can be read and is not resolved. *)
Definition active_member inc w pc : Prop :=
  pct_State (status pc) <> ProblemCaseStateResolved /\
  exists name, name ∈ ins_ProblemCases (spec inc) /\ kget (S := ProblemCaseSpec) (T := ProblemCaseStatus) (obj_namespace inc) name w = Ok pc.
Lemma seen_after_chain pc l c : seen_after pc l = true -> seen_after c l = false -> seen_after c pc = false.
Proof.
  unfold seen_after. destruct (pct_LastSeen (status pc)), (pct_LastSeen (status l)), (pct_LastSeen (status c)); try done.
  rewrite bool_decide_eq_true, !bool_decide_eq_false. lia.
Qed.
Lemma seen_after_refl pc : seen_after pc pc = false.
Proof. unfold seen_after. destruct (pct_LastSeen (status pc)); [|done]. apply bool_decide_eq_false. lia. Qed.
(** [latest] is a case with [P] that no other such case was seen after. *)
Definition latest_of (P : ProblemCase -> Prop) (latest : option ProblemCase) : Prop :=
  match latest with Some l => P l /\ forall c, P c -> seen_after c l = false | None => forall c, ~ P c end.
#[local] Instance latest_of_proper : Proper (pointwise_relation _ iff ==> eq ==> iff) latest_of.
Proof.
  intros P Q E latest ? <-. unfold latest_of. destruct latest as [l|]; [|by setoid_rewrite (E _)].
  rewrite (E l). split; intros [? H]; (split; [done|]); intros c Hc; apply H; by apply E.
Qed.
Definition readable ns w (name : string) pc : Prop :=
  pct_State (status pc) <> ProblemCaseStateResolved /\ kget (S := ProblemCaseSpec) (T := ProblemCaseStatus) ns name w = Ok pc.
Lemma prefer_latest ns w name P latest :
  latest_of P latest -> latest_of (fun c => P c \/ readable ns w name c) (prefer ns w latest name).
Proof.
  unfold latest_of, prefer, readable. intros H. destruct (kget ns name w) as [pc|] eqn:Eg; [|destruct latest; naive_solver].
  case_decide as Hr; [destruct latest; naive_solver|]. destruct latest as [x|].
  - destruct H as [Hx Hall]. destruct (seen_after pc x) eqn:Es; (split; [by auto|]); intros c [Hc|[_ [= <-]]].
    + by eapply seen_after_chain; [exact Es|apply Hall].
    + apply seen_after_refl.
    + by apply Hall.
    + done.
  - split; [by auto|]. intros c [Hc|[_ [= <-]]]; [by destruct (H c)|apply seen_after_refl].
Qed.
Lemma prefer_all ns w names P latest :
  latest_of P latest -> latest_of (fun c => P c \/ exists name, name ∈ names /\ readable ns w name c) (foldl (prefer ns w) latest names).
Proof.
  revert P latest. induction names as [|name names IH]; intros P latest H; cbn [foldl].
  - revert H. apply latest_of_proper; [|done]. intros c. setoid_rewrite elem_of_nil. naive_solver.
  - generalize (IH _ _ (prefer_latest ns w name _ _ H)). apply latest_of_proper; [|done].
    intros c. setoid_rewrite elem_of_cons. naive_solver.
Qed.
(** An analysis is requested for the readable unresolved member that no other was
    seen after, and for no case exactly when there is no such member. *)
Theorem latest_case_spec inc w :
  match latest_case inc w with
  | Some pc => active_member inc w pc /\ forall pc', active_member inc w pc' -> seen_after pc' pc = false
  | None => forall pc, ~ active_member inc w pc
  end.
Proof.
  generalize (prefer_all (obj_namespace inc) w (ins_ProblemCases (spec inc)) (fun _ => False) None (fun _ H => H)).
  apply (latest_of_proper _ (active_member inc w)); [|done]. intros c. unfold active_member, readable. naive_solver.
Qed.
End latest.

Lemma delete_runs_atomic_witness :
  tables (DiagnosticRuns_Delete err_text "dr-1" up).2 = without_runs {["dr-1"]} (tables up).
Proof.
  destruct (delete_runs_atomic err_text up) as [H _].
  destruct (H "dr-1" _ _ (surjective_pairing _)) as [[_ E]|(code & msg & E & _)]; [exact E|discriminate E].
Defined.
