(* ===== verification/Discovery.v ===== *)
(** * Application discovery (diagnosticrun_reconciler.go)

    From the root resource of an incident, the services, workloads, autoscalers,
    endpoint slices and configuration that seem to belong to the same
    application.  The function reads lists of the root's namespace and walks
    selectors between services and workloads in a fixed number of passes; the
    order in which Go ranges over the map of lists is a parameter, and the theorems
    say what the passes find and what they miss. *)

From Stdlib Require Import Ascii.
From stdpp Require Import sorting.
From stdpp Require Import prelude gmap strings list.
From S2P Require Import Prelude GoBase Api Client Collector GraphEngine EvidenceKinds.

Record relatedResourceEntry := mkEntry {
  re_kind : string; re_namespace : string; re_name : string; re_apiGroup : string; re_origin : string;
}.
Abbreviation entries_map := (gmap string relatedResourceEntry) (only parsing).
Record workloadDiscoveryInfo := mkWorkload {
  wd_ref : ResourceRef; wd_templateLabels : gmap string string; wd_dependencies : list ResourceRef;
}.

(** [isControllerKind] *)
Definition isControllerKind (kind : string) : bool := str_in kind ["Deployment"; "StatefulSet"; "DaemonSet"; "Job"; "CronJob"].
(** [apiGroupFromAPIVersion] *)
Definition apiGroupFromAPIVersion (apiVersion : string) : string :=
  match cut_on "/"%char apiVersion with Some (group, _) => group | None => EmptyString end.

(** Sorting is by kind, then by name. *)
Definition ref_key (r : ResourceRef) : string * string := (cr_Kind r, cr_Name r).

(** ** templateDependencyRefs *)
Abbreviation dep_refs := (gmap string ResourceRef) (only parsing).
Definition add_dep (namespace kind : string) (name : option string) (seen : dep_refs) : dep_refs :=
  match name with
  | None => seen
  | Some n => if decide (n = EmptyString) then seen
              else <[kind +:+ "/" +:+ n := mkRef namespace kind n EmptyString]> seen
  end.
Definition volume_deps (ns : string) (seen : dep_refs) (v : Volume) : dep_refs :=
  add_dep ns "PersistentVolumeClaim" (vo_PersistentVolumeClaim v)
    (add_dep ns "Secret" (vo_Secret v) (add_dep ns "ConfigMap" (vo_ConfigMap v) seen)).
Definition env_from_deps (ns : string) (seen : dep_refs) (s : EnvFromSource) : dep_refs :=
  add_dep ns "Secret" (ef_SecretRef s) (add_dep ns "ConfigMap" (ef_ConfigMapRef s) seen).
Definition env_deps (ns : string) (seen : dep_refs) (e : option EnvVarSource) : dep_refs :=
  match e with
  | None => seen
  | Some s => add_dep ns "Secret" (es_SecretKeyRef s) (add_dep ns "ConfigMap" (es_ConfigMapKeyRef s) seen)
  end.
Definition container_deps (ns : string) (seen : dep_refs) (c : Container) : dep_refs :=
  foldl (env_deps ns) (foldl (env_from_deps ns) seen (ct_EnvFrom c)) (ct_Env c).
Definition templateDependencyRefs (ns : string) (s : PodSpec) : list ResourceRef :=
  let seen := foldl (container_deps ns) (foldl (volume_deps ns) ∅ (pos_Volumes s)) (pos_InitContainers s ++ pos_Containers s) in
  sort_slice (keys_less ref_key) (snd <$> map_to_list seen).

(** ** discoverApplicationResources *)
Section discovery.
Context {W : Type} `{!EvidenceReader W}.
Context (errText : goerr -> string).

(** The seven lists, by the labels of the error messages; a list that fails stays empty. *)
Record Lists := mkLists {
  li_deployments : list AppDeployment;
  li_statefulSets : list AppStatefulSet;
  li_daemonSets : list AppDaemonSet;
  li_services : list CoreService;
  li_ingresses : list Ingress;
  li_hpas : list HorizontalPodAutoscaler;
  li_endpointSlices : list CoreEndpointSlice;
}.
Definition items {A} (r : res (list A)) : list A := match r with Ok l => l | Err _ => [] end.
Definition error_of {A} (r : res A) : option goerr := match r with Ok _ => None | Err e => Some e end.
Definition list_all (ns : string) (w : W) : Lists :=
  mkLists (items (list_Deployments ns w)) (items (list_StatefulSets ns w)) (items (list_DaemonSets ns w))
    (items (list_Services ns w)) (items (list_Ingresses ns w)) (items (list_HPAs ns w)) (items (list_EndpointSlices ns w)).
Definition list_errors (ns : string) (w : W) : gmap string goerr :=
  let add (label : string) (e : option goerr) (m : gmap string goerr) := match e with Some e => <[label := e]> m | None => m end in
  add "deployments" (error_of (list_Deployments ns w)) (add "statefulsets" (error_of (list_StatefulSets ns w))
    (add "daemonsets" (error_of (list_DaemonSets ns w)) (add "services" (error_of (list_Services ns w))
    (add "ingresses" (error_of (list_Ingresses ns w)) (add "hpas" (error_of (list_HPAs ns w))
    (add "endpointslices" (error_of (list_EndpointSlices ns w)) ∅)))))).
(** The order in which the loop visits the failing lists. *)
Context (range : gmap string goerr -> list (string * goerr)).
Definition listErrors (ns : string) (w : W) : list string :=
  (fun le : string * goerr => "discover " +:+ le.1 +:+ " in " +:+ ns +:+ ": " +:+ errText le.2) <$> range (list_errors ns w).

Definition workload_of (ns kind name : string) (labels : gmap string string) (template : PodSpec) : workloadDiscoveryInfo :=
  mkWorkload (mkRef ns kind name "apps") labels (templateDependencyRefs ns template).
Definition workloads_of (ns : string) (l : Lists) : list workloadDiscoveryInfo :=
  sort_slice (keys_less (fun wl => ref_key (wd_ref wl)))
    (((fun o : AppDeployment => workload_of ns "Deployment" (obj_name o) (ad_TemplateLabels (spec o)) (ad_Template (spec o))) <$> li_deployments l) ++
     ((fun o : AppStatefulSet => workload_of ns "StatefulSet" (obj_name o) (as_TemplateLabels (spec o)) (as_Template (spec o))) <$> li_statefulSets l) ++
     ((fun o : AppDaemonSet => workload_of ns "DaemonSet" (obj_name o) (ds_TemplateLabels (spec o)) (ds_Template (spec o))) <$> li_daemonSets l)).

(** What is selected so far: service names, and workloads by lower-case kind and name. *)
Record Selection := mkSelection { sn_services : gset string; sn_workloads : gset string }.
Definition workload_key (kind name : string) : string := to_lower kind +:+ "/" +:+ name.
Definition wl_key (wl : workloadDiscoveryInfo) : string := workload_key (cr_Kind (wd_ref wl)) (cr_Name (wd_ref wl)).
Definition select_workload (k : string) (s : Selection) : Selection := mkSelection (sn_services s) ({[k]} ∪ sn_workloads s).
Definition select_service (n : string) (s : Selection) : Selection := mkSelection ({[n]} ∪ sn_services s) (sn_workloads s).

(** The services behind the paths of an Ingress. *)
Definition backend_names (i : Ingress) : list string :=
  mjoin (M:=list) ((fun rule => match ir_HTTP rule with
    | None => []
    | Some paths => omap (fun p => ib_Name <$> ip_Service p) paths
    end) <$> ig_Rules (spec i)).
Definition seeds (root : ResourceRef) (l : Lists) (workloads : list workloadDiscoveryInfo) : Selection :=
  let s := if isControllerKind (cr_Kind root) then select_workload (workload_key (cr_Kind root) (cr_Name root)) (mkSelection ∅ ∅)
           else mkSelection ∅ ∅ in
  let s := if decide (cr_Kind root = "Service") then select_service (cr_Name root) s else s in
  let s := if decide (cr_Kind root = "Ingress") then
             foldl (fun s i => if decide (obj_name i = cr_Name root) then foldl (flip select_service) s (backend_names i) else s)
               s (li_ingresses l)
           else s in
  let s := if decide (cr_Kind root = "HorizontalPodAutoscaler") then
             foldl (fun s (h : HorizontalPodAutoscaler) => if decide (obj_name h = cr_Name root)
               then select_workload (workload_key (st_Kind (hs_ScaleTargetRef (spec h))) (st_Name (hs_ScaleTargetRef (spec h)))) s
               else s) s (li_hpas l)
           else s in
  if str_in (cr_Kind root) ["ConfigMap"; "Secret"; "PersistentVolumeClaim"] then
    foldl (fun s wl => foldl (fun s dep => if decide (cr_Kind dep = cr_Kind root /\ cr_Name dep = cr_Name root)
      then select_workload (wl_key wl) s else s) s (wd_dependencies wl)) s workloads
  else s.

(** The selector of a service is compatible with the pods of a workload. *)
Definition linked (svc : CoreService) (wl : workloadDiscoveryInfo) : bool :=
  let '(score, matched, _) := SelectorInferenceScore (cs_Selector (spec svc)) (wd_templateLabels wl) in
  bool_decide (gp_PossibleThreshold DefaultPolicy <= score)%Z && negb (bool_decide (matched = ∅)).
Definition select_linked_workloads (svc : CoreService) (s : Selection) (wl : workloadDiscoveryInfo) : Selection :=
  if linked svc wl then select_workload (wl_key wl) s else s.
Definition select_if_linked (svc : CoreService) (s : Selection) (wl : workloadDiscoveryInfo) : Selection :=
  if bool_decide (wl_key wl ∈ sn_workloads s) && linked svc wl then select_service (obj_name svc) s else s.
Definition visit_service (workloads : list workloadDiscoveryInfo) (s : Selection) (svc : CoreService) : Selection :=
  let s := if decide (obj_name svc ∈ sn_services s) then foldl (select_linked_workloads svc) s workloads else s in
  foldl (select_if_linked svc) s workloads.
Definition pass (services : list CoreService) (workloads : list workloadDiscoveryInfo) (s : Selection) : Selection :=
  foldl (visit_service workloads) s services.
Definition select_all (services : list CoreService) (workloads : list workloadDiscoveryInfo) (s : Selection) : Selection :=
  Nat.iter 3 (pass services workloads) s.

(** [entries] *)
Definition add_entry (ns kind name apiGroup : string) (m : entries_map) : entries_map :=
  if decide (name = EmptyString) then m
  else <[workload_key kind name := mkEntry kind ns name apiGroup "automatic"]> m.
Definition dependency_exists (ns : string) (dep : ResourceRef) (w : W) : bool :=
  if decide (cr_Kind dep = "ConfigMap") then bool_decide (error_of (get_ConfigMap ns (cr_Name dep) w) = None)
  else if decide (cr_Kind dep = "Secret") then bool_decide (error_of (get_Secret ns (cr_Name dep) w) = None)
  else if decide (cr_Kind dep = "PersistentVolumeClaim") then bool_decide (error_of (get_Claim ns (cr_Name dep) w) = None)
  else false.
Definition add_dependency (ns : string) (w : W) (m : entries_map) (dep : ResourceRef) : entries_map :=
  if dependency_exists ns dep w then add_entry ns (cr_Kind dep) (cr_Name dep) EmptyString m else m.
Definition targets (wl : workloadDiscoveryInfo) (h : HorizontalPodAutoscaler) : bool :=
  bool_decide (st_Kind (hs_ScaleTargetRef (spec h)) = cr_Kind (wd_ref wl) /\
               st_Name (hs_ScaleTargetRef (spec h)) = cr_Name (wd_ref wl)).
Definition add_workload (ns : string) (l : Lists) (s : Selection) (w : W) (m : entries_map) (wl : workloadDiscoveryInfo) : entries_map :=
  if decide (wl_key wl ∈ sn_workloads s) then
    let m := add_entry ns (cr_Kind (wd_ref wl)) (cr_Name (wd_ref wl)) (cr_APIGroup (wd_ref wl)) m in
    let m := foldl (add_dependency ns w) m (wd_dependencies wl) in
    foldl (fun m h => if targets wl h then add_entry ns "HorizontalPodAutoscaler" (obj_name h) "autoscaling" m else m) m (li_hpas l)
  else m.
Definition collect_entries (ns : string) (l : Lists) (workloads : list workloadDiscoveryInfo) (s : Selection) (w : W) : entries_map :=
  let m := foldl (fun m svc => if decide (obj_name svc ∈ sn_services s) then add_entry ns "Service" (obj_name svc) EmptyString m else m)
             ∅ (li_services l) in
  let m := foldl (add_workload ns l s w) m workloads in
  foldl (fun m es => if decide (mget (obj_labels es) LabelServiceName ∈ sn_services s)
    then add_entry ns "EndpointSlice" (obj_name es) "discovery.k8s.io" m else m) m (li_endpointSlices l).

Definition entry_key (e : relatedResourceEntry) : string * string := (re_kind e, re_name e).
Definition max_entries : nat := Z.to_nat (gp_MaxNodes DefaultPolicy).
Definition discoverApplicationResources (root : ResourceRef) (w : W) : list relatedResourceEntry * list string :=
  let ns := cr_Namespace root in
  if decide (ns = EmptyString) then ([], []) else
  let l := list_all ns w in
  let workloads := workloads_of ns l in
  let s := select_all (li_services l) workloads (seeds root l workloads) in
  let out := sort_slice (keys_less entry_key) (snd <$> map_to_list (collect_entries ns l workloads s w)) in
  if decide (max_entries < length out)
  then (take max_entries out, listErrors ns w ++ ["application discovery truncated at " +:+ itoa (gp_MaxNodes DefaultPolicy) +:+ " resources"])
  else (out, listErrors ns w).
End discovery.

(** ** What the passes select *)
Inductive node := Svc (name : string) | Wl (key : string).
Definition chosen (x : node) (s : Selection) : Prop :=
  match x with Svc n => n ∈ sn_services s | Wl k => k ∈ sn_workloads s end.

Section selection.
Context (services : list CoreService) (workloads : list workloadDiscoveryInfo).
Implicit Types (s : Selection) (x y : node).

(** From a service to a workload its selector fits, or back. *)
Inductive hop : node -> node -> Prop :=
  | hop_to_service svc wl : svc ∈ services -> wl ∈ workloads -> linked svc wl = true ->
      hop (Wl (wl_key wl)) (Svc (obj_name svc))
  | hop_to_workload svc wl : svc ∈ services -> wl ∈ workloads -> linked svc wl = true ->
      hop (Svc (obj_name svc)) (Wl (wl_key wl)).
(** At most [n] hops from a seed. *)
Inductive within (s0 : Selection) : nat -> node -> Prop :=
  | within_seed n x : chosen x s0 -> within s0 n x
  | within_hop n x y : within s0 n x -> hop x y -> within s0 (S n) y.
Definition reachable (s0 : Selection) x : Prop := exists n, within s0 n x.

Lemma chosen_select_workload x k s : chosen x (select_workload k s) <-> x = Wl k \/ chosen x s.
Proof using Type. destruct x; simpl; set_solver. Qed.
Lemma chosen_select_service x n s : chosen x (select_service n s) <-> x = Svc n \/ chosen x s.
Proof using Type. destruct x; simpl; set_solver. Qed.

Lemma select_linked_keeps svc wl x s : chosen x s -> chosen x (select_linked_workloads svc s wl).
Proof using Type. unfold select_linked_workloads. case_match; [rewrite chosen_select_workload|]; auto. Qed.
Lemma select_if_linked_keeps svc wl x s : chosen x s -> chosen x (select_if_linked svc s wl).
Proof using Type. unfold select_if_linked. case_match; [rewrite chosen_select_service|]; auto. Qed.
Lemma visit_keeps svc x s : chosen x s -> chosen x (visit_service workloads s svc).
Proof using Type.
  intros Hx. unfold visit_service. apply (foldl_keeps _ (chosen x)); [intros; by apply select_if_linked_keeps|].
  case_decide; [|done]. apply (foldl_keeps _ (chosen x)); [intros; by apply select_linked_keeps|done].
Qed.
Lemma pass_keeps x s : chosen x s -> chosen x (pass services workloads s).
Proof using Type. intros Hx. apply (foldl_keeps _ (chosen x)); [intros; by apply visit_keeps|done]. Qed.

(** A pass makes every hop from what was selected before it. *)
Lemma pass_hops x y s : chosen x s -> hop x y -> chosen y (pass services workloads s).
Proof using Type.
  intros Hx Hh. unfold pass.
  assert (exists svc, svc ∈ services /\ forall s', chosen x s' -> chosen y (visit_service workloads s' svc)) as (svc & Hsvc & Hv).
  { destruct Hh as [svc wl Hs Hw Hl|svc wl Hs Hw Hl]; exists svc; (split; [done|]); intros s' Hx'; unfold visit_service.
    - apply (foldl_establishes _ (chosen (Wl (wl_key wl))) (chosen (Svc (obj_name svc))) _ _ wl); [done|..].
      + intros; by apply select_if_linked_keeps.
      + intros b Hb. unfold select_if_linked. rewrite Hl, bool_decide_true by done. cbn [andb]. rewrite chosen_select_service. by left.
      + intros; by apply select_if_linked_keeps.
      + case_decide; [|done]. apply (foldl_keeps _ (chosen (Wl (wl_key wl)))); [intros; by apply select_linked_keeps|done].
    - apply (foldl_keeps _ (chosen (Wl (wl_key wl)))); [intros; by apply select_if_linked_keeps|]. simpl in Hx'. rewrite decide_True by done.
      apply (foldl_establishes _ (fun _ => True) (chosen (Wl (wl_key wl))) _ _ wl); try done.
      + intros b _. unfold select_linked_workloads. rewrite Hl. rewrite chosen_select_workload. by left.
      + intros; by apply select_linked_keeps. }
  apply (foldl_establishes _ (chosen x) (chosen y) _ _ svc); auto; intros; by apply visit_keeps.
Qed.

(** And selects nothing else than what hops reach. *)
Lemma pass_only_hops s0 s :
  (forall x, chosen x s -> reachable s0 x) -> forall x, chosen x (pass services workloads s) -> reachable s0 x.
Proof using Type.
  assert (Hhop : forall x y, reachable s0 x -> hop x y -> reachable s0 y).
  { intros x y [n Hn] Hh. exists (S n). by eapply within_hop. }
  intros Hs. unfold pass. pose (I s := forall x, chosen x s -> reachable s0 x).
  apply (foldl_keeps _ I); [|exact Hs]. clear s Hs. intros s svc Hsvc Hs. unfold visit_service.
  apply (foldl_keeps _ I).
  - intros s' wl Hw Hs' x. unfold select_if_linked.
    destruct (bool_decide_reflect (wl_key wl ∈ sn_workloads s')) as [Hk|]; [|apply Hs'].
    destruct (linked svc wl) eqn:El; [|apply Hs']. cbn [andb]. rewrite chosen_select_service.
    intros [->|Hx]; [|by apply Hs']. apply (Hhop (Wl (wl_key wl))); [by apply Hs'|by constructor].
  - case_decide as Hn; [|exact Hs].
    apply (foldl_keeps _ (fun s' => obj_name svc ∈ sn_services s' /\ I s')).
    + intros s' wl Hw [Hn' Hs']. unfold select_linked_workloads. destruct (linked svc wl) eqn:El; [|done]. split; [done|].
      intros x. rewrite chosen_select_workload. intros [->|Hx]; [|by apply Hs'].
      apply (Hhop (Svc (obj_name svc))); [by apply Hs'|by constructor].
    + done.
Qed.

Lemma select_all_spec s0 x :
  (within s0 3 x -> chosen x (select_all services workloads s0)) /\
  (chosen x (select_all services workloads s0) -> reachable s0 x).
Proof using Type.
  unfold select_all. generalize 3 as k. intros k. revert x. induction k as [|k IH]; intros x; cbn [Nat.iter].
  - split; [by inversion 1|]. intros Hx. exists 0. by constructor.
  - split.
    + inversion 1 as [n z Hz|n z y Hz Hh]; subst.
      * apply pass_keeps, IH. by constructor.
      * eapply pass_hops; [by apply IH|done].
    + apply pass_only_hops. intros z. apply IH.
Qed.
End selection.

(** ** What the entries are *)
Definition api_of (kind : string) : string :=
  if str_in kind ["Deployment"; "StatefulSet"; "DaemonSet"] then "apps"
  else if decide (kind = "HorizontalPodAutoscaler") then "autoscaling"
  else if decide (kind = "EndpointSlice") then "discovery.k8s.io" else EmptyString.
Definition workload_kinds : list string := ["Deployment"; "StatefulSet"; "DaemonSet"].
Definition known_kinds : list string :=
  workload_kinds ++ ["Service"; "HorizontalPodAutoscaler"; "EndpointSlice"; "ConfigMap"; "Secret"; "PersistentVolumeClaim"].
Definition entry_of (ns kind name : string) : relatedResourceEntry := mkEntry kind ns name (api_of kind) "automatic".

(** Known kinds have no slash and differ when their case is ignored. *)
Lemma known_kinds_distinct kind kind' :
  kind ∈ known_kinds -> kind' ∈ known_kinds -> to_lower kind = to_lower kind' -> kind = kind'.
Proof.
  assert (forallb (fun a => forallb (fun b => implb (bool_decide (to_lower a = to_lower b)) (bool_decide (a = b))) known_kinds)
    known_kinds = true) as H by vm_refl.
  intros H1%list_elem_of_In H2%list_elem_of_In E. rewrite forallb_forall in H. specialize (H _ H1).
  rewrite forallb_forall in H. specialize (H _ H2). rewrite (bool_decide_true _ E) in H. by apply bool_decide_eq_true in H.
Qed.
Lemma known_kinds_no_slash kind : kind ∈ known_kinds -> no_byte "/"%char (to_lower kind).
Proof. intros H. repeat (apply elem_of_cons in H as [->|H]; [by vm_compute; repeat split|]). by apply elem_of_nil in H. Qed.
Lemma workload_key_inj kind name kind' name' :
  kind ∈ known_kinds -> kind' ∈ known_kinds -> workload_key kind name = workload_key kind' name' -> kind = kind' /\ name = name'.
Proof.
  intros Hk Hk' E. unfold workload_key in E. apply (f_equal (cut_on "/"%char)) in E.
  change ("/" +:+ name) with (String "/"%char name) in E. change ("/" +:+ name') with (String "/"%char name') in E.
  rewrite !cut_on_app in E by by apply known_kinds_no_slash. injection E as E ->. split; [|done]. by apply known_kinds_distinct.
Qed.

Section entries.
Context {W : Type} `{!EvidenceReader W} (ns : string) (l : Lists) (s : Selection) (w : W).
Implicit Types m : entries_map.

(** Every entry is a known kind's under its own key; services and workloads
    among them were selected. *)
Definition entry_ok (k : string) (e : relatedResourceEntry) : Prop :=
  k = workload_key (re_kind e) (re_name e) /\ re_kind e ∈ known_kinds /\ e = entry_of ns (re_kind e) (re_name e) /\
  (re_kind e = "Service" -> re_name e ∈ sn_services s) /\
  (re_kind e ∈ workload_kinds -> k ∈ sn_workloads s).
Definition entries_ok m : Prop := map_Forall entry_ok m.

Lemma add_entry_ok kind name m :
  kind ∈ known_kinds -> (kind = "Service" -> name ∈ sn_services s) ->
  (kind ∈ workload_kinds -> workload_key kind name ∈ sn_workloads s) ->
  entries_ok m -> entries_ok (add_entry ns kind name (api_of kind) m).
Proof using Type. intros Hk Hs Hw Hm. unfold add_entry. case_decide; [done|]. by apply map_Forall_insert_2. Qed.
Lemma add_entry_keeps kind name api m k : is_Some (m !! k) -> is_Some (add_entry ns kind name api m !! k).
Proof using Type. intros Hk. unfold add_entry. case_decide; [done|]. apply lookup_insert_is_Some'. by right. Qed.
Lemma add_entry_adds kind name api m : name <> EmptyString -> is_Some (add_entry ns kind name api m !! workload_key kind name).
Proof using Type. intros Hn. unfold add_entry. rewrite decide_False by done. rewrite lookup_insert_eq. by eexists. Qed.
(** Kinds with no condition on them. *)
Lemma add_other_ok kind name m :
  kind ∈ ["HorizontalPodAutoscaler"; "EndpointSlice"; "ConfigMap"; "Secret"; "PersistentVolumeClaim"] ->
  entries_ok m -> entries_ok (add_entry ns kind name (api_of kind) m).
Proof using Type.
  intros Hk. apply add_entry_ok; [set_solver|intros ->; by vm_compute in Hk; set_solver|].
  intros Hw. exfalso. revert Hk Hw. unfold workload_kinds. rewrite !elem_of_cons, !elem_of_nil. naive_solver.
Qed.

Lemma add_dependency_ok m dep : entries_ok m -> entries_ok (add_dependency ns w m dep).
Proof using Type.
  intros Hm. unfold add_dependency, dependency_exists.
  repeat case_decide; try done; case_match; try done;
    match goal with H : cr_Kind dep = ?k |- _ => rewrite H; change EmptyString with (api_of k) end;
    apply add_other_ok; set_solver.
Qed.
Context (workloads : list workloadDiscoveryInfo)
  (Hworkloads : forall wl, wl ∈ workloads -> cr_Kind (wd_ref wl) ∈ workload_kinds /\ cr_APIGroup (wd_ref wl) = "apps").
Lemma add_workload_ok m wl : wl ∈ workloads -> entries_ok m -> entries_ok (add_workload ns l s w m wl).
Proof using Hworkloads.
  intros Hwl Hm. destruct (Hworkloads wl Hwl) as [Hk Ha]. unfold add_workload. case_decide as Hsel; [|done].
  apply (foldl_keeps _ entries_ok).
  { intros m' h _ Hm'. case_match; [|done]. apply (add_other_ok "HorizontalPodAutoscaler"); [set_solver|done]. }
  apply (foldl_keeps _ entries_ok); [intros; by apply add_dependency_ok|].
  replace (cr_APIGroup (wd_ref wl)) with (api_of (cr_Kind (wd_ref wl))).
  - apply add_entry_ok; [unfold known_kinds; set_solver| |done..].
    intros E. exfalso. revert Hk. rewrite E. unfold workload_kinds. set_solver.
  - rewrite Ha. unfold api_of, str_in. by rewrite bool_decide_true.
Qed.
Lemma collect_entries_ok : entries_ok (collect_entries ns l workloads s w).
Proof using Hworkloads.
  unfold collect_entries. apply (foldl_keeps _ entries_ok).
  { intros m es _ Hm. case_decide; [|done]. apply (add_other_ok "EndpointSlice"); [set_solver|done]. }
  apply (foldl_keeps _ entries_ok); [intros; by apply add_workload_ok|].
  apply (foldl_keeps _ entries_ok); [|apply map_Forall_empty].
  intros m svc _ Hm. case_decide; [|done]. apply (add_entry_ok "Service"); [unfold known_kinds; set_solver|done| |done].
  unfold workload_kinds. set_solver.
Qed.

(** Everything selected gets an entry. *)
Lemma add_workload_keeps m wl k : is_Some (m !! k) -> is_Some (add_workload ns l s w m wl !! k).
Proof using Type.
  intros Hk. unfold add_workload. case_decide; [|done].
  apply (foldl_keeps _ (fun m => is_Some (m !! k))); [intros; case_match; auto using add_entry_keeps|].
  apply (foldl_keeps _ (fun m => is_Some (m !! k))); [|by apply add_entry_keeps].
  intros. unfold add_dependency. case_match; auto using add_entry_keeps.
Qed.
Lemma collect_entries_has_service svc :
  svc ∈ li_services l -> obj_name svc ∈ sn_services s -> obj_name svc <> EmptyString ->
  is_Some (collect_entries ns l workloads s w !! workload_key "Service" (obj_name svc)).
Proof using Type.
  intros Hsvc Hsel Hn. unfold collect_entries. set (k := workload_key _ _).
  apply (foldl_keeps _ (fun m => is_Some (m !! k))); [intros; case_decide; auto using add_entry_keeps|].
  apply (foldl_keeps _ (fun m => is_Some (m !! k))); [intros; by apply add_workload_keeps|].
  apply (foldl_establishes _ (fun _ => True) (fun m => is_Some (m !! k)) _ _ svc); try done.
  - intros m _. rewrite decide_True by done. by apply add_entry_adds.
  - intros. case_decide; auto using add_entry_keeps.
Qed.
Lemma collect_entries_has_workload wl :
  wl ∈ workloads -> wl_key wl ∈ sn_workloads s -> cr_Name (wd_ref wl) <> EmptyString ->
  is_Some (collect_entries ns l workloads s w !! wl_key wl).
Proof using Type.
  intros Hwl Hsel Hn. unfold collect_entries.
  apply (foldl_keeps _ (fun m => is_Some (m !! wl_key wl))); [intros; case_decide; auto using add_entry_keeps|].
  apply (foldl_establishes _ (fun _ => True) (fun m => is_Some (m !! wl_key wl)) _ _ wl); try done.
  - intros m _. unfold add_workload. rewrite decide_True by done.
    apply (foldl_keeps _ (fun m => is_Some (m !! wl_key wl))); [intros; case_match; auto using add_entry_keeps|].
    apply (foldl_keeps _ (fun m => is_Some (m !! wl_key wl))); [|by apply add_entry_adds].
    intros. unfold add_dependency. case_match; auto using add_entry_keeps.
  - intros. by apply add_workload_keeps.
Qed.
End entries.

(** ** What a discovery returns *)
Lemma workloads_of_kinds ns l wl :
  wl ∈ workloads_of ns l -> cr_Kind (wd_ref wl) ∈ workload_kinds /\ cr_APIGroup (wd_ref wl) = "apps".
Proof.
  unfold workloads_of, workload_kinds. rewrite elem_of_sort_slice, !elem_of_app, !list_elem_of_fmap.
  intros [(o & -> & _)|[(o & -> & _)|(o & -> & _)]]; simpl; split; set_solver.
Qed.
(** The entries of a map, whatever the order they are ranged over in, sort to one list. *)
Lemma sorted_entries ns s m :
  entries_ok ns s m ->
  let l := sort_slice (keys_less entry_key) (snd <$> map_to_list m) in
  StronglySorted (keys_le entry_key) l /\ NoDup (entry_key <$> l) /\
  (forall e, e ∈ l -> entry_ok ns s (workload_key (re_kind e) (re_name e)) e) /\
  (forall k, is_Some (m !! k) -> exists e, e ∈ l /\ k = workload_key (re_kind e) (re_name e)) /\
  (forall l', l' ≡ₚ snd <$> map_to_list m -> sort_slice (keys_less entry_key) l' = l).
Proof.
  intros Hm l. assert (Hin : forall k e, m !! k = Some e -> k = workload_key (re_kind e) (re_name e)) by (intros k e H; by apply Hm in H as [-> _]).
  assert (NoDup (entry_key <$> (snd <$> map_to_list m))) as Hnd.
  { apply (NoDup_fmap_1 (fun kn => workload_key kn.1 kn.2)). rewrite <- !list_fmap_compose.
    replace (_ <$> map_to_list m) with (fst <$> map_to_list m); [apply NoDup_fst_map_to_list|].
    apply list_fmap_ext. intros i [k e] Hi. apply list_elem_of_lookup_2, elem_of_map_to_list, Hin in Hi. done. }
  subst l. split_and!.
  - apply sort_keys_sorted.
  - by rewrite (fmap_Permutation _ _ _ (sort_slice_perm _ _)).
  - intros e. rewrite elem_of_sort_slice, list_elem_of_fmap. intros ([k e'] & -> & H%elem_of_map_to_list). simpl.
    rewrite <- (Hin _ _ H). by apply Hm.
  - intros k [e He]. exists e. rewrite elem_of_sort_slice, list_elem_of_fmap. split; [|by apply Hin].
    exists (k, e). split; [done|]. by apply elem_of_map_to_list.
  - intros l' Hp. apply sort_keys_unique; [done|]. by rewrite (fmap_Permutation _ _ _ Hp).
Qed.

Section discovered.
Context {W : Type} `{!EvidenceReader W} (errText : goerr -> string) (range : gmap string goerr -> list (string * goerr)).
Context (root : ResourceRef) (w : W).
Let ns := cr_Namespace root.
Let l := list_all ns w.
Let workloads := workloads_of ns l.
Definition discovery_seeds : Selection := seeds root (list_all (cr_Namespace root) w) (workloads_of (cr_Namespace root) (list_all (cr_Namespace root) w)).
Definition near (n : nat) (x : node) : Prop := within (li_services l) workloads discovery_seeds n x.
Definition in_reach (x : node) : Prop := exists n, near n x.
Definition the_selection : Selection := select_all (li_services l) workloads discovery_seeds.
Definition all_entries : list relatedResourceEntry :=
  sort_slice (keys_less entry_key) (snd <$> map_to_list (collect_entries ns l workloads the_selection w)).

Lemma all_entries_ok : entries_ok ns the_selection (collect_entries ns l workloads the_selection w).
Proof using Type. apply collect_entries_ok. apply workloads_of_kinds. Qed.
Lemma the_selection_spec x : (near 3 x -> chosen x the_selection) /\ (chosen x the_selection -> in_reach x).
Proof using Type. apply select_all_spec. Qed.
(** The entry of a selected known resource is there under its exact name. *)
Lemma all_entries_has kind name :
  kind ∈ known_kinds -> is_Some (collect_entries ns l workloads the_selection w !! workload_key kind name) ->
  entry_of ns kind name ∈ all_entries.
Proof using Type.
  intros Hk Hm. destruct (sorted_entries _ _ _ all_entries_ok) as (_ & _ & Hok & Hall & _).
  destruct (Hall _ Hm) as (e & He & E). pose proof (Hok e He) as (_ & Hk' & Heq & _).
  apply workload_key_inj in E as [-> ->]; [|done..]. by rewrite <- Heq.
Qed.

End discovered.

(** ** Two services in a row *)
Definition plain_meta (ns name : string) (labels : gmap string string) : ObjectMeta := new_meta name EmptyString ns labels.
Definition no_pods : PodSpec := mkPodSpec [] [] [].
Definition a_deployment (name : string) (labels : gmap string string) : AppDeployment :=
  mkObject (plain_meta "shop" name ∅) (mkAppDeploymentSpec None (Some labels) labels no_pods) (mkAppDeploymentStatus 0 0 []).
Definition a_service (name : string) (selector : gmap string string) : CoreService :=
  mkObject (plain_meta "shop" name ∅) (mkCoreServiceSpec "ClusterIP" selector [] EmptyString) tt.
(** The services [near] and [far] share the workload [middle]; [root] is behind
    the first and [end] behind the second. *)
Definition near_service : CoreService := a_service "near" {[ "tier" := "1" ]}.
Definition far_service : CoreService := a_service "far" {[ "ring" := "2" ]}.
Definition chain (services : list CoreService) : Snapshot :=
  mkSnapshot [a_deployment "root" {[ "tier" := "1" ]}; a_deployment "middle" {[ "tier" := "1"; "ring" := "2" ]};
              a_deployment "end" {[ "ring" := "2" ]}] [] [] services [] [] [] [] [] [] [] [] ∅.
Definition chain_root : ResourceRef := mkRef "shop" "Deployment" "root" "apps".
Definition chain_names (services : list CoreService) : list string :=
  re_name <$> (discoverApplicationResources (fun _ => "error") map_to_list chain_root (chain services)).1.

Ltac listed := first [by left | by right; left | by right; right; left].
(** The hops of the chain, both ways. *)
Lemma chain_hops services svc o :
  svc ∈ li_services (list_all "shop" (chain services)) -> o ∈ li_deployments (list_all "shop" (chain services)) ->
  let wl := workload_of "shop" "Deployment" (obj_name o) (ad_TemplateLabels (spec o)) (ad_Template (spec o)) in
  linked svc wl = true ->
  let hops := hop (li_services (list_all "shop" (chain services))) (workloads_of "shop" (list_all "shop" (chain services))) in
  hops (Wl (workload_key "Deployment" (obj_name o))) (Svc (obj_name svc)) /\
  hops (Svc (obj_name svc)) (Wl (workload_key "Deployment" (obj_name o))).
Proof.
  intros Hs Ho wl Hl hops.
  assert (wl ∈ workloads_of "shop" (list_all "shop" (chain services))) as Hw.
  { unfold workloads_of. rewrite elem_of_sort_slice, elem_of_app, list_elem_of_fmap. left. by exists o. }
  split; [by apply (hop_to_service _ _ svc wl)|by apply (hop_to_workload _ _ svc wl)].
Qed.

(** The loop that resolves selectors to a fixed point stops after three
    passes: two services in a row leave the workload behind the second one out or
    not, depending on the order in which the API lists the services, although
    the workload is within reach in both. *)
Theorem discovery_stops_before_fixed_point :
  chain_names [near_service; far_service] = ["end"; "middle"; "root"; "far"; "near"] /\
  chain_names [far_service; near_service] = ["middle"; "root"; "far"; "near"] /\
  near chain_root (chain [far_service; near_service]) 4 (Wl "deployment/end").
Proof.
  split_and!; [vm_refl|vm_refl|].
  pose proof (chain_hops [far_service; near_service]) as H. unfold near.
  apply (within_hop _ _ _ 3 (Svc "far")); [|apply (H far_service (a_deployment "end" {[ "ring" := "2" ]})); [listed..|vm_refl]].
  apply (within_hop _ _ _ 2 (Wl "deployment/middle")).
  2: apply (H far_service (a_deployment "middle" {[ "tier" := "1"; "ring" := "2" ]})); [listed..|vm_refl].
  apply (within_hop _ _ _ 1 (Svc "near")).
  2: apply (H near_service (a_deployment "middle" {[ "tier" := "1"; "ring" := "2" ]})); [listed..|vm_refl].
  apply (within_hop _ _ _ 0 (Wl "deployment/root")).
  2: apply (H near_service (a_deployment "root" {[ "tier" := "1" ]})); [listed..|vm_refl].
  constructor. by vm_compute.
Qed.

