(* ===== verification/EvidenceCollection.v ===== *)
(** * Collecting evidence (diagnosticrun_reconciler.go)

    What is read about each resource of an incident and put into the evidence:
    events, the diagnostic fields of a resource by kind, logs, the pods of the
    root workload with their configuration and claims.  A nil pointer that the
    code dereferences is the outcome [None] of [collectResourceSpec].  The order in
    which Go ranges over a map of names is a parameter. *)

From Stdlib Require Import Ascii.
From stdpp Require Import sorting.
From stdpp Require Import prelude gmap strings list.
From S2P Require Import Prelude GoBase Api Client Collector GraphEngine EvidenceKinds Discovery.

Definition newline : ascii := "010"%char.
(** [appendUnique] *)
Definition appendUnique (slice : list string) (s : string) : list string := if str_in s slice then slice else slice ++ [s].
(** [podBelongsToWorkload] *)
Definition podBelongsToWorkload (pod : CorePod) (workloadName : string) : bool :=
  existsb (fun ref => bool_decide (or_Name ref = workloadName)) (om_OwnerReferences (meta pod)) ||
  existsb (fun label => bool_decide (mget (obj_labels pod) label = workloadName))
    ["app"; "app.kubernetes.io/name"; "app.kubernetes.io/instance"].
(** [summariseDeploymentConditions] *)
Definition summariseDeploymentConditions (conds : list WorkloadCondition) : list (gmap string any) :=
  (fun c => {[ "type" := AStr (wc_Type c); "status" := AStr (wc_Status c); "reason" := AStr (wc_Reason c);
               "message" := AStr (wc_Message c) ]}) <$> conds.
(** A value cut after [n] bytes. *)
Definition truncate_value (n : nat) (suffix v : string) : string :=
  if decide (n < slen v) then stake n v +:+ suffix else v.
(** A pointer as a dynamic value. *)
Definition ptr_any {A} (p : option (Pointer A)) : any := APtr (match p with Some p => ptr_text p | None => "<nil>" end).

Abbreviation fields := (gmap string any) (only parsing).

Section collection.
Context {W : Type} `{!EvidenceReader W}.
Context (errText : goerr -> string) (LogTailLines PrevLogLines : Z).
(** The order in which a loop, named by its label, visits a set of names. *)
Context (shuffle : string -> list string -> list string).

(** ** collectEvents *)
Definition to_event (e : CoreEvent) : K8sEvent :=
  mkK8sEvent (co_Type e) (co_Reason e) (co_Message e) (co_Count e) (co_FirstTimestamp e) (co_LastTimestamp e).
Definition collectEvents (ns kind name : string) (w : W) : res (list K8sEvent) :=
  match list_Events ns w with
  | Err e => Err e
  | Ok l => Ok (to_event <$> filter (fun e => co_InvolvedKind e = kind /\ co_InvolvedName e = name) l)
  end.
Definition events_or_nil (r : res (list K8sEvent)) : list K8sEvent := match r with Ok l => l | Err _ => [] end.

(** ** Logs *)
Definition tail_is_full (logs : string) : bool := bool_decide (LogTailLines <= Z.of_nat (length (split_on newline logs)))%Z.
Definition res_bind {A B} (r : res A) (f : A -> res B) : res B := match r with Ok a => f a | Err e => Err e end.
Definition collectPodLogs (ns podName : string) (w : W) : res (string * bool) :=
  res_bind (rest_config w) (fun _ => res_bind (core_clientset w) (fun _ =>
    match pod_logs ns podName false LogTailLines w with
    | Ok logs => Ok (logs, tail_is_full logs)
    | Err _ => res_bind (pod_logs ns podName true PrevLogLines w) (fun logs => Ok (logs, false))
    end)).

(** ** collectResourceSpec, one definition per kind *)
Definition templateDependencyFields (ns : string) (s : PodSpec) (w : W) : list fields :=
  (fun ref => {[ "kind" := AStr (cr_Kind ref); "name" := AStr (cr_Name ref);
                 "exists" := ABool (dependency_exists ns ref w); "fieldPath" := AStr "/spec/template/spec" ]})
  <$> templateDependencyRefs ns s.
Definition annotations {S T} (o : Object S T) : any := AStrMap (om_Annotations (meta o)).
Definition labels_of {S T} (o : Object S T) : any := AStrMap (obj_labels o).

Definition ingress_path (p : HTTPIngressPath) : option fields :=
  b ← ip_Service p;   (* [p.Backend.Service.Name] on a nil [Service] panics *)
  Some {[ "path" := AStr (ip_Path p); "pathType" := AStr (default EmptyString (ip_PathType p));
          "backendService" := AStr (ib_Name b); "backendPort" := AInt32 (ib_Port b) ]}.
Definition ingress_rule (r : IngressRule) : option fields :=
  paths ← mapM ingress_path (default [] (ir_HTTP r));
  Some {[ "host" := AStr (ir_Host r); "paths" := AMapSlice paths ]}.
Definition ingress_spec (o : Ingress) : option fields :=
  rules ← mapM ingress_rule (ig_Rules (spec o));
  Some {[ "ingressClassName" := match ig_ClassName (spec o) with Some p => APtr (ptr_text p) | None => ANil end;
          "rules" := AMapSlice rules; "annotations" := annotations o; "labels" := labels_of o ]}.
Definition service_spec (o : CoreService) : fields :=
  let ports := (fun p => {[ "name" := AStr (sp_Name p); "port" := AInt32 (sp_Port p); "targetPort" := AStr (sp_TargetPort p);
                            "protocol" := AStr (sp_Protocol p) ]}) <$> cs_Ports (spec o) in
  {[ "type" := AStr (cs_Type (spec o)); "selector" := AStrMap (cs_Selector (spec o)); "ports" := AMapSlice ports;
     "clusterIP" := AStr (cs_ClusterIP (spec o)); "annotations" := annotations o; "labels" := labels_of o ]}.
Definition config_map_spec (o : ConfigMap) : fields :=
  {[ "data" := AStrMap (truncate_value 512 "…[truncated]" <$> cd_Data (spec o)); "annotations" := annotations o; "labels" := labels_of o ]}.
Definition secret_spec (o : Secret) : fields :=
  {[ "exists" := ABool true; "type" := AStr (sd_Type (spec o)); "labels" := labels_of o; "annotations" := annotations o ]}.
Definition deployment_spec (ns : string) (o : AppDeployment) (w : W) : option fields :=
  selector ← ad_Selector (spec o);   (* [obj.Spec.Selector.MatchLabels] on a nil [Selector] panics *)
  Some {[ "replicas" := ptr_any (ad_Replicas (spec o)); "selector" := AStrMap selector; "labels" := labels_of o;
          "templateLabels" := AStrMap (ad_TemplateLabels (spec o));
          "dependencies" := AMapSlice (templateDependencyFields ns (ad_Template (spec o)) w);
          "availableReplicas" := AInt32 (ads_AvailableReplicas (status o)); "readyReplicas" := AInt32 (ads_ReadyReplicas (status o));
          "conditions" := AMapSlice (summariseDeploymentConditions (ads_Conditions (status o))) ]}.
Definition stateful_set_spec (ns : string) (o : AppStatefulSet) (w : W) : fields :=
  {[ "replicas" := ptr_any (as_Replicas (spec o)); "labels" := labels_of o; "templateLabels" := AStrMap (as_TemplateLabels (spec o));
     "dependencies" := AMapSlice (templateDependencyFields ns (as_Template (spec o)) w);
     "readyReplicas" := AInt32 (ass_ReadyReplicas (status o)); "currentReplicas" := AInt32 (ass_CurrentReplicas (status o)) ]}.
Definition daemon_set_spec (ns : string) (o : AppDaemonSet) (w : W) : fields :=
  {[ "desiredNumberScheduled" := AInt32 (dss_DesiredNumberScheduled (status o)); "labels" := labels_of o;
     "templateLabels" := AStrMap (ds_TemplateLabels (spec o));
     "dependencies" := AMapSlice (templateDependencyFields ns (ds_Template (spec o)) w);
     "numberReady" := AInt32 (dss_NumberReady (status o)); "numberUnavailable" := AInt32 (dss_NumberUnavailable (status o)) ]}.
Definition cron_job_spec (o : CronJob) : fields :=
  {[ "schedule" := AStr (cj_Schedule (spec o)); "suspend" := ptr_any (cj_Suspend (spec o));
     "activeJobs" := AInt (cjs_Active (status o)); "lastScheduleTime" := ptr_any (cjs_LastScheduleTime (status o));
     "lastSuccessfulTime" := ptr_any (cjs_LastSuccessfulTime (status o)); "annotations" := annotations o ]}.
Definition job_spec (o : Job) : fields :=
  {[ "completions" := ptr_any (jb_Completions (spec o)); "succeeded" := AInt32 (jbs_Succeeded (status o));
     "failed" := AInt32 (jbs_Failed (status o)); "active" := AInt32 (jbs_Active (status o));
     "startTime" := ptr_any (jbs_StartTime (status o)); "completionTime" := ptr_any (jbs_CompletionTime (status o)) ]}.
Definition claim_spec (o : PersistentVolumeClaim) (w : W) : fields :=
  let class := default EmptyString (pc_StorageClassName (spec o)) in
  let classExists := if decide (class = EmptyString) then true else bool_decide (error_of (get_StorageClass class w) = None) in
  {[ "phase" := AStr (pcs_Phase (status o)); "capacity" := AStr (default EmptyString (pcs_Capacity (status o)));
     "accessModes" := AStrSlice (pc_AccessModes (spec o)); "storageClass" := AStr class;
     "storageClassExists" := ABool classExists; "labels" := labels_of o ]}.
Definition autoscaler_spec (o : HorizontalPodAutoscaler) : fields :=
  let t := hs_ScaleTargetRef (spec o) in
  {[ "labels" := labels_of o;
     "scaleTargetRef" := AMap {[ "apiVersion" := AStr (st_APIVersion t); "kind" := AStr (st_Kind t); "name" := AStr (st_Name t) ]};
     "minReplicas" := ptr_any (hs_MinReplicas (spec o)); "maxReplicas" := AInt32 (hs_MaxReplicas (spec o));
     "currentReplicas" := AInt32 (hss_CurrentReplicas (status o)); "desiredReplicas" := AInt32 (hss_DesiredReplicas (status o)) ]}.
Definition is_ready (e : CoreEndpoint) : bool := match ce_Ready e with Some b => b | None => false end.
Definition count_addresses (l : list CoreEndpoint) : Z := foldl (fun n e => n + Z.of_nat (length (ce_Addresses e)))%Z 0%Z l.
Definition slice_spec (o : CoreEndpointSlice) : fields :=
  {[ "labels" := labels_of o; "serviceName" := AStr (mget (obj_labels o) LabelServiceName);
     "addressType" := AStr (sl_AddressType (spec o));
     "readyEndpoints" := AInt (count_addresses (filter (fun e => is_ready e = true) (sl_Endpoints (spec o))));
     "notReadyEndpoints" := AInt (count_addresses (filter (fun e => is_ready e = false) (sl_Endpoints (spec o)))) ]}.

(** [collectDynamicSpec] *)
Definition find_resource (kind apiGroup : string) (list_ : APIResourceList) : option GroupVersionResource :=
  match parse_group_version (W := W) (al_GroupVersion list_) with
  | Err _ => None
  | Ok (group, version) =>
      if decide (group <> apiGroup) then None
      else match filter (fun r => equal_fold (ar_Kind r) kind = true) (al_Resources list_) with
           | r :: _ => Some (mkGVR group version (ar_Name r))
           | [] => None
           end
  end.
Definition keep_field (k : string) (object out : fields) : fields :=
  match object !! k with Some v => <[k := v]> out | None => out end.
Definition collectDynamicSpec (ns kind name apiGroup : string) (w : W) : res (option fields) :=
  match rest_config w with
  | Err e => Err (ErrWrap "get rest config" e)
  | Ok _ =>
      match discovery_client w with
      | Err e => Err (ErrWrap "discovery client" e)
      | Ok _ =>
          match omap (find_resource kind apiGroup) (preferred_resources w) with
          | [] => Err (ErrOther ("kind " +:+ go_quote kind +:+ " apiGroup " +:+ go_quote apiGroup +:+ " not found in cluster"))
          | gvr :: _ =>
              match dynamic_client w with
              | Err e => Err (ErrWrap "dynamic client" e)
              | Ok _ =>
                  res_bind (dynamic_get gvr ns name w) (fun object =>
                    let out := keep_field "status" object (keep_field "spec" object ∅) in
                    Ok (if decide (out = ∅) then None else Some out))
              end
          end
      end
  end.

(** [collectResourceSpec]: [None] is a panic, [Ok None] no fields. *)
Definition total {A} (f : A -> fields) (r : res A) : option (res (option fields)) := Some (res_bind r (fun o => Ok (Some (f o)))).
Definition partial {A} (f : A -> option fields) (r : res A) : option (res (option fields)) :=
  match r with Err e => Some (Err e) | Ok o => s ← f o; Some (Ok (Some s)) end.
Definition collectResourceSpec (ns kind name apiGroup : string) (w : W) : option (res (option fields)) :=
  if decide (kind = "Ingress") then partial ingress_spec (get_Ingress ns name w)
  else if decide (kind = "Service") then total service_spec (get_Service ns name w)
  else if decide (kind = "ConfigMap") then total config_map_spec (get_ConfigMap ns name w)
  else if decide (kind = "Secret") then total secret_spec (get_Secret ns name w)
  else if decide (kind = "Deployment") then partial (fun o => deployment_spec ns o w) (get_Deployment ns name w)
  else if decide (kind = "StatefulSet") then total (fun o => stateful_set_spec ns o w) (get_StatefulSet ns name w)
  else if decide (kind = "DaemonSet") then total (fun o => daemon_set_spec ns o w) (get_DaemonSet ns name w)
  else if decide (kind = "CronJob") then total cron_job_spec (get_CronJob ns name w)
  else if decide (kind = "Job") then total job_spec (get_Job ns name w)
  else if decide (kind = "PersistentVolumeClaim") then total (fun o => claim_spec o w) (get_Claim ns name w)
  else if decide (kind = "HorizontalPodAutoscaler") then total autoscaler_spec (get_HPA ns name w)
  else if decide (kind = "EndpointSlice") then total slice_spec (get_EndpointSlice ns name w)
  else if decide (apiGroup <> EmptyString) then Some (collectDynamicSpec ns kind name apiGroup w)
  else Some (Ok None).

(** ** collectPodDependencies *)
Record DependencyNames := mkDependencyNames {
  dn_cmNames : gset string; dn_secretNames : gset string;
  dn_volCMName : gmap string string;             (** volume name to ConfigMap name *)
  dn_cmMountPaths : gmap string (list string);   (** ConfigMap name to mount paths *)
}.
Definition add_cm (name : option string) (d : DependencyNames) : DependencyNames :=
  match name with Some n => mkDependencyNames ({[n]} ∪ dn_cmNames d) (dn_secretNames d) (dn_volCMName d) (dn_cmMountPaths d) | None => d end.
Definition add_secret (name : option string) (d : DependencyNames) : DependencyNames :=
  match name with Some n => mkDependencyNames (dn_cmNames d) ({[n]} ∪ dn_secretNames d) (dn_volCMName d) (dn_cmMountPaths d) | None => d end.
Definition volume_holds (vol : string) (name : option string) (d : DependencyNames) : DependencyNames :=
  match name with
  | Some n => mkDependencyNames (dn_cmNames d) (dn_secretNames d) (<[vol := n]> (dn_volCMName d)) (dn_cmMountPaths d)
  | None => d
  end.
Definition walk_projected (vol : string) (d : DependencyNames) (s : ProjectedSource) : DependencyNames :=
  add_secret (ps_Secret s) (volume_holds vol (ps_ConfigMap s) (add_cm (ps_ConfigMap s) d)).
Definition walk_volume (d : DependencyNames) (v : Volume) : DependencyNames :=
  let d := volume_holds (vo_Name v) (vo_ConfigMap v) (add_cm (vo_ConfigMap v) d) in
  let d := add_secret (vo_Secret v) d in
  foldl (walk_projected (vo_Name v)) d (default [] (vo_Projected v)).
Definition walk_mount (d : DependencyNames) (vm : VolumeMount) : DependencyNames :=
  match dn_volCMName d !! vm_Name vm with
  | None => d
  | Some cm => mkDependencyNames (dn_cmNames d) (dn_secretNames d) (dn_volCMName d)
      (<[cm := appendUnique (default [] (dn_cmMountPaths d !! cm)) (vm_MountPath vm)]> (dn_cmMountPaths d))
  end.
Definition walk_env (d : DependencyNames) (e : option EnvVarSource) : DependencyNames :=
  match e with None => d | Some s => add_secret (es_SecretKeyRef s) (add_cm (es_ConfigMapKeyRef s) d) end.
Definition walk_container (d : DependencyNames) (c : Container) : DependencyNames :=
  let d := foldl (fun d ef => add_secret (ef_SecretRef ef) (add_cm (ef_ConfigMapRef ef) d)) d (ct_EnvFrom c) in
  foldl walk_mount (foldl walk_env d (ct_Env c)) (ct_VolumeMounts c).
Definition dependency_names (s : PodSpec) : DependencyNames :=
  foldl walk_container (foldl walk_volume (mkDependencyNames ∅ ∅ ∅ ∅) (pos_Volumes s)) (pos_InitContainers s ++ pos_Containers s).

Definition maxValueBytes : nat := 1024.
Definition is_missing {A} (r : res A) : bool := match r with Err e => IsNotFound e | Ok _ => false end.
Definition config_map_ref (ns : string) (d : DependencyNames) (w : W) (name : string) : ConfigMapRef :=
  let r := get_ConfigMap ns name w in
  let data := match r with Ok cm => cd_Data (spec cm) | Err _ => ∅ end in
  mkConfigMapRef name (is_missing r) (shuffle ("data of " +:+ name) (fst <$> map_to_list data))
    (truncate_value maxValueBytes "...[truncated]" <$> data) (default [] (dn_cmMountPaths d !! name)).
Definition secret_ref (ns : string) (w : W) (name : string) : SecretRef := mkSecretRef name (is_missing (get_Secret ns name w)).
Definition collectPodDependencies (ns : string) (pod : CorePod) (w : W) : option PodDependencies :=
  let d := dependency_names (spec pod) in
  if decide (dn_cmNames d = ∅ /\ dn_secretNames d = ∅) then None
  else Some (mkPodDependencies (config_map_ref ns d w <$> shuffle "config maps" (elements (dn_cmNames d)))
               (secret_ref ns w <$> shuffle "secrets" (elements (dn_secretNames d)))).

(** ** collectWorkloadPodLogs *)
Definition discovery_selectors (root : ResourceRef) (w : W) : list (gmap string string) :=
  let ns := cr_Namespace root in
  let selector_of (name : string) : list (gmap string string) :=
    match get_Service ns name w with Ok svc => [cs_Selector (spec svc)] | Err _ => [] end in
  (if decide (cr_Kind root = "Service") then selector_of (cr_Name root) else []) ++
  (if decide (cr_Kind root = "Ingress") then
     match get_Ingress ns (cr_Name root) w with Ok i => mjoin (M:=list) (selector_of <$> backend_names i) | Err _ => [] end
   else []).
Definition selector_fits (labels : gmap string string) (selector : gmap string string) : bool :=
  let '(score, matched, _) := SelectorInferenceScore selector labels in
  bool_decide (gp_PossibleThreshold DefaultPolicy <= score)%Z && negb (bool_decide (matched = ∅)).
Definition belongs (root : ResourceRef) (w : W) (pod : CorePod) : bool :=
  podBelongsToWorkload pod (cr_Name root) || existsb (selector_fits (obj_labels pod)) (discovery_selectors root w).

Definition pod_logs_entry (ns : string) (pod : CorePod) (pvcNames : list string) (w : W) : PodLogs :=
  let owners := (fun o => mkRef ns (or_Kind o) (or_Name o) (apiGroupFromAPIVersion (or_APIVersion o))) <$> om_OwnerReferences (meta pod) in
  let raw := pod_logs ns (obj_name pod) false LogTailLines w in
  let '(logs, truncated, err) :=
    match raw with Ok s => (s, tail_is_full s, EmptyString) | Err e => (EmptyString, false, errText e) end in
  mkPodLogs (obj_name pod) (pot_Phase (status pod)) (obj_labels pod) pvcNames logs truncated err
    (events_or_nil (collectEvents ns "Pod" (obj_name pod) w)) (collectPodDependencies ns pod w) owners.
Definition pvc_info (ns claimName : string) (w : W) : option PVCInfo :=
  match get_Claim ns claimName w with
  | Err _ => None
  | Ok pvc => Some (mkPVCInfo claimName (pcs_Phase (status pvc)) (default EmptyString (pc_StorageClassName (spec pvc)))
      (default EmptyString (pc_RequestedStorage (spec pvc))) (events_or_nil (collectEvents ns "PersistentVolumeClaim" claimName w)))
  end.
(** The claims of one pod: its names, the claims seen so far, the claims reported. *)
Definition walk_claim (ns : string) (w : W) (st : list string * gset string * list PVCInfo) (claimName : string)
    : list string * gset string * list PVCInfo :=
  let '(names, seen, out) := st in
  let names := appendUnique names claimName in
  if decide (claimName ∈ seen) then (names, seen, out)
  else (names, {[claimName]} ∪ seen, out ++ match pvc_info ns claimName w with Some pi => [pi] | None => [] end).
Definition walk_pod (root : ResourceRef) (w : W) (st : list PodLogs * gset string * list PVCInfo) (pod : CorePod)
    : list PodLogs * gset string * list PVCInfo :=
  let ns := cr_Namespace root in
  let '(pods, seen, pvcs) := st in
  if negb (belongs root w pod) then (pods, seen, pvcs)
  else
    let '(names, seen, pvcs) := foldl (walk_claim ns w) ([], seen, pvcs) (omap vo_PersistentVolumeClaim (pos_Volumes (spec pod))) in
    (pods ++ [pod_logs_entry ns pod names w], seen, pvcs).
Definition collectWorkloadPodLogs (root : ResourceRef) (w : W) : res (list PodLogs * list PVCInfo) :=
  res_bind (list_Pods (cr_Namespace root) w) (fun podList =>
  res_bind (rest_config w) (fun _ => res_bind (core_clientset w) (fun _ =>
    let '(pods, _, pvcs) := foldl (walk_pod root w) ([], ∅, []) podList in
    Ok (pods, pvcs)))).
End collection.
