(* ===== verification/DiagnosticRuns.v ===== *)
(** * The diagnostic run reconciler (diagnosticrun_reconciler.go)

    [collect] assembles the evidence of an incident from the pieces of
    [EvidenceCollection], with its catalogue and its graph; [Reconcile] moves a
    pending run through running to completed and posts the evidence to
    backend-api.  A nil pointer dereference during the collection is the outcome
    [Panicked].  The bytes of the posted payload are a parameter, as is what the
    other side of the HTTP exchange does. *)

From Stdlib Require Import Ascii.
From stdpp Require Import sorting.
From stdpp Require Import prelude gmap strings list.
From S2P Require Import Prelude GoBase Api Client Collector GraphEngine EvidenceKinds Discovery EvidenceCollection.

(** The body of POST /internal/evidence. *)
Record EvidenceBody := mkEvidenceBody {
  eb_diagnosticRunId : string; eb_incidentId : string; eb_collectedAt : string; eb_collectorVersion : string;
  eb_payload : string; eb_payloadBytes : Z; eb_collectionErrors : list string;
}.
(** The HTTP exchange, with the status code it ends with, and the state of the
    context once it is over. *)
Class EvidenceSink (W : Type) := {
  http_post : string -> EvidenceBody -> eff W Z;
  ctx_err : W -> option goerr;
}.
#[export] Hint Mode EvidenceSink ! : typeclass_instances.

Section reconciler.
Context {W : Type} `{!ObjectClient W DiagnosticRunSpec DiagnosticRunStatus}
  `{!ObjectClient W IncidentSpec IncidentStatus} `{!ObjectClient W ProblemCaseSpec ProblemCaseStatus}.
Context (errText : goerr -> string) (BackendAPIURL CollectorVersion : string) (LogTailLines PrevLogLines : Z).
Context (shuffle : string -> list string -> list string) (range : gmap string goerr -> list (string * goerr))
  (sum8 : string -> string) (graph_range : ranger).
Context (marshal : Evidence -> option InvestigationGraph -> res string).

Section collect.
Context `{!EvidenceReader W}.

(** ** collect *)
Definition evidence_ref (r : Api.ResourceRef) (ns : string) : ResourceRef := mkRef ns (rr_Kind r) (rr_Name r) (rr_APIGroup r).
Definition or_ns (ns other : string) : string := if decide (ns = EmptyString) then other else ns.
Definition get_case (ns name : string) (w : W) : res ProblemCase :=
  kget (S := ProblemCaseSpec) (T := ProblemCaseStatus) ns name w.
Definition case_error (name : string) (e : goerr) : string := "get problemcase " +:+ name +:+ ": " +:+ errText e.

(** The cases of a run that a case triggered: that case and the unresolved
    others; whether the trigger was among them; the errors. *)
Fixpoint triggered_cases (ns trigger : string) (names : list string) (w : W) : bool * list string * list string :=
  match names with
  | [] => (false, [], [])
  | name :: names' =>
      let '(found, kept, errs) := triggered_cases ns trigger names' w in
      match get_case ns name w with
      | Err e => (found, kept, case_error name e :: errs)
      | Ok pc =>
          if decide (name = trigger) then (true, name :: kept, errs)
          else if decide (pct_State (status pc) <> ProblemCaseStateResolved) then (found, name :: kept, errs)
          else (found, kept, errs)
      end
  end.
Definition select_cases (ns incidentName trigger : string) (inc : Incident) (w : W) : list string * list string :=
  if decide (trigger = EmptyString) then (ins_ProblemCases (spec inc), [])
  else
    let '(found, kept, errs) := triggered_cases ns trigger (ins_ProblemCases (spec inc)) w in
    if found then (kept, errs)
    else ([], errs ++ ["trigger problemcase " +:+ trigger +:+ " is not a member of incident " +:+ incidentName]).

(** A result with the error text of a failed read, if any. *)
Definition note {A} (what : string) (r : res A) : list string := match r with Ok _ => [] | Err e => [what +:+ ": " +:+ errText e] end.
Definition case_evidence (ns name : string) (w : W) : option ProblemCaseEvidence * list string :=
  match get_case ns name w with
  | Err e => (None, [case_error name e])
  | Ok pc =>
      let a := pcs_AffectedResource (spec pc) in
      let resourceNS := or_ns (rr_Namespace a) ns in
      let events := collectEvents resourceNS (rr_Kind a) (rr_Name a) w in
      let logs := if decide (rr_Kind a = "Pod") then collectPodLogs LogTailLines PrevLogLines resourceNS (rr_Name a) w
                  else Ok (EmptyString, false) in
      let '(text, truncated) := match logs with Ok x => x | Err _ => (EmptyString, false) end in
      (Some (mkProblemCaseEvidence (obj_name pc) (pcs_Detector (spec pc)) (pcs_Severity (spec pc)) (pcs_Symptoms (spec pc))
         (evidence_ref a resourceNS) (events_or_nil events) text truncated),
       note ("events for " +:+ rr_Kind a +:+ "/" +:+ rr_Name a) events ++ note ("logs for pod " +:+ rr_Name a) logs)
  end.

(** The resources to describe: each kind, namespace and name once. *)
Definition rr_key (e : relatedResourceEntry) : string * string * string := (re_kind e, re_namespace e, re_name e).
Definition collect_once (st : gset (string * string * string) * list relatedResourceEntry) (e : relatedResourceEntry)
    : gset (string * string * string) * list relatedResourceEntry :=
  if decide (rr_key e ∈ st.1) then st else ({[rr_key e]} ∪ st.1, st.2 ++ [e]).
Definition root_entry (inc : Incident) (rootNS : string) : relatedResourceEntry :=
  let r := ins_RootResource (spec inc) in mkEntry (rr_Kind r) rootNS (rr_Name r) (rr_APIGroup r) "root".
Definition explicit_entry (ns : string) (r : Api.ResourceRef) : relatedResourceEntry :=
  mkEntry (rr_Kind r) (or_ns (rr_Namespace r) ns) (rr_Name r) (rr_APIGroup r) "explicit".
Definition ingress_entry (rootNS : string) (i : Ingress) : relatedResourceEntry :=
  mkEntry "Ingress" rootNS (obj_name i) "networking.k8s.io" "automatic".
Definition ingress_entries (rootNS : string) (w : W) : list relatedResourceEntry * list string :=
  if decide (rootNS = EmptyString) then ([], [])
  else (ingress_entry rootNS <$> items (list_Ingresses rootNS w),
        note ("auto-discover ingresses in " +:+ rootNS) (list_Ingresses rootNS w)).
Definition to_collect (ns rootNS : string) (inc : Incident) (automatic : list relatedResourceEntry) (w : W) : list relatedResourceEntry :=
  (foldl collect_once (∅, [])
    (root_entry inc rootNS :: (explicit_entry ns <$> ins_RelatedResources (spec inc)) ++ automatic ++ (ingress_entries rootNS w).1)).2.
Definition related_evidence (w : W) (e : relatedResourceEntry) : option (RelatedResourceEvidence * list string) :=
  let events := collectEvents (re_namespace e) (re_kind e) (re_name e) w in
  let what := " for related " +:+ re_kind e +:+ "/" +:+ re_name e in
  s ← collectResourceSpec (re_namespace e) (re_kind e) (re_name e) (re_apiGroup e) w;
  let spec_note := match s with
    | Err err => if decide (re_origin e = "root" /\ IsNotFound err = true) then [] else note ("spec" +:+ what) s
    | Ok _ => [] end in
  Some (mkRelatedResourceEvidence (mkRef (re_namespace e) (re_kind e) (re_name e) (re_apiGroup e)) (re_origin e)
          (events_or_nil events) EmptyString (match s with Ok f => f | Err _ => None end),
        note ("events" +:+ what) events ++ spec_note).

Definition with_sources (ev : Evidence) (sources : list EvidenceSource) : Evidence :=
  mkEvidence (ed_SchemaVersion ev) (ed_DiagnosticRunID ev) (ed_IncidentID ev) (ed_CollectedAt ev) (ed_RootResource ev)
    (ed_RootResourceEvents ev) (ed_ProblemCases ev) (ed_WorkloadPodLogs ev) (ed_PVCInfos ev) (ed_UserMessage ev)
    (ed_RelatedResourceEvidence ev) sources.
Definition empty_evidence (drName : string) (at_ : Time) : Evidence :=
  mkEvidence 0 drName EmptyString at_ (mkRef EmptyString EmptyString EmptyString EmptyString) [] [] [] [] EmptyString [] [].
(** The evidence of an incident that was read, before its catalogue, with the errors. *)
Definition incident_evidence (ns incidentName trigger drName : string) (at_ : Time) (inc : Incident) (w : W)
    : option (Evidence * list string) :=
  let r := ins_RootResource (spec inc) in
  let ref := evidence_ref r (rr_Namespace r) in
  let '(names, errs1) := select_cases ns incidentName trigger inc w in
  let cases := (fun name => case_evidence ns name w) <$> names in
  let rootNS := or_ns (rr_Namespace r) ns in
  let rootEvents := collectEvents rootNS (rr_Kind r) (rr_Name r) w in
  let workload := collectWorkloadPodLogs errText LogTailLines shuffle ref w in
  let '(pods, pvcs) := match workload with Ok x => x | Err _ => ([], []) end in
  let '(automatic, errs2) := discoverApplicationResources errText range ref w in
  related ← mapM (related_evidence w) (to_collect ns rootNS inc automatic w);
  Some (mkEvidence 3 drName (obj_name inc) at_ ref (events_or_nil rootEvents) (omap fst cases) pods pvcs (ins_UserMessage (spec inc))
          related.*1 [],
        errs1 ++ mjoin cases.*2 ++ note ("events for root " +:+ rr_Kind r +:+ "/" +:+ rr_Name r) rootEvents ++
        note ("pod logs for workload " +:+ rr_Name r) workload ++ errs2 ++ (ingress_entries rootNS w).2 ++ mjoin related.*2).
Definition collect (ns incidentName trigger drName : string) (at_ : Time) (w : W)
    : option (Evidence * option InvestigationGraph * list string) :=
  match kget (S := IncidentSpec) (T := IncidentStatus) ns incidentName w with
  | Err e => Some (empty_evidence drName at_, None, ["get incident: " +:+ errText e])
  | Ok inc =>
      x ← incident_evidence ns incidentName trigger drName at_ inc w;
      let ev := with_sources x.1 (BuildSourceCatalog sum8 x.1) in
      Some (ev, Build sum8 graph_range ev, x.2)
  end.
End collect.

(** ** Reconcile and postEvidence *)
Definition set_run_state (state : string) (dr : DiagnosticRun) : DiagnosticRun :=
  let t := status dr in
  with_status dr (mkDiagnosticRunStatus state (drt_CollectedAt t) (drt_CollectorVersion t) (drt_EvidenceRef t) (drt_CollectionErrors t)
    (drt_RedactionSummary t) (drt_LogTruncationInfo t) (drt_AnalysisState t) (drt_AnalysisResultRef t)).
Definition set_collected (state : string) (now : Time) (errs : list string) (dr : DiagnosticRun) : DiagnosticRun :=
  let t := status dr in
  with_status dr (mkDiagnosticRunStatus state (Some now) CollectorVersion (drt_EvidenceRef t) errs
    (drt_RedactionSummary t) (drt_LogTruncationInfo t) (drt_AnalysisState t) (drt_AnalysisResultRef t)).
Definition final_state (evidence : option Evidence) (errs : list string) : string :=
  if decide (errs <> [] /\ evidence = None) then DiagnosticRunStateFailed else DiagnosticRunStateCompleted.

Context `{!EvidenceReader W} `{!EvidenceSink W}.

Definition evidence_body (dr : DiagnosticRun) (ev : Evidence) (payload : string) (errs : list string) : EvidenceBody :=
  mkEvidenceBody (obj_name dr) (drs_IncidentRef (spec dr)) (format_rfc3339 (ed_CollectedAt ev)) CollectorVersion
    payload (Z.of_nat (slen payload)) errs.
Definition postEvidence (dr : DiagnosticRun) (ev : Evidence) (graph : option InvestigationGraph) (errs : list string) : eff W () := fun w =>
  match marshal ev graph with
  | Err e => (Err (ErrWrap "marshal evidence" e), w)
  | Ok payload =>
      let url := BackendAPIURL +:+ "/internal/evidence" in
      match http_post url (evidence_body dr ev payload errs) w with
      | (Err e, w1) => (Err (ErrWrap ("POST " +:+ url) e), w1)
      | (Ok code, w1) =>
          match ctx_err w1 with
          | Some e => (Err e, w1)
          | None => (if decide (300 <= code)%Z then Err (ErrOther ("backend returned " +:+ itoa code)) else Ok tt, w1)
          end
      end
  end.

Inductive outcome := Finished (r : res ()) | Panicked.
Definition incident_name (dr : DiagnosticRun) : string :=
  if decide (drs_IncidentRef (spec dr) = EmptyString) then drs_ProblemCaseRef (spec dr) else drs_IncidentRef (spec dr).
(** What follows once the run is marked as running. *)
Definition run_collection (started now : Time) (dr : DiagnosticRun) (w : W) : outcome * W :=
  match collect (obj_namespace dr) (incident_name dr) (drs_ProblemCaseRef (spec dr)) (obj_name dr) started w with
  | None => (Panicked, w)
  | Some (ev, graph, errs) =>
      match kpatch_status dr (set_collected (final_state (Some ev) errs) now errs dr) w with
      | (Err e, w1) => (Finished (Err (ErrWrap "patching state to completed" e)), w1)
      | (Ok dr1, w1) => (Finished (Ok tt), (postEvidence dr1 ev graph errs w1).2)
      end
  end.
Definition Reconcile (ns name : string) (started now : Time) (w : W) : outcome * W :=
  match kget (S := DiagnosticRunSpec) (T := DiagnosticRunStatus) ns name w with
  | Err e => (Finished (if IsNotFound e then Ok tt else Err e), w)
  | Ok dr =>
      if decide (drt_State (status dr) <> DiagnosticRunStatePending) then (Finished (Ok tt), w)
      else
        match kpatch_status dr (set_run_state DiagnosticRunStateRunning dr) w with
        | (Err e, w1) => (Finished (Err (ErrWrap "patching state to running" e)), w1)
        | (Ok dr1, w1) => run_collection started now dr1 w1
        end
  end.
(** The event filter of [SetupWithManager]. *)
Definition run_filter (dr : DiagnosticRun) : bool :=
  bool_decide (drt_State (status dr) = DiagnosticRunStatePending) || bool_decide (drt_State (status dr) = EmptyString).
End reconciler.

(** ** The life of a run *)
Section lifecycle.
Context {W : Type} `{!ObjectClient W DiagnosticRunSpec DiagnosticRunStatus} `{!ObjectClientLaws W DiagnosticRunSpec DiagnosticRunStatus}.
Context `{!ObjectClient W IncidentSpec IncidentStatus} `{!ObjectClient W ProblemCaseSpec ProblemCaseStatus}.
Context `{!EvidenceReader W} `{!EvidenceSink W}.
Context (errText : goerr -> string) (BackendAPIURL CollectorVersion : string) (LogTailLines PrevLogLines : Z).
Context (shuffle : string -> list string -> list string) (range : gmap string goerr -> list (string * goerr))
  (sum8 : string -> string) (graph_range : ranger) (marshal : Evidence -> option InvestigationGraph -> res string).
Implicit Types (dr : DiagnosticRun) (w : W).
Abbreviation reconcile :=
  (Reconcile errText BackendAPIURL CollectorVersion LogTailLines PrevLogLines shuffle range sum8 graph_range marshal) (only parsing).
Abbreviation collecting dr started w :=
  (collect errText LogTailLines PrevLogLines shuffle range sum8 graph_range (obj_namespace dr) (incident_name dr)
     (drs_ProblemCaseRef (spec dr)) (obj_name dr) started w) (only parsing).

Definition pending dr : Prop := drt_State (status dr) = DiagnosticRunStatePending.
Definition running dr : DiagnosticRun := set_run_state DiagnosticRunStateRunning dr.
(** The run as it is when its evidence has been collected. *)
Definition completed (now : Time) (errs : list string) dr : DiagnosticRun :=
  set_collected CollectorVersion DiagnosticRunStateCompleted now errs dr.
(** How a reconcile can treat a stored run.  [w'] is the world it leaves. *)
Inductive run_step dr (started now : Time) w : outcome -> W -> Prop :=
  | step_ignored : ~ pending dr -> run_step dr started now w (Finished (Ok tt)) w
  | step_not_started e w' : pending dr -> rewrites dr dr w w' -> run_step dr started now w (Finished (Err e)) w'
  | step_panicked w' : pending dr -> rewrites dr (running dr) w w' -> collecting (running dr) started w' = None ->
      run_step dr started now w Panicked w'
  | step_interrupted e w' : pending dr -> rewrites dr (running dr) w w' -> run_step dr started now w (Finished (Err e)) w'
  | step_completed w1 w2 w' ev graph errs : pending dr ->
      rewrites dr (running dr) w w1 -> collecting (running dr) started w1 = Some (ev, graph, errs) ->
      rewrites (running dr) (completed now errs (running dr)) w1 w2 ->
      w' = (postEvidence BackendAPIURL CollectorVersion marshal (completed now errs (running dr)) ev graph errs w2).2 ->
      run_step dr started now w (Finished (Ok tt)) w'.

(** The state a run ends in is never failed: the evidence is never nil. *)
Lemma final_state_completed ev errs : final_state (Some ev) errs = DiagnosticRunStateCompleted.
Proof using Type. unfold final_state. rewrite decide_False; [done|]. by intros []. Qed.

Lemma run_collection_step dr started now w w1 o w' :
  pending dr -> rewrites dr (running dr) w w1 ->
  run_collection errText BackendAPIURL CollectorVersion LogTailLines PrevLogLines shuffle range sum8 graph_range marshal
    started now (running dr) w1 = (o, w') ->
  run_step dr started now w o w'.
Proof using All.
  intros Hp Hrw. unfold run_collection. destruct (collecting (running dr) started w1) as [[[ev graph] errs]|] eqn:Ec.
  - rewrite final_state_completed. destruct (kpatch_status _ _ w1) as [r w2] eqn:E2.
    destruct (kpatch_status_outcome (running dr) (completed now errs (running dr)) w1 r w2 (rw_after _ _ _ _ Hrw) eq_refl E2)
      as (x & Hrw2 & Hr).
    destruct r as [dr2|e]; intros [= <- <-].
    + destruct Hr as [-> ->]. by eapply step_completed.
    + subst x. apply step_interrupted; [done|]. by eapply rewrites_trans.
  - intros [= <- <-]. by apply step_panicked.
Qed.

Lemma reconcile_steps ns name dr started now w o w' :
  kget ns name w = Ok dr -> reconcile ns name started now w = (o, w') -> run_step dr started now w o w'.
Proof using All.
  intros Hg. unfold Reconcile. rewrite Hg. destruct (kget_is_stored _ _ _ _ Hg) as (Hs & _ & _).
  case_decide as Hp; [intros [= <- <-]; by apply step_ignored|].
  destruct (kpatch_status dr (running dr) w) as [r w1] eqn:E1. change (set_run_state DiagnosticRunStateRunning dr) with (running dr).
  rewrite E1. destruct (kpatch_status_outcome dr (running dr) w r w1 Hs eq_refl E1) as (x & Hrw & Hr).
  destruct r as [dr1|e].
  - destruct Hr as [-> ->]. by apply run_collection_step.
  - subst x. intros [= <- <-]. by apply step_not_started.
Qed.

(** C13: What a reconcile does to a stored diagnostic run, in every branch: a run
    that is not pending is left alone; a pending run is either not started (its
    first status write failed: nothing changed, an error to retry), or marked
    running and then interrupted by a failed status write or a panic of the
    collection, or completed with the collection's time, version and errors and
    its evidence posted after that.  None is written as failed, and until the
    evidence is posted no other run is touched. *)
Theorem diagnostic_run_lifecycle ns name dr started now w o w' :
  kget ns name w = Ok dr -> reconcile ns name started now w = (o, w') -> run_step dr started now w o w'.
Proof using All. apply reconcile_steps. Qed.

(** A run whose collection panicked or whose last status write failed stays
    running for good: whatever time passes, reconciling it again, as the returned
    error asks for, does nothing. *)
Theorem interrupted_run_is_stuck ns name dr started now w o w' :
  kget ns name w = Ok dr -> pending dr -> reconcile ns name started now w = (o, w') ->
  o = Panicked \/ ((exists e, o = Finished (Err e)) /\ kget ns name w' <> Ok dr) ->
  forall started' now', reconcile ns name started' now' w' = (Finished (Ok tt), w').
Proof using All.
  intros Hg Hp Hr Ho started' now'. assert (Hstep : run_step dr started now w o w') by (by eapply reconcile_steps).
  destruct (kget_is_stored _ _ _ _ Hg) as (_ & <- & <-).
  assert (Hrunning : forall v, rewrites dr (running dr) w v -> reconcile (obj_namespace dr) (obj_name dr) started' now' v = (Finished (Ok tt), v)).
  { intros v [_ Hv _ _]. unfold is_stored in Hv. unfold Reconcile. change (obj_namespace (running dr)) with (obj_namespace dr) in Hv.
    change (obj_name (running dr)) with (obj_name dr) in Hv. rewrite Hv. by rewrite decide_True. }
  destruct Hstep as [Hn|e v _ Hrw|v _ Hrw|e v _ Hrw|v1 v2 v ev graph errs]; [done|..].
  - destruct Ho as [|[_ Hne]]; [done|]. destruct Hne. apply Hrw.
  - by apply Hrunning.
  - by apply Hrunning.
  - destruct Ho as [|[[e He] _]]; done.
Qed.
End lifecycle.

(** ** What the evidence holds *)
Section evidence.
Context {W : Type} `{!ObjectClient W IncidentSpec IncidentStatus} `{!ObjectClient W ProblemCaseSpec ProblemCaseStatus}.
Context `{!EvidenceReader W}.
Context (errText : goerr -> string) (LogTailLines PrevLogLines : Z).
Context (shuffle : string -> list string -> list string) (range : gmap string goerr -> list (string * goerr))
  (sum8 : string -> string) (graph_range : ranger).
Implicit Types (w : W) (inc : Incident) (e : relatedResourceEntry).

(** [seen] holds the keys of the list, which has each of them once. *)
Definition once (st : gset (string * string * string) * list relatedResourceEntry) : Prop :=
  st.1 = list_to_set (rr_key <$> st.2) /\ NoDup (rr_key <$> st.2).
Lemma collect_once_spec l st :
  once st ->
  let st' := foldl collect_once st l in
  once st' /\ st.2 `prefix_of` st'.2 /\
  (forall e, e ∈ st'.2 -> e ∈ st.2 \/ e ∈ l) /\ (forall e, e ∈ l -> rr_key e ∈ rr_key <$> st'.2).
Proof using Type.
  revert st. induction l as [|e l IH]; intros st Hst st'; [subst st'; simpl; split_and!; set_solver|].
  assert (once (collect_once st e) /\ st.2 `prefix_of` (collect_once st e).2 /\
    (forall e', e' ∈ (collect_once st e).2 -> e' ∈ st.2 \/ e' = e) /\ rr_key e ∈ rr_key <$> (collect_once st e).2) as (H1 & H2 & H3 & H4).
  { destruct Hst as [Hd Hn]. unfold collect_once. case_decide as Hin.
    - split_and!; try done; [auto|]. rewrite Hd in Hin. by apply elem_of_list_to_set in Hin.
    - unfold once. cbn [fst snd]. rewrite fmap_app. split_and!.
      + rewrite Hd, list_to_set_app_L. set_solver.
      + apply NoDup_app. split_and!; [done| |apply NoDup_singleton]. intros k Hk ->%list_elem_of_singleton.
        apply Hin. rewrite Hd. by apply elem_of_list_to_set.
      + by apply prefix_app_r.
      + intros e'. rewrite elem_of_app, list_elem_of_singleton. done.
      + rewrite elem_of_app. right. by left. }
  destruct (IH _ H1) as (I1 & I2 & I3 & I4). subst st'. simpl. split_and!; [done|by etrans| |].
  - intros e' He'. destruct (I3 _ He') as [H|H]; [|set_solver]. destruct (H3 _ H); set_solver.
  - intros e' [->|He']%elem_of_cons; [|by apply I4]. destruct I2 as [k ->]. rewrite fmap_app, elem_of_app. by left.
Qed.
(** The resources to describe: the root first, each once, each one that was
    named or found. *)
Lemma to_collect_spec ns rootNS inc automatic w :
  let l := to_collect errText ns rootNS inc automatic w in
  let wanted := (explicit_entry ns <$> ins_RelatedResources (spec inc)) ++ automatic ++ (ingress_entries errText rootNS w).1 in
  NoDup (rr_key <$> l) /\ head l = Some (root_entry inc rootNS) /\
  (forall e, e ∈ l -> e = root_entry inc rootNS \/ e ∈ wanted) /\
  (forall e, e = root_entry inc rootNS \/ e ∈ wanted -> rr_key e ∈ rr_key <$> l).
Proof using Type.
  intros l wanted. subst l. unfold to_collect. fold wanted. cbn [foldl].
  assert (collect_once (∅, []) (root_entry inc rootNS) = ({[rr_key (root_entry inc rootNS)]} ∪ ∅, [root_entry inc rootNS])) as ->.
  { unfold collect_once. rewrite decide_False by set_solver. done. }
  destruct (collect_once_spec wanted ({[rr_key (root_entry inc rootNS)]} ∪ ∅, [root_entry inc rootNS])) as ([Hd Hn] & [k Hk] & H3 & H4).
  { split; [set_solver|apply NoDup_singleton]. }
  cbn [snd] in *. split_and!; [done|by rewrite Hk| |].
  - intros e He. destruct (H3 e He) as [->%list_elem_of_singleton|]; auto.
  - intros e [->|He]; [|by apply H4]. rewrite Hk. cbn [app]. rewrite fmap_cons. by left.
Qed.

(** An Ingress that routes a path to something else than a Service. *)
Definition resource_backend (i : Ingress) : Prop :=
  exists rule paths p, rule ∈ ig_Rules (spec i) /\ ir_HTTP rule = Some paths /\ p ∈ paths /\ ip_Service p = None.
Lemma mapM_none {A B} (f : A -> option B) l x : x ∈ l -> f x = None -> mapM f l = None.
Proof using Type.
  intros Hin Hx. destruct (mapM f l) as [k|] eqn:E; [|done]. apply mapM_Some_1 in E.
  apply list_elem_of_lookup in Hin as [i Hi]. destruct (Forall2_lookup_l _ _ _ _ _ E Hi) as (y & _ & Hy). congruence.
Qed.
Lemma resource_backend_panics i : resource_backend i -> ingress_spec i = None.
Proof using Type.
  intros (rule & paths & p & Hr & Hp & Hin & Hs). unfold ingress_spec.
  rewrite (mapM_none ingress_rule _ rule Hr); [done|]. unfold ingress_rule. rewrite Hp. simpl.
  rewrite (mapM_none ingress_path _ p Hin); [done|]. unfold ingress_path. by rewrite Hs.
Qed.

(** One Ingress with a resource backend in the namespace of the root
    resource makes the collection of every incident there panic, whatever the
    incident is about: the Ingresses of that namespace are always described, and
    describing this one dereferences its missing Service. *)
Theorem resource_backend_stops_collection ns name trigger drName at_ w inc l i :
  let rootNS := or_ns (rr_Namespace (ins_RootResource (spec inc))) ns in
  kget ns name w = Ok inc -> rootNS <> EmptyString ->
  list_Ingresses rootNS w = Ok l -> i ∈ l -> get_Ingress rootNS (obj_name i) w = Ok i -> resource_backend i ->
  collect errText LogTailLines PrevLogLines shuffle range sum8 graph_range ns name trigger drName at_ w = None.
Proof using Type.
  intros rootNS Hinc Hns Hl Hi Hg Hb. unfold collect. rewrite Hinc.
  cut (forall automatic, mapM (related_evidence errText w) (to_collect errText ns rootNS inc automatic w) = None).
  { intros Hnone. unfold incident_evidence. fold rootNS. destruct (select_cases _ _ _ _ _ _) as [names errs1].
    destruct (match collectWorkloadPodLogs _ _ _ _ _ with Ok x => x | Err _ => _ end) as [pods pvcs].
    destruct (discoverApplicationResources _ _ _ _) as [automatic errs2]. by rewrite Hnone. }
  intros automatic. destruct (to_collect_spec ns rootNS inc automatic w) as (_ & _ & _ & Hall).
  assert (rr_key (ingress_entry rootNS i) ∈ rr_key <$> to_collect errText ns rootNS inc automatic w) as Hin.
  { apply Hall. right. unfold ingress_entries. rewrite decide_False by done. rewrite Hl. simpl.
    rewrite !elem_of_app, !list_elem_of_fmap. right. right. by exists i. }
  apply list_elem_of_fmap in Hin as (e & Hk & He). apply (mapM_none _ _ e He).
  injection Hk as Hkind Hnsp Hname. unfold related_evidence, collectResourceSpec. rewrite <- Hkind, <- Hnsp, <- Hname.
  rewrite decide_True by done. unfold partial. rewrite Hg. by rewrite (resource_backend_panics i Hb).
Qed.
End evidence.

Section cases.
Context {W : Type} `{!ObjectClient W IncidentSpec IncidentStatus} `{!ObjectClient W ProblemCaseSpec ProblemCaseStatus}.
Context `{!EvidenceReader W} (errText : goerr -> string).
Implicit Types (w : W) (inc : Incident).

(** Whether a case of an incident belongs into a run: it can be read, and nothing
    triggered the run or it did or it is not resolved. *)
Definition considered (ns trigger : string) w (name : string) : bool :=
  match get_case ns name w with
  | Ok pc => bool_decide (trigger = EmptyString \/ name = trigger \/ pct_State (status pc) <> ProblemCaseStateResolved)
  | Err _ => false
  end.
Definition readable_member (ns trigger : string) inc w : Prop :=
  trigger ∈ ins_ProblemCases (spec inc) /\ exists pc, get_case ns trigger w = Ok pc.
Lemma triggered_cases_spec ns trigger names w :
  trigger <> EmptyString ->
  let '(found, kept, _) := triggered_cases errText ns trigger names w in
  kept = filter (fun name => considered ns trigger w name = true) names /\
  (found = true <-> trigger ∈ names /\ exists pc, get_case ns trigger w = Ok pc).
Proof using Type.
  intros Ht. induction names as [|name names IH]; [split; [done|]; split; [done|by intros [?%elem_of_nil _]]|].
  simpl triggered_cases. destruct (triggered_cases errText ns trigger names w) as [[found kept] errs]. destruct IH as [-> IH].
  assert (Hup : name <> trigger -> forall b : bool, (b = true <-> trigger ∈ names /\ exists pc, get_case ns trigger w = Ok pc) ->
    (b = true <-> trigger ∈ name :: names /\ exists pc, get_case ns trigger w = Ok pc)).
  { intros Hne b ->. rewrite elem_of_cons. naive_solver. }
  rewrite filter_cons. destruct (get_case ns name w) as [pc|e] eqn:Eg.
  - assert (considered ns trigger w name = bool_decide (trigger = EmptyString \/ name = trigger \/
      pct_State (status pc) <> ProblemCaseStateResolved)) as -> by (unfold considered; by rewrite Eg).
    destruct (decide (name = trigger)) as [->|Hne].
    + rewrite bool_decide_true, decide_True by auto. split; [done|]. split; [|done]. intros _. split; [by left|by eexists].
    + destruct (decide (pct_State (status pc) <> ProblemCaseStateResolved)) as [Hu|Hu].
      * rewrite bool_decide_true, decide_True by auto. auto.
      * rewrite bool_decide_false, decide_False by naive_solver. auto.
  - assert (considered ns trigger w name = false) as -> by (unfold considered; by rewrite Eg).
    rewrite decide_False by done. split; [done|]. rewrite IH, elem_of_cons. split; [naive_solver|].
    intros [[->|H] [pc Hpc]]; [congruence|]. eauto.
Qed.

Context `{!ObjectClientLaws W ProblemCaseSpec ProblemCaseStatus} (LogTailLines PrevLogLines : Z).
Lemma case_evidence_name ns name w :
  match (case_evidence errText LogTailLines PrevLogLines ns name w).1 with
  | Some p => considered ns EmptyString w name = true /\ pce_Name p = name
  | None => considered ns EmptyString w name = false
  end.
Proof using ObjectClientLaws0.
  unfold case_evidence, considered. destruct (get_case ns name w) as [pc|e] eqn:Eg; [|done].
  rewrite bool_decide_true by auto. apply law_get_key in Eg. injection Eg as _ Hn.
  by destruct (match (if decide _ then _ else _) with Ok x => x | Err _ => _ end) as [text tr].
Qed.
Lemma case_names ns (names : list string) w :
  pce_Name <$> omap fst ((fun name => case_evidence errText LogTailLines PrevLogLines ns name w) <$> names) =
  filter (fun name => considered ns EmptyString w name = true) names.
Proof using ObjectClientLaws0.
  induction names as [|name names IH]; [done|]. rewrite filter_cons, fmap_cons. cbn [omap list_omap].
  pose proof (case_evidence_name ns name w) as Hc. destruct (case_evidence _ _ _ ns name w).1 as [p|].
  - destruct Hc as [Hc <-]. rewrite decide_True by done. rewrite fmap_cons. by rewrite <- IH.
  - rewrite decide_False by (by rewrite Hc). exact IH.
Qed.

Lemma select_cases_spec ns incidentName trigger inc w :
  let names := (select_cases errText ns incidentName trigger inc w).1 in
  filter (fun name => considered ns EmptyString w name = true) names =
  (if decide (trigger = EmptyString) then filter (fun name => considered ns trigger w name = true) (ins_ProblemCases (spec inc)) else names) /\
  (trigger <> EmptyString -> readable_member ns trigger inc w ->
     names = filter (fun name => considered ns trigger w name = true) (ins_ProblemCases (spec inc))) /\
  (trigger <> EmptyString -> ~ readable_member ns trigger inc w -> names = []).
Proof using Type.
  unfold select_cases. destruct (decide (trigger = EmptyString)) as [->|Ht]; [done|].
  pose proof (triggered_cases_spec ns trigger (ins_ProblemCases (spec inc)) w Ht) as Hs.
  destruct (triggered_cases _ _ _ _ _) as [[found kept] errs]. destruct Hs as [-> Hf]. unfold readable_member.
  destruct found; simpl.
  - split_and!; [|done|naive_solver]. rewrite list_filter_filter. apply list_filter_iff. intros name. unfold considered.
    destruct (get_case ns name w); [|naive_solver]. rewrite !bool_decide_eq_true. naive_solver.
  - split_and!; [done| |done]. intros _ H. by apply Hf in H.
Qed.
End cases.

Section collected.
Context {W : Type} `{!ObjectClient W IncidentSpec IncidentStatus} `{!ObjectClient W ProblemCaseSpec ProblemCaseStatus}.
Context `{!ObjectClientLaws W ProblemCaseSpec ProblemCaseStatus} `{!EvidenceReader W}.
Context (errText : goerr -> string) (LogTailLines PrevLogLines : Z).
Context (shuffle : string -> list string -> list string) (range : gmap string goerr -> list (string * goerr))
  (sum8 : string -> string) (graph_range : ranger) (Hrange : ranger_ok graph_range).
Implicit Types (w : W) (inc : Incident).

Definition evidence_key (r : RelatedResourceEvidence) : string * string * string :=
  (cr_Kind (re_Resource r), cr_Namespace (re_Resource r), cr_Name (re_Resource r)).
Lemma related_keys w l k :
  mapM (related_evidence errText w) l = Some k -> evidence_key <$> k.*1 = rr_key <$> l.
Proof using Type.
  intros H%mapM_Some_1. induction H as [|e r l k He _ IH]; [done|]. rewrite !fmap_cons, IH. f_equal.
  unfold related_evidence in He. destruct (collectResourceSpec _ _ _ _ w); [|done]. by injection He as <-.
Qed.

End collected.

(** ** A world for the theorems: a cluster, its built-in objects, the posts received *)
Record WorkerWorld := mkWorkerWorld { ww_cluster : MemCluster; ww_snapshot : Snapshot; ww_posts : list EvidenceBody }.
Definition ww_set (f : MemCluster -> MemCluster) (w : WorkerWorld) : WorkerWorld :=
  mkWorkerWorld (f (ww_cluster w)) (ww_snapshot w) (ww_posts w).
#[export] Instance ww_Incidents_client : ObjectClient WorkerWorld IncidentSpec IncidentStatus :=
  mem_client (fun w => mc_Incidents (ww_cluster w)) (fun m => ww_set (set_Incidents m)).
#[export] Instance ww_ProblemCases_client : ObjectClient WorkerWorld ProblemCaseSpec ProblemCaseStatus :=
  mem_client (fun w => mc_ProblemCases (ww_cluster w)) (fun m => ww_set (set_ProblemCases m)).
#[export] Instance ww_DiagnosticRuns_client : ObjectClient WorkerWorld DiagnosticRunSpec DiagnosticRunStatus :=
  mem_client (fun w => mc_DiagnosticRuns (ww_cluster w)) (fun m => ww_set (set_DiagnosticRuns m)).
#[export] Instance ww_ProblemCases_laws : ObjectClientLaws WorkerWorld ProblemCaseSpec ProblemCaseStatus.
Proof. by apply mem_client_laws. Qed.
#[export] Instance ww_DiagnosticRuns_laws : ObjectClientLaws WorkerWorld DiagnosticRunSpec DiagnosticRunStatus.
Proof. by apply mem_client_laws. Qed.
#[export] Instance ww_reader : EvidenceReader WorkerWorld := reader_on ww_snapshot snapshot_reader.
#[export] Instance ww_sink : EvidenceSink WorkerWorld := {
  http_post url body w := (Ok 201%Z, mkWorkerWorld (ww_cluster w) (ww_snapshot w) (ww_posts w ++ [body]));
  ctx_err w := None;
}.

Definition shop_incident : Incident :=
  mkObject (new_meta "inc-1" EmptyString "kubechan" ∅)
    (mkIncidentSpec (ref_to "shop" "Deployment" "root") ["pc-1"; "pc-2"] "auto" EmptyString [ref_to "shop" "Service" "near"] false) zeroIncidentStatus.
Definition shop_case (name state : string) : ProblemCase :=
  mkObject (new_meta name EmptyString "kubechan" ∅) (mkProblemCaseSpec (ref_to "shop" "Pod" "root-0") "CrashLoopBackOff" "high" ["down"] [])
    (mkProblemCaseStatus state None None None EmptyString EmptyString).
Definition shop_run : DiagnosticRun :=
  mkObject (new_meta "dr-1" EmptyString "kubechan" ∅) (mkDiagnosticRunSpec "inc-1" "pc-2" None)
    (mkDiagnosticRunStatus DiagnosticRunStatePending None EmptyString EmptyString [] None None EmptyString EmptyString).
Definition shop_ingress (backend : option IngressServiceBackend) : Ingress :=
  mkObject (new_meta "web" EmptyString "shop" ∅)
    (mkIngressSpec None [mkIngressRule "shop.example" (Some [mkHTTPIngressPath "/" None backend])]) tt.
Definition shop (backend : option IngressServiceBackend) : WorkerWorld :=
  mkWorkerWorld
    (set_DiagnosticRuns {[ ("kubechan", "dr-1") := shop_run ]}
      (set_ProblemCases {[ ("kubechan", "pc-1") := shop_case "pc-1" ProblemCaseStateResolved;
                           ("kubechan", "pc-2") := shop_case "pc-2" ProblemCaseStateOpen ]}
        (set_Incidents {[ ("kubechan", "inc-1") := shop_incident ]} empty_cluster)))
    (mkSnapshot [a_deployment "root" {[ "tier" := "1" ]}] [] [] [near_service] [shop_ingress backend] [] [] [] [] [] [] [] ∅) [].
Definition a_sum (s : string) : string := stake 8 s.
Definition in_order (label : string) (m : gmap string GraphNode) : list (string * GraphNode) := map_to_list m.
Definition a_shuffle (label : string) (l : list string) : list string := l.
Definition a_text (e : goerr) : string := "error".
Definition a_payload (ev : Evidence) (graph : option InvestigationGraph) : res string := Ok "{}".
Definition shop_reconcile (backend : option IngressServiceBackend) : outcome * WorkerWorld :=
  Reconcile a_text "http://backend" "v1" 100 100 a_shuffle map_to_list a_sum in_order a_payload "kubechan" "dr-1" 1 2 (shop backend).
Definition to_service : option IngressServiceBackend := Some (mkIngressServiceBackend "near" 80).

Lemma diagnostic_run_lifecycle_witness :
  kget "kubechan" "dr-1" (shop to_service) = Ok shop_run /\
  run_step a_text "http://backend" "v1" 100 100 a_shuffle map_to_list a_sum in_order a_payload shop_run 1 2 (shop to_service)
    (shop_reconcile to_service).1 (shop_reconcile to_service).2 /\
  length (ww_posts (shop_reconcile to_service).2) = 1.
Proof.
  split_and!; [vm_refl| |vm_refl].
  apply (diagnostic_run_lifecycle a_text "http://backend" "v1" 100 100 a_shuffle map_to_list a_sum in_order a_payload "kubechan" "dr-1");
    [vm_refl|apply surjective_pairing].
Defined.
Lemma interrupted_run_is_stuck_witness :
  (shop_reconcile None).1 = Panicked /\ forall started' now',
    Reconcile a_text "http://backend" "v1" 100 100 a_shuffle map_to_list a_sum in_order a_payload "kubechan" "dr-1" started' now'
      (shop_reconcile None).2 = (Finished (Ok tt), (shop_reconcile None).2).
Proof.
  split; [vm_refl|].
  apply (interrupted_run_is_stuck a_text "http://backend" "v1" 100 100 a_shuffle map_to_list a_sum in_order a_payload
    "kubechan" "dr-1" shop_run 1 2 (shop None) Panicked); [vm_refl|done|vm_refl|by left].
Defined.
Lemma resource_backend_stops_collection_witness :
  collect a_text 100 100 a_shuffle map_to_list a_sum in_order "kubechan" "inc-1" "pc-2" "dr-1" 1 (shop None) = None.
Proof.
  apply (resource_backend_stops_collection a_text 100 100 a_shuffle map_to_list a_sum in_order "kubechan" "inc-1" "pc-2" "dr-1" 1 (shop None)
    shop_incident [shop_ingress None] (shop_ingress None)); [vm_refl|done|vm_refl|by left|vm_refl|].
  exists (mkIngressRule "shop.example" (Some [mkHTTPIngressPath "/" None None])), [mkHTTPIngressPath "/" None None], (mkHTTPIngressPath "/" None None).
  split_and!; [by left|done|by left|done].
Defined.
(** The evidence of the shop. *)
Definition shop_collect : option (Evidence * option InvestigationGraph * list string) :=
  collect a_text 100 100 a_shuffle map_to_list a_sum in_order "kubechan" "inc-1" "pc-2" "dr-1" 1 (shop to_service).
