(* ===== verification/Secrecy.v ===== *)
(** * Secret values stay in the cluster (diagnosticrun_reconciler.go)

    The collector looks at Secrets in four places - discovery, the dependencies
    of a workload's template, the fields of a Secret, the dependencies of a pod -
    and promises never to read their values.  Here: whatever values the Secrets of
    a cluster hold, the collected evidence is the same. *)

From stdpp Require Import sorting.
From stdpp Require Import prelude gmap strings list.
From S2P Require Import Prelude GoBase Api Client Collector GraphEngine EvidenceKinds Discovery EvidenceCollection DiagnosticRuns.

(** The same reads, but for the values in a Secret. *)
Definition with_secret_values {W} (g : string -> string -> gmap string string) (R : EvidenceReader W) : EvidenceReader W := {|
  list_Deployments := list_Deployments; list_StatefulSets := list_StatefulSets; list_DaemonSets := list_DaemonSets;
  list_Services := list_Services; list_Ingresses := list_Ingresses; list_HPAs := list_HPAs;
  list_EndpointSlices := list_EndpointSlices; list_Pods := list_Pods; list_Events := list_Events;
  get_Ingress := get_Ingress; get_Service := get_Service; get_ConfigMap := get_ConfigMap;
  get_Secret ns n w := res_bind (get_Secret ns n w) (fun s => Ok (with_spec s (mkSecretData (sd_Type (spec s)) (g ns n))));
  get_Deployment := get_Deployment; get_StatefulSet := get_StatefulSet; get_DaemonSet := get_DaemonSet;
  get_CronJob := get_CronJob; get_Job := get_Job; get_Claim := get_Claim; get_HPA := get_HPA;
  get_EndpointSlice := get_EndpointSlice; get_StorageClass := get_StorageClass;
  rest_config := rest_config; core_clientset := core_clientset; discovery_client := discovery_client;
  dynamic_client := dynamic_client; pod_logs := pod_logs; preferred_resources := preferred_resources;
  parse_group_version := parse_group_version (W := W); dynamic_get := dynamic_get;
|}.

Section secrecy.
Context {W : Type} (R : EvidenceReader W) (g : string -> string -> gmap string string).
Let R' : EvidenceReader W := with_secret_values g R.
Context `{!ObjectClient W IncidentSpec IncidentStatus} `{!ObjectClient W ProblemCaseSpec ProblemCaseStatus}.
Context (errText : goerr -> string) (LogTailLines PrevLogLines : Z).
Context (shuffle : string -> list string -> list string) (range : gmap string goerr -> list (string * goerr))
  (sum8 : string -> string) (graph_range : ranger).
Implicit Types w : W.

(** Whether a Secret is there does not depend on what is in it. *)
Lemma secret_error ns n w : error_of (@get_Secret W R' ns n w) = error_of (@get_Secret W R ns n w).
Proof using Type. simpl. by destruct (get_Secret ns n w). Qed.
Lemma secret_missing ns n w : is_missing (@get_Secret W R' ns n w) = is_missing (@get_Secret W R ns n w).
Proof using Type. simpl. by destruct (get_Secret ns n w). Qed.

Lemma dependency_exists_same ns dep w : @dependency_exists W R' ns dep w = @dependency_exists W R ns dep w.
Proof using Type. unfold dependency_exists. by rewrite secret_error. Qed.
Lemma template_fields_same ns s w : @templateDependencyFields W R' ns s w = @templateDependencyFields W R ns s w.
Proof using Type. unfold templateDependencyFields. apply list_fmap_ext. intros i x _. by rewrite dependency_exists_same. Qed.

(** A collected field map, through [total] and [partial]. *)
Lemma partial_same {A} (f f' : A -> option (gmap string any)) r : (forall a, f a = f' a) -> partial f r = partial f' r.
Proof using Type. intros H. destruct r as [a|]; [|done]. simpl. by rewrite H. Qed.
Lemma total_same {A} (f f' : A -> gmap string any) r : (forall a, f a = f' a) -> total f r = total f' r.
Proof using Type. intros H. destruct r as [a|]; [|done]. unfold total. simpl. by rewrite H. Qed.
Lemma secret_fields_same ns n w : total secret_spec (@get_Secret W R' ns n w) = total secret_spec (@get_Secret W R ns n w).
Proof using Type. simpl. by destruct (get_Secret ns n w). Qed.
Lemma resource_spec_same ns kind name api w :
  @collectResourceSpec W R' ns kind name api w = @collectResourceSpec W R ns kind name api w.
Proof using Type.
  unfold collectResourceSpec. rewrite secret_fields_same.
  rewrite (partial_same (fun o => @deployment_spec W R' ns o w) (fun o => @deployment_spec W R ns o w));
    [|intros o; unfold deployment_spec; by rewrite template_fields_same].
  rewrite (total_same (fun o => @stateful_set_spec W R' ns o w) (fun o => @stateful_set_spec W R ns o w));
    [|intros o; unfold stateful_set_spec; by rewrite template_fields_same].
  rewrite (total_same (fun o => @daemon_set_spec W R' ns o w) (fun o => @daemon_set_spec W R ns o w));
    [|intros o; unfold daemon_set_spec; by rewrite template_fields_same].
  reflexivity.
Qed.

Lemma discovery_same root w :
  @discoverApplicationResources W R' errText range root w = @discoverApplicationResources W R errText range root w.
Proof using Type.
  unfold discoverApplicationResources. case_decide; [done|].
  assert (forall ns l wls s, @collect_entries W R' ns l wls s w = @collect_entries W R ns l wls s w) as Hc.
  { intros ns l wls s. unfold collect_entries. f_equal. apply foldl_same. intros m wl. unfold add_workload.
    case_decide; [|done]. f_equal. apply foldl_same. intros m' dep. unfold add_dependency.
    by rewrite dependency_exists_same. }
  change (@list_all W R') with (@list_all W R). by rewrite Hc.
Qed.

Lemma pod_dependencies_same ns pod w :
  @collectPodDependencies W R' shuffle ns pod w = @collectPodDependencies W R shuffle ns pod w.
Proof using Type.
  unfold collectPodDependencies. case_decide; [done|]. do 2 f_equal. apply list_fmap_ext. intros i name _.
  unfold secret_ref. by rewrite secret_missing.
Qed.
Lemma workload_same root w :
  @collectWorkloadPodLogs W R' errText LogTailLines shuffle root w = @collectWorkloadPodLogs W R errText LogTailLines shuffle root w.
Proof using Type.
  assert (forall st pod, @walk_pod W R' errText LogTailLines shuffle root w st pod = @walk_pod W R errText LogTailLines shuffle root w st pod) as Hw.
  { intros [[pods seen] pvcs] pod. unfold walk_pod. change (@belongs W R') with (@belongs W R). case_match; [done|].
    change (@walk_claim W R') with (@walk_claim W R). destruct (foldl _ _ _) as [[names seen'] pvcs'].
    unfold pod_logs_entry. by rewrite pod_dependencies_same. }
  unfold collectWorkloadPodLogs. change (@list_Pods W R') with (@list_Pods W R).
  destruct (list_Pods _ w) as [pods|]; [|done]. cbn [res_bind]. change (@rest_config W R') with (@rest_config W R).
  destruct (rest_config w); [|done]. cbn [res_bind]. change (@core_clientset W R') with (@core_clientset W R).
  destruct (core_clientset w); [|done]. cbn [res_bind]. by rewrite (foldl_same _ _ pods _ Hw).
Qed.
Lemma related_same w e : @related_evidence W errText R' w e = @related_evidence W errText R w e.
Proof using Type. unfold related_evidence. by rewrite resource_spec_same. Qed.

(** C18: No Secret value leaves the cluster with the evidence: whatever values the
    Secrets hold, under whatever keys, collecting an incident gives the same
    evidence, the same graph and the same errors. *)
Theorem secret_values_stay ns name trigger drName at_ w :
  @collect W _ _ errText LogTailLines PrevLogLines shuffle range sum8 graph_range R' ns name trigger drName at_ w =
  @collect W _ _ errText LogTailLines PrevLogLines shuffle range sum8 graph_range R ns name trigger drName at_ w.
Proof using Type.
  unfold collect. destruct (kget ns name w) as [inc|]; [|done].
  assert (@incident_evidence W _ errText LogTailLines PrevLogLines shuffle range R' ns name trigger drName at_ inc w =
    @incident_evidence W _ errText LogTailLines PrevLogLines shuffle range R ns name trigger drName at_ inc w) as ->; [|done].
  unfold incident_evidence. rewrite workload_same, discovery_same.
  destruct (select_cases _ _ _ _ _ _) as [names errs1]. destruct (match collectWorkloadPodLogs _ _ _ _ _ with Ok x => x | Err _ => _ end).
  destruct (discoverApplicationResources _ _ _ _) as [automatic errs2].
  change (@to_collect W errText R') with (@to_collect W errText R).
  change (@case_evidence W _ errText LogTailLines PrevLogLines R') with (@case_evidence W _ errText LogTailLines PrevLogLines R).
  change (@collectEvents W R') with (@collectEvents W R). change (@ingress_entries W errText R') with (@ingress_entries W errText R).
  by rewrite (mapM_ext _ _ _ (related_same w)).
Qed.
End secrecy.
