(* ===== verification/Pipeline.v ===== *)
(** * From a pending run to a settled analysis

    The worker of [DiagnosticRuns] posting to the backend of [Analysis]: the
    [EvidenceSink] the worker is proved against is [ReceiveEvidence] here, run on
    the body as the backend decodes it, and the goroutine it starts is
    [dispatchAnalysis].  Both services share the cluster, the backend alone has
    the tables. *)

From Stdlib Require Import Ascii.
From stdpp Require Import sorting.
From stdpp Require Import prelude gmap strings list.
From S2P Require Import Prelude GoBase Json Api Client Collector GraphEngine Handlers EvidenceKinds Tables Analysis RunHandlers MemBackend.
From S2P Require Import RequestLifecycle Dispatch Discovery EvidenceCollection DiagnosticRuns.

(** The body of the post, as [evidenceRequest] is decoded from it: members the
    worker does not send keep their zero values, a nil slice is sent as [null]. *)
Definition request_of (parse_time : string -> Time) (b : EvidenceBody) : evidenceRequest :=
  mkEvidenceRequest (eb_diagnosticRunId b) EmptyString (eb_incidentId b) (parse_time (eb_collectedAt b)) (eb_collectorVersion b)
    (eb_payload b) (eb_payloadBytes b) false None None
    (match eb_collectionErrors b with [] => None | errs => Some errs end).
Definition status_code {A} (r : Response A) : Z := match r with Body code _ => code | Failure code _ => code end.

Section pipeline.
Context {W : Type} `{!ObjectClient W DiagnosticRunSpec DiagnosticRunStatus} `{!ObjectClientLaws W DiagnosticRunSpec DiagnosticRunStatus}
  `{!ObjectClient W IncidentSpec IncidentStatus} `{!ObjectClient W ProblemCaseSpec ProblemCaseStatus}
  `{!ObjectClient W KubeChanStateSpec KubeChanStateStatus} `{!EvidenceReader W}
  `{!SqlDB W} `{!SqlDBLaws W} `{!Broadcaster W} `{!LLMGateway W}
  `{!SqlFrame W DiagnosticRunSpec DiagnosticRunStatus}
  `{!BroadcasterFrame W DiagnosticRunSpec DiagnosticRunStatus} `{!LLMGatewayFrame W DiagnosticRunSpec DiagnosticRunStatus}.
(* the worker *)
Context (errText : goerr -> string) (BackendAPIURL CollectorVersion : string) (LogTailLines PrevLogLines : Z).
Context (shuffle : string -> list string -> list string) (range : gmap string goerr -> list (string * goerr))
  (sum8 : string -> string) (graph_range : ranger) (marshal : Evidence -> option InvestigationGraph -> res string).
(* the backend *)
Context (DefaultNamespace LLMGatewayURL : string) (hasHub : bool) (MoodSyncer : option string) (PersonaAllowed : bool).
Context (parse_json : string -> option json) (marshal_request : llmAnalyzeRequest -> res string)
  (decode_response : string -> option llmAnalyzeResponse) (marshal_response : llmAnalyzeResponse -> string).
(* the exchange: identifier, clock readings, and where the goroutine waits *)
Context (parse_time : string -> Time) (evidenceID : string) (dispatched_at received_at : Time)
  (spawn : string * evidenceRequest -> W -> W).

#[local] Instance backend_sink : EvidenceSink W := {
  http_post url body w :=
    if decide (url = BackendAPIURL +:+ "/internal/evidence") then
      let '(resp, w1, job) := ReceiveEvidence errText DefaultNamespace LLMGatewayURL hasHub (Some (request_of parse_time body))
        evidenceID dispatched_at received_at w in
      (Ok (status_code resp), match job with Some j => spawn j w1 | None => w1 end)
    else (Ok StatusNotFound, w);
  ctx_err w := None;
}.

Abbreviation reconcile :=
  (Reconcile errText BackendAPIURL CollectorVersion LogTailLines PrevLogLines shuffle range sum8 graph_range marshal) (only parsing).
Abbreviation post := (postEvidence BackendAPIURL CollectorVersion marshal) (only parsing).

(** A reconcile that ends well has written the run twice and posted its evidence. *)
Lemma reconcile_posts name dr started now w w' :
  kget DefaultNamespace name w = Ok dr -> pending dr -> reconcile DefaultNamespace name started now w = (Finished (Ok tt), w') ->
  exists w2 ev graph errs, is_stored (completed CollectorVersion now errs (running dr)) w2 /\ tables w2 = tables w /\
    w' = (post (completed CollectorVersion now errs (running dr)) ev graph errs w2).2.
Proof using All.
  intros Hg Hp. unfold Reconcile. rewrite Hg. destruct (kget_is_stored _ _ _ _ Hg) as (Hs & _ & _). rewrite decide_False by auto.
  change (set_run_state DiagnosticRunStateRunning dr) with (running dr).
  destruct (kpatch_status dr (running dr) w) as [[dr1|e] w1] eqn:E1; [|done].
  destruct (kpatch_status_outcome dr (running dr) w _ w1 Hs eq_refl E1) as (x & Hrw & -> & Hx).
  assert (x = running dr) as -> by exact Hx. pose proof (frame_tables_patch_status _ _ _ _ _ E1) as Ht1.
  unfold run_collection. destruct (collect _ _ _ _ _ _ _ _ _ _ _ _ w1) as [[[ev graph] errs]|]; [|done].
  rewrite final_state_completed. change (set_collected CollectorVersion DiagnosticRunStateCompleted now errs (running dr))
    with (completed CollectorVersion now errs (running dr)).
  destruct (kpatch_status (running dr) _ w1) as [[dr2|e] w2] eqn:E2; [|done]. intros [= <-].
  destruct (kpatch_status_outcome (running dr) (completed CollectorVersion now errs (running dr)) w1 _ w2 (rw_after _ _ _ _ Hrw) eq_refl E2)
    as (y & Hrw2 & -> & Hy). assert (y = completed CollectorVersion now errs (running dr)) as -> by exact Hy.
  exists w2, ev, graph, errs. split_and!; [apply Hrw2| |done]. rewrite (frame_tables_patch_status _ _ _ _ _ E2). exact Ht1.
Qed.

(** What receiving evidence does when nothing fails. *)
Definition received_tables (req : evidenceRequest) (created : string) (t : Tables) : Tables :=
  set_requests (update_rows (waiting (vr_DiagnosticRunID req)) (set_in_progress (format_rfc3339 dispatched_at)) (tb_requests t))
    (set_evidence (<[evidenceID := evidence_row req created]> (tb_evidence t)) t).
Context (Hinsert : never_fails (W := W) "insert evidence") (Hstart : never_fails (W := W) "start requests")
  (Hsettle : never_fails (W := W) "settle requests")
  (Hpatch : patches_succeed (W := W) (S := DiagnosticRunSpec) (T := DiagnosticRunStatus)) (Hgateway : LLMGatewayURL <> EmptyString).
Lemma receive_works req dr w :
  vr_DiagnosticRunID req <> EmptyString -> tb_evidence (tables w) !! evidenceID = None ->
  get_run DefaultNamespace (vr_DiagnosticRunID req) w = Ok dr ->
  exists w', ReceiveEvidence errText DefaultNamespace LLMGatewayURL hasHub (Some req) evidenceID dispatched_at received_at w =
      (Body StatusCreated evidenceID, w', Some (evidenceID, req)) /\
    tables w' = received_tables req (db_now w) (tables w) /\
    get_run DefaultNamespace (vr_DiagnosticRunID req) w' = Ok (set_received req evidenceID received_at true dr).
Proof using All.
  intros Hrun Hnew Hg. unfold ReceiveEvidence. cbv zeta. rewrite decide_False by done.
  assert (configured LLMGatewayURL = true) as -> by (unfold configured; by rewrite bool_decide_eq_false_2).
  unfold exec at 1, insert_evidence_row, insert_row. rewrite Hinsert, Hnew. cbn [mbind option_bind].
  erewrite exec_works by (apply Hstart || reflexivity). cbn [snd].
  set (w2 := put_tables _ _). assert (tables w2 = received_tables req (db_now w) (tables w)) as Ht.
  { unfold w2, received_tables. rewrite !law_tables_put. done. }
  assert (get_run DefaultNamespace (vr_DiagnosticRunID req) w2 = Ok dr) as Hg2.
  { unfold get_run in *. unfold w2. rewrite !frame_put_tables. exact Hg. }
  eexists. split; [reflexivity|]. rewrite tell_tables. unfold get_run. rewrite tell_reads.
  unfold patch_received. rewrite Hg2. destruct (kget_is_stored _ _ _ _ Hg2) as (Hs & Hns & Hn).
  assert (configured LLMGatewayURL = true) as -> by (unfold configured; by rewrite bool_decide_eq_false_2).
  destruct (Hpatch dr (set_received req evidenceID received_at true dr) w2 Hs eq_refl) as [x Hx].
  destruct (kpatch_status dr _ w2) as [r w3] eqn:E. cbn in Hx |- *. rewrite Hx in E.
  destruct (kpatch_status_outcome dr (set_received req evidenceID received_at true dr) _ _ _ Hs eq_refl E) as (dr' & [_ Ha _ _] & _ & ->).
  split; [by rewrite (frame_tables_patch_status _ _ _ _ _ E)|].
  unfold is_stored in Ha. rewrite <- Hns, <- Hn. exact Ha.
Qed.

Context (Hspawn_tables : forall j w, tables (spawn j w) = tables w)
  (Hspawn_runs : forall j w ns n, kget (S := DiagnosticRunSpec) (T := DiagnosticRunStatus) ns n (spawn j w) = kget ns n w)
  (Hmarshal : forall ev graph, exists payload, marshal ev graph = Ok payload).

(** The post of a completed run, on the side of the backend. *)
Lemma post_received dr ev graph errs w :
  is_stored dr w -> obj_namespace dr = DefaultNamespace -> tb_evidence (tables w) !! evidenceID = None ->
  exists payload w1, let req := request_of parse_time (evidence_body CollectorVersion dr ev payload errs) in
    marshal ev graph = Ok payload /\ (post dr ev graph errs w).2 = spawn (evidenceID, req) w1 /\
    tables w1 = received_tables req (db_now w) (tables w) /\
    get_run DefaultNamespace (obj_name dr) w1 = Ok (set_received req evidenceID received_at true dr).
Proof using All.
  intros Hs Hns Hnew. destruct (Hmarshal ev graph) as [payload Hm]. exists payload.
  set (req := request_of parse_time (evidence_body CollectorVersion dr ev payload errs)).
  assert (obj_name dr <> EmptyString) as Hname by by eapply law_named.
  unfold is_stored in Hs. rewrite Hns in Hs.
  destruct (receive_works req dr w Hname Hnew Hs) as (w1 & Hr & Ht & Hg). exists w1. split_and!; [done| |done|done].
  unfold postEvidence. rewrite Hm. cbn -[ReceiveEvidence]. rewrite decide_True by done. fold req. rewrite Hr. done.
Qed.

(** The end of a request of the run: settled as the dispatch says. *)
Definition settled_as (state : string) (r r' : RequestRow) : Prop :=
  rq_Status r' = state /\ rq_CompletedAt r' <> None /\ rq_TriggeredBy r' = rq_TriggeredBy r /\ rq_RequestedAt r' = rq_RequestedAt r.
Lemma request_settled req created state now t id r :
  tb_requests t !! id = Some r -> rq_DiagnosticRunID r = vr_DiagnosticRunID req ->
  exists r', update_rows (of_run (vr_DiagnosticRunID req)) (set_settled state (format_rfc3339 now))
      (tb_requests (received_tables req created t)) !! id = Some r' /\ settled_as state r r'.
Proof using Type.
  intros Hr Hrun. unfold received_tables. cbn [tb_requests set_requests]. rewrite !lookup_update_rows, Hr. cbn. eexists. split; [reflexivity|].
  unfold of_run. destruct (waiting _ r); cbn; by rewrite bool_decide_eq_true_2.
Qed.

End pipeline.

(** ** At a concrete backend: the run [dr-1] of the incident [inc-1] *)
#[export] Instance up_sink : EvidenceSink MemBackend :=
  backend_sink a_text "http://backend" "kubechan" "http://gateway" true (fun _ => 0%Z) "e-1" 0 0 mb_spawn.
Definition reconcile_up : outcome * MemBackend :=
  Reconcile a_text "http://backend" "v1" 100 100 a_shuffle map_to_list a_sum in_order a_payload "kubechan" "dr-1" 1 2 up.
Lemma mb_patches_succeed : patches_succeed (W := MemBackend) (S := DiagnosticRunSpec) (T := DiagnosticRunStatus).
Proof.
  intros ob o w Hs Hm. unfold is_stored in Hs. cbn in Hs |- *. apply mem_get_ok in Hs. unfold mem_patch_status, mem_write, obj_key.
  rewrite Hs. by eexists.
Qed.
