(* ===== verification/Settings.v ===== *)
(** * Settings (handler/settings.go, llm_settings.go, llm_models.go, db/db.go)

    The settings table and the language-model settings of each user, with the
    JSON texts that are stored: [unmarshal_any] and [unmarshal_map] decode them,
    [json_text] encodes.  Go ranges over the keys of a request in any order;
    [range] gives the order of each loop. *)

From Stdlib Require Import Ascii.
From stdpp Require Import sorting.
From stdpp Require Import prelude gmap strings list.
From S2P Require Import Prelude GoBase Json JsonText Client Handlers Tables.

Definition StatusNotImplemented : Z := 501.

(** ** settings.go *)
Definition allowedSettingKeys : list string :=
  ["persona.enabled"; "persona.idle_chatter"; "persona.idle_interval_secs"; "bedrock.model_id"; "bedrock.region";
   "bedrock.thinking_budget"; "evidence.retention_days"; "analysis.retention_days"; "detector.debounce_window_secs";
   "detector.pending_threshold_secs"; "detector.unavailable_threshold_secs"].
Definition persona_keys : list string := ["persona.enabled"; "persona.idle_chatter"].
Definition detector_keys : list string :=
  ["detector.debounce_window_secs"; "detector.pending_threshold_secs"; "detector.unavailable_threshold_secs"].
Record DetectorConfig := mkDetectorConfig {
  dc_DebounceWindowSecs : Z; dc_PendingThresholdSecs : Z; dc_UnavailableThresholdSecs : Z;
}.
Definition detector_json (c : DetectorConfig) : json :=
  JObj [("debounce_window_secs", JNum (itoa (dc_DebounceWindowSecs c)));
        ("pending_threshold_secs", JNum (itoa (dc_PendingThresholdSecs c)));
        ("unavailable_threshold_secs", JNum (itoa (dc_UnavailableThresholdSecs c)))].
(** [UPDATE settings SET value = ? WHERE key = ?] *)
Definition set_setting (key value : string) (foreign_keys : bool) (t : Tables) : option (Tables * Z) :=
  match tb_settings t !! key with
  | Some _ => Some (set_settings (<[key := value]> (tb_settings t)) t, 1%Z)
  | None => Some (t, 0%Z)
  end.

Section settings.
Context {W : Type} `{!SqlDB W} `{!FloatLib}.
Context (errText : goerr -> string) (PersonaAllowed : bool) (range : string -> gmap string json -> list (string * json)).

(** The value of a setting as it is shown. *)
Definition shown (value : string) : json := match unmarshal_any value with Some v => v | None => JStr value end.
Definition Settings_Get (w : W) : Response (gmap string json) :=
  match query "settings" (fun t => map_to_list (tb_settings t)) w with
  | Err e => Failure StatusInternalServerError (errText e)
  | Ok rows => Body StatusOK (<["persona.allowed" := JBool PersonaAllowed]> (fields_map ((fun kv => (kv.1, shown kv.2)) <$> rows)))
  end.

Fixpoint update_settings (l : list (string * json)) : eff W () := fun w =>
  match l with
  | [] => (Ok tt, w)
  | (k, v) :: l' =>
      match exec "update setting" (set_setting k (json_text v)) w with
      | (Err e, w1) => (Err e, w1)
      | (Ok _, w1) => update_settings l' w1
      end
  end.
Definition Settings_Update (body : option (gmap string json)) (w : W) : Response () * W :=
  match body with
  | None => (Failure StatusBadRequest "invalid JSON body", w)
  | Some body =>
      match filter (fun kv : string * json => str_in kv.1 allowedSettingKeys = false) (range "allowed" body) with
      | (k, _) :: _ => (Failure StatusBadRequest ("unknown setting key: " +:+ k), w)
      | [] =>
          if negb PersonaAllowed && existsb (fun kv => str_in kv.1 persona_keys) (range "persona" body)
          then (Failure StatusForbidden "persona is disabled at the deployment level", w) else
          match update_settings (range "update" body) w with
          | (Err e, w1) => (Failure StatusInternalServerError (errText e), w1)
          | (Ok _, w1) => (Body StatusOK tt, w1)
          end
      end
  end.
(** [IdleMessage] *)
Definition IdleMessage : Response () := Failure StatusNotImplemented "llm-gateway not yet implemented (Phase 3B)".

(** [GetDetectorConfig]: a row counts if its text is a positive [int64]. *)
Definition positive_setting (value : string) : option Z :=
  v ← parse_json value;
  match decode_int64 0 v with Ok n => if decide (0 < n)%Z then Some n else None | Err _ => None end.
Definition setting_row (vals : gmap string Z) (row : string * string) : gmap string Z :=
  match positive_setting row.2 with Some n => <[row.1 := n]> vals | None => vals end.
Definition default_vals : gmap string Z :=
  {[ "detector.debounce_window_secs" := 30%Z; "detector.pending_threshold_secs" := 300%Z; "detector.unavailable_threshold_secs" := 300%Z ]}.
Definition GetDetectorConfig (w : W) : Response DetectorConfig :=
  let vals := match query "detector settings" (fun t => filter (fun kv : string * string => str_in kv.1 detector_keys = true)
                                                              (map_to_list (tb_settings t))) w with
              | Ok rows => foldl setting_row default_vals rows
              | Err _ => default_vals
              end in
  let val key := default 0%Z (vals !! key) in
  Body StatusOK (mkDetectorConfig (val "detector.debounce_window_secs") (val "detector.pending_threshold_secs")
                   (val "detector.unavailable_threshold_secs")).

(** ** The accessors of db.go *)
Definition SettingGet (key : string) (w : W) : res (option string) := query_row "setting" (fun t => option_list (tb_settings t !! key)) w.
Definition SettingSet (key value : string) : eff W Z := exec "set setting" (set_setting key value).
Definition SettingsAll (w : W) : res (gmap string string) :=
  match query "settings" (fun t => map_to_list (tb_settings t)) w with Ok rows => Ok (fields_map rows) | Err e => Err e end.
End settings.

(** ** llm_settings.go *)
Definition providerSecretFields (provider : string) : list string :=
  if decide (provider = "bedrock") then ["bearerToken"; "accessKeyId"; "secretAccessKey"; "sessionToken"]
  else if decide (provider = "copilot") then ["token"]
  else if decide (provider = "openai" \/ provider = "anthropic") then ["apiKey"]
  else [].
Record llmSettingsResponse := mkLlmSettingsResponse {
  ls_Provider : string; ls_Configured : bool; ls_CredFields : gmap string json;
}.
Record llmSettingsPutRequest := mkLlmSettingsPutRequest { lp_Provider : string; lp_Credentials : option (gmap string json) }.
Definition allowedProviders : list string := ["bedrock"; "copilot"; "openai"; "anthropic"].
Definition masked (provider field : string) (v : json) : json :=
  if str_in field (providerSecretFields provider)
  then match v with JStr s => if decide (s = EmptyString) then v else JStr "***" | _ => v end
  else v.
Definition mask (provider : string) (raw : gmap string json) : gmap string json := map_imap (fun k v => Some (masked provider k v)) raw.
(** [INSERT ... ON CONFLICT(user_id) DO UPDATE] *)
Definition upsert_llm (user : string) (row : LLMRow) (foreign_keys : bool) (t : Tables) : option (Tables * Z) :=
  if str_in (ll_Provider row) allowedProviders && user_ref foreign_keys (Some user) t
  then Some (set_llm (<[user := row]> (tb_llm t)) t, 1%Z) else None.

Section llm_settings.
Context {W : Type} `{!SqlDB W} `{!FloatLib}.
Context (errText : goerr -> string).

Definition llm_row (user : string) (w : W) : res (option LLMRow) := query_row "llm settings" (fun t => option_list (tb_llm t !! user)) w.
Definition LLMSettings_Get (user : string) (w : W) : Response llmSettingsResponse :=
  match llm_row user w with
  | Ok None => Body StatusOK (mkLlmSettingsResponse "bedrock" false ∅)
  | Err e => Failure StatusInternalServerError (errText e)
  | Ok (Some row) =>
      let raw := (unmarshal_map (ll_Credentials row)).1 in
      Body StatusOK (mkLlmSettingsResponse (ll_Provider row) (negb (bool_decide (raw = ∅))) (mask (ll_Provider row) raw))
  end.

(** A secret that is not supplied is kept. *)
Definition keep_secret (existing credentials : gmap string json) (field : string) : gmap string json :=
  match credentials !! field, existing !! field with
  | None, Some v => <[field := v]> credentials
  | _, _ => credentials
  end.
Definition keep_secrets (provider : string) (row : option LLMRow) (credentials : gmap string json) : gmap string json :=
  match row with
  | Some r =>
      if decide (ll_Credentials r <> EmptyString /\ ll_Provider r = provider) then
        match unmarshal_map (ll_Credentials r) with
        | (existing, true) => foldl (keep_secret existing) credentials (providerSecretFields provider)
        | _ => credentials
        end
      else credentials
  | None => credentials
  end.
Definition has_api_key (credentials : gmap string json) : bool :=
  match credentials !! "apiKey" with
  | Some (JStr key) => negb (str_in key [EmptyString; "***"])
  | _ => false
  end.
Definition LLMSettings_Put (body : option llmSettingsPutRequest) (user : string) (w : W) : Response () * W :=
  match body with
  | None => (Failure StatusBadRequest "invalid JSON body", w)
  | Some req =>
      let provider := lp_Provider req in
      if negb (str_in provider allowedProviders)
      then (Failure StatusBadRequest "provider must be one of: bedrock, copilot, openai, anthropic", w) else
      let credentials := keep_secrets provider (scanned (llm_row user w)) (default ∅ (lp_Credentials req)) in
      if decide ((provider = "openai" \/ provider = "anthropic") /\ has_api_key credentials = false)
      then (Failure StatusBadRequest "apiKey is required for this provider", w) else
      match exec "upsert llm settings" (upsert_llm user (mkLLMRow provider (json_text (map_json credentials)))) w with
      | (Err e, w1) => (Failure StatusInternalServerError (errText e), w1)
      | (Ok _, w1) => (Body StatusOK tt, w1)
      end
  end.
End llm_settings.

(** ** llm_models.go *)
Record llmModelEntry := mkLlmModelEntry { lm_ID : string; lm_Label : string }.
Definition llmModels : list (string * list llmModelEntry) :=
  [("openai", [mkLlmModelEntry "gpt-4.1" "GPT-4.1"; mkLlmModelEntry "gpt-4.1-mini" "GPT-4.1 mini";
               mkLlmModelEntry "gpt-4.1-nano" "GPT-4.1 nano"; mkLlmModelEntry "gpt-4o" "GPT-4o"]);
   ("anthropic", [mkLlmModelEntry "claude-sonnet-4-6" "Claude Sonnet 4.6"; mkLlmModelEntry "claude-sonnet-4-5" "Claude Sonnet 4.5";
                  mkLlmModelEntry "claude-haiku-4-5" "Claude Haiku 4.5"; mkLlmModelEntry "claude-opus-4-6" "Claude Opus 4.6"]);
   ("copilot", [mkLlmModelEntry "gpt-4.1" "GPT-4.1"; mkLlmModelEntry "gpt-5-mini" "GPT-5 mini"; mkLlmModelEntry "gpt-5.2" "GPT-5.2";
                mkLlmModelEntry "gpt-5.2-codex" "GPT-5.2 Codex"; mkLlmModelEntry "gpt-5.3-codex" "GPT-5.3 Codex";
                mkLlmModelEntry "gpt-5.4" "GPT-5.4"; mkLlmModelEntry "gpt-5.4-mini" "GPT-5.4 mini"; mkLlmModelEntry "gpt-5.5" "GPT-5.5";
                mkLlmModelEntry "claude-haiku-4.5" "Claude Haiku 4.5"; mkLlmModelEntry "claude-sonnet-4.5" "Claude Sonnet 4.5";
                mkLlmModelEntry "claude-sonnet-4.6" "Claude Sonnet 4.6"; mkLlmModelEntry "claude-opus-4.5" "Claude Opus 4.5";
                mkLlmModelEntry "claude-opus-4.6" "Claude Opus 4.6"; mkLlmModelEntry "claude-opus-4.7" "Claude Opus 4.7";
                mkLlmModelEntry "gemini-2.5-pro" "Gemini 2.5 Pro"; mkLlmModelEntry "gemini-3-flash" "Gemini 3 Flash";
                mkLlmModelEntry "gemini-3.1-pro" "Gemini 3.1 Pro"; mkLlmModelEntry "grok-code-fast-1" "Grok Code Fast 1"]);
   ("bedrock", [mkLlmModelEntry "qwen3-32b" "Qwen3 32B"; mkLlmModelEntry "qwen3-235b" "Qwen3 235B";
                mkLlmModelEntry "claude-sonnet-6" "Claude Sonnet 4.6"])].
Definition GetLLMModels : Response (list (string * list llmModelEntry)) := Body StatusOK llmModels.
(** Models are offered for exactly the providers that can be chosen, and for
    each provider under distinct identifiers. *)
Lemma models_of_allowed_providers :
  llmModels.*1 ≡ₚ allowedProviders /\ Forall (fun x : string * list llmModelEntry => NoDup (lm_ID <$> x.2)) llmModels.
Proof.
  split; [apply NoDup_Permutation; [by apply (bool_decide_unpack _); vm_compute..|]; intros x; cbn; set_solver|].
  repeat constructor; by apply (bool_decide_unpack _); vm_compute.
Qed.
