(* ===== verification/SettingsProofs.v ===== *)
(** * Properties of the settings

    What an update of the settings does, that the thresholds an administrator
    sets reach the watcher ([WatcherConfig.Refresh] on the answer of
    [GetDetectorConfig]), and that the stored credentials of a user come back
    with their secrets masked and only so. *)

From Stdlib Require Import Ascii.
From stdpp Require Import sorting.
From stdpp Require Import prelude gmap strings list.
From S2P Require Import Prelude GoBase Json JsonText Api Client WatcherConfig Handlers Tables Analysis MemBackend Settings.

(** The order of a loop over a map is some order of its entries. *)
Definition ranges (range : string -> gmap string json -> list (string * json)) : Prop := forall l m, range l m ≡ₚ map_to_list m.

Section updates.
Context {W : Type} `{SD : !SqlDB W} `{SL : !SqlDBLaws W} `{FL : !FloatLib}.
Context (errText : goerr -> string) (PersonaAllowed : bool) (range : string -> gmap string json -> list (string * json)).
Implicit Types (w : W) (m : gmap string json).

(** The settings with the values of [m] in the rows there are. *)
Definition with_values m (s : gmap string string) : gmap string string :=
  map_imap (fun k old => Some (match m !! k with Some v => json_text v | None => old end)) s.
Lemma lookup_with_values m s k : with_values m s !! k = (fun old => match m !! k with Some v => json_text v | None => old end) <$> s !! k.
Proof using Type. unfold with_values. rewrite map_lookup_imap. by destruct (s !! k). Qed.
Lemma with_values_insert k v m s : m !! k = None -> with_values m (match s !! k with Some _ => <[k := json_text v]> s | None => s end) = with_values (<[k := v]> m) s.
Proof using Type.
  intros Hm. apply map_eq. intros k'. rewrite !lookup_with_values. destruct (decide (k' = k)) as [->|Hne].
  - rewrite lookup_insert_eq. destruct (s !! k) as [old|] eqn:E; [by rewrite lookup_insert_eq; cbn; rewrite Hm|by rewrite E].
  - rewrite lookup_insert_ne by done. destruct (s !! k); [by rewrite lookup_insert_ne|done].
Qed.
Lemma set_setting_some k v fk t : exists n, set_setting k v fk t =
  Some (set_settings (match tb_settings t !! k with Some _ => <[k := v]> (tb_settings t) | None => tb_settings t end) t, n).
Proof using Type. unfold set_setting. destruct (tb_settings t !! k) eqn:E; [by eexists|exists 0%Z]. by destruct t. Qed.

Lemma set_settings_twice a b t : set_settings a (set_settings b t) = set_settings a t.
Proof using Type. done. Qed.
(** The loop writes some of the values, and all of them when it ends well. *)
Lemma update_settings_outcome l w r w' :
  NoDup l.*1 -> update_settings l w = (r, w') ->
  exists m, m ⊆ list_to_map l /\ (r = Ok tt -> m = list_to_map l) /\
    tables w' = set_settings (with_values m (tb_settings (tables w))) (tables w).
Proof using SL.
  revert w. induction l as [|[k v] l IH]; intros w Hnd; cbn [update_settings].
  - intros [= <- <-]. exists ∅. split_and!; [done|done|]. unfold with_values. rewrite map_imap_Some. by destruct (tables w).
  - apply NoDup_cons in Hnd as [Hk Hnd]. destruct (exec _ _ w) as [[n|e] w1] eqn:E; apply exec_tables in E.
    + destruct (set_setting_some k (json_text v) (sql_foreign_keys "update setting" w) (tables w)) as [n' Hs]. rewrite Hs in E.
      injection E as Ht _. intros (m & Hm & Hall & Hw)%IH; [|done]. exists (<[k := v]> m).
      assert (m !! k = None) as Hmk.
      { apply not_elem_of_list_to_map_1 in Hk. by eapply lookup_weaken_None. }
      split_and!; [by apply insert_mono|by intros Hr; rewrite Hall|]. rewrite Hw, <- Ht, set_settings_twice.
      f_equal. cbn [tb_settings set_settings]. by apply with_values_insert.
    + subst w1. intros [= <- <-]. exists ∅. split_and!; [apply map_empty_subseteq|done|].
      unfold with_values. rewrite map_imap_Some. by destruct (tables w).
Qed.

Context (Hr : ranges range).
Lemma range_nodup l m : NoDup (range l m).*1.
Proof using Hr. rewrite (Hr l m). apply NoDup_fst_map_to_list. Qed.
Lemma range_map l m : list_to_map (range l m) = m.
Proof using Hr. rewrite <- (list_to_map_to_list m) at 2. apply list_to_map_proper; [apply range_nodup|apply Hr]. Qed.
Lemma range_elem l m k v : (k, v) ∈ range l m <-> m !! k = Some v.
Proof using Hr. rewrite (Hr l m). apply elem_of_map_to_list. Qed.
Definition known m : Prop := map_Forall (fun k _ => k ∈ allowedSettingKeys) m.
Definition personal m : Prop := exists k, is_Some (m !! k) /\ k ∈ persona_keys.
(** The outcome of the first loop and of the second. *)
Lemma unknown_keys l m :
  match filter (fun kv : string * json => str_in kv.1 allowedSettingKeys = false) (range l m) with
  | [] => known m
  | (k, _) :: _ => is_Some (m !! k) /\ k ∉ allowedSettingKeys
  end.
Proof using Hr.
  destruct (filter _ _) as [|[k v] rest] eqn:E.
  - intros k v Hkv. destruct (str_in k allowedSettingKeys) eqn:Es; [by apply bool_decide_eq_true in Es|].
    assert ((k, v) ∈ filter (fun kv : string * json => str_in kv.1 allowedSettingKeys = false) (range l m)) as Hin
      by (apply list_elem_of_filter; split; [done|by apply range_elem]).
    rewrite E in Hin. by apply elem_of_nil in Hin.
  - assert ((k, v) ∈ filter (fun kv : string * json => str_in kv.1 allowedSettingKeys = false) (range l m)) as Hin by (rewrite E; by left).
    apply list_elem_of_filter in Hin as [Hs%bool_decide_eq_false Hin%range_elem]. eauto.
Qed.
Lemma persona_loop l m : existsb (fun kv => str_in kv.1 persona_keys) (range l m) = true <-> personal m.
Proof using Hr.
  rewrite existsb_exists. unfold personal. split.
  - intros ([k v] & Hin%list_elem_of_In%range_elem & Hs%bool_decide_eq_true). eauto.
  - intros (k & [v Hkv] & Hs). exists (k, v). split; [by apply list_elem_of_In, range_elem|by apply bool_decide_eq_true].
Qed.
(** An update answered with 200 has written everything. *)
Lemma settings_update_ok m w w' :
  Settings_Update errText PersonaAllowed range (Some m) w = (Body StatusOK tt, w') ->
  tables w' = set_settings (with_values m (tb_settings (tables w))) (tables w).
Proof using SL Hr.
  unfold Settings_Update. destruct (filter _ _) as [|[k v] rest]; [|done]. destruct (negb PersonaAllowed && _); [done|].
  destruct (update_settings _ w) as [[[]|e] w1] eqn:Eu; [|done]. intros [= <-].
  destruct (update_settings_outcome _ _ _ _ (range_nodup _ _) Eu) as (written & _ & Hall & ->). rewrite range_map in Hall. by rewrite Hall.
Qed.

(** An update with an unknown key, or with a persona key where the deployment
    does not allow a persona, changes nothing; any other writes the values it has
    a row for, as their JSON text, touching nothing else, and answers 200 exactly
    when all of them are written - after an error some are. *)
Theorem settings_update_spec m w resp w' :
  Settings_Update errText PersonaAllowed range (Some m) w = (resp, w') ->
  (~ known m -> (exists k, resp = Failure StatusBadRequest ("unknown setting key: " +:+ k) /\ is_Some (m !! k) /\ k ∉ allowedSettingKeys) /\ w' = w) /\
  (known m -> PersonaAllowed = false -> personal m -> resp = Failure StatusForbidden "persona is disabled at the deployment level" /\ w' = w) /\
  (known m -> PersonaAllowed = true \/ ~ personal m ->
     exists written, written ⊆ m /\ tables w' = set_settings (with_values written (tb_settings (tables w))) (tables w) /\
       ((resp = Body StatusOK tt /\ written = m) \/ exists e, resp = Failure StatusInternalServerError (errText e))).
Proof using SL Hr.
  unfold Settings_Update. pose proof (unknown_keys "allowed" m) as Hk. destruct (filter _ (range "allowed" m)) as [|[k v] rest].
  - destruct (negb PersonaAllowed && existsb _ _) eqn:Eg.
    + apply andb_true_iff in Eg as [Ha%negb_true_iff Hp%persona_loop]. intros [= <- <-].
      split_and!; [by intros []|done|by intros _ [?|[]]; [congruence|]].
    + destruct (update_settings (range "update" m) w) as [r w1] eqn:Eu. intros H.
      assert (w1 = w') as -> by (destruct r; by injection H).
      destruct (update_settings_outcome _ _ _ _ (range_nodup _ _) Eu) as (written & Hsub & Hall & Ht). rewrite range_map in *.
      split_and!; [by intros []|intros _ -> Hpp%(persona_loop "persona"); by rewrite Hpp in Eg|].
      intros _ _. exists written. split_and!; [done|done|]. destruct r as [[]|e]; injection H as <-; [left; auto|right; eauto].
  - destruct Hk as [Hm Hn]. intros [= <- <-].
    assert (~ known m) as Hnot by (intros H; destruct Hm as [x Hx]; by eapply Hn, H).
    split_and!; [intros _; split; [|done]; by exists k|done|done].
Qed.
End updates.

(** ** From the administrator to the watcher

    The thresholds in force: each stored count of seconds that is a positive
    [int64], and 30, 300 and 300 otherwise. *)
Definition stored_seconds (key : string) (fallback : Z) (s : gmap string string) : Z :=
  default fallback (text ← s !! key; positive_setting text).
Definition stored_config (s : gmap string string) : DetectorConfig :=
  mkDetectorConfig (stored_seconds "detector.debounce_window_secs" 30 s) (stored_seconds "detector.pending_threshold_secs" 300 s)
    (stored_seconds "detector.unavailable_threshold_secs" 300 s).
Lemma positive_setting_range text n : positive_setting text = Some n -> (0 < n < 2 ^ 63)%Z.
Proof.
  unfold positive_setting. destruct (parse_json text) as [v|]; cbn; [|done]. destruct (decode_int64 0 v) as [x|] eqn:E; [|done].
  case_decide; [|done]. intros [= ->]. split; [done|]. destruct v as [| |lit| | |]; cbn in E; try done; [by injection E as <-|].
  destruct (parse_int lit) eqn:Ep; [|done]. injection E as <-. apply parse_int_range in Ep. unfold int64_range in Ep. lia.
Qed.
Lemma stored_seconds_range key fallback s : (0 < fallback < 2 ^ 63)%Z -> (0 < stored_seconds key fallback s < 2 ^ 63)%Z.
Proof.
  intros Hf. unfold stored_seconds. destruct (s !! key) as [text|]; [|done]. cbn [mbind option_bind].
  destruct (positive_setting text) as [n|] eqn:E; [exact (positive_setting_range _ _ E)|done].
Qed.
Lemma positive_setting_itoa n : (0 < n < 2 ^ 63)%Z -> positive_setting (itoa n) = Some n.
Proof.
  intros Hn. unfold positive_setting. change (itoa n) with (json_text (JNum (itoa n))). rewrite parse_print by apply itoa_valid.
  cbn [mbind option_bind decode_int64]. rewrite parse_int_itoa by (unfold int64_range; lia). by rewrite decide_True by lia.
Qed.
(** The rows of the query, in any order, decide the three values. *)
Lemma setting_rows_lookup rows vals key :
  NoDup rows.*1 ->
  foldl setting_row vals rows !! key =
    match text ← (list_to_map rows : gmap string string) !! key; positive_setting text with Some n => Some n | None => vals !! key end.
Proof.
  revert vals. induction rows as [|[k text] rows IH]; intros vals Hnd; [done|]. apply NoDup_cons in Hnd as [Hk Hnd].
  cbn [foldl list_to_map foldr uncurry]. rewrite IH by done. apply not_elem_of_list_to_map_1 in Hk. cbn [fst] in Hk.
  destruct (decide (key = k)) as [->|Hne].
  - rewrite Hk, lookup_insert_eq. cbn [mbind option_bind]. unfold setting_row. cbn [fst snd]. destruct (positive_setting text) as [n|]; [by rewrite lookup_insert_eq|done].
  - rewrite lookup_insert_ne by done. destruct (_ ≫= positive_setting); [done|]. unfold setting_row. cbn [fst snd].
    destruct (positive_setting text); [by rewrite lookup_insert_ne|done].
Qed.
Section detectors.
Context {W : Type} `{SD : !SqlDB W} `{SL : !SqlDBLaws W} `{FL : !FloatLib}.
Context (errText : goerr -> string) (PersonaAllowed : bool) (range : string -> gmap string json -> list (string * json)).
Implicit Types (w : W) (m : gmap string json).
Lemma detector_config_stored w :
  sql_fault "detector settings" w = None -> GetDetectorConfig w = Body StatusOK (stored_config (tb_settings (tables w))).
Proof using SL.
  intros Hf. unfold GetDetectorConfig, query. rewrite Hf. cbv zeta. set (rows := sql_scan _ _ _ _). set (s := tb_settings (tables w)).
  assert (rows ≡ₚ filter (fun kv : string * string => str_in kv.1 detector_keys = true) (map_to_list s)) as Hrows by apply law_sql_scan.
  assert (NoDup rows.*1) as Hnd.
  { rewrite Hrows. eapply sublist_NoDup; [apply (NoDup_fst_map_to_list s)|]. apply fmap_sublist, sublist_filter. }
  assert (forall key, key ∈ detector_keys -> (list_to_map rows : gmap string string) !! key = s !! key) as Hlook.
  { intros key Hkey. destruct (s !! key) as [text|] eqn:E.
    - apply elem_of_list_to_map_1; [done|]. rewrite Hrows. apply list_elem_of_filter. split; [by apply bool_decide_eq_true|].
      by apply elem_of_map_to_list.
    - apply not_elem_of_list_to_map_1. intros ([k text] & -> & Hin)%list_elem_of_fmap. rewrite Hrows in Hin.
      apply list_elem_of_filter in Hin as [_ Hin]. apply elem_of_map_to_list in Hin. cbn [fst] in E. by rewrite E in Hin. }
  f_equal. unfold stored_config, stored_seconds. f_equal; rewrite setting_rows_lookup, Hlook by (done || set_solver);
    destruct (_ ≫= positive_setting); done.
Qed.
(** What the watcher makes of the answer. *)
Definition answer_body (r : Response DetectorConfig) : http_outcome :=
  match r with Body code c => Answered code (parse_json (json_text (detector_json c))) | Failure code _ => Answered code None end.
Lemma refresh_stored s cfg :
  Refresh (answer_body (Body StatusOK (stored_config s))) cfg =
    (Ok tt, Set_ (dur_mul (dc_DebounceWindowSecs (stored_config s)) Second) (dur_mul (dc_PendingThresholdSecs (stored_config s)) Second)
              (dur_mul (dc_UnavailableThresholdSecs (stored_config s)) Second) cfg).
Proof using Type.
  unfold answer_body. rewrite parse_print by (unfold detector_json; cbn [json_valid forallb snd]; by rewrite !itoa_valid). cbn [Refresh]. rewrite decide_False by (intros H; by apply H).
  unfold detector_json. cbn [decode_settings].
  assert (forall key fb, (0 < fb < 2 ^ 63)%Z -> parse_int (itoa (stored_seconds key fb s)) = Some (stored_seconds key fb s)) as Hp.
  { intros key fb Hfb. apply parse_int_itoa. pose proof (stored_seconds_range key fb s Hfb). unfold int64_range. lia. }
  unfold decode_field, equal_fold, decode_int64, stored_config. cbn [dc_DebounceWindowSecs dc_PendingThresholdSecs dc_UnavailableThresholdSecs].
  rewrite !Hp by lia. done.
Qed.
(** A threshold as the watcher takes it from the settings table. *)
Definition threshold_in_force (key : string) (fallback : Z) (s : gmap string string) : Duration :=
  or_default (dur_mul (stored_seconds key fallback s) Second) (fallback * Second)%Z.
Definition detector_thresholds (cfg : Config) : list (string * Z * Duration) :=
  [("detector.debounce_window_secs", 30%Z, DebounceWindow cfg); ("detector.pending_threshold_secs", 300%Z, PendingThreshold cfg);
   ("detector.unavailable_threshold_secs", 300%Z, UnavailableThreshold cfg)].
Lemma refresh_thresholds s cfg :
  Forall (fun x : string * Z * Duration => x.2 = threshold_in_force x.1.1 x.1.2 s)
    (detector_thresholds (Refresh (answer_body (Body StatusOK (stored_config s))) cfg).2).
Proof using Type. rewrite refresh_stored. repeat constructor. Qed.

(** C16: The watcher follows the administrator.  After an update of the settings
    that was answered with 200 the next refresh of the watcher takes each updated
    threshold that is a whole number of seconds from 1 up, as far as a duration
    can hold it, and keeps the others as the table has them, whatever it had
    configured before. *)
Theorem updated_thresholds_reach_watcher m w w1 cfg :
  ranges range -> Settings_Update errText PersonaAllowed range (Some m) w = (Body StatusOK tt, w1) ->
  sql_fault "detector settings" w1 = None ->
  let '(r, cfg') := Refresh (answer_body (GetDetectorConfig w1)) cfg in
  r = Ok tt /\
  forall key fallback got, (key, fallback, got) ∈ detector_thresholds cfg' ->
    (m !! key = None -> got = threshold_in_force key fallback (tb_settings (tables w))) /\
    (forall n, m !! key = Some (JNum (itoa n)) -> is_Some (tb_settings (tables w) !! key) -> (0 < n < 2 ^ 33)%Z -> got = (n * Second)%Z).
Proof using All.
  intros Hr Hu Hf. rewrite detector_config_stored by done.
  assert (tb_settings (tables w1) = with_values m (tb_settings (tables w))) as Ht.
  { by rewrite (settings_update_ok errText PersonaAllowed range Hr m w w1 Hu). }
  rewrite Ht. set (s := with_values m _). pose proof (refresh_thresholds s cfg) as Hall. rewrite refresh_stored in *. split; [done|].
  intros key fallback got Hin. rewrite Forall_forall in Hall. specialize (Hall _ Hin). cbn in Hall. subst got.
  unfold threshold_in_force, stored_seconds, s. rewrite lookup_with_values. split.
  - intros ->. by destruct (tb_settings (tables w) !! key).
  - intros n -> [old ->] Hn. cbn [fmap option_fmap option_map mbind option_bind json_text]. rewrite positive_setting_itoa by lia.
    cbn [default from_option id]. unfold or_default, dur_mul, Second.
    rewrite wrap64_id by (unfold int64_range; lia). rewrite decide_False by lia. done.
Qed.
End detectors.

(** ** Credentials *)
Section credentials.
Context `{FL : !FloatLib} `{LL : !FloatLaws}.
Implicit Types (m existing credentials : gmap string json).

Lemma lookup_mask provider m k : mask provider m !! k = masked provider k <$> m !! k.
Proof using Type. unfold mask. rewrite map_lookup_imap. by destruct (m !! k). Qed.
Lemma keep_secret_lookup existing credentials field k :
  keep_secret existing credentials field !! k =
    match credentials !! k with Some v => Some v | None => if decide (k = field) then existing !! k else None end.
Proof using Type.
  unfold keep_secret. destruct (decide (k = field)) as [->|Hne].
  - destruct (credentials !! field) as [v|] eqn:E; [by rewrite E|]. destruct (existing !! field) eqn:E2; [by rewrite lookup_insert_eq|done].
  - destruct (credentials !! field); [by destruct (credentials !! k)|]. destruct (existing !! field); [rewrite lookup_insert_ne by done|];
      by destruct (credentials !! k).
Qed.
Lemma keep_all_lookup existing fields credentials k :
  foldl (keep_secret existing) credentials fields !! k =
    match credentials !! k with Some v => Some v | None => if decide (k ∈ fields) then existing !! k else None end.
Proof using Type.
  revert credentials. induction fields as [|field fields IH]; intros credentials; cbn [foldl].
  - rewrite decide_False by apply not_elem_of_nil. by destruct (credentials !! k).
  - rewrite IH, keep_secret_lookup. destruct (credentials !! k); [done|]. destruct (decide (k = field)) as [->|Hne].
    + rewrite (decide_True (P := field ∈ field :: fields)) by (by left). destruct (existing !! field); [done|]. by case_decide.
    + destruct (decide (k ∈ fields)); [rewrite decide_True by (by right)|rewrite decide_False by (rewrite elem_of_cons; naive_solver)]; done.
Qed.
(** The credentials an update stores: what is supplied, and the stored secrets of
    the same provider that are not. *)
Definition stored_secret (provider : string) (row : option LLMRow) (k : string) : option json :=
  match row with
  | Some r => if decide (ll_Credentials r <> EmptyString /\ ll_Provider r = provider /\ k ∈ providerSecretFields provider)
              then match unmarshal_map (ll_Credentials r) with (existing, true) => existing !! k | _ => None end
              else None
  | None => None
  end.
Lemma keep_secrets_lookup provider row credentials k :
  keep_secrets provider row credentials !! k = match credentials !! k with Some v => Some v | None => stored_secret provider row k end.
Proof using Type.
  unfold keep_secrets, stored_secret. destruct row as [r|]; [|by destruct (credentials !! k)].
  destruct (decide (ll_Credentials r <> EmptyString /\ ll_Provider r = provider)) as [[Hc Hp]|Hn].
  - destruct (unmarshal_map (ll_Credentials r)) as [existing []].
    + rewrite keep_all_lookup. destruct (credentials !! k); [done|]. destruct (decide (k ∈ providerSecretFields provider)) as [Hk|Hk];
        [by rewrite decide_True|rewrite decide_False by naive_solver; done].
    + destruct (credentials !! k); [done|]. by case_decide.
  - destruct (credentials !! k); [done|]. rewrite decide_False by naive_solver. done.
Qed.
Lemma keep_secrets_canonical provider row credentials : canonical_map credentials -> canonical_map (keep_secrets provider row credentials).
Proof using LL.
  intros Hc k v. rewrite keep_secrets_lookup. destruct (credentials !! k) as [v'|] eqn:E; [intros [= <-]; by eapply Hc|].
  unfold stored_secret. destruct row as [r|]; [|done]. case_decide; [|done].
  destruct (unmarshal_map (ll_Credentials r)) as [existing []] eqn:Eu; [|done]. apply unmarshal_map_canonical in Eu. intros Hk. by eapply Eu.
Qed.

(** Two stores of credentials that differ in their secrets only. *)
Definition same_but_secrets (provider : string) m1 m2 : Prop :=
  forall k, match m1 !! k, m2 !! k with
  | None, None => True
  | Some v1, Some v2 => v1 = v2 \/ (k ∈ providerSecretFields provider /\ exists s1 s2, v1 = JStr s1 /\ v2 = JStr s2 /\ s1 <> EmptyString /\ s2 <> EmptyString)
  | _, _ => False
  end.
Lemma mask_same provider m1 m2 : same_but_secrets provider m1 m2 -> mask provider m1 = mask provider m2.
Proof using Type.
  intros H. apply map_eq. intros k. rewrite !lookup_mask. specialize (H k).
  destruct (m1 !! k) as [v1|], (m2 !! k) as [v2|]; try done. cbn. f_equal.
  destruct H as [->|(Hk & s1 & s2 & -> & -> & H1 & H2)]; [done|]. unfold masked.
  assert (str_in k (providerSecretFields provider) = true) as -> by by apply bool_decide_eq_true. by rewrite !decide_False.
Qed.
Lemma same_but_secrets_empty provider m1 m2 : same_but_secrets provider m1 m2 -> bool_decide (m1 = ∅) = bool_decide (m2 = ∅).
Proof using Type.
  intros H. apply bool_decide_ext. split; intros ->; apply map_eq; intros k; specialize (H k); rewrite lookup_empty in *;
    [by destruct (m2 !! k)|by destruct (m1 !! k)].
Qed.
Section handlers.
Context {W : Type} `{SD : !SqlDB W} `{SL : !SqlDBLaws W}.
Context (errText : goerr -> string).

Lemma llm_row_some user (w : W) row : llm_row user w = Ok (Some row) -> tb_llm (tables w) !! user = Some row.
Proof using SL.
  intros H%query_row_some. destruct (tb_llm (tables w) !! user) as [r|]; cbn in H; [|by apply elem_of_nil in H].
  by apply list_elem_of_singleton in H as ->.
Qed.
Lemma llm_row_works user (w : W) : sql_fault "llm settings" w = None -> llm_row user w = Ok (tb_llm (tables w) !! user).
Proof using SL.
  intros Hf. unfold llm_row, query_row, query. rewrite Hf. f_equal. pose proof (law_sql_scan _ "llm settings" w (option_list (tb_llm (tables w) !! user))) as Hp.
  destruct (tb_llm (tables w) !! user) as [row|]; cbn [option_list] in *;
    [apply Permutation_singleton_r in Hp|apply Permutation_nil_r in Hp]; by rewrite Hp.
Qed.
(** C21: The answer to a user who asks for their language-model settings does not
    depend on the secrets that are stored: credentials that differ in non-empty
    secret strings only give the same answer. *)
Theorem llm_secrets_stay user (w1 w2 : W) provider m1 m2 :
  llm_row user w1 = Ok (Some (mkLLMRow provider (json_text (map_json m1)))) ->
  llm_row user w2 = Ok (Some (mkLLMRow provider (json_text (map_json m2)))) ->
  canonical_map m1 -> canonical_map m2 -> same_but_secrets provider m1 m2 ->
  LLMSettings_Get errText user w1 = LLMSettings_Get errText user w2.
Proof using LL.
  intros H1 H2 Hc1 Hc2 Hs. unfold LLMSettings_Get. rewrite H1, H2. cbn [ll_Provider ll_Credentials]. rewrite !unmarshal_map_print by done.
  cbn [fst]. by rewrite (mask_same _ _ _ Hs), (same_but_secrets_empty _ _ _ Hs).
Qed.
(** When the stored settings cannot be read, an update that omits the secrets is
    answered 200 and has erased them. *)
Theorem unread_secrets_are_erased user (w : W) m e n w1 :
  sql_fault "llm settings" w = Some e ->
  exec "upsert llm settings" (upsert_llm user (mkLLMRow "bedrock" (json_text (map_json m)))) w = (Ok n, w1) ->
  LLMSettings_Put errText (Some (mkLlmSettingsPutRequest "bedrock" (Some m))) user w = (Body StatusOK tt, w1) /\
  tb_llm (tables w1) !! user = Some (mkLLMRow "bedrock" (json_text (map_json m))).
Proof using SL.
  intros Hf E. unfold LLMSettings_Put. cbn [lp_Provider lp_Credentials default from_option id].
  assert (scanned (llm_row user w) = None) as -> by (unfold llm_row, query_row, query; by rewrite Hf).
  change (negb (str_in "bedrock" allowedProviders)) with false. cbn [keep_secrets]. rewrite decide_False by naive_solver. rewrite E. split; [done|].
  apply exec_tables in E. unfold upsert_llm in E. destruct (_ && _); [|done]. injection E as <- _. cbn. apply lookup_insert_eq.
Qed.
End handlers.
End credentials.

(** ** At a concrete backend *)
Definition in_key_order (loop : string) (m : gmap string json) : list (string * json) := map_fields m.
Lemma in_key_order_ranges : ranges in_key_order.
Proof. intros l m. apply map_fields_perm. Qed.
Definition default_settings : gmap string string :=
  {[ "persona.enabled" := "false"; "evidence.retention_days" := "7"; "detector.debounce_window_secs" := "30";
     "detector.pending_threshold_secs" := "300" ]}.
Definition with_settings (s : gmap string string) (llm : gmap string LLMRow) : MemBackend :=
  mb_set_tables (set_settings s (set_llm llm request_tables)) (backend_of (Err (ErrOther "down"))).
Definition settings_up : MemBackend := with_settings default_settings ∅.
Definition new_thresholds : gmap string json := {[ "detector.debounce_window_secs" := JNum (itoa 45); "evidence.retention_days" := JNum "14" ]}.
Definition after_update : Response () * MemBackend := Settings_Update err_text false in_key_order (Some new_thresholds) settings_up.
Lemma after_update_eq : after_update = (Body StatusOK tt, after_update.2).
Proof. assert (after_update.1 = Body StatusOK tt) as E by vm_refl. rewrite <- E. apply surjective_pairing. Qed.
Lemma new_threshold_keys k v : new_thresholds !! k = Some v -> k = "detector.debounce_window_secs" \/ k = "evidence.retention_days".
Proof.
  unfold new_thresholds. intros [[<- _]|[_ H]]%lookup_insert_Some; [by left|]. right. by apply lookup_singleton_Some in H as [<- _].
Qed.
Lemma settings_update_spec_witness :
  exists written, written ⊆ new_thresholds /\
    tables after_update.2 = set_settings (with_values written default_settings) (tables settings_up).
Proof.
  destruct (settings_update_spec err_text false in_key_order in_key_order_ranges new_thresholds settings_up _ _ after_update_eq)
    as (_ & _ & H). destruct H as (written & Hsub & Ht & _); [| |exists written; split; [exact Hsub|exact Ht]].
  - intros k v [-> | ->]%new_threshold_keys; by apply (bool_decide_unpack _); vm_compute.
  - right. intros (k & [v [-> | ->]%new_threshold_keys] & Hp); revert Hp; by apply (bool_decide_unpack _); vm_compute.
Defined.
Lemma updated_thresholds_reach_watcher_witness :
  let cfg := (Refresh (answer_body (GetDetectorConfig after_update.2)) (New 0 0 0)).2 in
  DebounceWindow cfg = (45 * Second)%Z /\ PendingThreshold cfg = (300 * Second)%Z.
Proof.
  pose proof (updated_thresholds_reach_watcher err_text false in_key_order new_thresholds settings_up after_update.2 (New 0 0 0)
    in_key_order_ranges after_update_eq eq_refl) as H.
  destruct (Refresh _ _) as [r cfg']. destruct H as [_ H]. cbn [snd]. split.
  - apply (H "detector.debounce_window_secs" 30%Z); [by left|done|by eexists|done].
  - rewrite (proj1 (H "detector.pending_threshold_secs" 300%Z _ ltac:(right; left; reflexivity)) eq_refl). vm_refl.
Defined.

Definition a_key : gmap string json := {[ "apiKey" := JStr "sk-1"; "modelId" := JStr "gpt-4o" ]}.
Definition another_key : gmap string json := {[ "apiKey" := JStr "sk-2"; "modelId" := JStr "gpt-4o" ]}.
Definition user_with (credentials : gmap string json) : MemBackend :=
  with_settings ∅ {[ "alice" := mkLLMRow "openai" (json_text (map_json credentials)) ]}.
Lemma strings_canonical (l : list (string * string)) : canonical_map (list_to_map ((fun kv => (kv.1, JStr kv.2)) <$> l)).
Proof.
  intros k v H. apply elem_of_list_to_map_2, list_elem_of_fmap in H as ([k' s] & [= -> ->] & _). apply string_canonical.
Qed.
Lemma llm_secrets_stay_witness :
  LLMSettings_Get err_text "alice" (user_with a_key) = LLMSettings_Get err_text "alice" (user_with another_key).
Proof.
  apply (llm_secrets_stay err_text "alice" _ _ "openai" a_key another_key); [reflexivity..| | |].
  - exact (strings_canonical [("apiKey", "sk-1"); ("modelId", "gpt-4o")]).
  - exact (strings_canonical [("apiKey", "sk-2"); ("modelId", "gpt-4o")]).
  - intros k. unfold a_key, another_key. destruct (decide (k = "apiKey")) as [->|Hne].
    + right. split; [by apply (bool_decide_unpack _); vm_compute|]. by exists "sk-1", "sk-2".
    + rewrite !lookup_insert_ne by done. destruct (_ !! k); [by left|done].
Defined.
Definition new_model : llmSettingsPutRequest := mkLlmSettingsPutRequest "openai" (Some {[ "modelId" := JStr "gpt-4.1" ]}).
Definition after_put : Response () * MemBackend := LLMSettings_Put err_text (Some new_model) "alice" (user_with a_key).
Lemma after_put_eq : after_put = (Body StatusOK tt, after_put.2).
Proof. assert (after_put.1 = Body StatusOK tt) as E by vm_refl. rewrite <- E. apply surjective_pairing. Qed.
