(* ===== verification/Migrations.v ===== *)
(** * The migration runner (db/db.go)

    [runMigrations] over a store that holds the names of the applied files and a
    database.  What one SQL statement does is the parameter [run], [None] being
    an error.  Every write is a statement of its own - nothing is in a transaction
    - and the process can end before any of them: the world carries the number of
    writes it lives for.  A missing table schema_migrations is the empty set of
    applied files; the reads ([fs.ReadDir], [SELECT COUNT], [ReadFile] of a file that
    was listed) change nothing and are taken to succeed. *)

From Stdlib Require Import Ascii.
From stdpp Require Import sorting.
From stdpp Require Import prelude gmap strings list.
From S2P Require Import Prelude GoBase.

Definition has_suffix (s suffix : string) : bool := has_prefix (String.rev s) (String.rev suffix).
(** An entry of the embedded directory: the statements of a file. *)
Record Entry (Stmt : Type) := mkEntry { en_Name : string; en_IsDir : bool; en_Content : list Stmt }.
Arguments mkEntry {_}.
Arguments en_Name {_}.
Arguments en_IsDir {_}.
Arguments en_Content {_}.
Record Store (D : Type) := mkStore { st_applied : gset string; st_db : D }.
Arguments mkStore {_}.
Arguments st_applied {_}.
Arguments st_db {_}.
Definition killed : goerr := ErrOther "killed".
Definition sql_error : goerr := ErrOther "SQL logic error".

Lemma filter_same_on {A} (P Q : A -> Prop) `{forall x, Decision (P x)} `{forall x, Decision (Q x)} l :
  Forall (fun x => P x <-> Q x) l -> filter P l = filter Q l.
Proof.
  induction 1 as [|x l Hx _ IH]; [done|]. rewrite !filter_cons. destruct (decide (P x)), (decide (Q x)); [by rewrite IH|tauto|tauto|done].
Qed.
Section migrations.
Context {D Stmt : Type} (run : Stmt -> D -> option D) (entries : list (Entry Stmt)).
Implicit Types (s : Store D) (w : nat * Store D).

Definition write (f : Store D -> option (Store D)) : eff (nat * Store D) () := fun w =>
  match w.1 with
  | O => (Err killed, w)
  | S n => match f w.2 with Some s => (Ok tt, (n, s)) | None => (Err sql_error, (n, w.2)) end
  end.
Definition run_statement (x : Stmt) (s : Store D) : option (Store D) := d ← run x (st_db s); Some (mkStore (st_applied s) d).
(** [INSERT INTO schema_migrations(filename)], a primary key *)
Definition record_file (filename : string) (s : Store D) : option (Store D) :=
  if decide (filename ∈ st_applied s) then None else Some (mkStore ({[filename]} ∪ st_applied s) (st_db s)).
Definition content (filename : string) : list Stmt :=
  match filter (fun e => en_Name e = filename) entries with e :: _ => en_Content e | [] => [] end.
(** The names of the files, sorted. *)
Definition files : list string :=
  sort_slice str_lt (en_Name <$> filter (fun e => negb (en_IsDir e) && has_suffix (en_Name e) ".sql" = true) entries).
Definition apply_file (filename : string) : eff (nat * Store D) () := fun w =>
  if decide (filename ∈ st_applied w.2) then (Ok tt, w) else
  match wrap ("applying migration " +:+ filename) (for_each (fun x => write (run_statement x)) (content filename)) w with
  | (Err e, w1) => (Err e, w1)
  | (Ok _, w1) => wrap ("recording migration " +:+ filename) (write (record_file filename)) w1
  end.
(** [CREATE TABLE IF NOT EXISTS schema_migrations] *)
Definition create_table : eff (nat * Store D) () := wrap "creating schema_migrations" (write Some).
Definition runMigrations : eff (nat * Store D) () := create_table ≫= fun _ => for_each apply_file files.

(** ** What a complete run does *)
Fixpoint run_all (l : list Stmt) (d : D) : option D := match l with [] => Some d | x :: l' => d' ← run x d; run_all l' d' end.
Lemma run_all_app l1 l2 d : run_all (l1 ++ l2) d = run_all l1 d ≫= run_all l2.
Proof using Type. revert d. induction l1 as [|x l1 IH]; intros d; [done|]. cbn. destruct (run x d); [apply IH|done]. Qed.
Lemma statements_ok l w n s : for_each (fun x => write (run_statement x)) l w = (Ok tt, (n, s)) <->
  exists d, run_all l (st_db w.2) = Some d /\ s = mkStore (st_applied w.2) d /\ w.1 = length l + n.
Proof using Type.
  revert w. induction l as [|x l IH]; intros [m s0]; cbn.
  - split; [intros [= <- <-]; exists (st_db s0); by destruct s0|]. intros (d & [= <-] & -> & ->). by destruct s0.
  - unfold mbind, eff_bind, write. cbn. destruct m as [|m].
    { split; [done|]. intros (d & _ & _ & E). lia. }
    unfold run_statement at 1. destruct (run x (st_db s0)) as [d1|]; cbn; [|by split; [|intros (d & E & _)]].
    rewrite IH. cbn. split; intros (d & H1 & H2 & H3); exists d; (split_and!; [done|done|lia]).
Qed.
Definition pending_files (s : Store D) (l : list string) : list string := filter (fun f => f ∉ st_applied s) l.
Lemma apply_file_ok f w n s : apply_file f w = (Ok tt, (n, s)) <->
  (f ∈ st_applied w.2 /\ w = (n, s)) \/
  (f ∉ st_applied w.2 /\ exists d, run_all (content f) (st_db w.2) = Some d /\ s = mkStore ({[f]} ∪ st_applied w.2) d /\
     w.1 = length (content f) + S n).
Proof using Type.
  unfold apply_file. destruct (decide (f ∈ st_applied w.2)) as [Hf|Hf].
  { split; [intros [= ->]; by left|]. intros [[_ ->]|[? _]]; [done|done]. }
  destruct (wrap _ _ w) as [[[]|e] [n1 s1]] eqn:E.
  - apply wrap_ok, statements_ok in E as (d & Hd & -> & Hn). unfold wrap, write, record_file. cbn. split.
    + destruct n1 as [|n1]; [done|]. rewrite decide_False by done. intros [= <- <-]. right. split; [done|]. exists d. split_and!; [done|done|lia].
    + intros [[? _]|(_ & d' & Hd' & -> & Hn')]; [done|]. assert (d' = d) as -> by congruence. assert (n1 = S n) as -> by lia.
      by rewrite decide_False.
  - split; [done|]. intros [[? _]|(_ & d & Hd & -> & Hn)]; [done|]. exfalso.
    assert (for_each (fun x => write (run_statement x)) (content f) w = (Ok tt, (S n, mkStore (st_applied w.2) d))) as Ho
      by (apply statements_ok; eauto).
    unfold wrap in E. by rewrite Ho in E.
Qed.
(** A run of some files ends well exactly when it lives for its writes and their
    statements succeed; then it applied the contents of the pending files in order
    and recorded them. *)
Definition to_run (s : Store D) (l : list string) : list Stmt := concat (content <$> pending_files s l).
Lemma apply_files_ok l w n s : NoDup l -> for_each apply_file l w = (Ok tt, (n, s)) <->
  exists d, run_all (to_run w.2 l) (st_db w.2) = Some d /\ s = mkStore (list_to_set l ∪ st_applied w.2) d /\
    w.1 = length (to_run w.2 l) + length (pending_files w.2 l) + n.
Proof using Type.
  intros Hnd. revert w. induction Hnd as [|f l Hf Hnd IH]; intros w.
  - cbn. destruct w as [m s0]. cbn. rewrite union_empty_l_L. split; [intros [= <- <-]; exists (st_db s0); by destruct s0|].
    intros (d & [= <-] & -> & ->). by destruct s0.
  - cbn [for_each]. rewrite eff_bind_ok. unfold to_run, pending_files in *. rewrite filter_cons.
    destruct (decide (f ∉ st_applied w.2)) as [Hnot|Hin].
    + assert (filter (fun g => g ∉ {[f]} ∪ st_applied w.2) l = filter (fun g => g ∉ st_applied w.2) l) as Hsame.
      { apply filter_same_on, Forall_forall. intros g Hg. assert (g <> f) by (intros ->; done). set_solver. }
      cbn [fmap list_fmap concat]. rewrite length_app, run_all_app. split.
      * intros ([] & [n1 s1] & H1 & H2). apply apply_file_ok in H1 as [[? _]|(_ & d1 & Hd1 & -> & Hn1)]; [done|].
        apply IH in H2 as (d & Hd & -> & Hn). cbn [fst snd st_applied st_db] in *. rewrite Hsame in *. exists d. rewrite Hd1. cbn.
        split_and!; [done|f_equal; set_solver|lia].
      * intros (d & Hd & -> & Hn). destruct (run_all (content f) (st_db w.2)) as [d1|] eqn:Hd1; [|done]. cbn in Hd, Hn.
        exists tt, (length (concat (content <$> filter (fun g => g ∉ st_applied w.2) l)) + length (filter (fun g => g ∉ st_applied w.2) l) + n,
          mkStore ({[f]} ∪ st_applied w.2) d1). split.
        -- apply apply_file_ok. right. split; [done|]. exists d1. split_and!; [done|done|lia].
        -- apply IH. cbn [fst snd st_applied st_db]. rewrite Hsame. exists d. split_and!; [done|f_equal; set_solver|done].
    + apply dec_stable in Hin. split.
      * intros ([] & [n1 s1] & H1 & H2). apply apply_file_ok in H1 as [[_ ->]|[? _]]; [|done].
        apply IH in H2 as (d & Hd & -> & Hn). exists d. cbn [fst snd] in *. split_and!; [done|f_equal; set_solver|done].
      * intros (d & Hd & Es & Hn). destruct w as [m s0]. exists tt, (m, s0). split; [apply apply_file_ok; by left|]. apply IH.
        exists d. split_and!; [done|rewrite Es; f_equal; set_solver|done].
Qed.

Lemma runMigrations_ok w r : runMigrations w = (Ok tt, r) <-> exists m, w.1 = S m /\ for_each apply_file files (m, w.2) = (Ok tt, r).
Proof using Type.
  unfold runMigrations, mbind, eff_bind, create_table, wrap, write. destruct w as [[|m] s]; cbn [fst snd].
  - split; [done|]. by intros (m & ? & _).
  - split; [by exists m|]. by intros (m' & [= <-] & H).
Qed.

Context (Hnames : NoDup (en_Name <$> entries)).
Lemma files_nodup : NoDup files.
Proof using Hnames.
  unfold files. rewrite sort_slice_perm. eapply sublist_NoDup; [exact Hnames|]. apply fmap_sublist, sublist_filter.
Qed.
(** A start that ends well has applied the content of each migration that was
    not applied before, once and in the order of the names, and recorded exactly
    these; a start on an up-to-date store writes nothing. *)
Theorem migrations_apply_once w n s :
  runMigrations w = (Ok tt, (n, s)) ->
  (run_all (to_run w.2 files) (st_db w.2) = Some (st_db s) /\ st_applied s = list_to_set files ∪ st_applied w.2) /\
  forall m, runMigrations (S m, s) = (Ok tt, (m, s)).
Proof using Hnames.
  intros (b & _ & H)%runMigrations_ok. apply (apply_files_ok _ _ _ _ files_nodup) in H as (d & Hd & -> & _). split; [done|].
  intros m. apply runMigrations_ok. exists m. split; [done|].
  apply (apply_files_ok _ _ _ _ files_nodup). cbn [fst snd st_applied st_db].
  assert (pending_files (mkStore (list_to_set files ∪ st_applied w.2) d) files = []) as Hp.
  { apply elem_of_nil_inv. intros f [Hf Hin]%list_elem_of_filter. apply Hf. cbn. set_solver. }
  unfold to_run. rewrite Hp. exists d. split_and!; [done|f_equal; set_solver|done].
Qed.

(** Applying and recording a migration are separate writes.  When the process
    ends between the two, every later start runs the file again from its first
    statement, and if that - like a CREATE TABLE - cannot be run twice, every later
    start fails there and changes nothing. *)
Theorem interrupted_migration_blocks_every_start s before f after x rest d :
  files = before ++ f :: after -> Forall (fun g => g ∈ st_applied s) before -> f ∉ st_applied s ->
  content f = x :: rest -> run_all (content f) (st_db s) = Some d -> run x d = None ->
  runMigrations (S (length (content f)), s) = (Err (ErrWrap ("recording migration " +:+ f) killed), (0, mkStore (st_applied s) d)) /\
  forall m, exists e m', runMigrations (m, mkStore (st_applied s) d) = (Err e, (m', mkStore (st_applied s) d)).
Proof using Type.
  intros Hfiles Hbefore Hf Hx Hd Hagain.
  assert (Hrun : forall m s', runMigrations (S m, s') = for_each apply_file (before ++ f :: after) (m, s')) by (intros; unfold runMigrations; by rewrite Hfiles).
  assert (Hskip : forall db m, for_each apply_file (before ++ f :: after) (m, mkStore (st_applied s) db) =
    for_each apply_file (f :: after) (m, mkStore (st_applied s) db)).
  { intros db m. clear Hfiles Hrun. induction Hbefore as [|g l Hg _ IH]; [done|]. cbn [app for_each]. unfold mbind at 1, eff_bind.
    unfold apply_file at 1. cbn [snd st_applied]. rewrite decide_True by done. exact IH. }
  split.
  - destruct s as [applied db]. cbn [st_applied st_db] in *. rewrite Hrun, Hskip. cbn [for_each]. unfold mbind, eff_bind, apply_file.
    cbn [snd st_applied]. rewrite decide_False by done.
    assert (for_each (fun y => write (run_statement y)) (content f) (length (content f), mkStore applied db) = (Ok tt, (0, mkStore applied d))) as Ho.
    { apply statements_ok. exists d. split_and!; [done|done|cbn; lia]. }
    apply (wrap_ok ("applying migration " +:+ f)) in Ho. rewrite Ho. done.
  - intros [|m]; [by eexists _, _|]. rewrite Hrun, Hskip. cbn [for_each]. unfold mbind, eff_bind, apply_file. cbn [snd st_applied]. rewrite decide_False by done.
    rewrite Hx. cbn [for_each]. unfold wrap, mbind, eff_bind, write, run_statement. cbn [fst snd st_db].
    destruct m as [|m]; [by eexists _, _|]. rewrite Hagain. cbn. by eexists _, _.
Qed.
End migrations.

(** C34: Starting an older version and then a newer one, whose further migrations
    have later names, leaves the same store as starting the newer one at once. *)
Theorem upgrade_equals_fresh_start {D Stmt} (run : Stmt -> D -> option D) (old new : list (Entry Stmt)) added w n s1 m k s2 :
  NoDup (en_Name <$> old) -> NoDup (en_Name <$> new) ->
  files new = files old ++ added -> (forall f, f ∈ files old -> content new f = content old f) ->
  runMigrations run old w = (Ok tt, (n, s1)) -> runMigrations run new (m, s1) = (Ok tt, (k, s2)) ->
  exists b, runMigrations run new (b, w.2) = (Ok tt, (0, s2)).
Proof.
  intros Ho Hn Hf Hc H1 H2. pose proof (files_nodup old Ho) as Hno. pose proof (files_nodup new Hn) as Hnn.
  apply runMigrations_ok in H1 as (b1 & _ & H1). apply runMigrations_ok in H2 as (b2 & _ & H2).
  apply (apply_files_ok run old _ _ _ _ Hno) in H1 as (d1 & Hd1 & -> & _). apply (apply_files_ok run new _ _ _ _ Hnn) in H2 as (d2 & Hd2 & -> & _).
  cbn [fst snd st_applied st_db] in *. rewrite Hf in Hd2, Hnn. apply NoDup_app in Hnn as (_ & Hdisj & _).
  exists (S (length (to_run new w.2 (files new)) + length (pending_files w.2 (files new)) + 0)). apply runMigrations_ok.
  eexists. split; [done|]. cbn [snd].
  apply (apply_files_ok run new _ _ _ _ (files_nodup new Hn)). exists d2. cbn [fst snd]. split_and!; [|f_equal; rewrite Hf; set_solver|done].
  unfold to_run, pending_files in *. rewrite Hf, filter_app, fmap_app, concat_app, run_all_app.
  assert (filter (fun g => g ∉ list_to_set (files old) ∪ st_applied w.2) (files old ++ added) = filter (fun g => g ∉ st_applied w.2) added) as Ha.
  { rewrite filter_app. assert (filter (fun g => g ∉ list_to_set (files old) ∪ st_applied w.2) (files old) = []) as ->.
    { apply elem_of_nil_inv. intros g [Hg Hin]%list_elem_of_filter. set_solver. }
    apply filter_same_on, Forall_forall. intros g Hg. specialize (Hdisj g). set_solver. }
  cbn [st_applied] in Hd2. rewrite Ha in Hd2.
  assert (content new <$> filter (fun g => g ∉ st_applied w.2) (files old) = content old <$> filter (fun g => g ∉ st_applied w.2) (files old)) as ->.
  { apply list_fmap_ext. intros i g Hg%list_elem_of_lookup_2. apply list_elem_of_filter in Hg as [_ Hg]. by apply Hc. }
  by rewrite Hd1.
Qed.

(** ** Witnesses: statements that create a table, each only once *)
Definition create (table : string) (db : gset string) : option (gset string) := if decide (table ∈ db) then None else Some ({[table]} ∪ db).
Definition first_version : list (Entry string) :=
  [mkEntry "README.md" false []; mkEntry "002_results.sql" false ["analysis_results"; "evidence"]; mkEntry "001_init.sql" false ["users"]].
Definition second_version : list (Entry string) := first_version ++ [mkEntry "archive.sql" true []; mkEntry "003_rating.sql" false ["rating"]].
Definition fresh : Store (gset string) := mkStore ∅ ∅.
Definition started (entries : list (Entry string)) : Store (gset string) := (runMigrations create entries (20, fresh)).2.2.
Lemma first_start : runMigrations create first_version (20, fresh) = (Ok tt, (14, started first_version)).
Proof. vm_refl. Qed.
Lemma migrations_apply_once_witness :
  NoDup (en_Name <$> first_version) /\ st_db (started first_version) = {["users"; "analysis_results"; "evidence"]} /\
  runMigrations create first_version (8, started first_version) = (Ok tt, (7, started first_version)).
Proof.
  assert (NoDup (en_Name <$> first_version)) as Hn by (by_decide).
  split_and!; [exact Hn|vm_refl|]. exact (proj2 (migrations_apply_once create first_version Hn _ _ _ first_start) 7).
Defined.
Lemma interrupted_migration_blocks_every_start_witness :
  let s := mkStore {["001_init.sql"]} {["users"; "analysis_results"; "evidence"]} in
  runMigrations create first_version (3, mkStore {["001_init.sql"]} {["users"]}) =
    (Err (ErrWrap "recording migration 002_results.sql" killed), (0, s)) /\
  forall m, exists e m', runMigrations create first_version (m, s) = (Err e, (m', s)).
Proof.
  exact (interrupted_migration_blocks_every_start create first_version (mkStore {["001_init.sql"]} {["users"]})
    ["001_init.sql"] "002_results.sql" [] "analysis_results" ["evidence"] {["users"; "analysis_results"; "evidence"]}
    ltac:(vm_refl) ltac:(by_decide)
    ltac:(by_decide) ltac:(vm_refl) ltac:(vm_refl) ltac:(vm_refl)).
Defined.
Lemma upgrade_equals_fresh_start_witness :
  runMigrations create second_version (9, started first_version) = (Ok tt, (6, started second_version)) /\
  exists b, runMigrations create second_version (b, fresh) = (Ok tt, (0, started second_version)).
Proof.
  assert (runMigrations create second_version (9, started first_version) = (Ok tt, (6, started second_version))) as Hs by vm_refl.
  split; [exact Hs|].
  exact (upgrade_equals_fresh_start create first_version second_version ["003_rating.sql"] (20, fresh) 14 (started first_version) 9 6 (started second_version)
    ltac:(by_decide) ltac:(by_decide) ltac:(vm_refl)
    ltac:(intros f Hf; vm_compute in Hf; repeat (inversion Hf as [|? ? ? Hf']; subst; [vm_refl|clear Hf; rename Hf' into Hf]); inversion Hf)
    first_start Hs).
Defined.
