(* ===== verification/Resources.v ===== *)
(** * Listing the cluster's resources (handler/resources.go)

    The resource picker: namespaces, the kinds that can be listed, and the
    resources of a kind.  The Kubernetes client, discovery and the dynamic client
    are parameters ([ResourceReader]); [schema.ParseGroupVersion] is one of them.
    A nil slice is written as JSON null, which [kinds_json] keeps. *)

From Stdlib Require Import Ascii.
From stdpp Require Import sorting.
From stdpp Require Import prelude gmap strings list.
From S2P Require Import Prelude GoBase Json Handlers.

(** [metav1.APIResource] and [metav1.APIResourceList] *)
Record APIKind := mkAPIKind { ak_Name : string; ak_Kind : string; ak_Namespaced : bool; ak_Verbs : list string }.
Record APIKinds := mkAPIKinds { as_GroupVersion : string; as_Resources : list APIKind }.
Record ResourceID := mkResourceID { ri_Group : string; ri_Version : string; ri_Resource : string }.
Class ResourceReader (W : Type) := {
  list_namespaces : W -> res (list string);
  (** the typed [List] of a kind in a namespace: the names *)
  list_names : string -> string -> W -> res (list string);
  new_discovery_client : W -> res ();
  (** [ServerPreferredNamespacedResources], whose error is ignored *)
  preferred_kinds : W -> list APIKinds;
  parse_gv : string -> res (string * string);
  new_dynamic_client : W -> res ();
  (** the dynamic [List]: names with namespaces *)
  dynamic_list : ResourceID -> string -> W -> res (list (string * string));
}.
#[export] Hint Mode ResourceReader ! : typeclass_instances.

Definition controlPlaneNamespaces : list string := ["kube-system"; "kube-public"; "kube-node-lease"; "local-path-storage"].
Record kindItem := mkKindItem { ki_Kind : string; ki_APIGroup : string }.
Record resourceItem := mkResourceItem { it_Name : string; it_Namespace : string }.
(** The kinds of the switch of [listByKindTyped]. *)
Definition typed_kinds : list string :=
  ["Deployment"; "StatefulSet"; "DaemonSet"; "Job"; "CronJob"; "Pod"; "Service"; "PersistentVolumeClaim"; "ConfigMap"; "Ingress"].

Definition hasVerbs (verbs required : list string) : bool := forallb (fun req => str_in req verbs) required.
Definition toItems (ns : string) (names : list string) : list resourceItem := (fun n => mkResourceItem n ns) <$> names.
(** [strings.HasPrefix(err.Error(), ...)] of the error of an unknown kind *)
Lemma unsupported_prefix s : has_prefix ("unsupported kind: " +:+ s) "unsupported kind" = true.
Proof. by destruct s. Qed.
Definition kind_key (i : kindItem) : string := ki_Kind i +:+ "/" +:+ ki_APIGroup i.
Definition kind_pair (i : kindItem) : string * string := (ki_Kind i, ki_APIGroup i).
#[export] Instance kind_pair_inj : Inj (=) (=) kind_pair.
Proof. intros [k1 g1] [k2 g2] [= -> ->]. done. Qed.
Definition kinds_json (items : list kindItem) : json :=
  match items with
  | [] => JNull
  | _ => JArr ((fun i => JObj [("kind", JStr (ki_Kind i)); ("apiGroup", JStr (ki_APIGroup i))]) <$> items)
  end.

Section resources.
Context {W : Type} `{!ResourceReader W} (errText : goerr -> string).

Definition ListNamespaces (w : W) : Response (list string) :=
  match list_namespaces w with
  | Err e => Failure StatusInternalServerError (errText e)
  | Ok names => Body StatusOK (filter (fun n => str_in n controlPlaneNamespaces = false) names)
  end.

(** ** ListKinds *)
Definition matches_kind (q : string) (r : APIKind) : bool :=
  ak_Namespaced r && hasVerbs (ak_Verbs r) ["get"; "list"] && (bool_decide (q = EmptyString) || has_prefix (to_lower (ak_Kind r)) q).
(** The keys seen and the items found so far. *)
Definition add_kind (q group : string) (st : list string * list kindItem) (r : APIKind) : list string * list kindItem :=
  let item := mkKindItem (ak_Kind r) group in
  if matches_kind q r then
    if str_in (kind_key item) st.1 then st else (kind_key item :: st.1, st.2 ++ [item])
  else st.
Definition add_kinds (q : string) (st : list string * list kindItem) (l : APIKinds) : list string * list kindItem :=
  match parse_gv (W := W) (as_GroupVersion l) with
  | Err _ => st
  | Ok (group, _) => foldl (add_kind q group) st (as_Resources l)
  end.
Definition found_kinds (q : string) (lists : list APIKinds) : list kindItem := (foldl (add_kinds q) ([], []) lists).2.
Definition kind_less (a b : kindItem) : bool :=
  if decide (ki_Kind a <> ki_Kind b) then str_lt (ki_Kind a) (ki_Kind b) else str_lt (ki_APIGroup a) (ki_APIGroup b).
Definition ListKinds (query : string) (w : W) : Response json :=
  let q := to_lower (trim_space query) in
  match new_discovery_client w with
  | Err e => Failure StatusInternalServerError ("creating discovery client: " +:+ errText e)
  | Ok _ => Body StatusOK (kinds_json (sort_slice kind_less (found_kinds q (preferred_kinds w))))
  end.

(** ** ListResources *)
Definition listByKindTyped (ns kind : string) (w : W) : res (list resourceItem) :=
  if str_in kind typed_kinds then
    match list_names kind ns w with Err e => Err e | Ok names => Ok (toItems ns names) end
  else Err (ErrOther ("unsupported kind: " +:+ kind)).
Definition find_kind (kind apiGroup : string) (l : APIKinds) : option ResourceID :=
  match parse_gv (W := W) (as_GroupVersion l) with
  | Err _ => None
  | Ok (group, version) =>
      if decide (apiGroup <> EmptyString /\ group <> apiGroup) then None
      else match filter (fun r => equal_fold (ak_Kind r) kind && hasVerbs (ak_Verbs r) ["get"; "list"] = true) (as_Resources l) with
           | r :: _ => Some (mkResourceID group version (ak_Name r))
           | [] => None
           end
  end.
Definition listByKindDynamic (ns kind apiGroup : string) (w : W) : res (list resourceItem) :=
  match new_discovery_client w with
  | Err e => Err (ErrWrap "creating discovery client" e)
  | Ok _ =>
      match omap (find_kind kind apiGroup) (preferred_kinds w) with
      | [] => Err (ErrOther ("kind " +:+ go_quote kind +:+ " (apiGroup " +:+ go_quote apiGroup +:+ ") not found in cluster"))
      | gvr :: _ =>
          match new_dynamic_client w with
          | Err e => Err (ErrWrap "creating dynamic client" e)
          | Ok _ =>
              match dynamic_list gvr ns w with
              | Err e => Err (ErrWrap ("listing " +:+ ns +:+ "/" +:+ kind) e)
              | Ok l => Ok ((fun x => mkResourceItem x.1 x.2) <$> l)
              end
          end
      end
  end.
Definition ListResources (ns kindParam apiGroupParam : string) (w : W) : Response (list resourceItem) :=
  let kind := trim_space kindParam in
  let apiGroup := trim_space apiGroupParam in
  let dynamic :=
    match listByKindDynamic ns kind apiGroup w with
    | Err e => Failure StatusInternalServerError (errText e)
    | Ok items => Body StatusOK items
    end in
  if decide (kind = EmptyString) then Failure StatusBadRequest "kind query parameter is required"
  else if decide (apiGroup = EmptyString) then
    match listByKindTyped ns kind w with
    | Ok items => Body StatusOK items
    | Err e => if has_prefix (errText e) "unsupported kind" then dynamic else Failure StatusInternalServerError (errText e)
    end
  else dynamic.
End resources.

(** ** The kinds on offer *)
Section offered.
Context {W : Type} `{!ResourceReader W} (errText : goerr -> string).

(** Discovery reports a namespaced kind that can be fetched and listed and whose
    name starts with the query, whatever the case of its letters. *)
Definition offered (q : string) (lists : list APIKinds) (i : kindItem) : Prop :=
  exists l version r, l ∈ lists /\ parse_gv (W := W) (as_GroupVersion l) = Ok (ki_APIGroup i, version) /\
    r ∈ as_Resources l /\ ak_Kind r = ki_Kind i /\ matches_kind q r = true.
(** Names of kinds contain no slash. *)
Definition plain_kinds (lists : list APIKinds) : Prop :=
  Forall (fun l => Forall (fun r => no_byte "/"%char (ak_Kind r)) (as_Resources l)) lists.

Lemma kind_key_inj i j : no_byte "/"%char (ki_Kind i) -> no_byte "/"%char (ki_Kind j) -> kind_key i = kind_key j -> i = j.
Proof using Type.
  intros Hi Hj E. destruct i as [k1 g1], j as [k2 g2]. cbn [ki_Kind] in *.
  apply (f_equal (cut_on "/"%char)) in E. unfold kind_key in E. cbn [ki_Kind ki_APIGroup] in E.
  change (k1 +:+ "/" +:+ g1) with (k1 +:+ String "/" g1) in E. change (k2 +:+ "/" +:+ g2) with (k2 +:+ String "/" g2) in E.
  rewrite !cut_on_app in E by done. congruence.
Qed.

(** What the two loops keep: [P] holds of exactly the items found, which are
    plain and whose keys are the keys seen, each once. *)
Record finding (P : kindItem -> Prop) (st : list string * list kindItem) : Prop := {
  fd_items : forall i, i ∈ st.2 <-> P i;
  fd_keys : forall k, k ∈ st.1 <-> exists i, i ∈ st.2 /\ k = kind_key i;
  fd_plain : forall i, i ∈ st.2 -> no_byte "/"%char (ki_Kind i);
  fd_nodup : NoDup st.2;
}.
Lemma finding_proper P Q st : (forall i, P i <-> Q i) -> finding P st -> finding Q st.
Proof using Type. intros H []. split; [|done..]. intros i. by rewrite <- H. Qed.
Lemma finding_add q group r P st : no_byte "/"%char (ak_Kind r) -> finding P st ->
  finding (fun i => P i \/ (matches_kind q r = true /\ i = mkKindItem (ak_Kind r) group)) (add_kind q group st r).
Proof using Type.
  intros Hr Hst. pose proof Hst as [Hi Hk Hp Hn]. unfold add_kind. destruct (matches_kind q r) eqn:Hm.
  2: { eapply finding_proper; [|exact Hst]. intuition done. }
  set (x := mkKindItem (ak_Kind r) group). unfold str_in. case_bool_decide as Hs.
  - apply Hk in Hs as (j & Hj & E). assert (j = x) as -> by (apply kind_key_inj; [by apply Hp|done|done]).
    eapply finding_proper; [|exact Hst]. intros i. rewrite <- (Hi i). naive_solver.
  - assert (x ∉ st.2) as Hx by (intros Hx; apply Hs, Hk; eauto). split; cbn [fst snd].
    + intros i. rewrite elem_of_app, list_elem_of_singleton, Hi. intuition.
    + intros k. rewrite elem_of_cons, Hk. setoid_rewrite elem_of_app. setoid_rewrite list_elem_of_singleton. naive_solver.
    + intros i [Hin| ->%list_elem_of_singleton]%elem_of_app; [by apply Hp|done].
    + apply NoDup_app. split_and!; [done|by intros i Hin ->%list_elem_of_singleton|apply NoDup_singleton].
Qed.
Lemma finding_list q group l P st : Forall (fun r => no_byte "/"%char (ak_Kind r)) l -> finding P st ->
  finding (fun i => P i \/ exists r, r ∈ l /\ matches_kind q r = true /\ i = mkKindItem (ak_Kind r) group) (foldl (add_kind q group) st l).
Proof using Type.
  intros Hl. revert P st. induction Hl as [|r l Hr _ IH]; intros P st Hst; cbn [foldl].
  - eapply finding_proper; [|exact Hst]. intros i. split; [by left|]. by intros [?|(r & ?%elem_of_nil & _)].
  - eapply finding_proper; [|apply IH; apply finding_add; [exact Hr|exact Hst]]. intros i. cbn beta.
    setoid_rewrite elem_of_cons. naive_solver.
Qed.
Lemma offered_cons q l lists i : offered q (l :: lists) i <-> offered q [l] i \/ offered q lists i.
Proof using Type.
  split.
  - intros (l' & v & r & [->|Hl]%elem_of_cons & H); [left|right]; (eexists _, v, r; split; [|exact H]); [by apply list_elem_of_singleton|done].
  - intros [(l' & v & r & ->%list_elem_of_singleton & H)|(l' & v & r & Hl & H)]; eexists _, v, r; (split; [|exact H]); [by left|by right].
Qed.
Lemma finding_lists q lists P st : plain_kinds lists -> finding P st ->
  finding (fun i => P i \/ offered q lists i) (foldl (add_kinds (W := W) q) st lists).
Proof using Type.
  intros Hl. revert P st. induction Hl as [|l lists Hpl _ IH]; intros P st Hst; cbn [foldl].
  - eapply finding_proper; [|exact Hst]. intros i. split; [by left|]. by intros [?|(l & v & r & ?%elem_of_nil & _)].
  - assert (finding (fun i => P i \/ offered q [l] i) (add_kinds (W := W) q st l)) as H1.
    { unfold add_kinds. destruct (parse_gv (as_GroupVersion l)) as [[group version]|e] eqn:E.
      - eapply finding_proper; [|apply finding_list; [exact Hpl|exact Hst]]. intros i. cbn beta. unfold offered.
        setoid_rewrite list_elem_of_singleton. split; (intros [?|Ho]; [by left|right]).
        + destruct Ho as (r & Hr & Hm & ->). cbn. by exists l, version, r.
        + destruct Ho as (l' & v & r & -> & E' & Hr & Hk & Hm). exists r. destruct i. cbn in *. split_and!; [done..|]. congruence.
      - eapply finding_proper; [|exact Hst]. intros i. split; [by left|].
        intros [?|(l' & v & r & ->%list_elem_of_singleton & E' & _)]; [done|congruence]. }
    eapply finding_proper; [|apply IH; exact H1]. intros i. cbn beta. pose proof (offered_cons q l lists i). tauto.
Qed.
Lemma found_kinds_finding q lists : plain_kinds lists -> finding (offered q lists) (foldl (add_kinds (W := W) q) ([], []) lists).
Proof using Type.
  intros Hl. eapply finding_proper; [|apply (finding_lists q lists (fun _ => False)); [exact Hl|]]; [intros i; naive_solver|].
  split; cbn; [by intros i; split; [intros ?%elem_of_nil|]| |by intros i ?%elem_of_nil|constructor].
  intros k. split; [by intros ?%elem_of_nil|]. by intros (i & ?%elem_of_nil & _).
Qed.
Lemma kind_less_keys a b : kind_less a b = keys_less kind_pair a b.
Proof using Type. unfold kind_less, keys_less, kind_pair. cbn. repeat case_decide; tauto || congruence. Qed.

(** The answer lists exactly the kinds on offer, each with its group once,
    ordered by kind and then group; without any it is null. *)
Theorem list_kinds_spec query (w : W) : new_discovery_client w = Ok tt -> plain_kinds (preferred_kinds w) ->
  exists items, ListKinds errText query w = Body StatusOK (kinds_json items) /\ NoDup items /\
    StronglySorted (keys_le kind_pair) items /\
    forall i, i ∈ items <-> offered (to_lower (trim_space query)) (preferred_kinds w) i.
Proof using Type.
  intros Hd Hp. unfold ListKinds. rewrite Hd. eexists. split; [done|].
  destruct (found_kinds_finding (to_lower (trim_space query)) _ Hp) as [Hi _ _ Hn]. unfold found_kinds. split_and!.
  - by rewrite sort_slice_perm.
  - rewrite (sort_slice_ext _ _ _ kind_less_keys). apply sort_keys_sorted.
  - intros i. by rewrite elem_of_sort_slice.
Qed.

(** The answer depends on what is on offer, not on the order in which
    discovery reports the groups and their kinds, nor on repetitions. *)
Theorem list_kinds_any_order query (w w' : W) :
  new_discovery_client w = Ok tt -> new_discovery_client w' = Ok tt -> plain_kinds (preferred_kinds w) ->
  (forall l, l ∈ preferred_kinds w' <-> l ∈ preferred_kinds w) -> ListKinds errText query w' = ListKinds errText query w.
Proof using Type.
  intros Hd Hd' Hp Hsame. unfold ListKinds. rewrite Hd, Hd'. do 2 f_equal. set (q := to_lower (trim_space query)).
  assert (plain_kinds (preferred_kinds w')) as Hp'.
  { apply Forall_forall. intros l Hl. apply Hsame in Hl. exact (proj1 (Forall_forall _ _) Hp l Hl). }
  destruct (found_kinds_finding q _ Hp) as [Hi _ _ Hn], (found_kinds_finding q _ Hp') as [Hi' _ _ Hn']. unfold found_kinds.
  rewrite !(sort_slice_ext _ _ _ kind_less_keys). apply sort_keys_unique.
  - apply NoDup_Permutation; [done..|]. intros i. rewrite Hi, Hi'. unfold offered. by setoid_rewrite Hsame.
  - by apply (NoDup_fmap_2 kind_pair).
Qed.

Lemma typed_kinds_are_kinds kind : kind ∈ typed_kinds -> kind <> EmptyString /\ trim_space kind = kind.
Proof using Type.
  assert (Forall (fun k => k <> EmptyString /\ trim_space k = k) typed_kinds) as H by by_decide.
  intros Hk. exact (proj1 (Forall_forall _ _) H kind Hk).
Qed.
(** The resources of a kind do not depend on how they are asked for.  When
    discovery finds the kind in one group first, the typed answer, the answer to
    another spelling of the kind and the answer for the group named are the same. *)
Theorem listing_paths_agree ns kind spelling group version resource (names : list string) (w : W) :
  (forall s, errText (ErrOther s) = s) -> kind ∈ typed_kinds ->
  spelling ∉ typed_kinds -> trim_space spelling = spelling -> to_lower spelling = to_lower kind ->
  trim_space group = group -> group <> EmptyString ->
  new_discovery_client w = Ok tt -> new_dynamic_client w = Ok tt ->
  (forall g, g = EmptyString \/ g = group -> head (omap (find_kind (W := W) kind g) (preferred_kinds w)) = Some (mkResourceID group version resource)) ->
  list_names kind ns w = Ok names -> dynamic_list (mkResourceID group version resource) ns w = Ok ((fun n => (n, ns)) <$> names) ->
  let answer := Body StatusOK (toItems ns names) in
  ListResources errText ns kind EmptyString w = answer /\ ListResources errText ns spelling EmptyString w = answer /\
  ListResources errText ns kind group w = answer.
Proof using Type.
  intros Herr Hk Hs Hts Hlow Htg Hg Hd Hdyn Hfind Hnames Hlist answer. destruct (typed_kinds_are_kinds kind Hk) as [Hne Htk].
  assert (Hdynamic : forall k g, to_lower k = to_lower kind -> g = EmptyString \/ g = group ->
    listByKindDynamic ns k g w = Ok (toItems ns names)).
  { intros k g Hkk Hgg. unfold listByKindDynamic. rewrite Hd, Hdyn. specialize (Hfind g Hgg).
    assert (forall l, find_kind (W := W) k g l = find_kind (W := W) kind g l) as Hext.
    { intros l. unfold find_kind, equal_fold. by rewrite Hkk. }
    rewrite (list_omap_ext _ (find_kind (W := W) kind g) _ (preferred_kinds w)) by (apply Forall_Forall2_diag, Forall_forall; intros; apply Hext).
    destruct (omap _ _) as [|gvr l]; [done|]. cbn in Hfind. injection Hfind as ->. rewrite Hlist. f_equal. unfold toItems.
    by rewrite <- list_fmap_compose. }
  assert (spelling <> EmptyString) as Hse.
  { intros ->. destruct kind; [done|]. done. }
  unfold ListResources. rewrite Hts, Htk, Htg. change (trim_space EmptyString) with EmptyString.
  rewrite !(decide_False (P := kind = _)), !(decide_False (P := spelling = _)), !(decide_False (P := group = _)) by (exact Hne || exact Hse || exact Hg).
  rewrite !decide_True, !Hdynamic by auto.
  unfold listByKindTyped, str_in. rewrite (bool_decide_eq_true_2 _ Hk), (bool_decide_eq_false_2 _ Hs), Hnames, Herr, unsupported_prefix. done.
Qed.

(** A kind outside the switch is looked up by discovery; one that discovery
    does not offer is an error that names it, and nothing is listed. *)
Theorem unknown_kind_is_reported ns kind apiGroup (w : W) :
  (forall s, errText (ErrOther s) = s) -> trim_space kind = kind -> kind <> EmptyString -> kind ∉ typed_kinds ->
  new_discovery_client w = Ok tt -> omap (find_kind (W := W) kind (trim_space apiGroup)) (preferred_kinds w) = [] ->
  ListResources errText ns kind apiGroup w = Failure StatusInternalServerError
    ("kind " +:+ go_quote kind +:+ " (apiGroup " +:+ go_quote (trim_space apiGroup) +:+ ") not found in cluster").
Proof using Type.
  intros Herr Ht Hne Hk Hd Hnone. unfold ListResources, listByKindDynamic, listByKindTyped, str_in.
  rewrite Ht, Hd, Hnone, (bool_decide_eq_false_2 _ Hk), decide_False, !Herr by done. by case_decide.
Qed.
End offered.

(** ** Witnesses: a cluster with two groups *)
#[export] Instance listed_reader : ResourceReader (list APIKinds) := {|
  list_namespaces w := Ok ["default"; "kube-system"];
  list_names kind ns w := Ok ["web"; "api"];
  new_discovery_client w := Ok tt;
  preferred_kinds w := w;
  parse_gv s := match cut_on "/"%char s with
                | None => Ok (EmptyString, s)
                | Some (g, v) => match cut_on "/"%char v with None => Ok (g, v) | Some _ => Err (ErrOther "unexpected GroupVersion string") end
                end;
  new_dynamic_client w := Ok tt;
  dynamic_list id ns w := Ok [("web", ns); ("api", ns)];
|}.
Definition all_verbs : list string := ["create"; "get"; "list"; "watch"].
Definition core_kinds : APIKinds := mkAPIKinds "v1"
  [mkAPIKind "bindings" "Binding" true ["create"]; mkAPIKind "services" "Service" true all_verbs; mkAPIKind "pods" "Pod" true all_verbs].
Definition apps_kinds : APIKinds := mkAPIKinds "apps/v1"
  [mkAPIKind "statefulsets" "StatefulSet" true all_verbs; mkAPIKind "deployments" "Deployment" true all_verbs].
Definition two_groups : list APIKinds := [core_kinds; mkAPIKinds "a/b/c" [mkAPIKind "odds" "Odd" true all_verbs]; apps_kinds; apps_kinds].
Definition text_of (e : goerr) : string := match e with ErrOther s => s | _ => "error" end.
Definition s_kinds : json :=
  JArr [JObj [("kind", JStr "Service"); ("apiGroup", JStr EmptyString)]; JObj [("kind", JStr "StatefulSet"); ("apiGroup", JStr "apps")]].
Lemma two_groups_plain : plain_kinds two_groups.
Proof. repeat (constructor; cbn); done. Qed.
Lemma list_kinds_spec_witness :
  ListKinds text_of " S" two_groups = Body StatusOK s_kinds /\
  exists items, ListKinds text_of " S" two_groups = Body StatusOK (kinds_json items) /\ NoDup items /\
    StronglySorted (keys_le kind_pair) items /\ forall i, i ∈ items <-> offered (W := list APIKinds) "s" two_groups i.
Proof. split; [vm_refl|]. exact (list_kinds_spec text_of " S" two_groups eq_refl two_groups_plain). Defined.
Lemma list_kinds_any_order_witness : ListKinds text_of EmptyString [apps_kinds; core_kinds] = ListKinds text_of EmptyString [core_kinds; apps_kinds; core_kinds].
Proof.
  apply (list_kinds_any_order (W := list APIKinds) (ResourceReader0 := listed_reader) text_of EmptyString [core_kinds; apps_kinds; core_kinds] [apps_kinds; core_kinds] eq_refl eq_refl).
  - repeat (constructor; cbn); done.
  - intros l. cbn. rewrite !elem_of_cons. split; intuition.
Defined.
Lemma listing_paths_agree_witness :
  let answer := Body StatusOK [mkResourceItem "web" "default"; mkResourceItem "api" "default"] in
  ListResources text_of "default" "Deployment" EmptyString two_groups = answer /\
  ListResources text_of "default" "deployment" EmptyString two_groups = answer /\
  ListResources text_of "default" "Deployment" "apps" two_groups = answer.
Proof.
  apply (listing_paths_agree (ResourceReader0 := listed_reader) text_of "default" "Deployment" "deployment" "apps" "v1" "deployments" ["web"; "api"] two_groups);
    try reflexivity; try by_decide; try done.
  intros g [->| ->]; vm_refl.
Defined.
Lemma unknown_kind_is_reported_witness :
  ListResources text_of "default" "Widget" "apps" two_groups =
    Failure StatusInternalServerError ("kind " +:+ go_quote "Widget" +:+ " (apiGroup " +:+ go_quote "apps" +:+ ") not found in cluster").
Proof. apply (unknown_kind_is_reported (ResourceReader0 := listed_reader) text_of "default" "Widget" "apps" two_groups); try reflexivity; by_decide || done. Defined.
