(* ===== verification/Users.v ===== *)
(** * Users and authentication (handler/auth.go, startup/admin_bootstrap.go)

    Tokens, login, the middleware, the management of users and the first
    administrator.  The JWT and bcrypt libraries, the random source and the
    cluster's Secrets are parameters: a token is signed and parsed with claims, a
    hash matches a password or not.  [Users.Delete] is given in the steps between
    which other requests can run. *)

From Stdlib Require Import Ascii.
From stdpp Require Import sorting.
From stdpp Require Import prelude gmap strings list.
From S2P Require Import Prelude GoBase Api Client Handlers Tables.

Definition StatusUnauthorized : Z := 401.
Definition StatusConflict : Z := 409.

(** ** Tokens

    [jwt.MapClaims] with the members the program writes and reads; a member that
    is missing or no string reads as the empty string. *)
Record Claims := mkClaims { cm_sub : string; cm_username : string; cm_role : string; cm_exp : Z; cm_iat : Z }.
Record AuthUser := mkAuthUser { au_UserID : string; au_Username : string; au_Role : string }.
Class TokenLib := {
  jwt_sign : string -> Claims -> res string;
  (** [jwt.Parse] at a time, HMAC methods only, expiration required *)
  jwt_parse : string -> Time -> string -> res Claims;
}.
(** A signed token parses to its claims before its expiration. *)
Class TokenLaws `{!TokenLib} := {
  law_jwt secret c raw now : jwt_sign secret c = Ok raw -> (now < cm_exp c * Second)%Z -> jwt_parse secret now raw = Ok c;
}.
Class PasswordLib := {
  (** [bcrypt.GenerateFromPassword] with the salt it draws *)
  bcrypt_hash : string -> string -> res string;
  (** [bcrypt.CompareHashAndPassword] without error *)
  bcrypt_matches : string -> string -> bool;
}.
Class PasswordLaws `{!PasswordLib} := {
  law_bcrypt salt password hash : bcrypt_hash salt password = Ok hash -> bcrypt_matches hash password = true;
}.

Section tokens.
Context `{!TokenLib} (JWT_SECRET JWT_TTL_HOURS : string).

Definition jwtTTL : Duration :=
  let h := match parse_int JWT_TTL_HOURS with Some h => if decide (h <= 0)%Z then 24%Z else h | None => 24%Z end in
  dur_mul h Hour.
(** [now.Add(jwtTTL()).Unix()] *)
Definition expiry (now : Time) : Z := ((now + jwtTTL) / Second)%Z.
Definition signToken (userID username role : string) (now : Time) : res string :=
  jwt_sign JWT_SECRET (mkClaims userID username role (expiry now) (now / Second)%Z).
Definition parseToken (raw : string) (now : Time) : res AuthUser :=
  match jwt_parse JWT_SECRET now raw with
  | Ok c => Ok (mkAuthUser (cm_sub c) (cm_username c) (cm_role c))
  | Err e => Err e
  end.

(** [strings.TrimPrefix] *)
Definition trim_prefix (s p : string) : string := if has_prefix s p then sdrop (slen p) s else s.
(** [RequireAuth], [RequireAdmin]: the handler runs for the user of the token. *)
Definition RequireAuth {W A} (authorization : string) (now : Time) (next : AuthUser -> W -> Response A * W) (w : W) : Response A * W :=
  let raw := trim_prefix authorization "Bearer " in
  if decide (raw = EmptyString) then (Failure StatusUnauthorized "missing authentication token", w) else
  match parseToken raw now with
  | Err _ => (Failure StatusUnauthorized "invalid or expired token", w)
  | Ok u => if decide (au_UserID u = EmptyString) then (Failure StatusUnauthorized "invalid or expired token", w) else next u w
  end.
Definition RequireAdmin {W A} (authorization : string) (now : Time) (next : AuthUser -> W -> Response A * W) : W -> Response A * W :=
  RequireAuth authorization now (fun u w =>
    if decide (au_Role u <> "admin") then (Failure StatusForbidden "admin role required", w) else next u w).
Definition ValidateJWTSecret : res () :=
  if decide (slen JWT_SECRET < 32) then Err (ErrOther "JWT_SECRET must be at least 32 bytes; set it via the kubechan-jwt-secret K8s Secret")
  else Ok tt.
End tokens.

(** ** Login *)
Record loginRequest := mkLoginRequest { lg_Username : string; lg_Password : string }.
Record loginResponse := mkLoginResponse { lo_Token : string; lo_Role : string; lo_Username : string }.
Record createUserRequest := mkCreateUserRequest { cu_Username : string; cu_Password : string; cu_Role : string }.
Record userResponse := mkUserResponse { ur_ID : string; ur_Username : string; ur_Role : string; ur_CreatedAt : string }.
(** The hash compared with when there is no such user. *)
Definition dummy_hash : string := "$2a$12$dummy.hash.to.burn.time.for.timing.safety.".

Section users.
Context {W : Type} `{!SqlDB W} `{!TokenLib} `{!PasswordLib}.
Context (errText : goerr -> string) (JWT_SECRET JWT_TTL_HOURS : string).

Definition named (username : string) (u : UserRow) : bool := bool_decide (us_Username u = username).
Definition is_admin (u : UserRow) : bool := bool_decide (us_Role u = "admin").
Definition Login (body : option loginRequest) (now : Time) (w : W) : Response loginResponse :=
  match body with
  | None => Failure StatusBadRequest "invalid JSON body"
  | Some req =>
      if decide (lg_Username req = EmptyString \/ lg_Password req = EmptyString) then Failure StatusBadRequest "username and password are required" else
      match query_row "login" (fun t => rows_where (named (lg_Username req)) (tb_users t)) w with
      | Ok (Some (id, u)) =>
          if bcrypt_matches (us_PasswordHash u) (lg_Password req) then
            match signToken JWT_SECRET JWT_TTL_HOURS id (lg_Username req) (us_Role u) now with
            | Ok token => Body StatusOK (mkLoginResponse token (us_Role u) (lg_Username req))
            | Err _ => Failure StatusInternalServerError "could not issue token"
            end
          else Failure StatusUnauthorized "invalid credentials"
      | _ => (* after comparing with [dummy_hash] *) Failure StatusUnauthorized "invalid credentials"
      end
  end.

(** [Me]: the caller as [RequireAuth] left it. *)
Record meResponse := mkMeResponse { me_UserID : string; me_Username : string; me_Role : string }.
Definition Me (u : AuthUser) : Response meResponse := Body StatusOK (mkMeResponse (au_UserID u) (au_Username u) (au_Role u)).

(** ** Managing users *)
Definition unique_violation : goerr := ErrOther "UNIQUE constraint failed: users.username".
(** [PRIMARY KEY], [UNIQUE(username)] and [CHECK(role IN ...)] *)
Definition insert_user (id : string) (row : UserRow) (foreign_keys : bool) (t : Tables) : option (Tables * Z) :=
  if negb (str_in (us_Role row) ["admin"; "viewer"]) then None
  else if decide (rows_where (named (us_Username row)) (tb_users t) <> []) then None
  else m ← insert_row id row (tb_users t); Some (set_users m t, 1%Z).
(** The error of a statement whose only constraints are uniqueness. *)
Definition exec_unique (label : string) (f : bool -> Tables -> option (Tables * Z)) : eff W Z := fun w =>
  match exec label f w with
  | (Err e, w1) => (Err (if decide (e = constraint_failed label) then unique_violation else e), w1)
  | ok => ok
  end.
Definition Users_Create (body : option createUserRequest) (salt id : string) (w : W) : Response userResponse * W :=
  match body with
  | None => (Failure StatusBadRequest "invalid JSON body", w)
  | Some req =>
      if decide (cu_Username req = EmptyString) then (Failure StatusBadRequest "username is required", w)
      else if decide (slen (cu_Password req) < 8) then (Failure StatusBadRequest "password must be at least 8 characters", w)
      else if decide (cu_Role req <> "admin" /\ cu_Role req <> "viewer") then (Failure StatusBadRequest "role must be 'admin' or 'viewer'", w)
      else match bcrypt_hash salt (cu_Password req) with
           | Err _ => (Failure StatusInternalServerError "could not hash password", w)
           | Ok hash =>
               match exec_unique "insert user" (insert_user id (mkUserRow (cu_Username req) hash (cu_Role req) (db_now w))) w with
               | (Err e, w1) => (if contains (errText e) "UNIQUE" then Failure StatusConflict "username already taken"
                                 else Failure StatusInternalServerError (errText e), w1)
               | (Ok _, w1) => (Body StatusCreated (mkUserResponse id (cu_Username req) (cu_Role req) EmptyString), w1)
               end
           end
  end.
Definition user_response (x : string * UserRow) : userResponse := mkUserResponse x.1 (us_Username x.2) (us_Role x.2) (us_CreatedAt x.2).
(** [ORDER BY created_at ASC] *)
Definition Users_List (w : W) : Response (list userResponse) :=
  match query "users" (fun t => map_to_list (tb_users t)) w with
  | Err e => Failure StatusInternalServerError (errText e)
  | Ok l => Body StatusOK (user_response <$> sort_slice (fun x y => str_lt (us_CreatedAt x.2) (us_CreatedAt y.2)) l)
  end.

(** [DELETE FROM users WHERE id = ?]: with foreign keys enforced it is refused
    while a request or an owned incident refers to the user, and the user's LLM
    settings go with it; otherwise only the row goes. *)
Definition referenced (id : string) (t : Tables) : bool :=
  bool_decide (rows_where (fun r => bool_decide (rq_TriggeredBy r = Some id)) (tb_requests t) <> []) ||
  bool_decide (rows_where (fun o => bool_decide (oe_OwnerID o = id)) (tb_owners t) <> []).
Definition delete_user (id : string) (foreign_keys : bool) (t : Tables) : option (Tables * Z) :=
  match tb_users t !! id with
  | None => Some (t, 0%Z)
  | Some _ =>
      if foreign_keys && referenced id t then None
      else Some (set_users (delete id (tb_users t)) (if foreign_keys then set_llm (delete id (tb_llm t)) t else t), 1%Z)
  end.
(** Where a call of [Users.Delete] stands. *)
Inductive deletion :=
  | Counting (id : string)
  | Looking (id : string) (adminCount : Z)
  | Deleting (id : string)
  | Answered (r : Response ()).
Definition delete_step (d : deletion) (w : W) : deletion * W :=
  match d with
  | Counting id =>
      if decide (id = EmptyString) then (Answered (Failure StatusBadRequest "user id is required"), w) else
      match query "admins" (fun t => rows_where is_admin (tb_users t)) w with
      | Err e => (Answered (Failure StatusInternalServerError (errText e)), w)
      | Ok l => (Looking id (Z.of_nat (length l)), w)
      end
  | Looking id adminCount =>
      match query_row "role" (fun t => option_list (tb_users t !! id)) w with
      | Err e => (Answered (Failure StatusInternalServerError (errText e)), w)
      | Ok None => (Answered (Failure StatusNotFound "user not found"), w)
      | Ok (Some u) =>
          if decide (us_Role u = "admin" /\ (adminCount <= 1)%Z) then (Answered (Failure StatusConflict "cannot delete the last admin user"), w)
          else (Deleting id, w)
      end
  | Deleting id =>
      match exec "delete user" (delete_user id) w with
      | (Err e, w1) => (Answered (Failure StatusInternalServerError (errText e)), w1)
      | (Ok _, w1) => (Answered (Body StatusNoContent tt), w1)
      end
  | Answered r => (Answered r, w)
  end.
(** [Users.Delete], uninterrupted: three steps answer it. *)
Definition Users_Delete (id : string) (w : W) : deletion * W :=
  let '(d1, w1) := delete_step (Counting id) w in let '(d2, w2) := delete_step d1 w1 in delete_step d2 w2.
End users.

(** ** The first administrator *)
Class SecretStore (W : Type) := {
  get_secret : string -> string -> W -> res (gmap string string);
  create_secret : string -> string -> gmap string string -> eff W ();
}.
#[export] Hint Mode SecretStore ! : typeclass_instances.
(** Secrets are kept apart from the tables. *)
Class SecretFrame (W : Type) `{!SecretStore W} `{!SqlDB W} := {
  frame_create_secret ns n d (w : W) r w' : create_secret ns n d w = (r, w') -> tables w' = tables w;
}.
Definition adminSecretName : string := "kubechan-admin-credentials".
Definition adminUsername : string := "admin".

(** [base64.URLEncoding] *)
Definition base64_char (n : Z) : ascii :=
  (if decide (n < 26) then byte_of (65 + n) else if decide (n < 52) then byte_of (71 + n)
   else if decide (n < 62) then byte_of (n - 4) else if decide (n = 62) then "-"%char else "_"%char)%Z.
Fixpoint base64_url (l : list Z) : string :=
  match l with
  | [] => EmptyString
  | [a] => String (base64_char (a / 4)) (String (base64_char (a mod 4 * 16)) "==")
  | [a; b] => String (base64_char (a / 4)) (String (base64_char (a mod 4 * 16 + b / 16)) (String (base64_char (b mod 16 * 4)) "="))
  | a :: b :: c :: l' =>
      String (base64_char (a / 4)) (String (base64_char (a mod 4 * 16 + b / 16))
        (String (base64_char (b mod 16 * 4 + c / 64)) (String (base64_char (c mod 64)) (base64_url l'))))
  end.
Section bootstrap.
Context {W : Type} `{!SqlDB W} `{!SecretStore W} `{!PasswordLib}.
(** [rand.Read] of so many bytes. *)
Context (random : nat -> res (list Z)).

(** [generatePassword]: [None] is the panic of a slice out of range. *)
Definition generatePassword (n : nat) : option (res string) :=
  match random ((n * 6 + 7) / 8 + 4) with
  | Err e => Some (Err e)
  | Ok b => let s := base64_url b in if decide (slen s < n) then None else Some (Ok (stake n s))
  end.
Definition resolveAdminPassword (namespace : string) (w : W) : option (res string * W) :=
  match get_secret namespace adminSecretName w with
  | Ok data =>
      let raw := mget data "password" in
      Some (if decide (raw = EmptyString)
            then Err (ErrOther ("secret " +:+ namespace +:+ "/" +:+ adminSecretName +:+ " exists but has no 'password' key"))
            else Ok raw, w)
  | Err e =>
      if negb (IsNotFound e) then Some (Err (ErrWrap ("getting secret " +:+ adminSecretName) e), w) else
      r ← generatePassword 24;
      Some (match r with
            | Err e => (Err (ErrWrap "generating random password" e), w)
            | Ok password =>
                match create_secret namespace adminSecretName {[ "password" := password ]} w with
                | (Err e, w1) => (Err (ErrWrap "creating admin credentials secret" e), w1)
                | (Ok _, w1) => (Ok password, w1)
                end
            end)
  end.
Definition EnsureAdminUser (namespace salt id : string) (w : W) : option (res () * W) :=
  match query "admins" (fun t => rows_where is_admin (tb_users t)) w with
  | Err e => Some (Err (ErrWrap "checking admin user" e), w)
  | Ok (_ :: _) => Some (Ok tt, w)
  | Ok [] =>
      '(r, w1) ← resolveAdminPassword namespace w;
      Some (match r with
            | Err e => (Err (ErrWrap "resolving admin password" e), w1)
            | Ok password =>
                match bcrypt_hash salt password with
                | Err e => (Err (ErrWrap "hashing admin password" e), w1)
                | Ok hash =>
                    match exec "insert admin" (insert_user id (mkUserRow adminUsername hash "admin" (db_now w1))) w1 with
                    | (Err e, w2) => (Err (ErrWrap "inserting admin user" e), w2)
                    | (Ok _, w2) => (Ok tt, w2)
                    end
                end
            end)
  end.
End bootstrap.
