(* ===== verification/UserProofs.v ===== *)
(** * Properties of users and authentication *)

From Stdlib Require Import Ascii.
From stdpp Require Import sorting.
From stdpp Require Import prelude gmap strings list.
From S2P Require Import Prelude GoBase Json Api Client Handlers Tables Analysis MemBackend Users.

(** ** Libraries for the witnesses

    Tokens that spell out the secret and the claims, and hashes that are the
    password behind a prefix. *)
#[export] Instance Claims_eq_dec : EqDecision Claims.
Proof. solve_decision. Defined.
#[export] Instance Claims_countable : Countable Claims.
Proof.
  by apply (inj_countable' (fun c => (cm_sub c, cm_username c, cm_role c, cm_exp c, cm_iat c))
    (fun x => let '(s, u, r, e, i) := x in mkClaims s u r e i)); intros [].
Defined.
Fixpoint spell (p : positive) : string :=
  match p with xH => "." | xO p => String "0" (spell p) | xI p => String "1" (spell p) end.
Fixpoint unspell (s : string) : option positive :=
  match s with
  | String "0" s => xO <$> unspell s
  | String "1" s => xI <$> unspell s
  | String "." EmptyString => Some xH
  | _ => None
  end.
Lemma unspell_spell p : unspell (spell p) = Some p.
Proof. induction p as [p IH|p IH|]; cbn; [by rewrite IH..|done]. Qed.
#[export] Instance plain_tokens : TokenLib := {
  jwt_sign secret c := Ok (spell (encode (secret, c)));
  jwt_parse secret now raw :=
    match unspell raw ≫= decode with
    | Some (s, c) => if decide (s = secret /\ (now < cm_exp c * Second)%Z) then Ok c else Err (ErrOther "token is expired")
    | None => Err (ErrOther "token is malformed")
    end;
}.
#[export] Instance plain_tokens_laws : TokenLaws.
Proof.
  split. intros secret c raw now [= <-] Hn. unfold jwt_parse, plain_tokens. rewrite unspell_spell. cbn [mbind option_bind].
  rewrite decode_encode. by rewrite decide_True.
Qed.
#[export] Instance plain_passwords : PasswordLib := {
  bcrypt_hash salt password := Ok ("$2a$12$" +:+ password);
  bcrypt_matches hash password := bool_decide (hash = "$2a$12$" +:+ password);
}.
#[export] Instance plain_passwords_laws : PasswordLaws.
Proof. split. intros salt password hash [= <-]. by apply bool_decide_eq_true. Qed.
#[export] Instance mb_store : SecretStore MemBackend := {
  get_secret ns n w := match mb_secrets w !! (ns, n) with Some d => Ok d | None => Err ErrNotFound end;
  create_secret ns n d w :=
    match mb_secrets w !! (ns, n) with
    | Some _ => (Err ErrAlreadyExists, w)
    | None => (Ok tt, mb_set_secrets (<[(ns, n) := d]> (mb_secrets w)) w)
    end;
}.
#[export] Instance mb_store_frame : SecretFrame MemBackend.
Proof. split. intros ns n d w r w'. cbn. by destruct (mb_secrets w !! _); intros [= _ <-]. Qed.
Definition users_of (us : gmap string UserRow) : MemBackend :=
  mb_set_tables (set_users us request_tables) (backend_of (Err (ErrOther "down"))).
Definition a_user (name role : string) : UserRow := mkUserRow name ("$2a$12$" +:+ name +:+ "-pw") role "2026-01-01 00:00:00".
Definition two_admins_users : gmap string UserRow := {[ "u1" := a_user "ann" "admin"; "u2" := a_user "ben" "admin" ]}.
Definition two_admins : MemBackend := users_of two_admins_users.

(** ** Generated passwords *)
Lemma slen_base64 l : slen (base64_url l) = 4 * ((length l + 2) / 3).
Proof.
  assert (H : forall n l, length l <= n -> slen (base64_url l) = 4 * ((length l + 2) / 3)).
  { induction n as [|n IH]; intros [|a [|b [|c l']]] Hl; try done; cbn in Hl; try lia.
    cbn [base64_url length]. unfold slen in *. cbn [String.length]. rewrite (IH l') by lia.
    replace (S (S (S (length l'))) + 2) with (length l' + 2 + 1 * 3) by lia. rewrite Nat.div_add by lia. lia. }
  by apply (H (length l)).
Qed.
Lemma password_ok random n :
  (forall k b, random k = Ok b -> length b = k) ->
  match generatePassword random n with
  | Some (Ok s) => slen s = n
  | Some (Err e) => random ((n * 6 + 7) / 8 + 4) = Err e
  | None => False
  end.
Proof.
  intros Hr. unfold generatePassword. destruct (random _) as [b|e] eqn:E; [|done]. apply Hr in E.
  assert (n <= slen (base64_url b)) as Hn.
  { rewrite slen_base64, E. pose proof (Nat.div_mod_eq (n * 6 + 7) 8) as H1. pose proof (Nat.mod_upper_bound (n * 6 + 7) 8).
    set (q := (n * 6 + 7) / 8) in *. pose proof (Nat.div_mod_eq (q + 4 + 2) 3). pose proof (Nat.mod_upper_bound (q + 4 + 2) 3). lia. }
  rewrite decide_False by lia. rewrite slen_stake. lia.
Qed.
(** The generated administrator password has exactly the length asked for, and
    cutting the encoded random bytes to it never panics. *)
Theorem password_length random n :
  (forall k b, random k = Ok b -> length b = k) ->
  match generatePassword random n with
  | Some (Ok s) => slen s = n
  | Some (Err e) => random ((n * 6 + 7) / 8 + 4) = Err e
  | None => False
  end.
Proof. apply password_ok. Qed.
Definition zeros (k : nat) : res (list Z) := Ok (replicate k 0%Z).
Lemma password_length_witness : generatePassword zeros 24 = Some (Ok "AAAAAAAAAAAAAAAAAAAAAAAA") /\ slen "AAAAAAAAAAAAAAAAAAAAAAAA" = 24.
Proof.
  split; [by vm_compute|]. apply (password_length zeros 24). intros k b [= <-]. apply length_replicate.
Defined.

(** ** Logging in

    bcrypt reads 59 bytes of a hash before it computes: the dummy hash ends there. *)
Lemma dummy_hash_too_short : slen dummy_hash < 59.
Proof. by vm_compute; lia. Qed.
Definition bearer (token : string) : string := "Bearer " +:+ token.
Lemma trim_bearer s : trim_prefix (bearer s) "Bearer " = s.
Proof. by destruct s. Qed.
Section login.
Context {W : Type} `{!SqlDB W} `{!SqlDBLaws W} `{!TokenLib} `{!TokenLaws} `{!PasswordLib}.
Context (JWT_SECRET JWT_TTL_HOURS : string).
(** C25: A token is only given for a user name and a password whose hash is stored
    for it, and until it expires the middleware runs handlers for exactly that
    user with the role of the row - the handlers behind [RequireAdmin] only if
    that role is admin. *)
Theorem login_token_authenticates body now (w : W) code resp :
  Login JWT_SECRET JWT_TTL_HOURS body now w = Body code resp ->
  exists req id u, body = Some req /\ tb_users (tables w) !! id = Some u /\ us_Username u = lg_Username req /\
    bcrypt_matches (us_PasswordHash u) (lg_Password req) = true /\
    (lo_Token resp <> EmptyString -> id <> EmptyString ->
     forall later, (later < expiry JWT_TTL_HOURS now * Second)%Z ->
     forall (V A : Type) (next : AuthUser -> V -> Response A * V) (v : V),
       let header := bearer (lo_Token resp) in
       let user := mkAuthUser id (us_Username u) (us_Role u) in
       RequireAuth JWT_SECRET header later next v = next user v /\
       RequireAdmin JWT_SECRET header later next v =
         (if decide (us_Role u = "admin") then next user v else (Failure StatusForbidden "admin role required", v))).
Proof using All.
  unfold Login. destruct body as [req|]; [|done]. case_decide; [done|].
  destruct (query_row _ _ w) as [[[id u]|]|] eqn:Eq; [|done|done]. apply query_row_some, elem_of_rows_where in Eq as [Hu Hn].
  apply bool_decide_eq_true in Hn. destruct (bcrypt_matches _ _) eqn:Hb; [|done]. destruct (signToken _ _ _ _ _ _) as [token|] eqn:Et; [|done].
  intros [= <- <-]. exists req, id, u. split_and!; [done..|]. cbn [lo_Token]. intros Ht Hid later Hl V A next v. cbv zeta.
  assert (forall k : AuthUser -> V -> Response A * V, RequireAuth JWT_SECRET (bearer token) later k v = k (mkAuthUser id (us_Username u) (us_Role u)) v) as Hauth.
  { intros k. unfold RequireAuth. rewrite trim_bearer. rewrite decide_False by done. unfold parseToken.
    rewrite (law_jwt _ _ _ _ Et) by done. cbn. rewrite decide_False by done. by rewrite Hn. }
  split; [apply Hauth|]. unfold RequireAdmin. rewrite Hauth. cbn. by repeat case_decide.
Qed.
End login.
Definition a_login : loginRequest := mkLoginRequest "ann" "ann-pw".
Definition a_login_time : Time := (1767361530 * Second)%Z.
Definition a_token : string := spell (encode ("secret", mkClaims "u1" "ann" "admin" 1767447930 1767361530)).
Definition whoami (u : AuthUser) (v : nat) : Response string * nat := (Body StatusOK (au_Username u), S v).
Lemma login_token_authenticates_witness :
  Login "secret" "" (Some a_login) a_login_time two_admins = Body StatusOK (mkLoginResponse a_token "admin" "ann") /\
  RequireAdmin "secret" (bearer a_token) (a_login_time + 23 * Hour)%Z whoami 0 = (Body StatusOK "ann", 1).
Proof.
  assert (Login "secret" "" (Some a_login) a_login_time two_admins = Body StatusOK (mkLoginResponse a_token "admin" "ann")) as H by vm_refl.
  split; [exact H|]. destruct (login_token_authenticates "secret" "" _ _ _ _ _ H) as (req & id & u & E & Hu & Hn & _ & Hauth).
  injection E as <-.
  assert (id = "u1" /\ us_Role u = "admin") as [-> Hr].
  { change (two_admins_users !! id = Some u) in Hu. unfold two_admins_users in Hu.
    apply lookup_insert_Some in Hu as [[<- <-]|[_ Hu]]; [done|]. apply lookup_singleton_Some in Hu as [_ <-]. discriminate Hn. }
  destruct (Hauth ltac:(done) ltac:(done) (a_login_time + 23 * Hour)%Z ltac:(by vm_compute) nat string whoami 0) as [_ Ha].
  cbv zeta in Ha. change (lo_Token (mkLoginResponse a_token "admin" "ann")) with a_token in Ha.
  rewrite Ha, Hr, decide_True by done. unfold whoami. cbn [au_Username]. by rewrite Hn.
Defined.

(** ** The last administrator *)
Definition admins (t : Tables) : Z := count_rows is_admin (tb_users t).
Lemma admins_pos t : (1 <= admins t)%Z <-> exists id u, tb_users t !! id = Some u /\ is_admin u = true.
Proof.
  unfold admins, count_rows. split.
  - intros H. destruct (map_choose (filter (fun kx : string * UserRow => is_admin kx.2 = true) (tb_users t))) as (id & u & Hu).
    { intros E. rewrite E in H. rewrite map_size_empty in H. lia. }
    apply map_lookup_filter_Some in Hu as [? ?]. eauto.
  - intros (id & u & Hu & Ha). enough (size (filter (fun kx : string * UserRow => is_admin kx.2 = true) (tb_users t)) <> 0) by lia.
    rewrite map_size_ne_0_lookup. exists id. eexists. by apply map_lookup_filter_Some.
Qed.
Section last_admin.
Context {W : Type} `{!SqlDB W} `{!SqlDBLaws W} {PL : PasswordLib}.
Context (errText : goerr -> string).

Lemma insert_user_keeps id row fk t t' n i u :
  insert_user id row fk t = Some (t', n) -> tb_users t !! i = Some u -> tb_users t' !! i = Some u.
Proof using Type.
  unfold insert_user. destruct (negb _); [done|]. case_decide; [done|]. destruct (insert_row _ _ _) as [m|] eqn:E; [|done].
  apply insert_row_some in E as [Hn ->]. intros [= <- _] Hu. cbn. rewrite lookup_insert_ne; [done|]. by intros ->; rewrite Hn in Hu.
Qed.
Lemma insert_user_admin id name hash at_ fk t t' n :
  insert_user id (mkUserRow name hash "admin" at_) fk t = Some (t', n) -> exists i u, tb_users t' !! i = Some u /\ is_admin u = true.
Proof using Type.
  unfold insert_user. destruct (negb _); [done|]. case_decide; [done|]. destruct (insert_row _ _ _) as [m|] eqn:E; [|done].
  apply insert_row_some in E as [Hn ->]. intros [= <- _]. eexists id, _. cbn. by rewrite lookup_insert_eq.
Qed.
Lemma create_keeps_admins body salt id (w : W) : (1 <= admins (tables w))%Z -> (1 <= admins (tables (Users_Create errText body salt id w).2))%Z.
Proof using All.
  intros H. unfold Users_Create. destruct body as [req|]; [|done]. repeat case_decide; try done.
  destruct (bcrypt_hash _ _); [|done]. unfold exec_unique. destruct (exec _ _ w) as [r w1] eqn:E. apply exec_tables in E.
  assert (1 <= admins (tables w1))%Z as Hleft; [|by destruct r].
  destruct r as [n|e]; [|by rewrite E]. apply admins_pos in H as (i & u & Hu & Ha). apply admins_pos. exists i, u.
  split; [by eapply insert_user_keeps|done].
Qed.
(** The steps of a deletion without another request in between. *)
Lemma delete_keeps_admins id (w : W) : (1 <= admins (tables w))%Z -> (1 <= admins (tables (Users_Delete errText id w).2))%Z.
Proof using All.
  intros H. unfold Users_Delete. cbn [delete_step]. case_decide; [done|].
  destruct (query "admins" _ w) as [l|] eqn:Eq; [|done]. cbn [delete_step].
  destruct (query_row "role" _ w) as [[u|]|] eqn:Er; [|done|done].
  apply query_row_some in Er. destruct (tb_users (tables w) !! id) as [u'|] eqn:Eu; [|by apply elem_of_nil in Er].
  apply list_elem_of_singleton in Er as ->. case_decide as Hlast; [done|]. cbn [delete_step].
  destruct (exec "delete user" _ w) as [r w1] eqn:E. apply exec_tables in E.
  assert (1 <= admins (tables w1))%Z as Hleft; [|by destruct r]. destruct r as [n|e]; [|by rewrite E].
  unfold delete_user in E. rewrite Eu in E. destruct (_ && _); [done|]. injection E as <- _.
  apply admins_pos. destruct (is_admin u') eqn:Ha.
  - assert (exists i u, tb_users (tables w) !! i = Some u /\ is_admin u = true /\ i <> id) as (i & u & Hu & Hua & Hne).
    { apply not_and_l in Hlast as [Hrole|Hcount]; [by apply bool_decide_eq_true in Ha|].
      assert (NoDup l.*1) as Hnd.
      { unfold query in Eq. destruct (sql_fault _ w); [done|]. injection Eq as <-. rewrite law_sql_scan.
        eapply sublist_NoDup; [apply (NoDup_fst_map_to_list (tb_users (tables w)))|]. apply fmap_sublist, sublist_filter. }
      destruct l as [|[i1 u1] [|[i2 u2] l]]; [cbn in Hcount; lia|cbn in Hcount; lia|].
      assert (forall i u, (i, u) ∈ (i1, u1) :: (i2, u2) :: l -> tb_users (tables w) !! i = Some u /\ is_admin u = true) as Hin
        by (intros i u Hiu; by apply elem_of_rows_where, (query_elem _ _ _ _ _ Eq)).
      destruct (decide (i1 = id)) as [->|Hne].
      - exists i2, u2. destruct (Hin i2 u2) as [? ?]; [by right; left|]. split_and!; [done|done|]. intros ->.
        cbn in Hnd. apply NoDup_cons in Hnd as [Hni _]. apply Hni. by left.
      - exists i1, u1. destruct (Hin i1 u1) as [? ?]; [by left|]. done. }
    exists i, u. destruct (sql_foreign_keys _ w); cbn; by rewrite lookup_delete_ne.
  - apply admins_pos in H as (i & u & Hu & Hua). exists i, u.
    assert (i <> id) by (intros ->; congruence). destruct (sql_foreign_keys _ w); cbn; by rewrite lookup_delete_ne.
Qed.

Inductive user_op := CreateUser (body : option createUserRequest) (salt id : string) | DeleteUser (id : string).
Definition perform_user (o : user_op) (w : W) : W :=
  match o with
  | CreateUser body salt id => (Users_Create errText body salt id w).2
  | DeleteUser id => (Users_Delete errText id w).2
  end.
(** C27: While requests are handled one after the other, no history of creating and
    deleting users, failures included, removes the last administrator. *)
Theorem last_admin_survives os (w : W) :
  (1 <= admins (tables w))%Z -> (1 <= admins (tables (foldl (flip perform_user) w os)))%Z.
Proof using All.
  revert w. induction os as [|o os IH]; intros w H; [done|]. cbn [foldl flip]. apply IH.
  destruct o; [by apply create_keeps_admins|by apply delete_keeps_admins].
Qed.
End last_admin.
Definition one_user_left : list user_op :=
  [DeleteUser "u1"; CreateUser (Some (mkCreateUserRequest "eve" "password" "viewer")) "" "u3"; DeleteUser "u2"; DeleteUser "u3"].
Lemma last_admin_survives_witness :
  (1 <= admins (tables two_admins))%Z /\ (1 <= admins (tables (foldl (flip (perform_user err_text)) two_admins one_user_left)))%Z.
Proof. split; [|apply (last_admin_survives err_text one_user_left two_admins)]; by vm_compute. Defined.

(** ** Two deletions at once

    The statements of two calls of [Users.Delete] interleave as the scheduler likes. *)
Inductive interleaved {W} `{!SqlDB W} (errText : goerr -> string) : relation (deletion * deletion * W) :=
  | left_steps d1 d2 w d1' w' : delete_step errText d1 w = (d1', w') -> interleaved errText (d1, d2, w) (d1', d2, w')
  | right_steps d1 d2 w d2' w' : delete_step errText d2 w = (d2', w') -> interleaved errText (d1, d2, w) (d1, d2', w').
Lemma left_step {W} `{!SqlDB W} errText d1 d2 (w : W) s :
  rtc (interleaved errText) ((delete_step errText d1 w).1, d2, (delete_step errText d1 w).2) s -> rtc (interleaved errText) (d1, d2, w) s.
Proof. intros H. eapply rtc_l; [|exact H]. apply left_steps, surjective_pairing. Qed.
Lemma right_step {W} `{!SqlDB W} errText d1 d2 (w : W) s :
  rtc (interleaved errText) (d1, (delete_step errText d2 w).1, (delete_step errText d2 w).2) s -> rtc (interleaved errText) (d1, d2, w) s.
Proof. intros H. eapply rtc_l; [|exact H]. apply right_steps, surjective_pairing. Qed.
(** The count of administrators and the deletion are separate statements: two
    administrators deleted at the same time are both deleted, and nobody is left
    who can manage users. *)
Theorem concurrent_deletions_remove_every_admin :
  admins (tables two_admins) = 2%Z /\
  exists w, rtc (interleaved err_text) (Counting "u1", Counting "u2", two_admins)
                (Answered (Body StatusNoContent tt), Answered (Body StatusNoContent tt), w) /\
            admins (tables w) = 0%Z.
Proof.
  split; [by vm_compute|]. eexists. split.
  - apply left_step, right_step. apply left_step, left_step, right_step, right_step. cbn [fst snd]. apply rtc_refl.
  - by vm_compute.
Qed.

(** ** The first administrator *)
Section first_admin.
Context {W : Type} `{!SqlDB W} `{!SqlDBLaws W} `{!SecretStore W} `{!SecretFrame W} {PL : PasswordLib}.
Context (random : nat -> res (list Z)) (Hrandom : forall k b, random k = Ok b -> length b = k).

Lemma resolve_total namespace (w : W) :
  exists r w', resolveAdminPassword random namespace w = Some (r, w') /\ tables w' = tables w.
Proof using SecretFrame0 Hrandom.
  unfold resolveAdminPassword. destruct (get_secret _ _ w); [eauto|]. destruct (negb _); [eauto|].
  destruct (generatePassword random 24) as [[p|err]|] eqn:E.
  - cbn. destruct (create_secret _ _ _ w) as [[]] eqn:Ec; eexists _, _; (split; [done|]); by eapply frame_create_secret.
  - cbn. eauto.
  - unfold generatePassword in E. destruct (random _) eqn:Er; [|done]. case_decide as Hs; [|done].
    rewrite slen_base64, (Hrandom _ _ Er) in Hs. vm_compute in Hs. lia.
Qed.
(** C40: Start-up never panics over the administrator's password; when it goes on
    there is an administrator. But a user of another role who is called [admin]
    stops it for good once the last administrator is gone: the insertion violates
    the uniqueness of user names at every start. *)
Theorem ensure_admin namespace salt id (w : W) :
  exists r w', EnsureAdminUser random namespace salt id w = Some (r, w') /\
    (r = Ok tt -> (1 <= admins (tables w'))%Z) /\
    (admins (tables w) = 0%Z -> rows_where (named adminUsername) (tb_users (tables w)) <> [] -> r <> Ok tt /\ tables w' = tables w).
Proof using All.
  unfold EnsureAdminUser. destruct (query "admins" _ w) as [l|err] eqn:Eq; [|by eexists _, _].
  destruct l as [|[i u] l].
  2: { assert (1 <= admins (tables w))%Z as Hl.
       { apply admins_pos. exists i, u. apply elem_of_rows_where, (query_elem _ _ _ _ _ Eq). by left. }
       eexists _, _; split; [done|]. split; [done|lia]. }
  destruct (resolve_total namespace w) as (r & w1 & -> & Ht). cbn [mbind option_bind].
  destruct r as [password|err]; [|by eexists _, _].
  destruct (bcrypt_hash salt password) as [hash|err]; [|by eexists _, _].
  destruct (exec "insert admin" _ w1) as [r w2] eqn:E. apply exec_tables in E.
  destruct r as [n|err]; [|subst w2; by eexists _, _].
  eexists _, _; split; [done|]. split; [intros _; by apply admins_pos, (insert_user_admin _ _ _ _ _ _ _ _ E)|].
  intros _ Hnamed. unfold insert_user in E. cbn [us_Username us_Role] in E. destruct (negb _); [done|].
  rewrite decide_True in E; [done|]. by rewrite Ht.
Qed.
End first_admin.

Definition viewer_named_admin : MemBackend := users_of {[ "u4" := a_user "admin" "viewer" ]}.
Lemma ensure_admin_witness :
  (exists w, EnsureAdminUser zeros "kubechan" "" "u9" (users_of ∅) = Some (Ok tt, w) /\ (1 <= admins (tables w))%Z) /\
  exists r w, EnsureAdminUser zeros "kubechan" "" "u9" viewer_named_admin = Some (r, w) /\ r <> Ok tt.
Proof.
  assert (forall k b, zeros k = Ok b -> length b = k) as Hz by (intros k b [= <-]; apply length_replicate).
  split.
  - destruct (ensure_admin zeros Hz "kubechan" "" "u9" (users_of ∅)) as (r & w & H & Hok & _). exists w.
    assert (r = Ok tt) as ->; [|by split; [exact H|apply Hok]].
    apply (f_equal (fmap (M := option) fst)) in H. cbn [fmap option_fmap option_map fst] in H. injection H as <-. by vm_compute.
  - destruct (ensure_admin zeros Hz "kubechan" "" "u9" viewer_named_admin) as (r & w & H & _ & Hstop). exists r, w.
    split; [exact H|]. apply Hstop; by vm_compute.
Defined.
