(* ===== verification/Routes.v ===== *)
(** * The routes of backend-api (main.go, ws/client.go)

    The routing table, built the way main.go builds it, the middleware in front of
    each endpoint, the probes and the gate of the WebSocket.  How chi matches a
    path is the parameter [find_route]; what an endpoint does is the parameter
    [handle], of the user that the middleware put into the context. *)

From Stdlib Require Import Ascii.
From stdpp Require Import sorting.
From stdpp Require Import prelude gmap strings list.
From S2P Require Import Prelude GoBase Handlers Tables Users Hub.

Inductive Endpoint :=
  | Healthz | Readyz | WebSocket | AuthLogin | AuthMe | LLMModels | LLMSettingsGet | LLMSettingsPut
  | IncidentsList | IncidentsGet | ManualIncidentCreate | AnalysisAnalyze | AugmentAugment | IncidentsResolve
  | IncidentsMarkFalsePositive | AnalysisGetEvidence | ProblemCasesList | ProblemCasesGet | DiagnosticRunsList
  | DiagnosticRunsBulkDelete | DiagnosticRunsGet | DiagnosticRunsDelete | DiagnosticRunsGetEvidence
  | DiagnosticRunsGetAnalysisResult | AnalysisGetAnalysisResult | AnalysisRateAnalysisResult | SettingsIdleMessage
  | ResourcesListNamespaces | ResourcesListResources | ResourcesListKinds | ExclusionRulesList | ExclusionRulesCreate
  | ExclusionRulesSetEnabled | ExclusionRulesDelete | KubeChanGetState | KubeChanPoke | UsersCreate | UsersList
  | UsersDelete | SettingsGet | SettingsUpdate | InternalReceiveEvidence | InternalGetDetectorConfig.
#[export] Instance Endpoint_eq_dec : EqDecision Endpoint.
Proof. solve_decision. Defined.
Inductive Middleware := MustAuth | MustAdmin.
#[export] Instance Middleware_eq_dec : EqDecision Middleware.
Proof. solve_decision. Defined.
(** A route with the middleware in front of it, the outermost first. *)
Record Route := mkRoute { rt_Method : string; rt_Pattern : string; rt_Use : list Middleware; rt_Endpoint : Endpoint }.

(** [r.Get] and the like, [r.Route(prefix, ...)] and [r.Group] with [r.Use]. *)
Definition on (method pattern : string) (e : Endpoint) : list Route := [mkRoute method pattern [] e].
Definition Get : string -> Endpoint -> list Route := on "GET".
Definition Post : string -> Endpoint -> list Route := on "POST".
Definition Put : string -> Endpoint -> list Route := on "PUT".
Definition Patch : string -> Endpoint -> list Route := on "PATCH".
Definition Delete : string -> Endpoint -> list Route := on "DELETE".
Definition under (prefix : string) (l : list (list Route)) : list Route :=
  (fun r => mkRoute (rt_Method r) (prefix +:+ rt_Pattern r) (rt_Use r) (rt_Endpoint r)) <$> concat l.
Definition group_with (m : Middleware) (l : list (list Route)) : list Route :=
  (fun r => mkRoute (rt_Method r) (rt_Pattern r) (m :: rt_Use r) (rt_Endpoint r)) <$> concat l.

Definition admin_routes : list Route := group_with MustAdmin
  [Post "/users" UsersCreate; Get "/users" UsersList; Delete "/users/{id}" UsersDelete;
   Get "/settings" SettingsGet; Put "/settings" SettingsUpdate].
Definition user_routes : list Route := group_with MustAuth
  [Get "/auth/me" AuthMe; Get "/me/llm-settings" LLMSettingsGet; Put "/me/llm-settings" LLMSettingsPut;
   Get "/incidents" IncidentsList; Get "/incidents/{id}" IncidentsGet; Post "/incidents/manual" ManualIncidentCreate;
   Post "/incidents/{id}/analyze" AnalysisAnalyze; Post "/incidents/{id}/augment" AugmentAugment;
   Post "/incidents/{id}/resolve" IncidentsResolve; Post "/incidents/{id}/false-positive" IncidentsMarkFalsePositive;
   Get "/incidents/{id}/evidence" AnalysisGetEvidence;
   Get "/problemcases" ProblemCasesList; Get "/problemcases/{id}" ProblemCasesGet;
   Get "/diagnosticruns" DiagnosticRunsList; Delete "/diagnosticruns" DiagnosticRunsBulkDelete;
   Get "/diagnosticruns/{id}" DiagnosticRunsGet; Delete "/diagnosticruns/{id}" DiagnosticRunsDelete;
   Get "/diagnosticruns/{id}/evidence" DiagnosticRunsGetEvidence;
   Get "/diagnosticruns/{id}/analysisresult" DiagnosticRunsGetAnalysisResult;
   Get "/analysisresults/{id}" AnalysisGetAnalysisResult; Post "/analysisresults/{id}/rate" AnalysisRateAnalysisResult;
   Get "/persona/idle-message" SettingsIdleMessage;
   Get "/namespaces" ResourcesListNamespaces; Get "/namespaces/{ns}/resources" ResourcesListResources;
   Get "/namespaces/{ns}/kinds" ResourcesListKinds;
   Get "/exclusion-rules" ExclusionRulesList; Post "/exclusion-rules" ExclusionRulesCreate;
   Patch "/exclusion-rules/{name}" ExclusionRulesSetEnabled; Delete "/exclusion-rules/{name}" ExclusionRulesDelete;
   Get "/kubechan/state" KubeChanGetState; Post "/kubechan/poke" KubeChanPoke;
   admin_routes].
Definition router : list Route := concat
  [Get "/healthz" Healthz; Get "/readyz" Readyz; Get "/ws" WebSocket;
   under "/api/v1" [Post "/auth/login" AuthLogin; Get "/llm-models" LLMModels; user_routes];
   under "/internal" [Post "/evidence" InternalReceiveEvidence; Get "/settings" InternalGetDetectorConfig]].
(** What is served without a token. *)
Definition open_endpoints : list Endpoint :=
  [Healthz; Readyz; WebSocket; AuthLogin; LLMModels; InternalReceiveEvidence; InternalGetDetectorConfig].
Definition admin_endpoints : list Endpoint := [UsersCreate; UsersList; UsersDelete; SettingsGet; SettingsUpdate].

(** ** Probes *)
Definition StatusServiceUnavailable : Z := 503.
Definition healthz : Z * string := (StatusOK, "ok").
Definition readyz (ping : res ()) : Z * string :=
  match ping with Err _ => (StatusServiceUnavailable, "db unavailable") | Ok _ => (StatusOK, "ok") end.
(** [envOr] *)
Definition envOr (value fallback : string) : string := if decide (value <> EmptyString) then value else fallback.

Section serving.
Context {W A : Type} `{TL : !TokenLib} (JWT_SECRET : string).
(** The route of a method and a path, or the status of the answer without one. *)
Context (find_route : string -> string -> list Route -> Route + Z).
Context (handle : Endpoint -> option AuthUser -> W -> Response A * W).
Implicit Types (u : option AuthUser) (w : W).

Definition run_middleware (authorization : string) (now : Time) (m : Middleware)
    (next : option AuthUser -> W -> Response A * W) (u : option AuthUser) : W -> Response A * W :=
  match m with
  | MustAuth => RequireAuth JWT_SECRET authorization now (fun user => next (Some user))
  | MustAdmin => RequireAdmin JWT_SECRET authorization now (fun user => next (Some user))
  end.
Definition serve_route (authorization : string) (now : Time) (r : Route) : W -> Response A * W :=
  foldr (run_middleware authorization now) (handle (rt_Endpoint r)) (rt_Use r) None.
Definition serve (method path authorization : string) (now : Time) (w : W) : Response A * W :=
  match find_route method path router with
  | inl r => serve_route authorization now r w
  | inr code => (Failure code EmptyString, w)
  end.

(** ** The WebSocket *)
Definition validateWSToken (raw : string) (now : Time) : res () :=
  match jwt_parse JWT_SECRET now raw with Ok _ => Ok tt | Err e => Err e end.
(** An upgrade that fails has been answered by the library. *)
Definition ServeWSWithAuth (token : string) (now : Time) (upgrade : res ()) (h : Hub) : res () * Hub :=
  if decide (token = EmptyString) then (Err (ErrOther "missing token"), h) else
  match validateWSToken token now with
  | Err _ => (Err (ErrOther "invalid token"), h)
  | Ok _ => match upgrade with Err e => (Err e, h) | Ok _ => (Ok tt, (ServeWS h).2) end
  end.
End serving.

(** ** Every request passes the middleware of its endpoint *)
Section guarding.
Context {W A : Type} `{TL : !TokenLib} (JWT_SECRET : string).
Context (find_route : string -> string -> list Route -> Route + Z).
Context (handle : Endpoint -> option AuthUser -> W -> Response A * W).

(** Who sends a request, if its token is valid. *)
Definition sender (authorization : string) (now : Time) : option AuthUser :=
  let raw := trim_prefix authorization "Bearer " in
  if decide (raw = EmptyString) then None else
  match parseToken JWT_SECRET raw now with
  | Ok u => if decide (au_UserID u = EmptyString) then None else Some u
  | Err _ => None
  end.
Lemma RequireAuth_sender authorization now (next : AuthUser -> W -> Response A * W) w :
  match sender authorization now with
  | Some u => RequireAuth JWT_SECRET authorization now next w = next u w
  | None => exists msg, RequireAuth JWT_SECRET authorization now next w = (Failure StatusUnauthorized msg, w)
  end.
Proof using Type.
  unfold sender, RequireAuth. case_decide; [by eexists|]. destruct (parseToken _ _ _) as [u|e]; [|by eexists].
  case_decide; [by eexists|done].
Qed.
(** What stands in front of an endpoint. *)
Definition guard_of (e : Endpoint) : list Middleware :=
  if decide (e ∈ open_endpoints) then [] else if decide (e ∈ admin_endpoints) then [MustAuth; MustAdmin] else [MustAuth].
Lemma router_guards r : r ∈ router -> rt_Use r = guard_of (rt_Endpoint r).
Proof using Type. assert (Forall (fun r => rt_Use r = guard_of (rt_Endpoint r)) router) as H by by_decide.
  exact (proj1 (Forall_forall _ _) H r).
Qed.
Lemma admin_endpoints_are_closed e : e ∈ admin_endpoints -> e ∉ open_endpoints.
Proof using Type. assert (Forall (fun e => e ∉ open_endpoints) admin_endpoints) as H by by_decide. exact (proj1 (Forall_forall _ _) H e). Qed.

(** C17: Whatever route chi picks, only login, the model list, the probes, the
    WebSocket and the internal endpoints run without a valid token; the management
    of users and of settings runs for administrators only; every other endpoint
    runs for the user the token names, and a refused request changes nothing. *)
Theorem every_endpoint_is_guarded method path authorization now (w : W) r :
  (forall m p l r', find_route m p l = inl r' -> r' ∈ l) -> find_route method path router = inl r ->
  let e := rt_Endpoint r in
  let answer := serve JWT_SECRET find_route handle method path authorization now w in
  (e ∈ open_endpoints -> answer = handle e None w) /\
  (e ∉ open_endpoints ->
   match sender authorization now with
   | None => exists msg, answer = (Failure StatusUnauthorized msg, w)
   | Some u =>
       (e ∈ admin_endpoints /\ au_Role u <> "admin" -> answer = (Failure StatusForbidden "admin role required", w)) /\
       (e ∉ admin_endpoints \/ au_Role u = "admin" -> answer = handle e (Some u) w)
   end).
Proof using Type.
  intros Hlaw Hr e answer. pose proof (router_guards r (Hlaw _ _ _ _ Hr)) as Hg.
  assert (answer = foldr (run_middleware JWT_SECRET authorization now) (handle e) (guard_of e) None w) as Ha.
  { unfold answer, serve, serve_route. by rewrite Hr, Hg. }
  clearbody answer. subst answer. unfold guard_of. split; intros He; [by rewrite decide_True|]. rewrite decide_False by done.
  destruct (decide (e ∈ admin_endpoints)) as [Hadm|Hadm]; cbn [foldr run_middleware]; unfold RequireAdmin;
    match goal with |- context [RequireAuth _ _ _ ?next w] => pose proof (RequireAuth_sender authorization now next w) as H1 end;
    destruct (sender authorization now) as [u|] eqn:Hs; try exact H1; rewrite H1; cbn beta.
  - match goal with |- context [RequireAuth _ _ _ ?next w] => pose proof (RequireAuth_sender authorization now next w) as H2 end.
    rewrite Hs in H2. rewrite H2. split.
    + intros [_ Hrole]. by rewrite decide_True.
    + intros [?|Hrole]; [done|]. rewrite decide_False by (intros E; by apply E). done.
  - split; [by intros [? _]|done].
Qed.

(** The table registers every endpoint exactly once, under a method and a
    pattern of its own. *)
Theorem router_is_complete : NoDup (rt_Endpoint <$> router) /\ (forall e, e ∈ rt_Endpoint <$> router) /\
  NoDup ((fun r => (rt_Method r, rt_Pattern r)) <$> router).
Proof using Type.
  split_and!; [by_decide| |by_decide]. intros e. destruct e; by_decide.
Qed.

(** A client is added to the hub only for a token that parses; otherwise the
    request is refused and the hub is as it was. *)
Theorem sockets_need_a_token token now upgrade (h : Hub) :
  let answer := ServeWSWithAuth JWT_SECRET token now upgrade h in
  answer.2 = h \/
  (answer = (Ok tt, (ServeWS h).2) /\ upgrade = Ok tt /\ token <> EmptyString /\ exists c, jwt_parse JWT_SECRET now token = Ok c).
Proof using Type.
  unfold ServeWSWithAuth, validateWSToken. case_decide; [by left|]. destruct (jwt_parse _ _ _) as [c|e]; [|by left].
  destruct upgrade as [[]|e]; [|by left]. right. split_and!; eauto.
Qed.
End guarding.

(** ** Witness: a viewer asks for the settings *)
Definition one_token : TokenLib := {|
  jwt_sign secret c := Ok "viewer-token";
  jwt_parse secret now raw := if decide (raw = "viewer-token") then Ok (mkClaims "u1" "vic" "viewer" 0 0) else Err (ErrOther "token is malformed");
|}.
Definition exact_route (method path : string) (l : list Route) : Route + Z :=
  match filter (fun r => rt_Method r = method /\ rt_Pattern r = path) l with r :: _ => inl r | [] => inr StatusNotFound end.
Definition count_calls (e : Endpoint) (u : option AuthUser) (w : nat) : Response nat * nat := (Body StatusOK w, S w).
Lemma exact_route_found m p l r : exact_route m p l = inl r -> r ∈ l.
Proof.
  unfold exact_route. destruct (filter _ l) as [|r' l'] eqn:E; [done|]. intros [= ->].
  assert (r ∈ filter (fun r => rt_Method r = m /\ rt_Pattern r = p) l) as [_ H]%list_elem_of_filter by (rewrite E; by left). exact H.
Qed.
Lemma every_endpoint_is_guarded_witness :
  serve (TL := one_token) "secret" exact_route count_calls "GET" "/api/v1/settings" "Bearer viewer-token" 0 7 =
    (Failure StatusForbidden "admin role required", 7) /\
  serve (TL := one_token) "secret" exact_route count_calls "GET" "/api/v1/incidents" "Bearer viewer-token" 0 7 = (Body StatusOK 7, 8).
Proof.
  split.
  - apply (every_endpoint_is_guarded (TL := one_token) "secret" exact_route count_calls "GET" "/api/v1/settings" "Bearer viewer-token" 0 7
      (mkRoute "GET" "/api/v1/settings" [MustAuth; MustAdmin] SettingsGet) exact_route_found ltac:(vm_refl)); [by_decide|].
    split; [by_decide|done].
  - apply (every_endpoint_is_guarded (TL := one_token) "secret" exact_route count_calls "GET" "/api/v1/incidents" "Bearer viewer-token" 0 7
      (mkRoute "GET" "/api/v1/incidents" [MustAuth] IncidentsList) exact_route_found ltac:(vm_refl)); [by_decide|].
    left. by_decide.
Defined.
