(* ===== verification/Schema.v ===== *)
(** * The schema and its invariants (db/migrations/*.sql)

    Every statement that any part of backend-api runs on the tables, as data, and
    what the constraints of the schema guarantee about all histories of them: the
    columns stay in their domains, and the references hold as long as every
    connection enforces foreign keys. *)

From Stdlib Require Import Ascii.
From stdpp Require Import sorting.
From stdpp Require Import prelude gmap strings list.
From S2P Require Import Prelude GoBase Handlers Tables Analysis RunHandlers Settings Users.

Inductive Statement :=
  | InsertEvidence (id : string) (row : EvidenceRow)
  | InsertResult (id : string) (row : ResultRow)
  | InsertRequest (id : string) (row : RequestRow)
  | InsertOwner (incident ns owner : string)
  | InsertUser (id : string) (row : UserRow)
  | DeleteUser (id : string)
  | StartRequests (run now : string)
  | SettleRequests (run state now : string)
  | RecoverRequest (id now : string)
  | RateResult (id rating : string)
  | DeleteOfRun (run : string)
  | PruneEvidence (cutoff : option string)
  | PruneResults (cutoff : option string)
  | PruneRequests (cutoff : option string)
  | UpsertLLM (user : string) (row : LLMRow)
  | UpdateSetting (key value : string).
(** The three deletions of [deleteRunFromDB], committed together. *)
Definition delete_of_run (run : string) (t : Tables) : Tables := foldl (fun t stmt => stmt.2 run t) t run_statements.
Definition carry_out (s : Statement) : bool -> Tables -> option (Tables * Z) :=
  match s with
  | InsertEvidence id row => insert_evidence_row id row
  | InsertResult id row => insert_result_row id row
  | InsertRequest id row => insert_request_row id row
  | InsertOwner incident ns owner => insert_owner_row incident ns owner
  | InsertUser id row => insert_user id row
  | DeleteUser id => delete_user id
  | StartRequests run now => start_requests run now
  | SettleRequests run state now => settle_requests run state now
  | RecoverRequest id now => recover_request id now
  | RateResult id rating => rate_result id rating
  | DeleteOfRun run => fun _ t => Some (delete_of_run run t, 0%Z)
  | PruneEvidence cutoff => prune_evidence cutoff
  | PruneResults cutoff => prune_results cutoff
  | PruneRequests cutoff => prune_requests cutoff
  | UpsertLLM user row => upsert_llm user row
  | UpdateSetting key value => set_setting key value
  end.
(** [INSERT INTO analysis_results] leaves the column user_rating null. *)
Definition written (s : Statement) : Prop := match s with InsertResult _ row => an_UserRating row = None | _ => True end.
(** A history: statements, each on a connection that enforces foreign keys or
    not; one that violates a constraint changes nothing. *)
Definition after (t : Tables) (s : Statement * bool) : Tables :=
  match carry_out s.1 s.2 t with Some (t', _) => t' | None => t end.
Definition history (t : Tables) (l : list (Statement * bool)) : Tables := foldl after t l.

(** ** Invariants *)
Record well_typed (t : Tables) : Prop := {
  ty_role id u : tb_users t !! id = Some u -> us_Role u ∈ ["admin"; "viewer"];
  ty_username i j u v : tb_users t !! i = Some u -> tb_users t !! j = Some v -> us_Username u = us_Username v -> i = j;
  ty_rating id r x : tb_results t !! id = Some r -> an_UserRating r = Some x -> x ∈ ["up"; "down"];
  ty_provider id l : tb_llm t !! id = Some l -> ll_Provider l ∈ allowedProviders;
}.
Record references_hold (t : Tables) : Prop := {
  ref_requests id r u : tb_requests t !! id = Some r -> rq_TriggeredBy r = Some u -> is_Some (tb_users t !! u);
  ref_owners id o : tb_owners t !! id = Some o -> is_Some (tb_users t !! oe_OwnerID o);
  ref_llm id l : tb_llm t !! id = Some l -> is_Some (tb_users t !! id);
}.

(** ** What a statement does to each table *)
Lemma insert_user_some id row fk t t' n : insert_user id row fk t = Some (t', n) ->
  us_Role row ∈ ["admin"; "viewer"] /\ (forall i u, tb_users t !! i = Some u -> us_Username u <> us_Username row) /\
  tb_users t !! id = None /\ t' = set_users (<[id := row]> (tb_users t)) t.
Proof.
  unfold insert_user. destruct (negb _) eqn:Hr; [done|]. apply negb_false_iff, bool_decide_eq_true in Hr. case_decide as Hn; [done|].
  destruct (insert_row _ _ _) as [m|] eqn:E; [|done]. apply insert_row_some in E as [Hid ->]. intros [= <- _]. split_and!; [done| |done|done].
  intros i u Hu Heq. assert ((i, u) ∈ rows_where (named (us_Username row)) (tb_users t)) as Hin.
  { apply elem_of_rows_where. split; [done|]. by apply bool_decide_eq_true. }
  rewrite Hn in Hin. by apply elem_of_nil in Hin.
Qed.
Ltac read_statement H :=
  repeat (simplify_option_eq || match goal with E : insert_row _ _ _ = Some _ |- _ => apply insert_row_some in E as [? ->] end ||
          match goal with E : context [match ?x with _ => _ end] |- _ => destruct x eqn:? end).
Lemma carry_out_users s fk t t' n : carry_out s fk t = Some (t', n) ->
  tb_users t' = tb_users t \/ (exists id row, s = InsertUser id row) \/
  exists id, s = DeleteUser id /\ tb_users t' = delete id (tb_users t).
Proof.
  intros H. destruct s; cbn in H;
    try (left; unfold insert_evidence_row, insert_result_row, insert_request_row, insert_owner_row, start_requests, settle_requests, recover_request,
           rate_result, prune_evidence, prune_results, prune_requests, upsert_llm, set_setting in H; by read_statement H).
  - right. left. eauto.
  - unfold delete_user in H. destruct (tb_users t !! id) eqn:Hu; [|left; by read_statement H].
    right. right. exists id. split; [done|]. by read_statement H.
Qed.
(** Unfold the statement of a hypothesis, and split what it decides. *)
Ltac open_statement H :=
  unfold insert_evidence_row, insert_result_row, insert_request_row, insert_owner_row, start_requests, settle_requests, recover_request,
    rate_result, prune_evidence, prune_results, prune_requests, upsert_llm, set_setting, delete_user in H; read_statement H.
Lemma carry_out_results s fk t t' n id r' : carry_out s fk t = Some (t', n) -> written s -> tb_results t' !! id = Some r' ->
  an_UserRating r' = None \/ (exists x, an_UserRating r' = Some x /\ x ∈ ["up"; "down"]) \/
  exists r, tb_results t !! id = Some r /\ an_UserRating r = an_UserRating r'.
Proof.
  intros H Hw Hr. destruct s; cbn in H; try (right; right; exists r'; open_statement H; done).
  - open_statement H. destruct (decide (id = id0)) as [->|Hne].
    + rewrite lookup_insert_eq in Hr. injection Hr as <-. by left.
    + rewrite lookup_insert_ne in Hr by done. eauto.
  - right. right. exists r'. apply insert_user_some in H as (_ & _ & _ & ->). done.
  - open_statement H; eauto. destruct (decide (id = id0)) as [->|Hne].
    + rewrite lookup_insert_eq in Hr. injection Hr as <-. right. left. eexists. split; [done|]. by eapply bool_decide_eq_true_1.
    + rewrite lookup_insert_ne in Hr by done. eauto.
  - open_statement H. cbn in Hr. apply lookup_delete_rows in Hr as [Hr _]. eauto.
  - open_statement H. apply lookup_delete_rows in Hr as [Hr _]. eauto.
Qed.
Lemma user_ref_true user t : user_ref true (Some user) t = true -> is_Some (tb_users t !! user).
Proof. apply bool_decide_eq_true_1. Qed.
Lemma carry_out_llm s fk t t' n id l : carry_out s fk t = Some (t', n) -> tb_llm t' !! id = Some l ->
  (tb_llm t !! id = Some l /\ (fk = true -> s <> DeleteUser id \/ tb_users t !! id = None)) \/
  (ll_Provider l ∈ allowedProviders /\ (fk = true -> is_Some (tb_users t !! id)) /\ exists row, s = UpsertLLM id row).
Proof.
  intros H Hl. destruct s; cbn in H; try (left; open_statement H; (split; [done|by left])).
  - apply insert_user_some in H as (_ & _ & _ & ->). left. split; [done|by left].
  - open_statement H; cbn in Hl.
    + left. destruct (decide (id = id0)) as [->|Hne]; [by rewrite lookup_delete_eq in Hl|].
      rewrite lookup_delete_ne in Hl by done. split; [done|]. left. congruence.
    + by left.
    + left. split; [done|]. destruct (decide (id = id0)) as [->|]; [by right|left; congruence].
  - open_statement H. cbn in Hl. destruct (decide (id = user)) as [->|Hne].
    + right. rewrite lookup_insert_eq in Hl. injection Hl as <-. apply andb_true_iff in Heqb as [Hp Hu].
      split_and!; [by eapply bool_decide_eq_true_1|intros ->; by apply user_ref_true|eauto].
    + left. rewrite lookup_insert_ne in Hl by done. split; [done|by left].
Qed.
Lemma carry_out_requests s fk t t' n id r' u : carry_out s fk t = Some (t', n) -> tb_requests t' !! id = Some r' -> rq_TriggeredBy r' = Some u ->
  (exists r, tb_requests t !! id = Some r /\ rq_TriggeredBy r = Some u) \/ (fk = true -> is_Some (tb_users t !! u)).
Proof.
  intros H Hr Hu. destruct s; cbn in H; try (left; exists r'; open_statement H; done).
  - open_statement H. cbn in Hr. destruct (decide (id = id0)) as [->|Hne].
    + rewrite lookup_insert_eq in Hr. injection Hr as <-. right. intros ->. apply user_ref_true. by rewrite <- Hu.
    + rewrite lookup_insert_ne in Hr by done. eauto.
  - apply insert_user_some in H as (_ & _ & _ & ->). eauto.
  - open_statement H. cbn in Hr. rewrite lookup_update_rows in Hr. destruct (tb_requests t !! id) as [r|]; [|done]. cbn in Hr.
    left. exists r. split; [done|]. destruct (waiting run r); injection Hr as <-; done.
  - open_statement H. cbn in Hr. rewrite lookup_update_rows in Hr. destruct (tb_requests t !! id) as [r|]; [|done]. cbn in Hr.
    left. exists r. split; [done|]. destruct (of_run run r); injection Hr as <-; done.
  - open_statement H; eauto. cbn in Hr. destruct (decide (id = id0)) as [->|Hne].
    + rewrite lookup_insert_eq in Hr. injection Hr as <-. left. eexists. split; [done|]. done.
    + rewrite lookup_insert_ne in Hr by done. eauto.
  - open_statement H. cbn in Hr. apply lookup_delete_rows in Hr as [Hr _]. eauto.
  - open_statement H. apply lookup_delete_rows in Hr as [Hr _]. eauto.
Qed.
(** Owner rows are only added. *)
Lemma carry_out_owners s fk t t' n : carry_out s fk t = Some (t', n) ->
  tb_owners t' = tb_owners t \/ exists i o, tb_owners t !! i = None /\ tb_owners t' = <[i := o]> (tb_owners t) /\
    (fk = true -> is_Some (tb_users t !! oe_OwnerID o)) /\ tb_users t' = tb_users t.
Proof.
  intros H. destruct s; cbn in H; try (left; open_statement H; done).
  - open_statement H. right. eexists _, _. cbn. split_and!; [done|done| |done]. intros ->. by apply user_ref_true.
  - apply insert_user_some in H as (_ & _ & _ & ->). by left.
  - left. open_statement H; destruct fk; done.
Qed.
Lemma delete_user_checked id t t' n : delete_user id true t = Some (t', n) -> tb_users t !! id = None \/ referenced id t = false.
Proof. unfold delete_user. destruct (tb_users t !! id); [|by left]. destruct (true && _) eqn:E; [done|]. by right. Qed.
Lemma referenced_request id t i r : referenced id t = false -> tb_requests t !! i = Some r -> rq_TriggeredBy r <> Some id.
Proof.
  intros H Hr Hid. unfold referenced in H. apply orb_false_iff in H as [H _]. apply bool_decide_eq_false, dec_stable in H.
  assert ((i, r) ∈ rows_where (fun r => bool_decide (rq_TriggeredBy r = Some id)) (tb_requests t)) as Hin.
  { apply elem_of_rows_where. split; [done|]. by apply bool_decide_eq_true. }
  rewrite H in Hin. by apply elem_of_nil in Hin.
Qed.
Lemma referenced_owner id t i o : referenced id t = false -> tb_owners t !! i = Some o -> oe_OwnerID o <> id.
Proof.
  intros H Hr Hid. unfold referenced in H. apply orb_false_iff in H as [_ H]. apply bool_decide_eq_false, dec_stable in H.
  assert ((i, o) ∈ rows_where (fun o => bool_decide (oe_OwnerID o = id)) (tb_owners t)) as Hin.
  { apply elem_of_rows_where. split; [done|]. by apply bool_decide_eq_true. }
  rewrite H in Hin. by apply elem_of_nil in Hin.
Qed.

(** ** One statement keeps the invariants *)
Lemma statement_keeps_types s fk t t' n : carry_out s fk t = Some (t', n) -> written s -> well_typed t -> well_typed t'.
Proof.
  intros H Hw Ht. split.
  - intros id u Hu. destruct (carry_out_users _ _ _ _ _ H) as [E|[(i & row & ->)|(i & -> & E)]].
    + rewrite E in Hu. by eapply ty_role.
    + cbn in H; apply insert_user_some in H as (Hr & _ & _ & ->). cbn in Hu. apply lookup_insert_Some in Hu as [[_ <-]|[_ Hu]]; [done|]. by eapply ty_role.
    + rewrite E in Hu. apply lookup_delete_Some in Hu as [_ Hu]. by eapply ty_role.
  - intros i j u v Hu Hv Hn. destruct (carry_out_users _ _ _ _ _ H) as [E|[(k & row & ->)|(k & -> & E)]].
    + rewrite E in Hu, Hv. by eapply ty_username.
    + cbn in H; apply insert_user_some in H as (_ & Hf & _ & ->). cbn in Hu, Hv.
      apply lookup_insert_Some in Hu as [[-> <-]|[_ Hu]], Hv as [[-> <-]|[_ Hv]]; [done| | |by eapply ty_username].
      * destruct (Hf _ _ Hv). done.
      * destruct (Hf _ _ Hu). done.
    + rewrite E in Hu, Hv. apply lookup_delete_Some in Hu as [_ Hu], Hv as [_ Hv]. by eapply ty_username.
  - intros id r x Hr Hx. destruct (carry_out_results _ _ _ _ _ _ _ H Hw Hr) as [E|[(y & E & Hy)|(r0 & Hr0 & E)]]; [congruence| |].
    + assert (x = y) as -> by congruence. done.
    + eapply ty_rating; [done|done|congruence].
  - intros id l Hl. destruct (carry_out_llm _ _ _ _ _ _ _ H Hl) as [[Hl0 _]|[Hp _]]; [by eapply ty_provider|done].
Qed.
(** A user is there after a statement with foreign keys unless it was deleted
    without being referenced. *)
Lemma user_stays s t t' n u : carry_out s true t = Some (t', n) -> is_Some (tb_users t !! u) ->
  is_Some (tb_users t' !! u) \/ (s = DeleteUser u /\ referenced u t = false).
Proof.
  intros H [x Hu]. destruct (carry_out_users _ _ _ _ _ H) as [E|[(k & row & ->)|(k & -> & E)]].
  - left. rewrite E. eauto.
  - left. cbn in H; apply insert_user_some in H as (_ & _ & _ & ->). cbn. apply lookup_insert_is_Some'. eauto.
  - destruct (decide (u = k)) as [->|Hne].
    + right. split; [done|]. cbn in H. apply delete_user_checked in H as [?|?]; [congruence|done].
    + left. rewrite E, lookup_delete_ne by done. eauto.
Qed.
Lemma statement_keeps_references s t t' n : carry_out s true t = Some (t', n) -> references_hold t -> references_hold t'.
Proof.
  intros H Ht. split.
  - intros id r u Hr Hu. assert (is_Some (tb_users t !! u)) as Hx.
    { destruct (carry_out_requests _ _ _ _ _ _ _ _ H Hr Hu) as [(r0 & Hr0 & E)|Hx]; [by eapply ref_requests|by apply Hx]. }
    destruct (user_stays _ _ _ _ _ H Hx) as [?|[-> Href]]; [done|]. exfalso.
    cbn in H. assert (tb_requests t' = tb_requests t) as E by (open_statement H; done).
    rewrite E in Hr. by eapply referenced_request.
  - intros i o Ho. destruct (carry_out_owners _ _ _ _ _ H) as [E|(j & o' & _ & E & Hx & Eu)].
    + rewrite E in Ho. destruct (user_stays _ _ _ _ (oe_OwnerID o) H) as [?|[_ Href]]; [by eapply ref_owners|done|].
      by destruct (referenced_owner _ _ _ _ Href Ho).
    + rewrite Eu. rewrite E in Ho. apply lookup_insert_Some in Ho as [[_ <-]|[_ Ho]]; [by apply Hx|by eapply ref_owners].
  - intros id l Hl. destruct (carry_out_llm _ _ _ _ _ _ _ H Hl) as [[Hl0 Hd]|(_ & Hx & row & ->)].
    + destruct (user_stays _ _ _ _ id H) as [?|[-> _]]; [by eapply ref_llm|done|]. exfalso.
      destruct (ref_llm t Ht _ _ Hl0) as [x Hx]. destruct (Hd eq_refl) as [?|?]; [done|congruence].
    + destruct (user_stays _ _ _ _ id H) as [?|[? _]]; [by apply Hx|done|done].
Qed.

(** ** All histories *)
(** C23: Whatever is run on the tables and on whichever connections, roles,
    ratings and providers stay among the values of the schema and no two users
    share a name. *)
Theorem schema_is_kept t l : well_typed t -> Forall (fun x => written x.1) l -> well_typed (history t l).
Proof.
  intros Ht Hl. revert t Ht. induction Hl as [|x l Hx _ IH]; intros t Ht; [done|]. apply IH. unfold after.
  destruct (carry_out _ _ _) as [[t' n]|] eqn:E; [by eapply statement_keeps_types|done].
Qed.
Lemma references_kept t l : references_hold t -> Forall (fun x => x.2 = true) l -> references_hold (history t l).
Proof.
  intros Ht Hl. revert t Ht. induction Hl as [|[s fk] l Hx _ IH]; intros t Ht; [done|]. cbn in Hx. subst fk. apply IH.
  unfold after. destruct (carry_out _ _ _) as [[t' n]|] eqn:E; [by eapply statement_keeps_references|done].
Qed.
Lemma owner_rows_stay t l i o : tb_owners t !! i = Some o -> tb_owners (history t l) !! i = Some o.
Proof.
  revert t. induction l as [|[s fk] l IH]; intros t Ho; [done|]. apply IH. unfold after. cbn [fst snd].
  destruct (carry_out s fk t) as [[t' n]|] eqn:E; [|done]. destruct (carry_out_owners _ _ _ _ _ E) as [->|(j & o' & Hj & -> & _)]; [done|].
  rewrite lookup_insert_ne; [done|]. by intros ->; rewrite Hj in Ho.
Qed.
(** C24: While every connection enforces foreign keys, the requests, the owners
    and the model settings always name existing users.  No statement removes an
    owner: a user who reported an incident can never be deleted. *)
Theorem references_are_kept t l :
  references_hold t -> Forall (fun x => x.2 = true) l ->
  references_hold (history t l) /\
  forall i o, tb_owners t !! i = Some o -> delete_user (oe_OwnerID o) true (history t l) = None.
Proof.
  intros Ht Hl. pose proof (references_kept _ _ Ht Hl) as Hr. split; [done|]. intros i o Ho. apply (owner_rows_stay _ l) in Ho.
  unfold delete_user. destruct (ref_owners _ Hr _ _ Ho) as [u ->]. cbn. destruct (referenced _ _) eqn:E; [done|].
  by destruct (referenced_owner _ _ _ _ E Ho).
Qed.
(** On a connection that does not enforce foreign keys the user goes, and
    the row that names it stays: the incident has an owner who does not exist. *)
Theorem unenforced_deletion_orphans t i o :
  tb_owners t !! i = Some o -> is_Some (tb_users t !! oe_OwnerID o) ->
  exists t', delete_user (oe_OwnerID o) false t = Some (t', 1%Z) /\ tb_owners t' !! i = Some o /\ tb_users t' !! oe_OwnerID o = None /\
    ~ references_hold t'.
Proof.
  intros Ho [u Hu]. unfold delete_user. rewrite Hu. eexists. split; [done|].
  assert (tb_users (set_users (delete (oe_OwnerID o) (tb_users t)) t) !! oe_OwnerID o = None) as Hn by apply lookup_delete_eq.
  split_and!; [done|exact Hn|]. intros Hr. destruct (ref_owners _ Hr i o Ho) as [x Hx]. cbn in Hn, Hx. congruence.
Qed.

(** What the handlers do with a statement: it runs or it changes nothing. *)
Lemma exec_carries_out {W} `{!SqlDB W} `{!SqlDBLaws W} label s (w : W) r w' : exec label (carry_out s) w = (r, w') ->
  tables w' = after (tables w) (s, sql_foreign_keys label w) \/ w' = w.
Proof. intros H. apply exec_tables in H. destruct r as [n|e]; [left|by right]. unfold after. cbn [fst snd]. by rewrite H. Qed.
Lemma result_row_written {text : llmAnalyzeResponse -> string} req provider result created id : written (InsertResult id (result_row text req provider result created)).
Proof. done. Qed.

(** ** Witnesses *)
Definition ann : UserRow := mkUserRow "ann" "hash" "admin" "2026-01-01 00:00:00".
Definition ben : UserRow := mkUserRow "ben" "hash" "viewer" "2026-01-02 00:00:00".
Definition reported : list (Statement * bool) :=
  [(InsertUser "u1" ann, true); (InsertUser "u2" ben, true); (InsertUser "u3" (mkUserRow "ben" "x" "viewer" EmptyString), true);
   (InsertUser "u4" (mkUserRow "cat" "x" "root" EmptyString), true); (InsertOwner "inc-1" "default" "u2", true);
   (InsertOwner "inc-2" "default" "u9", true); (UpsertLLM "u1" (mkLLMRow "cohere" "{}"), true); (DeleteUser "u2", true)].
Definition after_report : Tables := history empty_tables reported.
Lemma empty_well_typed : well_typed empty_tables.
Proof. split; intros; discriminate. Qed.
Lemma empty_references : references_hold empty_tables.
Proof. split; intros; discriminate. Qed.
Lemma schema_is_kept_witness : us_Username <$> tb_users after_report = {["u1" := "ann"; "u2" := "ben"]} /\ well_typed after_report.
Proof.
  split; [vm_refl|]. apply (schema_is_kept empty_tables reported empty_well_typed).
  repeat (constructor; [exact I|]). constructor.
Defined.
Lemma references_are_kept_witness : references_hold after_report /\ delete_user "u2" true (history after_report [(DeleteOfRun "dr-1", true)]) = None.
Proof.
  assert (references_hold after_report) as Hr.
  { apply (references_are_kept empty_tables reported empty_references). repeat (constructor; [done|]). constructor. }
  split; [exact Hr|]. refine (proj2 (references_are_kept after_report [(DeleteOfRun "dr-1", true)] Hr _) "inc-1" (mkOwnerEntry "default" "u2") _).
  - repeat (constructor; [done|]). constructor.
  - vm_refl.
Defined.
Lemma unenforced_deletion_orphans_witness :
  exists t', delete_user "u2" false after_report = Some (t', 1%Z) /\ tb_owners t' !! "inc-1" = Some (mkOwnerEntry "default" "u2") /\
    tb_users t' !! "u2" = None /\ ~ references_hold t'.
Proof.
  apply (unenforced_deletion_orphans after_report "inc-1" (mkOwnerEntry "default" "u2")); [vm_refl|].
  exists ben. vm_refl.
Defined.
