(* ===== verification/Startup.v ===== *)
(** * Starting backend-api (main.go)

    What [main] does between opening the database and serving requests, in order:
    the recovery of pending requests, the check of the JWT secret, the pruner's
    first run and the first administrator; an error ends the process.  The pruner
    runs in a goroutine of its own; its first run is placed where it is started.
    Composed with login: who can come in after the first start. *)

From Stdlib Require Import Ascii.
From stdpp Require Import sorting.
From stdpp Require Import prelude gmap strings list.
From S2P Require Import Prelude GoBase Handlers Tables RunHandlers MemBackend Users UserProofs Schema.

(** A Secret that was created can be read, and statements on the tables do not
    touch it. *)
Class SecretLaws (W : Type) `{!SecretStore W} `{!SqlDB W} := {
  law_create_secret ns n d (w w' : W) : create_secret ns n d w = (Ok tt, w') -> get_secret ns n w' = Ok d;
  law_put_tables_secret t ns n (w : W) : get_secret ns n (put_tables t w) = get_secret ns n w;
}.

Section start_up.
Context {W : Type} `{!SqlDB W} `{!SecretStore W} {PL : PasswordLib}.
Context (random : nat -> res (list Z)) (JWT_SECRET JWT_TTL_HOURS : string).

Definition start_backend (now : Time) (namespace salt id : string) (w : W) : option (res () * W) :=
  match RecoverPendingRequests now w with
  | (Err e, w1) => Some (Err e, w1)
  | (Ok _, w1) =>
      match ValidateJWTSecret JWT_SECRET with
      | Err e => Some (Err e, w1)
      | Ok _ => EnsureAdminUser random namespace salt id (prune w1)
      end
  end.

Context `{!SqlDBLaws W} `{!SecretFrame W} `{!SecretLaws W} (Hrandom : forall k b, random k = Ok b -> length b = k).

(** Statements that leave the users and the Secrets alone. *)
Definition same_accounts (w w' : W) : Prop :=
  tb_users (tables w') = tb_users (tables w) /\ forall ns n, get_secret ns n w' = get_secret ns n w.
#[export] Instance same_accounts_preorder : PreOrder same_accounts.
Proof using Type. split; [by split|]. intros x y z [H1 H2] [H3 H4]. split; [congruence|]. intros ns n. by rewrite H4, H2. Qed.
Lemma exec_accounts label f (w : W) :
  (forall fk t t' n, f fk t = Some (t', n) -> tb_users t' = tb_users t) -> same_accounts w (exec label f w).2.
Proof using SecretLaws0 SqlDBLaws0.
  intros Hf. destruct (exec label f w) as [r w'] eqn:E. cbn [snd]. pose proof (exec_tables _ _ _ _ _ E) as Ht.
  destruct r as [n|e]; [|by subst w']. split; [by eapply Hf|]. intros ns n0. unfold exec in E. destruct (sql_fault label w); [done|].
  destruct (f _ _) as [[t k]|]; [|done]. injection E as _ <-. apply law_put_tables_secret.
Qed.
Lemma recover_accounts now (w : W) : same_accounts w (RecoverPendingRequests now w).2.
Proof using SecretLaws0 SqlDBLaws0.
  unfold RecoverPendingRequests. destruct (query _ _ w) as [rows|e]; [|done]. cbn [snd]. generalize (rows.*1). intros ids. revert w.
  induction ids as [|i ids IH]; intros w; [done|]. cbn [foldl]. etrans; [|apply IH]. apply exec_accounts. intros fk t t' n.
  unfold recover_request. destruct (tb_requests t !! i) as [r|]; [destruct (RunHandlers.is_pending r)|]; by intros [= <- _].
Qed.
Lemma prune_accounts (w : W) : same_accounts w (prune w).
Proof using SecretLaws0 SqlDBLaws0.
  unfold prune. repeat (etrans; [|apply exec_accounts; by intros fk t t' n [= <- _]]). done.
Qed.
Lemma resolve_secret namespace (w : W) password w' :
  resolveAdminPassword random namespace w = Some (Ok password, w') ->
  password <> EmptyString /\ tables w' = tables w /\
  exists data, get_secret namespace adminSecretName w' = Ok data /\ mget data "password" = password.
Proof using SecretFrame0 SecretLaws0 Hrandom.
  intros H. destruct (resolve_total random Hrandom namespace w) as (r & w0 & H0 & Ht). rewrite H in H0. injection H0 as <- <-.
  unfold resolveAdminPassword in H. destruct (get_secret _ _ w) as [data|e] eqn:Eg.
  { injection H as H <-. case_decide as Hne; [done|]. injection H as <-. eauto. }
  destruct (negb _); [done|]. pose proof (password_ok random 24 Hrandom) as Hlen.
  destruct (generatePassword random 24) as [[p|err]|]; [|done|done]. cbn [mbind option_bind] in H.
  destruct (create_secret _ _ _ w) as [[[]|err] w1] eqn:Ec; [injection H as <- <-|done].
  split; [by intros ->|]. split; [done|]. apply law_create_secret in Ec. exists {["password" := p]}. split; [done|].
  unfold mget. by rewrite lookup_singleton_eq.
Qed.
(** The only row of its name is what a query for the name finds. *)
Lemma login_row id row fk (t t' : Tables) n (w : W) :
  insert_user id row fk t = Some (t', n) -> tables w = t' -> sql_fault "login" w = None ->
  query_row "login" (fun t => rows_where (named (us_Username row)) (tb_users t)) w = Ok (Some (id, row)).
Proof using SqlDBLaws0.
  intros (_ & Hfree & Hid & ->)%insert_user_some Ht Hf. unfold query_row, query. rewrite Hf, Ht. cbn [tb_users set_users].
  set (rows := rows_where _ _). assert (forall x, x ∈ rows <-> x = (id, row)) as Hrows.
  { intros [i u]. unfold rows. rewrite elem_of_rows_where, lookup_insert_Some. unfold named. rewrite bool_decide_eq_true. split.
    - intros [[[-> ->]|[_ Hu]] Hn]; [done|]. by destruct (Hfree i u Hu).
    - intros [= -> ->]. auto. }
  pose proof (law_sql_scan _ "login" w rows) as Hperm. destruct (sql_scan _ "login" w rows) as [|x l].
  - apply Permutation_nil in Hperm. assert ((id, row) ∈ rows) as Hin by by apply Hrows. rewrite Hperm in Hin. by apply elem_of_nil in Hin.
  - assert (x ∈ rows) as ->%Hrows; [|done]. rewrite <- Hperm. by left.
Qed.

Context `{!TokenLib} `{!TokenLaws} `{!PasswordLaws}.
(** C26: When the service starts without an administrator and comes up, the Secret
    in the cluster holds a password with which [admin] can log in, and the token of
    that login opens the routes for administrators until it expires. *)
Theorem first_start_leads_to_login now namespace salt id (w w' : W) later token :
  admins (tables w) = 0%Z -> start_backend now namespace salt id w = Some (Ok tt, w') ->
  sql_fault "login" w' = None -> signToken JWT_SECRET JWT_TTL_HOURS id adminUsername "admin" later = Ok token ->
  token <> EmptyString -> id <> EmptyString ->
  32 <= slen JWT_SECRET /\
  exists data, get_secret namespace adminSecretName w' = Ok data /\
    Login JWT_SECRET JWT_TTL_HOURS (Some (mkLoginRequest adminUsername (mget data "password"))) later w' =
      Body StatusOK (mkLoginResponse token "admin" adminUsername) /\
    forall at_, (at_ < expiry JWT_TTL_HOURS later * Second)%Z ->
    forall (V A : Type) (next : AuthUser -> V -> Response A * V) (v : V),
      RequireAdmin JWT_SECRET (bearer token) at_ next v = next (mkAuthUser id adminUsername "admin") v.
Proof using All.
  intros Hno Hstart Hlogin Hsign Htok Hid. unfold start_backend in Hstart. destruct (recover_accounts now w) as [Hu1 _].
  destruct (RecoverPendingRequests now w) as [[[]|e] w1]; [|done]. cbn [snd] in Hu1. destruct (ValidateJWTSecret JWT_SECRET) as [[]|e] eqn:Hv; [|done].
  unfold ValidateJWTSecret in Hv. case_decide as Hlen; [done|]. split; [lia|]. clear Hv.
  destruct (prune_accounts w1) as [Hu2 _]. set (w2 := prune w1) in *. unfold EnsureAdminUser in Hstart.
  assert (admins (tables w2) = 0%Z) as Hno2 by (unfold admins; by rewrite Hu2, Hu1).
  destruct (query "admins" _ w2) as [[|[i u] l]|e] eqn:Eq; [| |done].
  2: { assert (1 <= admins (tables w2))%Z; [|lia]. apply admins_pos. exists i, u. apply elem_of_rows_where, (query_elem _ _ _ _ _ Eq). by left. }
  destruct (resolveAdminPassword random namespace w2) as [[[password|e] w3]|] eqn:Er; [|done|done]. cbn [mbind option_bind] in Hstart.
  apply resolve_secret in Er as (Hpw & _ & data & Hdata & Hget). destruct (bcrypt_hash salt password) as [hash|e] eqn:Hhash; [|done].
  destruct (exec "insert admin" _ w3) as [[n|e] w4] eqn:Ex; [|done]. injection Hstart as <-.
  pose proof (exec_tables _ _ _ _ _ Ex) as Ht. pose proof (login_row _ _ _ _ _ _ w4 Ht eq_refl Hlogin) as Hrow.
  assert (get_secret namespace adminSecretName w4 = Ok data) as Hdata4.
  { unfold exec in Ex. destruct (sql_fault "insert admin" w3); [done|]. destruct (insert_user _ _ _ _) as [[t k]|]; [|done].
    injection Ex as _ <-. by rewrite law_put_tables_secret. }
  exists data. rewrite Hget. split; [done|]. split.
  - unfold Login. cbn [lg_Username lg_Password]. rewrite decide_False by (by intros [?|?]). cbn [us_Username] in Hrow.
    rewrite Hrow. cbn [us_PasswordHash us_Role]. by rewrite (law_bcrypt _ _ _ Hhash), Hsign.
  - intros at_ Hat V A next v. unfold RequireAdmin, RequireAuth. rewrite trim_bearer, decide_False by done. unfold parseToken.
    rewrite (law_jwt _ _ _ _ Hsign) by done. cbn. by rewrite decide_False.
Qed.
End start_up.

(** ** Witness: a fresh database *)
#[export] Instance mb_secret_laws : SecretLaws MemBackend.
Proof.
  split; [|done]. intros ns n d w w'. cbn. destruct (mb_secrets w !! (ns, n)); [done|]. intros [= <-]. cbn. by rewrite lookup_insert_eq.
Qed.
Definition a_secret : string := "0123456789abcdef0123456789abcdef".
Definition fresh_start : option (res () * MemBackend) := start_backend zeros a_secret a_login_time "kubechan" "" "u9" (users_of ∅).
Definition started_backend : MemBackend := match fresh_start with Some (_, w) => w | None => users_of ∅ end.
Definition admin_token : string := spell (encode (a_secret, mkClaims "u9" "admin" "admin" 1767447930 1767361530)).
Lemma first_start_leads_to_login_witness :
  Login a_secret "" (Some (mkLoginRequest "admin" "AAAAAAAAAAAAAAAAAAAAAAAA")) a_login_time started_backend =
    Body StatusOK (mkLoginResponse admin_token "admin" "admin") /\
  RequireAdmin a_secret (bearer admin_token) (a_login_time + 23 * Hour)%Z whoami 0 = (Body StatusOK "admin", 1).
Proof.
  assert (fresh_start = Some (Ok tt, started_backend)) as Hs.
  { assert ((fst <$> fresh_start) = Some (Ok tt)) as E by vm_refl. unfold started_backend.
    destruct fresh_start as [[r w]|]; [|discriminate E]. injection E as ->. reflexivity. }
  assert (signToken a_secret "" "u9" "admin" "admin" a_login_time = Ok admin_token) as Ht by vm_refl.
  assert (forall k b, zeros k = Ok b -> length b = k) as Hz by (intros k b [= <-]; apply length_replicate).
  destruct (first_start_leads_to_login zeros a_secret "" Hz a_login_time "kubechan" "" "u9" (users_of ∅) started_backend a_login_time admin_token
    ltac:(vm_refl) Hs ltac:(vm_refl) Ht ltac:(done) ltac:(done)) as (_ & data & Hd & Hl & Ha).
  assert (mget data "password" = "AAAAAAAAAAAAAAAAAAAAAAAA") as Hp.
  { assert (get_secret "kubechan" adminSecretName started_backend = Ok {["password" := "AAAAAAAAAAAAAAAAAAAAAAAA"]}) as E by vm_refl.
    rewrite E in Hd. injection Hd as <-. vm_refl. }
  rewrite Hp in Hl. split; [exact Hl|]. rewrite (Ha (a_login_time + 23 * Hour)%Z ltac:(by vm_compute)). vm_refl.
Defined.
