(* ===== verification/Wiring.v ===== *)
(** * What the other main functions put together

    k8s/informer.go registers the event handlers of [Mood] with the informer cache:
    [Watcher_Start], and what every client of the hub hears of a change afterwards.
    backend-api/main.go puts this after the start of [Startup].
    diagnostics-worker/main.go reads its environment and builds the one reconciler
    of [DiagnosticRuns].  The cache itself (controller-runtime) is a class with laws. *)

From Stdlib Require Import Ascii.
From stdpp Require Import sorting.
From stdpp Require Import prelude gmap strings list.
From S2P Require Import Prelude GoBase Json Api Client Hub Mood Collector GraphEngine EvidenceKinds Discovery EvidenceCollection DiagnosticRuns Handlers Tables Users Routes Startup.

(** ** The informers of backend-api *)
Inductive WatchedKind := ProblemCaseInformer | IncidentInformer | DiagnosticRunInformer.
#[export] Instance WatchedKind_eq_dec : EqDecision WatchedKind.
Proof. solve_decision. Defined.
(** The handlers of handlers.go; the hub is that of the service. *)
Inductive EventHandler :=
  | newProblemCaseHandler
  | newIncidentHandler (hasSyncer : bool)
  | newDiagnosticRunHandler.
Inductive Change := OnAdd (obj : informer_obj) | OnUpdate (newObj : informer_obj) | OnDelete (obj : informer_obj).
Definition react (h : EventHandler) (ch : Change) : Reaction :=
  match h, ch with
  | newProblemCaseHandler, OnAdd o => problemCase_OnAdd o
  | newProblemCaseHandler, OnUpdate o => problemCase_OnUpdate o
  | newProblemCaseHandler, OnDelete o => problemCase_OnDelete o
  | newIncidentHandler s, OnAdd o => incident_OnAdd s o
  | newIncidentHandler s, OnUpdate o => incident_OnUpdate s o
  | newIncidentHandler s, OnDelete o => incident_OnDelete s o
  | newDiagnosticRunHandler, OnUpdate o => diagnosticRun_OnUpdate o
  | newDiagnosticRunHandler, _ => ignore
  end.

Class InformerCache (C : Type) := {
  GetInformer : WatchedKind -> eff C ();
  AddEventHandler : WatchedKind -> EventHandler -> eff C ();
  registered : C -> list (WatchedKind * EventHandler);
}.
#[export] Hint Mode InformerCache ! : typeclass_instances.
Class InformerCacheLaws (C : Type) `{!InformerCache C} := {
  law_get_informer k (c : C) r c' : GetInformer k c = (r, c') -> registered c' = registered c;
  law_add_handler k h (c : C) c' : AddEventHandler k h c = (Ok tt, c') -> registered c' = registered c ++ [(k, h)];
  law_add_handler_error k h e (c : C) c' : AddEventHandler k h c = (Err e, c') -> registered c' = registered c;
}.

Section watcher.
Context {C : Type} {IC : InformerCache C}.
(** [w.MoodSyncer != nil] *)
Context (hasSyncer : bool).
Definition watchProblemCases : eff C () :=
  _ ← GetInformer ProblemCaseInformer; AddEventHandler ProblemCaseInformer newProblemCaseHandler.
Definition watchIncidents : eff C () :=
  _ ← GetInformer IncidentInformer; AddEventHandler IncidentInformer (newIncidentHandler hasSyncer).
Definition watchDiagnosticRuns : eff C () :=
  _ ← GetInformer DiagnosticRunInformer; AddEventHandler DiagnosticRunInformer newDiagnosticRunHandler.
(** Up to the wait for the context. *)
Definition Watcher_Start : eff C () :=
  _ ← watchProblemCases;
  _ ← watchIncidents;
  watchDiagnosticRuns.

(** The reactions of the handlers of a kind to a change, and what they do to the hub. *)
Definition reactions (k : WatchedKind) (ch : Change) (c : C) : list Reaction :=
  (fun kh => react kh.2 ch) <$> filter (fun kh => kh.1 = k) (registered c).
Definition tell_hub (r : Reaction) (h : Hub) : option Hub :=
  match rc_Event r with Some ev => Broadcast (Marshal ev) h | None => Some h end.
Fixpoint tell_all (rs : list Reaction) (h : Hub) : option Hub :=
  match rs with
  | [] => Some h
  | r :: rs' => h' ← tell_hub r h; tell_all rs' h'
  end.
Definition syncs (rs : list Reaction) : nat := length (filter (fun r => rc_Sync r = true) rs).

(** ** Properties *)
Definition wanted : list (WatchedKind * EventHandler) :=
  [(ProblemCaseInformer, newProblemCaseHandler); (IncidentInformer, newIncidentHandler hasSyncer);
   (DiagnosticRunInformer, newDiagnosticRunHandler)].
Definition kind_of (obj : informer_obj) : option WatchedKind :=
  match obj with
  | ObjProblemCase _ => Some ProblemCaseInformer
  | ObjIncident _ => Some IncidentInformer
  | ObjDiagnosticRun _ => Some DiagnosticRunInformer
  | ObjDeletedFinalStateUnknown _ => None
  end.
Definition changed (ch : Change) : informer_obj := match ch with OnAdd o | OnUpdate o | OnDelete o => o end.
(** What a client hears of a change: of a run only its updates, and nothing of a
    deletion that the informer learns of late. *)
Definition heard (ch : Change) : list ws_event :=
  match ch with
  | OnAdd (ObjProblemCase pc) => [problemCaseEvent EventProblemCaseCreated (pct_State (status pc)) pc]
  | OnUpdate (ObjProblemCase pc) =>
      [problemCaseEvent (if decide (pct_State (status pc) = ProblemCaseStateResolved) then EventProblemCaseResolved
                         else EventProblemCaseUpdated) (pct_State (status pc)) pc]
  | OnDelete (ObjProblemCase pc) => [problemCaseEvent EventProblemCaseResolved "resolved" pc]
  | OnAdd (ObjIncident inc) => [incidentEvent EventIncidentCreated inc]
  | OnUpdate (ObjIncident inc) =>
      [incidentEvent (if decide (int_State (status inc) = IncidentStateResolved) then EventIncidentResolved
                      else EventIncidentUpdated) inc]
  | OnDelete (ObjIncident inc) =>
      [IncEvent (mkIncidentEvent EventIncidentResolved (obj_namespace inc) (obj_name inc) "resolved" EmptyString EmptyString 0%Z)]
  | OnUpdate (ObjDiagnosticRun dr) =>
      [RunEvent (mkDiagnosticRunEvent EventDiagnosticRunStateChanged (obj_namespace dr) (obj_name dr)
        (drt_State (status dr)) (drs_IncidentRef (spec dr)))]
  | _ => []
  end.

Context {IL : InformerCacheLaws C}.
Implicit Types (c : C).
Lemma watch_one k h c :
  match (_ ← GetInformer k; AddEventHandler k h) c with
  | (Ok _, c') => registered c' = registered c ++ [(k, h)]
  | (Err _, c') => registered c' = registered c
  end.
Proof using IL.
  unfold mbind, eff_bind. destruct (GetInformer k c) as [[[]|e] c1] eqn:E1; pose proof (law_get_informer _ _ _ _ E1) as H1; [|done].
  destruct (AddEventHandler k h c1) as [[[]|e] c2] eqn:E2; rewrite <- H1; [by apply law_add_handler|by eapply law_add_handler_error].
Qed.
(** Starting registers the three handlers in order, and after an error an initial
    part of them. *)
Lemma watcher_start c :
  match Watcher_Start c with
  | (Ok _, c') => registered c' = registered c ++ wanted
  | (Err _, c') => exists n, n < 3 /\ registered c' = registered c ++ take n wanted
  end.
Proof using IL.
  unfold Watcher_Start, watchProblemCases, watchIncidents, watchDiagnosticRuns.
  pose proof (watch_one ProblemCaseInformer newProblemCaseHandler c) as H1. unfold mbind at 1, eff_bind at 1.
  destruct ((_ ← GetInformer ProblemCaseInformer; AddEventHandler ProblemCaseInformer newProblemCaseHandler) c) as [[[]|e] c1].
  2: { exists 0. split; [lia|]. by rewrite app_nil_r. }
  pose proof (watch_one IncidentInformer (newIncidentHandler hasSyncer) c1) as H2. unfold mbind at 1, eff_bind at 1.
  destruct ((_ ← GetInformer IncidentInformer; AddEventHandler IncidentInformer (newIncidentHandler hasSyncer)) c1) as [[[]|e] c2].
  2: { exists 1. split; [lia|]. by rewrite H2, H1. }
  pose proof (watch_one DiagnosticRunInformer newDiagnosticRunHandler c2) as H3.
  destruct ((_ ← GetInformer DiagnosticRunInformer; AddEventHandler DiagnosticRunInformer newDiagnosticRunHandler) c2) as [[[]|e] c3].
  - rewrite H3, H2, H1. by rewrite <- !app_assoc.
  - exists 2. split; [lia|]. rewrite H3, H2, H1. by rewrite <- !app_assoc.
Qed.
Lemma started_reactions c c' k ch :
  registered c = [] -> Watcher_Start c = (Ok tt, c') -> kind_of (changed ch) = Some k ->
  exists r, reactions k ch c' = [r] /\ option_list (rc_Event r) = heard ch /\ rc_Sync r = bool_decide (k = IncidentInformer /\ hasSyncer = true).
Proof using IL.
  intros Hnil Hs Hk. pose proof (watcher_start c) as H. rewrite Hs, Hnil in H. unfold reactions. rewrite H.
  destruct ch as [o|o|o], o as [pc|inc|dr|key]; try discriminate Hk; injection Hk as <-; cbn; eexists; (split_and!; [done|done|]);
    try (by rewrite bool_decide_false by naive_solver); by destruct hasSyncer.
Qed.
(** After a successful start every client that is connected and has room hears of
    every change exactly what [heard] says, and an incident's change recomputes the
    mood once. *)
Theorem started_watcher_tells_every_client c c' h k ch :
  registered c = [] -> Watcher_Start c = (Ok tt, c') -> hub_wf h -> kind_of (changed ch) = Some k ->
  exists h', tell_all (reactions k ch c') h = Some h' /\ hub_wf h' /\ hb_clients h' = hb_clients h /\
    (forall cl, cl ∈ hb_clients h -> length (queue cl h) < sendBufSize ->
       queue cl h' = queue cl h ++ (Marshal <$> heard ch)) /\
    syncs (reactions k ch c') = if decide (k = IncidentInformer /\ hasSyncer = true) then 1 else 0.
Proof using IL.
  intros Hnil Hs Hwf Hk. destruct (started_reactions c c' k ch Hnil Hs Hk) as (r & -> & <- & Hsync).
  assert (syncs [r] = if decide (k = IncidentInformer /\ hasSyncer = true) then 1 else 0) as Hn.
  { unfold syncs. rewrite filter_cons, Hsync. case_bool_decide; by repeat case_decide. }
  cbn [tell_all]. unfold tell_hub. destruct (rc_Event r) as [ev|]; cbn [option_list fmap list_fmap].
  - destruct (Broadcast_spec (Marshal ev) h Hwf) as (h' & H & Hc & Hh). rewrite H. exists h'. split_and!; [done|by eapply Broadcast_wf|done| |done].
    intros cl Hcl Hroom. destruct Hwf as [Ho _]. apply Ho in Hcl as Hms. destruct Hms as [ms Hms]. unfold queue in *. rewrite Hh.
    rewrite decide_True, Hms by done. rewrite Hms in Hroom. cbn in Hroom. cbn [mbind option_bind].
    rewrite offer_open. cbn. by rewrite decide_True.
  - exists h. split_and!; [done|done|done| |done]. intros cl _ _. by rewrite app_nil_r.
Qed.
End watcher.

(** ** backend-api/main.go

    What follows the start: neither a missing singleton nor an informer that cannot
    be had ends the process, both are only logged. *)
Record BackendEnv := mkBackendEnv { DEFAULT_NAMESPACE : string; PERSONA_ALLOWED : string }.
Definition defaultNS (env : BackendEnv) : string := Routes.envOr (DEFAULT_NAMESPACE env) "kubechan".
(** Anything but this one spelling allows personas. *)
Definition personaAllowed (env : BackendEnv) : bool := negb (bool_decide (Routes.envOr (PERSONA_ALLOWED env) "true" = "false")).
Section backend.
Context {W C : Type} `{!SqlDB W} `{!SecretStore W} {PL : PasswordLib} `{!ObjectClient W KubeChanStateSpec KubeChanStateStatus}.
Context {IC : InformerCache C} (random : nat -> res (list Z)) (JWT_SECRET : string).
Definition main_backend (env : BackendEnv) (now : Time) (salt id : string) (w : W) (c : C) : option (res () * W * C) :=
  match start_backend random JWT_SECRET now (defaultNS env) salt id w with
  | None => None
  | Some (Err e, w1) => Some (Err e, w1, c)
  | Some (Ok _, w1) => Some (Ok tt, (EnsureState (defaultNS env) w1).2, (Watcher_Start true c).2)
  end.
(** A service that runs has registered an initial part of its informers. *)
Lemma running_backend_watches {IL : InformerCacheLaws C} env now salt id (w w' : W) (c c' : C) :
  main_backend env now salt id w c = Some (Ok tt, w', c') ->
  exists n, n <= 3 /\ registered c' = registered c ++ take n (wanted true).
Proof using Type.
  intros H. unfold main_backend in H. destruct (start_backend _ _ _ _ _ _ _) as [[[[]|e] w1]|]; [|done|done].
  injection H as _ <-. pose proof (watcher_start true c) as Hw. destruct (Watcher_Start true c) as [[[]|e] c1]; cbn [snd].
  - exists 3. split; [lia|exact Hw].
  - destruct Hw as (n & Hn & Hr). exists n. split; [lia|exact Hr].
Qed.
End backend.

(** ** diagnostics-worker/main.go *)
Definition version : string := "0.1.0".
Definition envOr (value def : string) : string := if decide (value <> EmptyString) then value else def.
Definition envInt (value : string) (def : Z) : Z :=
  if decide (value = EmptyString) then def else match parse_int value with Some n => n | None => def end.
Record WorkerEnv := mkWorkerEnv { BACKEND_API_URL : string; LOG_TAIL_LINES : string; PREV_LOG_TAIL_LINES : string }.
Definition backendURL (env : WorkerEnv) : string := envOr (BACKEND_API_URL env) "http://kubechan-backend-api:8080".
Definition logTailLines (env : WorkerEnv) : Z := envInt (LOG_TAIL_LINES env) 200.
Definition prevLogLines (env : WorkerEnv) : Z := envInt (PREV_LOG_TAIL_LINES env) 100.

Section worker.
Context {W : Type} `{!ObjectClient W DiagnosticRunSpec DiagnosticRunStatus}
  `{!ObjectClient W IncidentSpec IncidentStatus} `{!ObjectClient W ProblemCaseSpec ProblemCaseStatus}.
Context `{!EvidenceReader W} `{!EvidenceSink W}.
Context (errText : goerr -> string) (shuffle : string -> list string -> list string)
  (range : gmap string goerr -> list (string * goerr)) (sum8 : string -> string) (graph_range : ranger)
  (marshal : Evidence -> option InvestigationGraph -> res string).
(** The reconciler as [main] builds it, behind its event filter. *)
Definition worker_reconcile (env : WorkerEnv) (ns name : string) (started now : Time) (w : W) : outcome * W :=
  Reconcile errText (backendURL env) version (logTailLines env) (prevLogLines env) shuffle range sum8 graph_range marshal
    ns name started now w.

Lemma env_int_range value def : int64_range def -> int64_range (envInt value def).
Proof using Type.
  intros Hd. unfold envInt. case_decide; [done|]. destruct (parse_int value) eqn:E; [by eapply parse_int_range|done].
Qed.
(** A negative number of lines is taken as it is, and zero too: every current log
    is then marked as truncated, whatever it holds. *)
Lemma nonpositive_tail_marks_every_log env ns pod (w : W) logs :
  (logTailLines env <= 0)%Z -> rest_config w = Ok tt -> core_clientset w = Ok tt ->
  pod_logs ns pod false (logTailLines env) w = Ok logs ->
  collectPodLogs (logTailLines env) (prevLogLines env) ns pod w = Ok (logs, true).
Proof using Type.
  intros Hn Hr Hc Hl. unfold collectPodLogs. rewrite Hr. cbn [res_bind]. rewrite Hc. cbn [res_bind]. rewrite Hl.
  unfold tail_is_full. rewrite bool_decide_true; [done|lia].
Qed.
End worker.
Example negative_tail_is_accepted : logTailLines (mkWorkerEnv EmptyString "-5" EmptyString) = (-5)%Z.
Proof. vm_compute. reflexivity. Qed.
